(** * fs/aio.c: the asynchronous I/O core

    A shallow embedding of the admission counter, the completion ring,
    context creation and teardown, cancellation and submission dispatch of
    [fs/aio.c], with the properties of its specification settled against
    it.

    Conventions.  C integers are values of [Z] and every wrap-around is
    written out: [unsigned] is reduced with [u32], [int] (and [atomic_t])
    with [s32], [long] with [to_long].  A loop of the source is a fixpoint
    over a fuel argument that answers [None] when the fuel is used up; the
    lemmas show how much fuel is enough.  Calls into other kernel
    subsystems (allocators, the VFS, user-memory copies) take their outcome
    from an explicit environment argument. *)

From Stdlib Require Import ZArith Lia Bool List.
From stdpp Require Import base option numbers list gmap.
Import ListNotations.
Local Open Scope Z_scope.

(** ** Partial results

    A computation that may use up its fuel answers in [option]; [obind]
    sequences such computations. *)

Definition obind {A B : Type} (m : option A) (f : A -> option B) : option B :=
  match m with
  | Some a => f a
  | None => None
  end.

Notation "'do' x <- m ; k" := (obind m (fun x => k))
  (at level 10, x name, m at level 100, k at level 200).
Notation "'do' ' p <- m ; k" := (obind m (fun x => let 'p := x in k))
  (at level 10, p pattern, m at level 100, k at level 200).

(** ** Machine integers *)

Definition u32 (x : Z) : Z := x mod 2 ^ 32.
Definition s32 (x : Z) : Z := (x + 2 ^ 31) mod 2 ^ 32 - 2 ^ 31.
Definition u64 (x : Z) : Z := x mod 2 ^ 64.

(** Error numbers of include/uapi/asm-generic/errno*.h and
    include/linux/errno.h, which the source uses by name. *)
Definition EINTR : Z := 4.
Definition EBADF : Z := 9.
Definition EAGAIN : Z := 11.
Definition ENOMEM : Z := 12.
Definition EFAULT : Z := 14.
Definition EINVAL : Z := 22.
Definition EINPROGRESS : Z := 115.
Definition ERESTARTSYS : Z := 512.
Definition ERESTARTNOINTR : Z := 513.
Definition ERESTARTNOHAND : Z := 514.
Definition ERESTART_RESTARTBLOCK : Z := 516.
Definition EIOCBQUEUED : Z := 529.
Definition MAX_ERRNO : Z := 4095.

(** ** Data model *)

(** [struct aio_ring]: the header at the start of the first ring page.
    Eight [unsigned] fields, so [sizeof(struct aio_ring)] is 32. *)
Record aio_ring := {
  ring_id : Z;
  ring_nr : Z;
  ring_head : Z;
  ring_tail : Z;
  ring_magic : Z;
  ring_compat_features : Z;
  ring_incompat_features : Z;
  ring_header_length : Z }.

Definition sizeof_aio_ring : Z := 32.

(** [struct io_event]: two [__u64] and two [__s64], 32 bytes. *)
Record io_event := {
  ev_obj : Z;
  ev_data : Z;
  ev_res : Z;
  ev_res2 : Z }.

Definition sizeof_io_event : Z := 32.

Definition AIO_RING_MAGIC : Z := 0xa10a10a1.
Definition AIO_RING_COMPAT_FEATURES : Z := 1.
Definition AIO_RING_COMPAT_THREADED : Z := 2.
Definition AIO_RING_INCOMPAT_FEATURES : Z := 0.
Definition AIO_RING_PAGES : Z := 8.

(** [struct percpu_ref] as far as this file uses it: the number of
    references held and whether [percpu_ref_kill] has run. *)
Record percpu_ref := {
  ref_count : Z;
  ref_dead : bool }.

Definition percpu_ref_get (r : percpu_ref) : percpu_ref :=
  {| ref_count := ref_count r + 1; ref_dead := ref_dead r |}.
Definition percpu_ref_put (r : percpu_ref) : percpu_ref :=
  {| ref_count := ref_count r - 1; ref_dead := ref_dead r |}.
Definition percpu_ref_kill (r : percpu_ref) : percpu_ref :=
  {| ref_count := ref_count r - 1; ref_dead := true |}.

(** [struct kioctx].  [cpu] is the per-CPU array of
    [kioctx_cpu.reqs_available]; [ring] is the header kept in
    [ring_pages[0]]; [ring_events] is the record storage of [ring_pages],
    addressed by page index and slot within the page. *)
Record kioctx := {
  users : percpu_ref;
  dead : Z;
  reqs : percpu_ref;
  user_id : Z;
  cpu : list Z;
  req_batch : Z;
  max_reqs : Z;
  nr_events : Z;
  mmap_base : Z;
  mmap_size : Z;
  nr_pages : Z;
  rq_wait : option Z;
  reqs_available : Z;
  tail : Z;
  completed_events : Z;
  id : Z;
  ring : aio_ring;
  ring_events : gmap (Z * Z) io_event }.

Definition set_users (v : percpu_ref) (c : kioctx) : kioctx :=
  Build_kioctx v (dead c) (reqs c) (user_id c) (cpu c) (req_batch c)
    (max_reqs c) (nr_events c) (mmap_base c) (mmap_size c) (nr_pages c)
    (rq_wait c) (reqs_available c) (tail c) (completed_events c) (id c)
    (ring c) (ring_events c).

Definition set_dead (v : Z) (c : kioctx) : kioctx :=
  Build_kioctx (users c) v (reqs c) (user_id c) (cpu c) (req_batch c)
    (max_reqs c) (nr_events c) (mmap_base c) (mmap_size c) (nr_pages c)
    (rq_wait c) (reqs_available c) (tail c) (completed_events c) (id c)
    (ring c) (ring_events c).

Definition set_reqs (v : percpu_ref) (c : kioctx) : kioctx :=
  Build_kioctx (users c) (dead c) v (user_id c) (cpu c) (req_batch c)
    (max_reqs c) (nr_events c) (mmap_base c) (mmap_size c) (nr_pages c)
    (rq_wait c) (reqs_available c) (tail c) (completed_events c) (id c)
    (ring c) (ring_events c).

Definition set_cpu (v : list Z) (c : kioctx) : kioctx :=
  Build_kioctx (users c) (dead c) (reqs c) (user_id c) v (req_batch c)
    (max_reqs c) (nr_events c) (mmap_base c) (mmap_size c) (nr_pages c)
    (rq_wait c) (reqs_available c) (tail c) (completed_events c) (id c)
    (ring c) (ring_events c).

Definition set_reqs_available (v : Z) (c : kioctx) : kioctx :=
  Build_kioctx (users c) (dead c) (reqs c) (user_id c) (cpu c) (req_batch c)
    (max_reqs c) (nr_events c) (mmap_base c) (mmap_size c) (nr_pages c)
    (rq_wait c) v (tail c) (completed_events c) (id c) (ring c) (ring_events
    c).

Definition set_tail (v : Z) (c : kioctx) : kioctx :=
  Build_kioctx (users c) (dead c) (reqs c) (user_id c) (cpu c) (req_batch c)
    (max_reqs c) (nr_events c) (mmap_base c) (mmap_size c) (nr_pages c)
    (rq_wait c) (reqs_available c) v (completed_events c) (id c) (ring c)
    (ring_events c).

Definition set_completed_events (v : Z) (c : kioctx) : kioctx :=
  Build_kioctx (users c) (dead c) (reqs c) (user_id c) (cpu c) (req_batch c)
    (max_reqs c) (nr_events c) (mmap_base c) (mmap_size c) (nr_pages c)
    (rq_wait c) (reqs_available c) (tail c) v (id c) (ring c) (ring_events
    c).

Definition set_ring (v : aio_ring) (c : kioctx) : kioctx :=
  Build_kioctx (users c) (dead c) (reqs c) (user_id c) (cpu c) (req_batch c)
    (max_reqs c) (nr_events c) (mmap_base c) (mmap_size c) (nr_pages c)
    (rq_wait c) (reqs_available c) (tail c) (completed_events c) (id c) v
    (ring_events c).

Definition set_ring_events (v : gmap (Z * Z) io_event) (c : kioctx) : kioctx :=
  Build_kioctx (users c) (dead c) (reqs c) (user_id c) (cpu c) (req_batch c)
    (max_reqs c) (nr_events c) (mmap_base c) (mmap_size c) (nr_pages c)
    (rq_wait c) (reqs_available c) (tail c) (completed_events c) (id c)
    (ring c) v.

Definition set_rq_wait (v : option Z) (c : kioctx) : kioctx :=
  Build_kioctx (users c) (dead c) (reqs c) (user_id c) (cpu c) (req_batch c)
    (max_reqs c) (nr_events c) (mmap_base c) (mmap_size c) (nr_pages c) v
    (reqs_available c) (tail c) (completed_events c) (id c) (ring c)
    (ring_events c).

Definition set_ring_head (v : Z) (r : aio_ring) : aio_ring :=
  Build_aio_ring (ring_id r) (ring_nr r) v (ring_tail r) (ring_magic r)
    (ring_compat_features r) (ring_incompat_features r)
    (ring_header_length r).

Definition set_ring_tail (v : Z) (r : aio_ring) : aio_ring :=
  Build_aio_ring (ring_id r) (ring_nr r) (ring_head r) v (ring_magic r)
    (ring_compat_features r) (ring_incompat_features r)
    (ring_header_length r).

Definition set_ring_id (v : Z) (r : aio_ring) : aio_ring :=
  Build_aio_ring v (ring_nr r) (ring_head r) (ring_tail r) (ring_magic r)
    (ring_compat_features r) (ring_incompat_features r)
    (ring_header_length r).

(** ** The admission counter *)

(** [this_cpu_ptr(ctx->cpu)->reqs_available] on CPU [k]. *)
Definition kcpu_reqs_available (k : nat) (c : kioctx) : Z :=
  default 0 (cpu c !! k).

Definition set_kcpu_reqs_available (k : nat) (v : Z) (c : kioctx) : kioctx :=
  set_cpu (<[k := v]> (cpu c)) c.

(** The slots held by the counter as a whole: the global atomic and every
    per-CPU cell. *)
Definition percpu_sum (l : list Z) : Z := foldr Z.add 0 l.

Definition reqs_total (c : kioctx) : Z :=
  reqs_available c + percpu_sum (cpu c).

(** The [while] loop of [put_reqs_available]: [local] is
    [kcpu->reqs_available], [global] is [ctx->reqs_available]. *)
Fixpoint put_loop (fuel : nat) (batch local global : Z) : option (Z * Z) :=
  if u32 (batch * 2) <=? local then
    match fuel with
    | O => None
    | S fuel' =>
        put_loop fuel' batch (u32 (local - batch)) (s32 (global + batch))
    end
  else Some (local, global).

Definition put_reqs_available (k : nat) (nr : Z) (c : kioctx) : option kioctx :=
  let local := u32 (kcpu_reqs_available k c + nr) in
  do '(local', global') <- put_loop (Z.to_nat local) (req_batch c) local
                         (reqs_available c);
  Some (set_kcpu_reqs_available k local' (set_reqs_available global' c)).

(** [atomic_cmpxchg(v, old, new)]: the new content of [*v] and the value
    returned. *)
Definition atomic_cmpxchg (v old new : Z) : Z * Z :=
  (if v =? old then new else v, v).

(** The [do ... while (avail != old)] loop of [get_reqs_available].
    [Some None] is the [goto out] exit, [Some (Some g)] the exit after a
    successful exchange that left [g] in the global counter. *)
Fixpoint get_loop (fuel : nat) (batch global avail : Z)
  : option (option Z) :=
  if u32 avail <? batch then Some None
  else
    match fuel with
    | O => None
    | S fuel' =>
        let old := avail in
        let '(global', avail') :=
          atomic_cmpxchg global avail (s32 (avail - batch)) in
        if avail' =? old then Some (Some global')
        else get_loop fuel' batch global' avail'
    end.

Definition get_reqs_available (k : nat) (c : kioctx) : option (bool * kioctx) :=
  if kcpu_reqs_available k c =? 0 then
    do r <- get_loop 1 (req_batch c) (reqs_available c) (reqs_available c);
    match r with
    | None => Some (false, c)
    | Some global' =>
        let c1 := set_reqs_available global' c in
        let c2 := set_kcpu_reqs_available k
                    (u32 (kcpu_reqs_available k c1 + req_batch c1)) c1 in
        Some (true,
              set_kcpu_reqs_available k
                (u32 (kcpu_reqs_available k c2 - 1)) c2)
    end
  else
    Some (true,
          set_kcpu_reqs_available k (u32 (kcpu_reqs_available k c - 1)) c).

(** ** Build and run-time configuration *)

(** One entry of [aio_submit_info]: the submit function (identified by a
    number; [None] for a hole of the designated initialiser) and its
    flags. *)
Record submit_info := {
  fn : option Z;
  flags : Z }.

Definition NEED_FD : Z := 0x0001.

(** What the source takes from the architecture, the configuration and the
    uapi headers: [PAGE_SHIFT], [num_possible_cpus()], [BITS_PER_LONG], the
    sysctl [aio_max_nr], [aio_may_use_threads()] and the opcode table,
    whose indices are the [IOCB_CMD_*] values. *)
Record kconfig := {
  PAGE_SHIFT : Z;
  num_possible_cpus : Z;
  BITS_PER_LONG : Z;
  aio_max_nr : Z;
  aio_may_use_threads : bool;
  aio_submit_info : list submit_info }.

Section Core.

Variable K : kconfig.

Definition PAGE_SIZE : Z := Z.shiftl 1 (PAGE_SHIFT K).
Definition PFN_UP (x : Z) : Z := Z.shiftr (x + PAGE_SIZE - 1) (PAGE_SHIFT K).

(** [unsigned long] and [long] of the configured word size. *)
Definition ulong (x : Z) : Z := x mod 2 ^ BITS_PER_LONG K.
Definition to_long (x : Z) : Z :=
  (x + 2 ^ (BITS_PER_LONG K - 1)) mod 2 ^ BITS_PER_LONG K
  - 2 ^ (BITS_PER_LONG K - 1).

Definition AIO_EVENTS_PER_PAGE : Z := PAGE_SIZE / sizeof_io_event.
Definition AIO_EVENTS_FIRST_PAGE : Z :=
  (PAGE_SIZE - sizeof_aio_ring) / sizeof_io_event.
Definition AIO_EVENTS_OFFSET : Z :=
  AIO_EVENTS_PER_PAGE - AIO_EVENTS_FIRST_PAGE.

(** ** Refilling the admission counter *)

(** [refill_reqs_available] on CPU [k].  The second component is the number
    of slots handed to [put_reqs_available] (0 when it is not called). *)
Definition refill_reqs_available (k : nat) (head tail : Z) (c : kioctx)
  : option (kioctx * Z) :=
  let head := head mod nr_events c in
  let events_in_ring :=
    if head <=? tail then u32 (tail - head)
    else u32 (nr_events c - u32 (head - tail)) in
  let completed := completed_events c in
  let completed :=
    if events_in_ring <? completed then u32 (completed - events_in_ring)
    else 0 in
  if completed =? 0 then Some (c, 0)
  else
    let c1 := set_completed_events (u32 (completed_events c - completed)) c in
    do c2 <- put_reqs_available k completed c1;
    Some (c2, completed).

Definition user_refill_reqs_available (k : nat) (c : kioctx)
  : option (kioctx * Z) :=
  if completed_events c =? 0 then Some (c, 0)
  else refill_reqs_available k (ring_head (ring c)) (tail c) c.

(** ** Request objects *)

(** The three states of [ki_cancel]: [NULL], a cancel function (identified
    by a number), or [KIOCB_CANCELLED]. *)
Inductive cancel_word :=
| CANCEL_NULL
| CANCEL_FN (f : Z)
| KIOCB_CANCELLED.

(** [struct aio_kiocb], with [common.ki_filp], [common.ki_flags] and
    [common.ki_pos] of the embedded [struct kiocb].  [ki_list_next] tells
    whether [ki_list.next] is set, that is whether the request is on
    [active_reqs]. *)
Record aio_kiocb := {
  ki_filp : option Z;
  ki_flags : Z;
  ki_pos : Z;
  ki_cancel : cancel_word;
  ki_user_iocb : Z;
  ki_user_data : Z;
  ki_list_next : bool;
  ki_eventfd : option Z }.

(** A request as [kmem_cache_alloc(..., __GFP_ZERO)] leaves it. *)
Definition zeroed_kiocb : aio_kiocb :=
  {| ki_filp := None; ki_flags := 0; ki_pos := 0; ki_cancel := CANCEL_NULL;
     ki_user_iocb := 0; ki_user_data := 0; ki_list_next := false;
     ki_eventfd := None |}.

(** [aio_get_req] on CPU [k]; [alloc_ok] is the outcome of
    [kmem_cache_alloc].  [None] in the result is the [NULL] return. *)
Definition aio_get_req (k : nat) (alloc_ok : bool) (c : kioctx)
  : option (option aio_kiocb * kioctx) :=
  do '(got, c1) <- get_reqs_available k c;
  do '(got, c2) <- (if got then Some (true, c1)
                 else
                   do '(c1', _) <- user_refill_reqs_available k c1;
                   get_reqs_available k c1');
  if got then
    if alloc_ok then
      Some (Some zeroed_kiocb, set_reqs (percpu_ref_get (reqs c2)) c2)
    else
      do c3 <- put_reqs_available k 1 c2;
      Some (None, c3)
  else Some (None, c2).

(** ** The completion ring: the producer *)

Inductive lock_name := ctx_lock | completion_lock | ring_lock | ioctx_lock.

(** The statements of [aio_complete], in program order.
    [AWakeUpIfActive] is its last but one statement,
    [if (waitqueue_active(&ctx->wait)) wake_up(&ctx->wait)]: the wait queue
    is tested on every call, and [wake_up] is called only when a reaper
    is on it. *)
Inductive action :=
| ALock (l : lock_name)
| AUnlock (l : lock_name)
| AListDel
| AWriteEvent (page slot : Z) (ev : io_event)
| AStoreCtxTail (v : Z)
| AStoreRingTail (v : Z)
| AIncCompletedEvents
| ARefill (head tail : Z)
| AEventfdSignal (e : Z)
| AKiocbFree
| AWakeUpIfActive
| ARefPutReqs.

(** [aio_complete] running on CPU [k]. *)
Definition aio_complete (k : nat) (iocb : aio_kiocb) (res res2 : Z)
  (c : kioctx) : option (kioctx * list action) :=
  let t0 :=
    if ki_list_next iocb then [ALock ctx_lock; AListDel; AUnlock ctx_lock]
    else [] in
  let tail0 := tail c in
  let pos := u32 (ulong (tail0 + AIO_EVENTS_OFFSET)) in
  let tail1 := u32 (tail0 + 1) in
  let tail1 := if nr_events c <=? tail1 then 0 else tail1 in
  let page := pos / AIO_EVENTS_PER_PAGE in
  let slot := pos mod AIO_EVENTS_PER_PAGE in
  let ev := {| ev_obj := u64 (ulong (ki_user_iocb iocb));
               ev_data := ki_user_data iocb;
               ev_res := res; ev_res2 := res2 |} in
  let c1 := set_ring_events (<[(page, slot) := ev]> (ring_events c)) c in
  let c2 := set_tail tail1 c1 in
  let head := ring_head (ring c2) in
  let c3 := set_ring (set_ring_tail tail1 (ring c2)) c2 in
  let c4 := set_completed_events (u32 (completed_events c3 + 1)) c3 in
  do '(c5, t1) <- (if 1 <? completed_events c4 then
                  do '(c', _) <- refill_reqs_available k head tail1 c4;
                  Some (c', [ARefill head tail1])
                else Some (c4, []));
  let t2 :=
    match ki_eventfd iocb with
    | Some e => [AEventfdSignal e]
    | None => []
    end in
  Some (set_reqs (percpu_ref_put (reqs c5)) c5,
        t0 ++ [ALock completion_lock; AWriteEvent page slot ev;
               AStoreCtxTail tail1; AStoreRingTail tail1;
               AIncCompletedEvents]
           ++ t1 ++ [AUnlock completion_lock]
           ++ t2 ++ [AKiocbFree; AWakeUpIfActive; ARefPutReqs]).

(** ** The completion ring: the consumer *)

(** One [copy_to_user] of [aio_read_events_ring]: [acc_n] records starting
    at slot [acc_slot] of page [acc_page]. *)
Record ring_access := {
  acc_page : Z;
  acc_slot : Z;
  acc_n : Z }.

Inductive loop_exit :=
| LoopDone (ret head : Z)
| LoopFault.

(** The [while (ret < nr)] loop.  [copies] holds the return values of the
    successive [copy_to_user] calls (0 once the list is used up). *)
Fixpoint read_loop (fuel : nat) (copies : list Z) (nr_ev nr : Z)
  (head tail ret : Z) : option (loop_exit * list ring_access) :=
  if ret <? nr then
    match fuel with
    | O => None
    | S fuel' =>
        let avail := to_long (u32 ((if head <=? tail then tail else nr_ev)
                                   - head)) in
        if head =? tail then Some (LoopDone ret head, [])
        else
          let avail := Z.min avail (to_long (nr - ret)) in
          let avail :=
            Z.min avail
              (to_long (ulong (AIO_EVENTS_PER_PAGE
                 - ulong (head + AIO_EVENTS_OFFSET) mod AIO_EVENTS_PER_PAGE)))
          in
          let pos := u32 (ulong (head + AIO_EVENTS_OFFSET)) in
          let page := pos / AIO_EVENTS_PER_PAGE in
          let pos := pos mod AIO_EVENTS_PER_PAGE in
          let a := {| acc_page := page; acc_slot := pos; acc_n := avail |} in
          if negb (List.hd 0 copies =? 0) then Some (LoopFault, [a])
          else
            let ret := to_long (ret + avail) in
            let head := u32 (head + avail) in
            let head := head mod nr_ev in
            do '(e, accs) <- read_loop fuel' (List.tl copies) nr_ev nr
                            head tail ret;
            Some (e, a :: accs)
    end
  else Some (LoopDone ret head, []).

(** [aio_read_events_ring]: the return value, the context afterwards and
    the ring accesses made. *)
Definition aio_read_events_ring (copies : list Z) (nr : Z) (c : kioctx)
  : option (Z * kioctx * list ring_access) :=
  let head := ring_head (ring c) in
  let tail := ring_tail (ring c) in
  if head =? tail then Some (0, c, [])
  else
    let head := head mod nr_events c in
    let tail := tail mod nr_events c in
    do '(e, accs) <- read_loop (Z.to_nat nr) copies (nr_events c) nr
                    head tail 0;
    match e with
    | LoopDone ret head' =>
        Some (ret, set_ring (set_ring_head head' (ring c)) c, accs)
    | LoopFault => Some (- EFAULT, c, accs)
    end.

(** ** Submission *)

(** [struct iocb] of include/uapi/linux/aio_abi.h. *)
Record iocb := {
  aio_data : Z;
  aio_key : Z;
  aio_reserved1 : Z;
  aio_lio_opcode : Z;
  aio_reqprio : Z;
  aio_fildes : Z;
  aio_buf : Z;
  aio_nbytes : Z;
  aio_offset : Z;
  aio_reserved2 : Z;
  aio_flags : Z;
  aio_resfd : Z }.

Definition IOCB_FLAG_RESFD : Z := 1.
Definition IOCB_EVENTFD : Z := Z.shiftl 1 16.
Definition KIOCB_KEY : Z := 0.

(** [IS_ERR_VALUE] of include/linux/err.h. *)
Definition IS_ERR_VALUE (x : Z) : bool := ulong (- MAX_ERRNO) <=? ulong x.

(** What the rest of the kernel answers during one [io_submit_one]: the CPU
    the task runs on, whether [kmem_cache_alloc] delivers a request, the
    file [fget] finds, [iocb_flags] of that file, the pointer
    [eventfd_ctx_fdget] returns (an [ERR_PTR] when [IS_ERR_VALUE]), the
    return value of [put_user], and the return value of the opcode's submit
    function. *)
Record submit_env := {
  e_cpu : nat;
  e_alloc_req : bool;
  e_fget : option Z;
  e_iocb_flags : Z;
  e_eventfd : Z;
  e_put_user : Z;
  e_fn : Z }.

(** The [out_put_req] exit of [io_submit_one]. *)
Definition out_put_req (k : nat) (ret : Z) (c : kioctx)
  : option (Z * kioctx) :=
  do c1 <- put_reqs_available k 1 c;
  Some (s32 ret, set_reqs (percpu_ref_put (reqs c1)) c1).

Definition is_restart (ret : Z) : bool :=
  (ret =? - ERESTARTSYS) || (ret =? - ERESTARTNOINTR)
  || (ret =? - ERESTARTNOHAND) || (ret =? - ERESTART_RESTARTBLOCK).

(** [io_submit_one]: the return value and the context afterwards.  The
    bound check on [aio_lio_opcode] and the indexing of [aio_submit_info]
    are the one lookup. *)
Definition io_submit_one (e : submit_env) (user_iocb : Z) (i : iocb)
  (compat : bool) (c : kioctx) : option (Z * kioctx) :=
  if negb (aio_reserved1 i =? 0) || negb (aio_reserved2 i =? 0) then
    Some (- EINVAL, c)
  else if negb (aio_buf i =? ulong (aio_buf i))
          || negb (aio_nbytes i =? ulong (aio_nbytes i))
          || (to_long (aio_nbytes i) <? 0) then
    Some (- EINVAL, c)
  else
    match aio_submit_info K !! Z.to_nat (aio_lio_opcode i) with
    | None => Some (- EINVAL, c)
    | Some info =>
        match fn info with
        | None => Some (- EINVAL, c)
        | Some _ =>
            do '(r, c1) <- aio_get_req (e_cpu e) (e_alloc_req e) c;
            match r with
            | None => Some (- EAGAIN, c1)
            | Some req =>
                let need_fd := negb (Z.land (flags info) NEED_FD =? 0) in
                if need_fd && negb (bool_decide (is_Some (e_fget e))) then
                  out_put_req (e_cpu e) (- EBADF) c1
                else
                  let filp := if need_fd then e_fget e else ki_filp req in
                  let kflags :=
                    if need_fd then e_iocb_flags e else ki_flags req in
                  let resfd :=
                    negb (Z.land (aio_flags i) IOCB_FLAG_RESFD =? 0) in
                  if resfd && IS_ERR_VALUE (e_eventfd e) then
                    out_put_req (e_cpu e) (to_long (e_eventfd e)) c1
                  else
                    let eventfd :=
                      if resfd then Some (e_eventfd e) else ki_eventfd req in
                    let kflags :=
                      if resfd then Z.lor kflags IOCB_EVENTFD else kflags in
                    if negb (e_put_user e =? 0) then
                      out_put_req (e_cpu e) (e_put_user e) c1
                    else
                      let req' :=
                        {| ki_filp := filp; ki_flags := kflags;
                           ki_pos := aio_offset i;
                           ki_cancel := ki_cancel req;
                           ki_user_iocb := user_iocb;
                           ki_user_data := aio_data i;
                           ki_list_next := ki_list_next req;
                           ki_eventfd := eventfd |} in
                      let ret := e_fn e in
                      if ret =? - EIOCBQUEUED then Some (0, c1)
                      else if is_restart ret then
                        do '(c2, _) <- aio_complete (e_cpu e) req' (- EINTR) 0 c1;
                        Some (0, c2)
                      else if IS_ERR_VALUE ret then
                        out_put_req (e_cpu e) ret c1
                      else
                        do '(c2, _) <- aio_complete (e_cpu e) req' ret 0 c1;
                        Some (0, c2)
            end
        end
    end.

(** ** The context registry *)

(** [struct kioctx_table] ([nr] is the length of the list) and the part of
    [struct mm_struct] that holds it.  A slot holds the context it points
    to. *)
Record mm_struct := {
  ioctx_table : option (list (option kioctx)) }.

(** [lookup_ioctx]: [ring_id_read] is what [get_user(id, &ring->id)]
    delivers, [None] when it faults.  The result is the slot index and the
    context, with the reference on [users] taken. *)
Definition lookup_ioctx (ring_id_read : option Z) (ctx_id : Z)
  (mm : mm_struct) : option (nat * kioctx) :=
  match ring_id_read with
  | None => None
  | Some id =>
      match ioctx_table mm with
      | None => None
      | Some table =>
          if Z.of_nat (length table) <=? id then None
          else
            match table !! Z.to_nat id with
            | Some (Some ctx) =>
                if user_id ctx =? ctx_id then
                  Some (Z.to_nat id,
                        set_users (percpu_ref_get (users ctx)) ctx)
                else None
            | _ => None
            end
      end
  end.

(** Writing a context back into its slot. *)
Definition store_ioctx (slot : nat) (c : kioctx) (mm : mm_struct)
  : mm_struct :=
  {| ioctx_table := (fun t => <[slot := Some c]> t) <$> ioctx_table mm |}.

(** ** Batch submission *)

(** Entry [i] of the user's array as one pass of the loop of
    [do_io_submit] meets it: the pointer [__get_user] reads ([None] when it
    faults), the descriptor [copy_from_user] reads ([None] when it faults)
    and the environment of the [io_submit_one] call. *)
Record user_slot := {
  us_ptr : option Z;
  us_iocb : option iocb;
  us_env : submit_env }.

(** One pass of the loop body: the value of [ret] it leaves and the
    context. *)
Definition submit_slot (s : option user_slot) (compat : bool) (c : kioctx)
  : option (Z * kioctx) :=
  match s with
  | None => Some (- EFAULT, c)
  | Some s =>
      match us_ptr s with
      | None => Some (- EFAULT, c)
      | Some user_iocb =>
          match us_iocb s with
          | None => Some (- EFAULT, c)
          | Some tmp => io_submit_one (us_env s) user_iocb tmp compat c
          end
      end
  end.

(** The [for (i = 0; i < nr; i++)] loop: the final [i], [ret] and
    context. *)
Fixpoint submit_loop (fuel : nat) (slots : list user_slot) (compat : bool)
  (nr i ret : Z) (c : kioctx) : option (Z * Z * kioctx) :=
  if i <? nr then
    match fuel with
    | O => None
    | S fuel' =>
        do '(ret', c') <- submit_slot (slots !! Z.to_nat i) compat c;
        if negb (ret' =? 0) then Some (i, ret', c')
        else submit_loop fuel' slots compat nr (s32 (i + 1)) ret' c'
    end
  else Some (i, ret, c).

Definition LONG_MAX : Z := 2 ^ (BITS_PER_LONG K - 1) - 1.
Definition sizeof_ptr : Z := BITS_PER_LONG K / 8.

(** [do_io_submit].  [access_ok] is the outcome of the check on the user
    array, [ring_id_read] what [lookup_ioctx] reads from the ring. *)
Definition do_io_submit (access_ok : bool) (ring_id_read : option Z)
  (ctx_id nr : Z) (slots : list user_slot) (compat : bool) (mm : mm_struct)
  : option (Z * mm_struct) :=
  if nr <? 0 then Some (- EINVAL, mm)
  else
    let nr := if LONG_MAX / sizeof_ptr <? nr then LONG_MAX / sizeof_ptr
              else nr in
    if negb access_ok then Some (- EFAULT, mm)
    else
      match lookup_ioctx ring_id_read ctx_id mm with
      | None => Some (- EINVAL, mm)
      | Some (slot, ctx) =>
          do '(i, ret, ctx') <- submit_loop (Z.to_nat nr) slots compat nr 0 0 ctx;
          let ctx'' := set_users (percpu_ref_put (users ctx')) ctx' in
          Some (if negb (i =? 0) then i else ret, store_ioctx slot ctx'' mm)
      end.

(** ** Context creation *)

(** What the allocators answer during one [ioctx_alloc]: whether
    [kmem_cache_zalloc], the two [percpu_ref_init], [alloc_percpu],
    [aio_private_file] and the [kcalloc] of [ring_pages] succeed, whether
    [find_or_create_page] delivers page [i], the value of [do_mmap_pgoff]
    (an [ERR_PTR] when [IS_ERR_VALUE]) and the outcomes of the successive
    [kzalloc] calls of [ioctx_add_table]. *)
Record alloc_env := {
  a_kioctx : bool;
  a_users_init : bool;
  a_reqs_init : bool;
  a_percpu : bool;
  a_ring_file : bool;
  a_ring_pages : bool;
  a_find_page : Z -> bool;
  a_mmap : Z;
  a_kzalloc : list bool }.

(** The page loop of [aio_setup_ring]: the value of [i] when it ends. *)
Fixpoint setup_pages (fuel : nat) (find_page : Z -> bool) (nr_pages i : Z)
  : option Z :=
  if i <? nr_pages then
    match fuel with
    | O => None
    | S fuel' =>
        if find_page i then setup_pages fuel' find_page nr_pages (s32 (i + 1))
        else Some i
    end
  else Some i.

(** [aio_setup_ring]: the return value and the context with the fields
    written so far. *)
Definition aio_setup_ring (a : alloc_env) (c : kioctx)
  : option (Z * kioctx) :=
  let nr_ev := max_reqs c in
  let nr_ev := u32 (nr_ev + 2) in
  let size := sizeof_aio_ring in
  let size := ulong (size + ulong (sizeof_io_event * nr_ev)) in
  let npages := s32 (PFN_UP size) in
  if npages <? 0 then Some (- EINVAL, c)
  else if negb (a_ring_file a) then Some (- ENOMEM, c)
  else
    let nr_ev :=
      u32 (ulong (ulong (PAGE_SIZE * npages) - sizeof_aio_ring)
           / sizeof_io_event) in
    if (AIO_RING_PAGES <? npages) && negb (a_ring_pages a) then
      Some (- ENOMEM, c)
    else
      do i <- setup_pages (Z.to_nat npages) (a_find_page a) npages 0;
      let c1 :=
        Build_kioctx (users c) (dead c) (reqs c) (user_id c) (cpu c)
          (req_batch c) (max_reqs c) (nr_events c) (mmap_base c)
          (mmap_size c) i (rq_wait c) (reqs_available c) (tail c)
          (completed_events c) (id c) (ring c) (ring_events c) in
      if negb (i =? npages) then Some (- ENOMEM, c1)
      else
        let msize := ulong (npages * PAGE_SIZE) in
        let mbase := a_mmap a in
        if IS_ERR_VALUE mbase then Some (- ENOMEM, c1)
        else
          let r :=
            {| ring_id := u32 (-1);
               ring_nr := nr_ev;
               ring_head := 0;
               ring_tail := 0;
               ring_magic := AIO_RING_MAGIC;
               ring_compat_features :=
                 if aio_may_use_threads K then
                   Z.lor AIO_RING_COMPAT_FEATURES AIO_RING_COMPAT_THREADED
                 else AIO_RING_COMPAT_FEATURES;
               ring_incompat_features := AIO_RING_INCOMPAT_FEATURES;
               ring_header_length := sizeof_aio_ring |} in
          Some (0,
                Build_kioctx (users c1) (dead c1) (reqs c1) mbase
                  (cpu c1) (req_batch c1) (max_reqs c1) nr_ev mbase
                  msize (nr_pages c1) (rq_wait c1) (reqs_available c1)
                  (tail c1) (completed_events c1) (id c1) r
                  (ring_events c1)).

(** The first empty slot of a table, scanning from index [i]. *)
Fixpoint find_free (t : list (option kioctx)) (i : nat) : option nat :=
  match t with
  | [] => None
  | None :: _ => Some i
  | Some _ :: t' => find_free t' (S i)
  end.

Definition set_id (v : Z) (c : kioctx) : kioctx :=
  Build_kioctx (users c) (dead c) (reqs c) (user_id c) (cpu c) (req_batch c)
    (max_reqs c) (nr_events c) (mmap_base c) (mmap_size c) (nr_pages c)
    (rq_wait c) (reqs_available c) (tail c) (completed_events c) v
    (set_ring_id v (ring c)) (ring_events c).

(** [ioctx_add_table]: the [while (1)] loop.  The local [table] is always
    the table of [mm] when the scan starts, so the loop is over [mm]
    alone. *)
Fixpoint ioctx_add_table (fuel : nat) (kz : list bool) (c : kioctx)
  (mm : mm_struct) : option (Z * kioctx * mm_struct) :=
  match fuel with
  | O => None
  | S fuel' =>
      match ioctx_table mm ≫= (fun t => (fun i => (t, i)) <$> find_free t 0) with
      | Some (t, i) =>
          let c' := set_id (Z.of_nat i) c in
          Some (0, c', {| ioctx_table := Some (<[i := Some c']> t) |})
      | None =>
          let old_nr :=
            match ioctx_table mm with
            | Some t => Z.of_nat (length t)
            | None => 1
            end in
          let new_nr := u32 (old_nr * 4) in
          if negb (List.hd true kz) then Some (- ENOMEM, c, mm)
          else
            let mm' :=
              match ioctx_table mm with
              | None =>
                  {| ioctx_table := Some (replicate (Z.to_nat new_nr) None) |}
              | Some old =>
                  if Z.of_nat (length old) <? new_nr then
                    {| ioctx_table :=
                         Some (old ++ replicate
                                 (Z.to_nat new_nr - length old)%nat None) |}
                  else mm
              end in
            ioctx_add_table fuel' (List.tl kz) c mm'
      end
  end.

(** [aio_nr_sub]: the new value of [aio_nr]. *)
Definition aio_nr_sub (nr aio_nr : Z) : Z :=
  if aio_nr <? ulong (aio_nr - nr) then 0 else ulong (aio_nr - nr).

(** [ioctx_alloc]: [inl err] for [ERR_PTR(err)] or [inr ctx], with
    [aio_nr] and the registry afterwards. *)
Definition ioctx_alloc (a : alloc_env) (nr_ev : Z) (aio_nr : Z)
  (mm : mm_struct) : option ((Z + kioctx) * Z * mm_struct) :=
  let nr_ev := Z.max nr_ev (u32 (num_possible_cpus K * 4)) in
  let nr_ev := u32 (nr_ev * 2) in
  if 0x10000000 / sizeof_io_event <? nr_ev then
    Some (inl (- EINVAL), aio_nr, mm)
  else if (nr_ev =? 0) || (ulong (aio_max_nr K * 2) <? ulong nr_ev)
  then Some (inl (- EAGAIN), aio_nr, mm)
  else if negb (a_kioctx a) then Some (inl (- ENOMEM), aio_nr, mm)
  else if negb (a_users_init a) then Some (inl (- ENOMEM), aio_nr, mm)
  else if negb (a_reqs_init a) then Some (inl (- ENOMEM), aio_nr, mm)
  else if negb (a_percpu a) then Some (inl (- ENOMEM), aio_nr, mm)
  else
    let c0 :=
      {| users := {| ref_count := 1; ref_dead := false |};
         dead := 0;
         reqs := {| ref_count := 1; ref_dead := false |};
         user_id := 0;
         cpu := replicate (Z.to_nat (num_possible_cpus K)) 0;
         req_batch := 0;
         max_reqs := nr_ev;
         nr_events := 0;
         mmap_base := 0;
         mmap_size := 0;
         nr_pages := 0;
         rq_wait := None;
         reqs_available := 0;
         tail := 0;
         completed_events := 0;
         id := 0;
         ring := Build_aio_ring 0 0 0 0 0 0 0 0;
         ring_events := ∅ |} in
    do '(err, c1) <- aio_setup_ring a c0;
    if err <? 0 then Some (inl err, aio_nr, mm)
    else
      let c2 := set_reqs_available (s32 (u32 (nr_events c1 - 1))) c1 in
      let batch :=
        u32 (nr_events c2 - 1) / u32 (num_possible_cpus K * 4) in
      let batch := if batch <? 1 then 1 else batch in
      let c3 :=
        Build_kioctx (users c2) (dead c2) (reqs c2) (user_id c2) (cpu c2)
          batch (max_reqs c2) (nr_events c2) (mmap_base c2)
          (mmap_size c2) (nr_pages c2) (rq_wait c2) (reqs_available c2)
          (tail c2) (completed_events c2) (id c2) (ring c2)
          (ring_events c2) in
      if (ulong (aio_max_nr K * 2) <? ulong (aio_nr + nr_ev))
         || (ulong (aio_nr + nr_ev) <? aio_nr)
      then Some (inl (- EAGAIN), aio_nr, mm)
      else
        let aio_nr1 := ulong (aio_nr + max_reqs c3) in
        let c4 := set_users (percpu_ref_get (users c3)) c3 in
        let c5 := set_reqs (percpu_ref_get (reqs c4)) c4 in
        do '(err, c6, mm') <- ioctx_add_table 2 (a_kzalloc a) c5 mm;
        if negb (err =? 0) then
          Some (inl err, aio_nr_sub (max_reqs c5) aio_nr1, mm')
        else Some (inr c6, aio_nr1, mm').

(** ** Context teardown *)

(** The teardown steps of [kill_ioctx], in program order. *)
Inductive teardown :=
| TTableClear (slot : Z)
| TWakeUpAll
| TAioNrSub (nr : Z)
| TMunmap (base size : Z)
| TSetRqWait (wait : option Z)
| TKillUsers.

(** The state [kill_ioctx] works on: the context, the registry of the
    process and the system-wide [aio_nr]. *)
Record kill_state := {
  k_ctx : kioctx;
  k_mm : mm_struct;
  k_aio_nr : Z }.

(** [atomic_xchg(v, new)]: the new content of [*v] and the value
    returned. *)
Definition atomic_xchg (v new : Z) : Z * Z := (new, v).

Definition table_clear (slot : nat) (mm : mm_struct) : mm_struct :=
  {| ioctx_table := (fun t => <[slot := None]> t) <$> ioctx_table mm |}.

(** [kill_ioctx]: the return value, the state afterwards and the teardown
    steps performed. *)
Definition kill_ioctx (wait : option Z) (s : kill_state)
  : Z * kill_state * list teardown :=
  let c := k_ctx s in
  let '(dead', old) := atomic_xchg (dead c) 1 in
  let c1 := set_dead dead' c in
  if negb (old =? 0) then
    (- EINVAL, {| k_ctx := c1; k_mm := k_mm s; k_aio_nr := k_aio_nr s |}, [])
  else
    let mm1 := table_clear (Z.to_nat (id c1)) (k_mm s) in
    let aio_nr1 := aio_nr_sub (max_reqs c1) (k_aio_nr s) in
    let unmap :=
      if negb (mmap_size c1 =? 0) then [TMunmap (mmap_base c1) (mmap_size c1)]
      else [] in
    let c2 := set_rq_wait wait c1 in
    let c3 := set_users (percpu_ref_kill (users c2)) c2 in
    (0, {| k_ctx := c3; k_mm := mm1; k_aio_nr := aio_nr1 |},
     [TTableClear (id c1); TWakeUpAll; TAioNrSub (max_reqs c1)]
       ++ unmap ++ [TSetRqWait wait; TKillUsers]).

(** Callers of [kill_ioctx] on one context, one after the other: the
    return values and the teardown steps of all of them. *)
Fixpoint kill_calls (waits : list (option Z)) (s : kill_state)
  : list Z * kill_state * list teardown :=
  match waits with
  | [] => ([], s, [])
  | w :: waits' =>
      let '(r, s1, t1) := kill_ioctx w s in
      let '(rs, s2, t2) := kill_calls waits' s1 in
      (r :: rs, s2, t1 ++ t2)
  end.

(** *** Concurrent callers

    Callers of [kill_ioctx] on one context run interleaved, one statement
    at a time.  [KLock] is before [spin_lock], [KXchg] before
    [atomic_xchg], [KFail] before the unlock of the failure branch; the
    others are before the statement they are named after. *)
Inductive kill_pc :=
| KLock
| KXchg
| KFail
| KTableClear
| KUnlock
| KWakeUp
| KAioNrSub
| KMunmap
| KSetRqWait
| KKillUsers
| KDone (ret : Z).

(** The shared state with the holder of [mm->ioctx_lock], the program
    counters of the callers and the log of teardown steps, each with the
    caller that made it. *)
Record kill_world := {
  kw_state : kill_state;
  kw_lock : option nat;
  kw_pcs : list kill_pc;
  kw_log : list (nat * teardown) }.

Definition kw_update (w : kill_world) (t : nat) (pc : kill_pc)
  (s : kill_state) (lock : option nat) (log : list (nat * teardown))
  : kill_world :=
  {| kw_state := s; kw_lock := lock;
     kw_pcs := <[t := pc]> (kw_pcs w); kw_log := kw_log w ++ log |}.

Definition with_ctx (c : kioctx) (s : kill_state) : kill_state :=
  {| k_ctx := c; k_mm := k_mm s; k_aio_nr := k_aio_nr s |}.

(** One statement of caller [t], whose argument [wait] is [waits t]. *)
Inductive kill_step (waits : nat -> option Z) : kill_world -> kill_world -> Prop :=
| kstep_lock w t :
    kw_pcs w !! t = Some KLock -> kw_lock w = None ->
    kill_step waits w (kw_update w t KXchg (kw_state w) (Some t) [])
| kstep_xchg w t :
    kw_pcs w !! t = Some KXchg ->
    kill_step waits w
      (kw_update w t
         (if negb (snd (atomic_xchg (dead (k_ctx (kw_state w))) 1) =? 0)
          then KFail else KTableClear)
         (with_ctx (set_dead (fst (atomic_xchg (dead (k_ctx (kw_state w))) 1))
                      (k_ctx (kw_state w))) (kw_state w))
         (kw_lock w) [])
| kstep_fail w t :
    kw_pcs w !! t = Some KFail ->
    kill_step waits w (kw_update w t (KDone (- EINVAL)) (kw_state w) None [])
| kstep_table_clear w t :
    kw_pcs w !! t = Some KTableClear ->
    kill_step waits w
      (kw_update w t KUnlock
         {| k_ctx := k_ctx (kw_state w);
            k_mm := table_clear (Z.to_nat (id (k_ctx (kw_state w))))
                      (k_mm (kw_state w));
            k_aio_nr := k_aio_nr (kw_state w) |}
         (kw_lock w) [(t, TTableClear (id (k_ctx (kw_state w))))])
| kstep_unlock w t :
    kw_pcs w !! t = Some KUnlock ->
    kill_step waits w (kw_update w t KWakeUp (kw_state w) None [])
| kstep_wake_up w t :
    kw_pcs w !! t = Some KWakeUp ->
    kill_step waits w
      (kw_update w t KAioNrSub (kw_state w) (kw_lock w) [(t, TWakeUpAll)])
| kstep_aio_nr_sub w t :
    kw_pcs w !! t = Some KAioNrSub ->
    kill_step waits w
      (kw_update w t KMunmap
         {| k_ctx := k_ctx (kw_state w);
            k_mm := k_mm (kw_state w);
            k_aio_nr := aio_nr_sub (max_reqs (k_ctx (kw_state w)))
                          (k_aio_nr (kw_state w)) |}
         (kw_lock w) [(t, TAioNrSub (max_reqs (k_ctx (kw_state w))))])
| kstep_munmap w t :
    kw_pcs w !! t = Some KMunmap ->
    kill_step waits w
      (kw_update w t KSetRqWait (kw_state w) (kw_lock w)
         (if negb (mmap_size (k_ctx (kw_state w)) =? 0) then
            [(t, TMunmap (mmap_base (k_ctx (kw_state w)))
                   (mmap_size (k_ctx (kw_state w))))]
          else []))
| kstep_set_rq_wait w t :
    kw_pcs w !! t = Some KSetRqWait ->
    kill_step waits w
      (kw_update w t KKillUsers
         (with_ctx (set_rq_wait (waits t) (k_ctx (kw_state w))) (kw_state w))
         (kw_lock w) [(t, TSetRqWait (waits t))])
| kstep_kill_users w t :
    kw_pcs w !! t = Some KKillUsers ->
    kill_step waits w
      (kw_update w t (KDone 0)
         (with_ctx (set_users (percpu_ref_kill (users (k_ctx (kw_state w))))
                      (k_ctx (kw_state w))) (kw_state w))
         (kw_lock w) [(t, TKillUsers)]).

(** [n] callers about to enter [kill_ioctx] on the state [s]. *)
Definition kill_init (n : nat) (s : kill_state) : kill_world :=
  {| kw_state := s; kw_lock := None; kw_pcs := replicate n KLock;
     kw_log := [] |}.

(** ** Cancellation *)

(** [cmpxchg(&kiocb->ki_cancel, old, new)]: the new content of the word
    and the value returned. *)
Definition cancel_word_eqb (a b : cancel_word) : bool :=
  match a, b with
  | CANCEL_NULL, CANCEL_NULL => true
  | CANCEL_FN f, CANCEL_FN g => f =? g
  | KIOCB_CANCELLED, KIOCB_CANCELLED => true
  | _, _ => false
  end.

Definition cmpxchg (v old new : cancel_word) : cancel_word * cancel_word :=
  (if cancel_word_eqb v old then new else v, v).

(** The [do ... while (cancel != old)] loop of [kiocb_cancel]: the word
    afterwards and, when the exchange went through, the function that was
    installed. *)
Fixpoint cancel_loop (fuel : nat) (word cancel : cancel_word)
  : option (cancel_word * option Z) :=
  match cancel with
  | CANCEL_NULL | KIOCB_CANCELLED => Some (word, None)
  | CANCEL_FN f =>
      match fuel with
      | O => None
      | S fuel' =>
          let old := cancel in
          let '(word', cancel') := cmpxchg word old KIOCB_CANCELLED in
          if cancel_word_eqb cancel' old then Some (word', Some f)
          else cancel_loop fuel' word' cancel'
      end
  end.

(** [kiocb_cancel]: the request afterwards, the return value and the
    cancel functions invoked.  [run_cancel f] is what the cancel function
    [f] returns for this request. *)
Definition set_ki_cancel (v : cancel_word) (r : aio_kiocb) : aio_kiocb :=
  {| ki_filp := ki_filp r; ki_flags := ki_flags r; ki_pos := ki_pos r;
     ki_cancel := v; ki_user_iocb := ki_user_iocb r;
     ki_user_data := ki_user_data r; ki_list_next := ki_list_next r;
     ki_eventfd := ki_eventfd r |}.

Definition kiocb_cancel (run_cancel : Z -> Z) (kiocb : aio_kiocb)
  : option (aio_kiocb * Z * list Z) :=
  do '(word, called) <- cancel_loop 1 (ki_cancel kiocb) (ki_cancel kiocb);
  match called with
  | None => Some (set_ki_cancel word kiocb, - EINVAL, [])
  | Some f => Some (set_ki_cancel word kiocb, s32 (run_cancel f), [f])
  end.

(** The two cancel functions of this file: what
    [aio_thread_queue_iocb_cancel_early] returns, and what
    [aio_thread_queue_iocb_cancel] returns for a request whose
    [ki_cancel_task] is as given. *)
Definition aio_thread_queue_iocb_cancel_early : Z := 0.

Definition aio_thread_queue_iocb_cancel (ki_cancel_task : option Z) : Z :=
  match ki_cancel_task with
  | Some _ => 0
  | None => - EAGAIN
  end.

(** *** Concurrent callers

    Callers of [kiocb_cancel] on one request run interleaved, one access
    to [ki_cancel] at a time, together with a worker thread that switches
    the installed function from the early to the late stage as
    [aio_thread_fn] does. *)
Inductive cancel_pc :=
| CLoad
| CCheck (cancel : cancel_word)
| CCall (f : Z)
| CDone (ret : Z).

Record cancel_world := {
  cw_word : cancel_word;
  cw_pcs : list cancel_pc;
  cw_calls : list (nat * Z) }.

Inductive cancel_step (run_cancel : Z -> Z) (early late : Z)
  : cancel_world -> cancel_world -> Prop :=
| cstep_load w t :
    cw_pcs w !! t = Some CLoad ->
    cancel_step run_cancel early late w
      {| cw_word := cw_word w;
         cw_pcs := <[t := CCheck (cw_word w)]> (cw_pcs w);
         cw_calls := cw_calls w |}
| cstep_fail w t cancel :
    cw_pcs w !! t = Some (CCheck cancel) ->
    cancel = CANCEL_NULL \/ cancel = KIOCB_CANCELLED ->
    cancel_step run_cancel early late w
      {| cw_word := cw_word w;
         cw_pcs := <[t := CDone (- EINVAL)]> (cw_pcs w);
         cw_calls := cw_calls w |}
| cstep_cmpxchg w t f :
    cw_pcs w !! t = Some (CCheck (CANCEL_FN f)) ->
    cancel_step run_cancel early late w
      {| cw_word := fst (cmpxchg (cw_word w) (CANCEL_FN f) KIOCB_CANCELLED);
         cw_pcs :=
           <[t := if cancel_word_eqb
                       (snd (cmpxchg (cw_word w) (CANCEL_FN f)
                               KIOCB_CANCELLED)) (CANCEL_FN f)
                  then CCall f
                  else CCheck (snd (cmpxchg (cw_word w) (CANCEL_FN f)
                                      KIOCB_CANCELLED))]> (cw_pcs w);
         cw_calls := cw_calls w |}
| cstep_call w t f :
    cw_pcs w !! t = Some (CCall f) ->
    cancel_step run_cancel early late w
      {| cw_word := cw_word w;
         cw_pcs := <[t := CDone (s32 (run_cancel f))]> (cw_pcs w);
         cw_calls := cw_calls w ++ [(t, f)] |}
| cstep_worker w :
    cancel_step run_cancel early late w
      {| cw_word := fst (cmpxchg (cw_word w) (CANCEL_FN early)
                           (CANCEL_FN late));
         cw_pcs := cw_pcs w;
         cw_calls := cw_calls w |}.

Definition cancel_init (n : nat) (word : cancel_word) : cancel_world :=
  {| cw_word := word; cw_pcs := replicate n CLoad; cw_calls := [] |}.

(** ** Well-formed states *)

(** The configurations the kernel is built for: pages of at least 64
    bytes, at least one CPU, a word of 32 or 64 bits. *)
Definition config_ok : bool :=
  (6 <=? PAGE_SHIFT K) && (PAGE_SHIFT K <=? 24)
  && (1 <=? num_possible_cpus K) && (num_possible_cpus K <? 2 ^ 16)
  && ((BITS_PER_LONG K =? 32) || (BITS_PER_LONG K =? 64)).

(** The counters of a context in use: a batch size of at least one, no
    negative counter, and their sum within the range of [int]. *)
Definition counters_ok (c : kioctx) : bool :=
  (1 <=? req_batch c) && (req_batch c <? 2 ^ 30)
  && (0 <=? reqs_available c)
  && forallb (fun x => 0 <=? x) (cpu c)
  && (0 <=? completed_events c)
  && (reqs_total c + completed_events c <? 2 ^ 31).

(** The ring as [aio_setup_ring] lays it out: [nr_events] records in
    [nr_pages] pages, the first shortened by the header, and the kernel's
    [tail] inside the ring. *)
Definition ring_ok (c : kioctx) : bool :=
  (1 <=? nr_pages c) && (nr_pages c <? 2 ^ 23)
  && (nr_events c =? (PAGE_SIZE * nr_pages c - sizeof_aio_ring)
                       / sizeof_io_event)
  && (nr_events c <? 2 ^ 31)
  && (0 <=? tail c) && (tail c <? nr_events c).

(** A registry as [ioctx_add_table] builds it: absent, or a table of at
    least one and fewer than 2^30 slots. *)
Definition table_ok (mm : mm_struct) : bool :=
  match ioctx_table mm with
  | None => true
  | Some t => (0 <? Z.of_nat (length t)) && (Z.of_nat (length t) <? 2 ^ 30)
  end.

(** ** Readings of the specification *)

(** The reading of [put_reqs_available] by which a batch goes to the global
    counter only when the cell of the CPU holds strictly more than two
    batches. *)
Definition flushes_only_above_two_batches (k : nat) (nr : Z) (c : kioctx)
  : Prop :=
  forall c', put_reqs_available k nr c = Some c' ->
    reqs_available c' <> reqs_available c ->
    2 * req_batch c < kcpu_reqs_available k c + nr.

(** A ring access stays inside the ring: it is within one page that the
    ring owns, and the records it covers, numbered from the first record
    after the header, are below [nr_events]. *)
Definition access_in_ring (c : kioctx) (a : ring_access) : Prop :=
  let first := acc_page a * AIO_EVENTS_PER_PAGE + acc_slot a
               - AIO_EVENTS_OFFSET in
  0 <= acc_page a < nr_pages c /\
  0 <= acc_slot a /\ 1 <= acc_n a /\
  acc_slot a + acc_n a <= AIO_EVENTS_PER_PAGE /\
  0 <= first /\ first + acc_n a <= nr_events c.

(** The context with the value [h] written to the [head] field of the
    ring header, as userspace can do at any time. *)
Definition write_ring_head (h : Z) (c : kioctx) : kioctx :=
  set_ring (set_ring_head h (ring c)) c.

(** What submission, completion and reaping leave alone in a context: all
    but the counters, the request references and the ring content. *)
Definition frame (c c' : kioctx) : Prop :=
  users c' = users c /\ dead c' = dead c /\ user_id c' = user_id c /\
  req_batch c' = req_batch c /\ max_reqs c' = max_reqs c /\
  nr_events c' = nr_events c /\ mmap_base c' = mmap_base c /\
  mmap_size c' = mmap_size c /\ nr_pages c' = nr_pages c /\
  rq_wait c' = rq_wait c /\ id c' = id c /\
  length (cpu c') = length (cpu c).

(** The ring is as before: the kernel's [tail], the header and the
    records. *)
Definition same_ring (c c' : kioctx) : Prop :=
  tail c' = tail c /\ ring c' = ring c /\ ring_events c' = ring_events c.

(** The actions of [aio_complete] that the source performs under
    [completion_lock]. *)
Definition needs_completion_lock (a : action) : bool :=
  match a with
  | AWriteEvent _ _ _ | AStoreCtxTail _ | AStoreRingTail _
  | AIncCompletedEvents | ARefill _ _ => true
  | _ => false
  end.

(** A trace keeps the lock discipline when [completion_lock] is taken only
    while free, released only while held, free at the end, and held at
    every action that needs it.  [held] tells whether the lock is held
    when the trace starts. *)
Fixpoint lock_discipline (held : bool) (tr : list action) : bool :=
  match tr with
  | [] => negb held
  | ALock completion_lock :: tr' => negb held && lock_discipline true tr'
  | AUnlock completion_lock :: tr' => held && lock_discipline false tr'
  | a :: tr' =>
      (if needs_completion_lock a then held else true)
      && lock_discipline held tr'
  end.

(** The reading of [kiocb_cancel] by which [-EINVAL] is returned exactly
    when [ki_cancel] was [NULL] or [KIOCB_CANCELLED] before the exchange. *)
Definition einval_exactly_when_not_installed (run_cancel : Z -> Z)
  (kiocb : aio_kiocb) : Prop :=
  forall kiocb' ret calls,
    kiocb_cancel run_cancel kiocb = Some (kiocb', ret, calls) ->
    (ret = - EINVAL <->
     ki_cancel kiocb = CANCEL_NULL \/ ki_cancel kiocb = KIOCB_CANCELLED).

(** The descriptors that pass the checks at the head of [io_submit_one]:
    reserved fields zero, [aio_buf] and [aio_nbytes] within the native
    word, and an opcode with an entry in [aio_submit_info]. *)
Definition iocb_valid (i : iocb) : bool :=
  (aio_reserved1 i =? 0) && (aio_reserved2 i =? 0)
  && (aio_buf i =? ulong (aio_buf i))
  && (aio_nbytes i =? ulong (aio_nbytes i))
  && (0 <=? to_long (aio_nbytes i))
  && match aio_submit_info K !! Z.to_nat (aio_lio_opcode i) with
     | Some info => bool_decide (is_Some (fn info))
     | None => false
     end.

(** The reading of [io_submit_one] by which every failed submission leaves
    the admission counter at the value it had before the call. *)
Definition failure_keeps_counter (e : submit_env) (user_iocb : Z) (i : iocb)
  (compat : bool) (c : kioctx) : Prop :=
  forall ret c',
    io_submit_one e user_iocb i compat c = Some (ret, c') -> ret <> 0 ->
    reqs_total c' = reqs_total c.

(** Batch submission in the words of the specification: for each
    descriptor, copy it from userspace and call [io_submit_one]; stop on
    the first failure; return the number submitted, or the failure if none
    were submitted.  [copy_descriptor] is the copy of one descriptor from
    userspace, which fails with a bad address when the pointer to it or
    the descriptor itself cannot be read.  [submit_batch_run] answers the
    number submitted, the failure that stopped the batch, if any, and the
    context. *)
Definition copy_descriptor (d : option user_slot)
  : option (Z * iocb * submit_env) :=
  match d with
  | Some {| us_ptr := Some user_iocb; us_iocb := Some tmp; us_env := e |} =>
      Some (user_iocb, tmp, e)
  | _ => None
  end.

Fixpoint submit_batch_run (descs : list (option user_slot)) (compat : bool)
  (c : kioctx) : option (Z * option Z * kioctx) :=
  match descs with
  | [] => Some (0, None, c)
  | d :: rest =>
      match copy_descriptor d with
      | None => Some (0, Some (- EFAULT), c)
      | Some (user_iocb, tmp, e) =>
          do '(ret, c1) <- io_submit_one e user_iocb tmp compat c;
          if ret =? 0 then
            do '(n, f, c2) <- submit_batch_run rest compat c1;
            Some (n + 1, f, c2)
          else Some (0, Some ret, c1)
      end
  end.

Definition submit_batch_result (n : Z) (f : option Z) : Z :=
  if 0 <? n then n else default 0 f.

(** The first [nr] entries of the user's array, [None] where the array
    cannot be read. *)
Definition user_array (slots : list user_slot) (nr : Z)
  : list (option user_slot) :=
  (fun j => slots !! j) <$> seq 0 (Z.to_nat nr).

(** Every [io_submit_one] of the batch runs on a CPU of the context. *)
Definition cpus_ok (slots : list user_slot) (c : kioctx) : bool :=
  forallb (fun d => Nat.ltb (e_cpu (us_env d)) (length (cpu c))) slots.

Definition descs_ok (descs : list (option user_slot)) (c : kioctx) : Prop :=
  Forall (fun od => forall d, od = Some d ->
            (e_cpu (us_env d) < length (cpu c))%nat) descs.

(** The pages [aio_setup_ring] takes for a context of [m] requests, and
    the records that fit in them after the header. *)
Definition ring_pages_for (m : Z) : Z :=
  PFN_UP (sizeof_aio_ring + sizeof_io_event * (m + 2)).

Definition ring_capacity (m : Z) : Z :=
  (PAGE_SIZE * ring_pages_for m - sizeof_aio_ring) / sizeof_io_event.

(** The reading of [ioctx_alloc] by which the ring capacity of the new
    context is the request, raised to four per CPU, doubled. *)
Definition capacity_is_doubled_request (a : alloc_env) (requested : Z)
  (aio_nr : Z) (mm : mm_struct) : Prop :=
  forall c aio_nr' mm',
    ioctx_alloc a requested aio_nr mm = Some (inr c, aio_nr', mm') ->
    nr_events c = Z.max requested (num_possible_cpus K * 4) * 2.

(** The callers of [kiocb_cancel] that have won the exchange and are about
    to invoke the cancel function. *)
Definition calling (pc : cancel_pc) : Z :=
  match pc with
  | CCall _ => 1
  | _ => 0
  end.

Definition pending_calls (pcs : list cancel_pc) : Z :=
  foldr (fun pc n => calling pc + n) 0 pcs.

(** Invocations made and invocations about to be made are at most one in
    all, and the word is [KIOCB_CANCELLED] once there is one. *)
Definition cancel_inv (w : cancel_world) : Prop :=
  let n := pending_calls (cw_pcs w) + Z.of_nat (length (cw_calls w)) in
  0 <= pending_calls (cw_pcs w) /\ n <= 1 /\
  (n = 1 -> cw_word w = KIOCB_CANCELLED).

(** How far a caller of [kill_ioctx] has come after winning the exchange
    on [dead]; 0 for a caller that has not won it. *)
Definition stage (pc : kill_pc) : Z :=
  match pc with
  | KLock | KXchg | KFail => 0
  | KTableClear => 1
  | KUnlock => 2
  | KWakeUp => 3
  | KAioNrSub => 4
  | KMunmap => 5
  | KSetRqWait => 6
  | KKillUsers => 7
  | KDone ret => if ret =? 0 then 8 else 0
  end.

(** The stage at which a teardown step is made. *)
Definition kind (s : teardown) : Z :=
  match s with
  | TTableClear _ => 1
  | TWakeUpAll => 3
  | TAioNrSub _ => 4
  | TMunmap _ _ => 5
  | TSetRqWait _ => 6
  | TKillUsers => 7
  end.

Definition log_kinds (log : list (nat * teardown)) : list Z :=
  (fun e => kind (snd e)) <$> log.

(** Either no caller has won and no teardown step was made, or [dead] is 1
    and one caller has won: every step in the log is his, of a stage he
    has passed, and no stage is logged twice. *)
Definition kill_inv (w : kill_world) : Prop :=
  ((forall t pc, kw_pcs w !! t = Some pc -> stage pc = 0) /\ kw_log w = [])
  \/
  (dead (k_ctx (kw_state w)) = 1 /\
   exists t pc,
     kw_pcs w !! t = Some pc /\ 0 < stage pc /\
     (forall t' pc', kw_pcs w !! t' = Some pc' -> t' <> t -> stage pc' = 0) /\
     Forall (fun e => fst e = t /\ kind (snd e) < stage pc) (kw_log w) /\
     NoDup (log_kinds (kw_log w))).

(** A caller is past the exchange on [dead]. *)
Definition past_xchg (pc : kill_pc) : bool :=
  match pc with
  | KLock | KXchg => false
  | _ => true
  end.

(** [dead] is set once a caller is past the exchange, and, on a context
    that was alive at the start, it is still 0 while nobody has won. *)
Definition dead_inv (s0 : kill_state) (w : kill_world) : Prop :=
  (forall t pc, kw_pcs w !! t = Some pc -> past_xchg pc = true ->
     dead (k_ctx (kw_state w)) <> 0) /\
  (dead (k_ctx s0) = 0 ->
   (forall t pc, kw_pcs w !! t = Some pc -> stage pc = 0) ->
   dead (k_ctx (kw_state w)) = 0).


(** ** The requests of a context *)

Definition set_ki_list_next (v : bool) (r : aio_kiocb) : aio_kiocb :=
  {| ki_filp := ki_filp r; ki_flags := ki_flags r; ki_pos := ki_pos r;
     ki_cancel := ki_cancel r; ki_user_iocb := ki_user_iocb r;
     ki_user_data := ki_user_data r; ki_list_next := v;
     ki_eventfd := ki_eventfd r |}.

(** The requests of one context, by address: [requests] is the memory that
    holds them and [active_reqs] the list [ctx->active_reqs], from its
    head. *)
Record ctx_reqs := {
  requests : gmap Z aio_kiocb;
  active_reqs : list Z }.

Definition store_req (a : Z) (r : aio_kiocb) (s : ctx_reqs) : ctx_reqs :=
  {| requests := <[a := r]> (requests s); active_reqs := active_reqs s |}.

(** [kiocb_set_cancel_fn] on the request at address [req].  [None] when
    [req] is not the address of a request. *)
Definition kiocb_set_cancel_fn (req : Z) (cancel : cancel_word)
  (s : ctx_reqs) : option ctx_reqs :=
  do r <- requests s !! req;
  let active :=
    if negb (ki_list_next r) then req :: active_reqs s else active_reqs s in
  Some {| requests :=
            <[req := set_ki_cancel cancel (set_ki_list_next true r)]>
              (requests s);
          active_reqs := active |}.

(** The [while (!list_empty(&ctx->active_reqs))] loop of
    [free_ioctx_users]: the requests afterwards and the cancel functions
    invoked, each with the request it was invoked on.  [run_cancel a f] is
    what the cancel function [f] returns for the request at [a]. *)
Fixpoint cancel_active (fuel : nat) (run_cancel : Z -> Z -> Z)
  (s : ctx_reqs) : option (ctx_reqs * list (Z * Z)) :=
  match active_reqs s with
  | [] => Some (s, [])
  | a :: rest =>
      match fuel with
      | O => None
      | S fuel' =>
          do r <- requests s !! a;
          do '(r', _, calls) <- kiocb_cancel (run_cancel a) r;
          do '(s', calls') <-
            cancel_active fuel' run_cancel
              {| requests := <[a := r']> (requests s); active_reqs := rest |};
          Some (s', ((fun f => (a, f)) <$> calls) ++ calls')
      end
  end.

(** [free_ioctx_users]: the requests and the context afterwards and the
    cancel functions invoked. *)
Definition free_ioctx_users (run_cancel : Z -> Z -> Z) (s : ctx_reqs)
  (c : kioctx) : option (ctx_reqs * kioctx * list (Z * Z)) :=
  do '(s', calls) <- cancel_active (length (active_reqs s)) run_cancel s;
  Some (s', set_reqs (percpu_ref_put (percpu_ref_kill (reqs c))) c, calls).

(** [lookup_kiocb]: the address of the first active request submitted from
    the user address [iocb]. *)
Definition lookup_kiocb (s : ctx_reqs) (iocb key : Z) : option Z :=
  if negb (key =? KIOCB_KEY) then None
  else
    List.find
      (fun a => match requests s !! a with
                | Some r => ki_user_iocb r =? iocb
                | None => false
                end)
      (active_reqs s).

(** [io_cancel].  [key_read] is what [get_user(key, &iocb->aio_key)]
    delivers ([None] when it faults), [s] the requests of the context that
    [lookup_ioctx] finds.  The result is the return value, the requests,
    the registry and the cancel functions invoked. *)
Definition io_cancel (run_cancel : Z -> Z -> Z)
  (key_read ring_id_read : option Z) (ctx_id iocb : Z) (s : ctx_reqs)
  (mm : mm_struct) : option (Z * ctx_reqs * mm_struct * list (Z * Z)) :=
  match key_read with
  | None => Some (- EFAULT, s, mm, [])
  | Some key =>
      match lookup_ioctx ring_id_read ctx_id mm with
      | None => Some (- EINVAL, s, mm, [])
      | Some (slot, ctx) =>
          do '(ret, s', calls) <-
            match lookup_kiocb s iocb key with
            | Some a =>
                do r <- requests s !! a;
                do '(r', ret, calls) <- kiocb_cancel (run_cancel a) r;
                Some (ret, store_req a r' s, (fun f => (a, f)) <$> calls)
            | None => Some (- EINVAL, s, [])
            end;
          let ret := if ret =? 0 then - EINPROGRESS else ret in
          Some (ret, s',
                store_ioctx slot (set_users (percpu_ref_put (users ctx)) ctx)
                  mm,
                calls)
      end
  end.

(** ** Worker threads *)

(** [aio_thread_queue_iocb] on the request at [req]; [early] is the
    address of [aio_thread_queue_iocb_cancel_early]. *)
Definition aio_thread_queue_iocb (early : Z) (req : Z) (s : ctx_reqs)
  : option (Z * ctx_reqs) :=
  if negb (aio_may_use_threads K) then Some (- EINVAL, s)
  else
    do s' <- kiocb_set_cancel_fn req (CANCEL_FN early) s;
    Some (- EIOCBQUEUED, s').

(** [aio_thread_fn] on CPU [k]: [early] and [late] are the addresses of
    the two cancel functions and [work_ret] is what [iocb->ki_work_fn]
    returns if it is run.  The result tells whether the work function was
    run, the value handed to [aio_complete], the request as it was when
    handed over, the context and the actions of [aio_complete]. *)
Definition aio_thread_fn (early late : Z) (k : nat) (work_ret : Z)
  (iocb : aio_kiocb) (c : kioctx)
  : option (bool * Z * aio_kiocb * kioctx * list action) :=
  let '(word, old_cancel) :=
    cmpxchg (ki_cancel iocb) (CANCEL_FN early) (CANCEL_FN late) in
  let iocb1 := set_ki_cancel word iocb in
  let run := negb (cancel_word_eqb old_cancel KIOCB_CANCELLED) in
  let ret := if run then to_long work_ret else - EINTR in
  let ret := if is_restart ret then - EINTR else ret in
  do '(c', tr) <- aio_complete k iocb1 ret 0 c;
  Some (run, ret, iocb1, c', tr).

(** ** Reaping *)

(** [aio_read_events]: the value it returns, [*i] afterwards, the context
    and the ring accesses made. *)
Definition aio_read_events (copies : list Z) (min_nr nr i : Z) (c : kioctx)
  : option (bool * Z * kioctx * list ring_access) :=
  do '(ret, c', accs) <- aio_read_events_ring copies (to_long (nr - i)) c;
  let i1 := if 0 <? ret then to_long (i + ret) else i in
  let ret1 := if negb (dead c' =? 0) then - EINVAL else ret in
  let i2 := if i1 =? 0 then ret1 else i1 in
  Some ((ret1 <? 0) || (min_nr <=? i2), i2, c', accs).

(** The [timeout] argument of [read_events] as the source meets it: a null
    pointer, a pointer [copy_from_user] faults on, a time
    [timespec_valid] refuses, or the value of [timespec_to_ktime]. *)
Inductive timeout_arg :=
| TimeoutNull
| TimeoutFault
| TimeoutInvalid
| TimeoutUntil (until : Z).

Definition KTIME_MAX : Z := 2 ^ 63 - 1.

(** One completion by another task while a reaper waits. *)
Record completion := {
  cp_cpu : nat;
  cp_iocb : aio_kiocb;
  cp_res : Z;
  cp_res2 : Z }.

(** The requests that other tasks complete, one after the other, while a
    reaper sleeps. *)
Fixpoint complete_all (ws : list completion) (c : kioctx) : option kioctx :=
  match ws with
  | [] => Some c
  | w :: ws' =>
      do '(c', _) <- aio_complete (cp_cpu w) (cp_iocb w) (cp_res w)
                       (cp_res2 w) c;
      complete_all ws' c'
  end.

(** Modelled from the spec: [wait_event_interruptible_hrtimeout] of
    include/linux/wait.h, which [read_events] calls with [aio_read_events]
    as its condition, is not part of the sources.  The specification has
    the reaper wait on the wait queue of the context with the predicate
    "reap returned >= 1 into out, and the total accumulated reached min,
    or context is dead", and return on a signal.  So the condition is
    evaluated; while it is false the task sleeps until it is woken, and
    the condition is evaluated again.  [wakes] is the schedule of the
    wait: each entry holds the completions, any number of them, that
    other tasks have published by the time the condition is evaluated
    again.  When the schedule is used up the wait ends if a signal or the
    timer ends it ([expires]); otherwise the task sleeps for ever.  The
    result is the value of [ret] and the context. *)
Fixpoint wait_event (wakes : list (list completion)) (expires : bool)
  (copies : list Z) (min_nr nr i : Z) (c : kioctx) : option (Z * kioctx) :=
  do '(done, i', c', accs) <- aio_read_events copies min_nr nr i c;
  if (done : bool) then Some (i', c')
  else
    match wakes with
    | [] => if expires then Some (i', c') else None
    | ws :: wakes' =>
        do c'' <- complete_all ws c';
        wait_event wakes' expires (drop (length accs) copies) min_nr nr i' c''
    end.

(** [read_events]; [wakes] is the schedule of its wait and [signal] is
    [signal_pending(current)] when the wait is over. *)
Definition read_events (wakes : list (list completion)) (signal : bool)
  (copies : list Z) (min_nr nr : Z) (timeout : timeout_arg) (c : kioctx)
  : option (Z * kioctx) :=
  match timeout with
  | TimeoutFault => Some (- EFAULT, c)
  | TimeoutInvalid => Some (- EINVAL, c)
  | _ =>
      let until :=
        match timeout with
        | TimeoutUntil t => t
        | _ => KTIME_MAX
        end in
      do '(ret, c') <-
        (if until =? 0 then
           do '(_, i, c', _) <- aio_read_events copies min_nr nr 0 c;
           Some (i, c')
         else
           wait_event wakes (signal || negb (until =? KTIME_MAX)) copies
             min_nr nr 0 c);
      Some (if (ret =? 0) && signal then - EINTR else ret, c')
  end.

(** [io_getevents]. *)
Definition io_getevents (wakes : list (list completion)) (signal : bool)
  (copies : list Z) (ring_id_read : option Z) (ctx_id min_nr nr : Z)
  (timeout : timeout_arg) (mm : mm_struct) : option (Z * mm_struct) :=
  match lookup_ioctx ring_id_read ctx_id mm with
  | None => Some (- EINVAL, mm)
  | Some (slot, ioctx) =>
      do '(ret, ioctx') <-
        (if (min_nr <=? nr) && (0 <=? min_nr) then
           read_events wakes signal copies min_nr nr timeout ioctx
         else Some (- EINVAL, ioctx));
      Some (ret,
            store_ioctx slot
              (set_users (percpu_ref_put (users ioctx')) ioctx') mm)
  end.

(** ** The system calls of creation and destruction *)

(** [io_setup].  [ctxp_read] is what [get_user(ctx, ctxp)] delivers
    ([None] when it faults) and [put_user_ret] the return value of
    [put_user(ioctx->user_id, ctxp)].  The result is the return value,
    [aio_nr] and the registry afterwards, and the teardown steps made. *)
Definition io_setup (a : alloc_env) (ctxp_read : option Z) (nr_ev : Z)
  (put_user_ret : Z) (aio_nr : Z) (mm : mm_struct)
  : option (Z * Z * mm_struct * list teardown) :=
  match ctxp_read with
  | None => Some (- EFAULT, aio_nr, mm, [])
  | Some ctx =>
      if negb (ctx =? 0) || (nr_ev =? 0) then Some (- EINVAL, aio_nr, mm, [])
      else
        do '(r, aio_nr1, mm1) <- ioctx_alloc a nr_ev aio_nr mm;
        match r with
        | inl err => Some (err, aio_nr1, mm1, [])
        | inr ioctx =>
            let ret := put_user_ret in
            if negb (ret =? 0) then
              let '(_, s, tr) :=
                kill_ioctx None
                  {| k_ctx := ioctx; k_mm := mm1; k_aio_nr := aio_nr1 |} in
              Some (ret, k_aio_nr s, k_mm s, tr)
            else
              Some (ret, aio_nr1,
                    store_ioctx (Z.to_nat (id ioctx))
                      (set_users (percpu_ref_put (users ioctx)) ioctx) mm1,
                    [])
        end
  end.

(** [io_destroy]; [wait] is the address of its [struct ctx_rq_wait].  The
    result is the return value, the state afterwards (the context is the
    one found, if any), the teardown steps made and whether the call
    waits for the requests of the context. *)
Definition io_destroy (wait : Z) (ring_id_read : option Z) (ctx_id : Z)
  (aio_nr : Z) (mm : mm_struct)
  : Z * option kioctx * Z * mm_struct * list teardown * bool :=
  match lookup_ioctx ring_id_read ctx_id mm with
  | Some (_, ioctx) =>
      let '(ret, s, tr) :=
        kill_ioctx (Some wait)
          {| k_ctx := ioctx; k_mm := mm; k_aio_nr := aio_nr |} in
      (ret,
       Some (set_users (percpu_ref_put (users (k_ctx s))) (k_ctx s)),
       k_aio_nr s, k_mm s, tr, ret =? 0)
  | None => (- EINVAL, None, aio_nr, mm, [], false)
  end.

Definition set_mmap_size (v : Z) (c : kioctx) : kioctx :=
  Build_kioctx (users c) (dead c) (reqs c) (user_id c) (cpu c) (req_batch c)
    (max_reqs c) (nr_events c) (mmap_base c) v (nr_pages c)
    (rq_wait c) (reqs_available c) (tail c) (completed_events c) (id c)
    (ring c) (ring_events c).

(** What the loop of [exit_aio] has done so far: the registry and
    [aio_nr], the value of [skipped], the teardown steps and the contexts
    killed. *)
Record exit_state := {
  x_mm : mm_struct;
  x_aio_nr : Z;
  x_skipped : Z;
  x_log : list teardown;
  x_killed : list kioctx }.

(** One pass of the [for] loop of [exit_aio], at index [i]. *)
Definition exit_aio_slot (wait : Z) (x : exit_state) (i : nat) : exit_state :=
  match ioctx_table (x_mm x) ≫= (fun t => t !! i) with
  | Some (Some ctx) =>
      let '(_, s, tr) :=
        kill_ioctx (Some wait)
          {| k_ctx := set_mmap_size 0 ctx; k_mm := x_mm x;
             k_aio_nr := x_aio_nr x |} in
      {| x_mm := k_mm s; x_aio_nr := k_aio_nr s; x_skipped := x_skipped x;
         x_log := x_log x ++ tr; x_killed := x_killed x ++ [k_ctx s] |}
  | _ =>
      {| x_mm := x_mm x; x_aio_nr := x_aio_nr x;
         x_skipped := s32 (x_skipped x + 1);
         x_log := x_log x; x_killed := x_killed x |}
  end.

(** [exit_aio]: the state when the loop is over, with the registry
    released, and whether the call waits for the requests. *)
Definition exit_aio (wait : Z) (aio_nr : Z) (mm : mm_struct)
  : exit_state * bool :=
  match ioctx_table mm with
  | None =>
      ({| x_mm := mm; x_aio_nr := aio_nr; x_skipped := 0; x_log := [];
          x_killed := [] |}, false)
  | Some table =>
      let x :=
        foldl (exit_aio_slot wait)
          {| x_mm := mm; x_aio_nr := aio_nr; x_skipped := 0; x_log := [];
             x_killed := [] |}
          (seq 0 (length table)) in
      let count := s32 (s32 (Z.of_nat (length table)) - x_skipped x) in
      ({| x_mm := {| ioctx_table := None |}; x_aio_nr := x_aio_nr x;
          x_skipped := x_skipped x; x_log := x_log x;
          x_killed := x_killed x |},
       negb (count =? 0))
  end.

(** ** Further well-formed states *)

(** The records between [head] and [tail] in a ring of [nr_events c]
    records, as [refill_reqs_available] counts them. *)
Definition events_in_ring (c : kioctx) (head tail : Z) : Z :=
  (tail - head) mod nr_events c.

(** The slots of a context wherever they are: in the admission counter,
    in [completed_events], or held by a request, which also holds a
    reference on [reqs]. *)
Definition slots_held (c : kioctx) : Z :=
  reqs_total c + completed_events c + ref_count (reqs c).

(** A ring whose header userspace has left alone, with [m] requests in
    flight: [head] is inside the ring, the header's [tail] is the kernel's,
    every record between them is counted in [completed_events], and the
    counter, [completed_events] and the requests in flight hold the
    [nr_events - 1] slots of the context between them. *)
Definition ring_inv (m : Z) (c : kioctx) : Prop :=
  0 <= ring_head (ring c) < nr_events c /\
  ring_tail (ring c) = tail c /\
  events_in_ring c (ring_head (ring c)) (tail c) <= completed_events c /\
  0 <= m /\
  reqs_total c + completed_events c + m = nr_events c - 1.

(** A registry whose contexts are alive and know their slot. *)
Definition slot_ok (i : nat) (s : option kioctx) : bool :=
  match s with
  | None => true
  | Some c => (id c =? Z.of_nat i) && (dead c =? 0)
  end.

Fixpoint slots_ok (t : list (option kioctx)) (i : nat) : bool :=
  match t with
  | [] => true
  | s :: t' => slot_ok i s && slots_ok t' (S i)
  end.

Definition registry_ok (mm : mm_struct) : bool :=
  match ioctx_table mm with
  | None => true
  | Some t => slots_ok t 0
  end.

(** The contexts a registry table holds, in the order of their slots. *)
Definition registered (t : list (option kioctx)) : list kioctx :=
  omap (fun s => s) t.

(** The active list holds every request whose [ki_list.next] is set, once
    each. *)
Definition reqs_ok (s : ctx_reqs) : bool :=
  bool_decide (NoDup (active_reqs s))
  && forallb (fun a => match requests s !! a with
                       | Some r => ki_list_next r
                       | None => false
                       end) (active_reqs s)
  && forallb (fun ar => implb (ki_list_next (snd ar))
                          (bool_decide (fst ar ∈ active_reqs s)))
       (map_to_list (requests s)).

(** What the cancel function at address [f] returns, when [early] is the
    address of [aio_thread_queue_iocb_cancel_early], every other address
    that of [aio_thread_queue_iocb_cancel], and [task] the request's
    [ki_cancel_task]. *)
Definition thread_cancel (early : Z) (task : option Z) (f : Z) : Z :=
  if f =? early then aio_thread_queue_iocb_cancel_early
  else aio_thread_queue_iocb_cancel task.

(** The cancel function a walk of [free_ioctx_users] or a call of
    [io_cancel] invokes on the request at [a], if any. *)
Definition cancel_call (s : ctx_reqs) (a : Z) : option (Z * Z) :=
  match requests s !! a with
  | Some r =>
      match ki_cancel r with
      | CANCEL_FN f => Some (a, f)
      | _ => None
      end
  | None => None
  end.

(** A request after [kiocb_cancel]. *)
Definition cancelled (r : aio_kiocb) : aio_kiocb :=
  match ki_cancel r with
  | CANCEL_FN _ => set_ki_cancel KIOCB_CANCELLED r
  | _ => r
  end.

(** The number of the first record of a ring access, counted from the
    first record after the header, and the records a list of accesses
    covers in all. *)
Definition acc_first (a : ring_access) : Z :=
  acc_page a * AIO_EVENTS_PER_PAGE + acc_slot a - AIO_EVENTS_OFFSET.

Definition acc_total (accs : list ring_access) : Z :=
  foldr (fun a n => acc_n a + n) 0 accs.

(** The accesses take the records of a ring of [nr_ev] records in ring
    order, starting with record [head]. *)
Fixpoint reads_from (nr_ev head : Z) (accs : list ring_access) : bool :=
  match accs with
  | [] => true
  | a :: rest =>
      (acc_first a =? head)
      && reads_from nr_ev ((head + acc_n a) mod nr_ev) rest
  end.

(** One operation on a context, beside the number of requests in flight:
    a submission, the completion of a request in flight, or a reap whose
    copies to userspace succeed.  A submission that leaves its request
    queued takes a reference on [reqs], and that request is in flight. *)
Inductive aio_op : kioctx * Z -> kioctx * Z -> Prop :=
| op_submit e u i compat c ret c' m :
    (e_cpu e < length (cpu c))%nat ->
    io_submit_one e u i compat c = Some (ret, c') ->
    aio_op (c, m) (c', m + (ref_count (reqs c') - ref_count (reqs c)))
| op_complete k iocb res res2 c c' tr m :
    (k < length (cpu c))%nat -> 1 <= m ->
    aio_complete k iocb res res2 c = Some (c', tr) ->
    aio_op (c, m) (c', m - 1)
| op_reap copies nr c ret c' accs m :
    Forall (fun x => x = 0) copies -> nr <= LONG_MAX ->
    aio_read_events_ring copies nr c = Some (ret, c', accs) ->
    aio_op (c, m) (c', m).
End Core.

(** ** A concrete system *)

(** The opcode table without [CONFIG_AIO_THREAD]: [IOCB_CMD_PREAD] 0,
    [IOCB_CMD_PWRITE] 1, [IOCB_CMD_FSYNC] 2, [IOCB_CMD_FDSYNC] 3,
    [IOCB_CMD_PREADV] 7, [IOCB_CMD_PWRITEV] 8; [aio_rw] is function 1 and
    [aio_fsync] function 2. *)
Definition aio_submit_info_base : list submit_info :=
  [ {| fn := Some 1; flags := NEED_FD |};
    {| fn := Some 1; flags := NEED_FD |};
    {| fn := Some 2; flags := NEED_FD |};
    {| fn := Some 2; flags := NEED_FD |};
    {| fn := None; flags := 0 |};
    {| fn := None; flags := 0 |};
    {| fn := None; flags := 0 |};
    {| fn := Some 1; flags := NEED_FD |};
    {| fn := Some 1; flags := NEED_FD |} ].

(** A 64-bit machine with 4 KiB pages and one CPU. *)
Definition uniprocessor : kconfig :=
  {| PAGE_SHIFT := 12;
     num_possible_cpus := 1;
     BITS_PER_LONG := 64;
     aio_max_nr := 0x10000;
     aio_may_use_threads := false;
     aio_submit_info := aio_submit_info_base |}.

(** Every allocation succeeds and the ring is mapped at 0x7f0000000000. *)
Definition all_granted : alloc_env :=
  {| a_kioctx := true; a_users_init := true; a_reqs_init := true;
     a_percpu := true; a_ring_file := true; a_ring_pages := true;
     a_find_page := fun _ => true; a_mmap := 0x7f0000000000;
     a_kzalloc := [] |}.

(** The context [io_setup(1, ...)] creates on that machine, once the
    reference of [io_setup] is dropped. *)
Definition fresh_ctx : kioctx :=
  {| users := {| ref_count := 1; ref_dead := false |};
     dead := 0;
     reqs := {| ref_count := 2; ref_dead := false |};
     user_id := 0x7f0000000000;
     cpu := [0];
     req_batch := 31;
     max_reqs := 8;
     nr_events := 127;
     mmap_base := 0x7f0000000000;
     mmap_size := 4096;
     nr_pages := 1;
     rq_wait := None;
     reqs_available := 126;
     tail := 0;
     completed_events := 0;
     id := 0;
     ring := {| ring_id := 0; ring_nr := 127; ring_head := 0; ring_tail := 0;
                ring_magic := AIO_RING_MAGIC; ring_compat_features := 1;
                ring_incompat_features := 0; ring_header_length := 32 |};
     ring_events := ∅ |}.

(** That context with [local] slots in the cell of CPU 0, [global] in the
    global counter and [completed] completions not yet given back. *)
Definition ctx_with (local global completed : Z) : kioctx :=
  set_completed_events completed
    (set_kcpu_reqs_available 0 local (set_reqs_available global fresh_ctx)).

(** A context in use whose counter cannot serve a reservation: the cell
    of CPU 0 is empty and the global counter holds 2 slots, fewer than a
    batch.  Three completions were published and userspace has taken them
    off the ring, so [completed_events] still holds their three slots; 121
    requests are in flight. *)
Definition drained_ctx : kioctx :=
  set_tail 3
    (set_ring (set_ring_head 3 (set_ring_tail 3 (ring fresh_ctx)))
       (set_reqs {| ref_count := 123; ref_dead := false |}
          (ctx_with 0 2 3))).

(** A read of 16 bytes at offset 0 from file descriptor 99, with the
    cookie 0xAA. *)
Definition pread_iocb : iocb :=
  {| aio_data := 0xAA; aio_key := 0; aio_reserved1 := 0;
     aio_lio_opcode := 0; aio_reqprio := 0; aio_fildes := 99;
     aio_buf := 0x1000; aio_nbytes := 16; aio_offset := 0;
     aio_reserved2 := 0; aio_flags := 0; aio_resfd := 0 |}.

(** On CPU 0: the request is allocated, but [fget] finds no file. *)
Definition bad_fd_env : submit_env :=
  {| e_cpu := 0; e_alloc_req := true; e_fget := None; e_iocb_flags := 0;
     e_eventfd := 0; e_put_user := 0; e_fn := 0 |}.

(** On CPU 0: [kmem_cache_alloc] delivers no request. *)
Definition no_memory_env : submit_env :=
  {| e_cpu := 0; e_alloc_req := false; e_fget := Some 1; e_iocb_flags := 0;
     e_eventfd := 0; e_put_user := 0; e_fn := 0 |}.

(** On CPU 0: everything is granted and the operation answers [ret]. *)
Definition granted_env (ret : Z) : submit_env :=
  {| e_cpu := 0; e_alloc_req := true; e_fget := Some 1; e_iocb_flags := 0;
     e_eventfd := 0; e_put_user := 0; e_fn := ret |}.

(** A process whose registry holds [fresh_ctx] in slot 0. *)
Definition one_ctx_mm : mm_struct :=
  {| ioctx_table := Some [Some fresh_ctx; None; None; None] |}.

(** An array of three descriptors: the first is queued, the second names a
    bad file descriptor, the third would be queued. *)
Definition three_slots : list user_slot :=
  [ {| us_ptr := Some 0x1000; us_iocb := Some pread_iocb;
       us_env := granted_env (- EIOCBQUEUED) |};
    {| us_ptr := Some 0x1040; us_iocb := Some pread_iocb;
       us_env := bad_fd_env |};
    {| us_ptr := Some 0x1080; us_iocb := Some pread_iocb;
       us_env := granted_env (- EIOCBQUEUED) |} ].

(** Two callers of [kiocb_cancel] on a request with cancel function 7
    installed, after both have returned: caller 0 invoked the function,
    which answered 0, and caller 1 was refused. *)
Definition two_callers_done : cancel_world :=
  {| cw_word := KIOCB_CANCELLED;
     cw_pcs := [CDone 0; CDone (- EINVAL)];
     cw_calls := [(0%nat, 7)] |}.

(** The process of [one_ctx_mm] with its live context and 8 requests
    counted in [aio_nr]. *)
Definition live_state : kill_state :=
  {| k_ctx := fresh_ctx; k_mm := one_ctx_mm; k_aio_nr := 8 |}.

(** Two callers of [kill_ioctx] on that context, after both have returned:
    caller 0 tore the context down and caller 1 was refused. *)
Definition two_killers_done : kill_world :=
  {| kw_state :=
       {| k_ctx := set_users (percpu_ref_kill (users fresh_ctx))
                     (set_rq_wait None (set_dead 1 fresh_ctx));
          k_mm := table_clear 0 one_ctx_mm;
          k_aio_nr := 0 |};
     kw_lock := None;
     kw_pcs := [KDone 0; KDone (- EINVAL)];
     kw_log := [(0%nat, TTableClear 0); (0%nat, TWakeUpAll);
                (0%nat, TAioNrSub 8);
                (0%nat, TMunmap 0x7f0000000000 4096);
                (0%nat, TSetRqWait None); (0%nat, TKillUsers)] |}.


(** [fresh_ctx] after one read was queued on it, completed with the result
    16 and reaped. *)
Definition one_request_done : kioctx :=
  default fresh_ctx
    (do '(_, c1) <- io_submit_one uniprocessor (granted_env (- EIOCBQUEUED))
                     0x1000 pread_iocb false fresh_ctx;
     do '(c2, _) <- aio_complete uniprocessor 0 zeroed_kiocb 16 0 c1;
     do '(_, c3, _) <- aio_read_events_ring uniprocessor [] 1 c2;
     Some c3).

(** Every allocation succeeds but the [kzalloc] of a registry table. *)
Definition no_table_env : alloc_env :=
  {| a_kioctx := true; a_users_init := true; a_reqs_init := true;
     a_percpu := true; a_ring_file := true; a_ring_pages := true;
     a_find_page := fun _ => true; a_mmap := 0x7f0000000000;
     a_kzalloc := [false] |}.

(** [uniprocessor] with worker threads in use
    ([aio_may_use_threads()] true). *)
Definition threaded : kconfig :=
  {| PAGE_SHIFT := 12;
     num_possible_cpus := 1;
     BITS_PER_LONG := 64;
     aio_max_nr := 0x10000;
     aio_may_use_threads := true;
     aio_submit_info := aio_submit_info_base |}.

(** A request submitted from the user address 0x1000, on the active list
    with cancel function 7 installed. *)
Definition linked_req : aio_kiocb :=
  {| ki_filp := Some 1; ki_flags := 0; ki_pos := 0; ki_cancel := CANCEL_FN 7;
     ki_user_iocb := 0x1000; ki_user_data := 0xAA; ki_list_next := true;
     ki_eventfd := None |}.

(** The requests of a context: [linked_req] at address 16, on the active
    list, and a request at address 32 that is not linked. *)
Definition two_reqs : ctx_reqs :=
  {| requests := <[16 := linked_req]> (<[32 := zeroed_kiocb]> ∅);
     active_reqs := [16] |}.

(** [fresh_ctx] after one read was queued on it and completed with the
    result 16: one record waits in the ring. *)
Definition one_request_completed : kioctx :=
  default fresh_ctx
    (do '(_, c1) <- io_submit_one uniprocessor (granted_env (- EIOCBQUEUED))
                     0x1000 pread_iocb false fresh_ctx;
     do '(c2, _) <- aio_complete uniprocessor 0 zeroed_kiocb 16 0 c1;
     Some c2).

(** The completion of a request with the result 16 on CPU 0. *)
Definition completes_16 : completion :=
  {| cp_cpu := 0; cp_iocb := zeroed_kiocb; cp_res := 16; cp_res2 := 0 |}.

(** [pread_iocb] asking for its completion to be signalled on the eventfd
    of file descriptor 5. *)
Definition pread_resfd_iocb : iocb :=
  {| aio_data := 0xAA; aio_key := 0; aio_reserved1 := 0;
     aio_lio_opcode := 0; aio_reqprio := 0; aio_fildes := 99;
     aio_buf := 0x1000; aio_nbytes := 16; aio_offset := 0;
     aio_reserved2 := 0; aio_flags := IOCB_FLAG_RESFD; aio_resfd := 5 |}.

(** On CPU 0: everything is granted, [eventfd_ctx_fdget] delivers the
    context at 0x1234000 and the operation answers [ret]. *)
Definition eventfd_env (ret : Z) : submit_env :=
  {| e_cpu := 0; e_alloc_req := true; e_fget := Some 1; e_iocb_flags := 0;
     e_eventfd := 0x1234000; e_put_user := 0; e_fn := ret |}.
(** * Properties *)

(** Splitting the conjunctions of a goal without unfolding the predicates
    that are defined as conjunctions. *)
Ltac splits := repeat match goal with |- _ /\ _ => split end.

(** ** Machine integers *)

Lemma u32_small x : 0 <= x < 2 ^ 32 -> u32 x = x.
Proof. intros H. unfold u32. apply Z.mod_small. exact H. Qed.

Lemma s32_small x : - 2 ^ 31 <= x < 2 ^ 31 -> s32 x = x.
Proof. intros H. unfold s32. rewrite Z.mod_small; lia. Qed.

Lemma u32_range x : 0 <= u32 x < 2 ^ 32.
Proof. unfold u32. apply Z.mod_pos_bound. lia. Qed.

(** ** The admission counter *)



Lemma percpu_sum_insert (l : list Z) (k : nat) (v old : Z) :
  l !! k = Some old ->
  percpu_sum (<[k := v]> l) = percpu_sum l - old + v.
Proof.
  revert k. induction l as [|x l IH]; intros [|k] Hk; simpl in *;
    try discriminate.
  - inversion Hk; subst. unfold percpu_sum. simpl. lia.
  - specialize (IH k Hk). unfold percpu_sum in *. simpl.
    lia.
Qed.

Lemma percpu_sum_nonneg (l : list Z) :
  forallb (fun x => 0 <=? x) l = true -> 0 <= percpu_sum l.
Proof.
  induction l as [|x l IH]; simpl; intros H.
  - unfold percpu_sum. simpl. lia.
  - apply andb_true_iff in H as [Hx Hl]. specialize (IH Hl).
    unfold percpu_sum in *. simpl. lia.
Qed.

Lemma percpu_cell_bounds (l : list Z) (k : nat) (x : Z) :
  forallb (fun x => 0 <=? x) l = true -> l !! k = Some x ->
  0 <= x <= percpu_sum l.
Proof.
  revert k. induction l as [|y l IH]; intros [|k] H Hk; simpl in *;
    try discriminate; apply andb_true_iff in H as [Hy Hl].
  - inversion Hk; subst. pose proof (percpu_sum_nonneg l Hl).
    unfold percpu_sum in *. simpl. lia.
  - specialize (IH k Hl Hk). unfold percpu_sum in *. simpl. lia.
Qed.

Lemma forallb_insert_nonneg (l : list Z) (k : nat) (v : Z) :
  forallb (fun x => 0 <=? x) l = true -> 0 <= v ->
  forallb (fun x => 0 <=? x) (<[k := v]> l) = true.
Proof.
  revert k. induction l as [|y l IH]; intros [|k] H Hv; simpl in *; auto;
    apply andb_true_iff in H as [Hy Hl]; apply andb_true_iff; split; auto.
  lia.
Qed.

Lemma kcpu_lookup (k : nat) (c : kioctx) :
  (k < length (cpu c))%nat ->
  cpu c !! k = Some (kcpu_reqs_available k c).
Proof.
  intros Hk. unfold kcpu_reqs_available.
  destruct (lookup_lt_is_Some_2 (cpu c) k Hk) as [x Hx]. rewrite Hx.
  reflexivity.
Qed.

(** The loop of [put_reqs_available] moves [j] whole batches and leaves
    fewer than two batches behind. *)
Lemma put_loop_spec (fuel : nat) (batch local global : Z) :
  1 <= batch < 2 ^ 30 -> 0 <= local -> 0 <= global ->
  global + local < 2 ^ 31 -> (Z.to_nat local <= fuel)%nat ->
  exists j, 0 <= j /\
    put_loop fuel batch local global
    = Some (local - j * batch, global + j * batch) /\
    local - j * batch < 2 * batch /\
    (0 < j <-> 2 * batch <= local) /\
    (0 < j -> batch <= local - j * batch).
Proof.
  revert local global.
  induction fuel as [|fuel IH]; intros local global Hb Hl Hg Hsum Hfuel;
    simpl; rewrite (u32_small (batch * 2)) by lia.
  - assert (local = 0) by lia. subst local.
    destruct (Z.leb_spec (batch * 2) 0); [lia|].
    exists 0. repeat split; try lia. f_equal. f_equal; lia.
  - destruct (Z.leb_spec (batch * 2) local) as [Hge|Hlt].
    + rewrite (u32_small (local - batch)) by lia.
      rewrite (s32_small (global + batch)) by lia.
      destruct (IH (local - batch) (global + batch)) as (j & Hj & Heq & Hlt & Hiff & Hrest);
        try lia.
      exists (j + 1). split; [lia|]. split.
      { rewrite Heq. f_equal. f_equal; lia. }
      split; [lia|]. split; [split; lia|].
      intros _. destruct (Z.eq_dec j 0) as [->|Hne]; [lia|].
      assert (0 < j) by lia. specialize (Hrest H). lia.
    + exists 0. repeat split; try lia. f_equal. f_equal; lia.
Qed.


Lemma counters_ok_elim (c : kioctx) :
  counters_ok c = true ->
  1 <= req_batch c < 2 ^ 30 /\ 0 <= reqs_available c /\
  forallb (fun x => 0 <=? x) (cpu c) = true /\
  0 <= completed_events c /\
  reqs_total c + completed_events c < 2 ^ 31.
Proof.
  unfold counters_ok. rewrite !andb_true_iff.
  rewrite !Z.leb_le, !Z.ltb_lt. tauto.
Qed.

Lemma counters_ok_intro (c : kioctx) :
  1 <= req_batch c < 2 ^ 30 -> 0 <= reqs_available c ->
  forallb (fun x => 0 <=? x) (cpu c) = true ->
  0 <= completed_events c ->
  reqs_total c + completed_events c < 2 ^ 31 ->
  counters_ok c = true.
Proof.
  intros. unfold counters_ok. rewrite !andb_true_iff.
  rewrite !Z.leb_le, !Z.ltb_lt. tauto.
Qed.

Lemma reqs_total_set (k : nat) (v g : Z) (c : kioctx) :
  (k < length (cpu c))%nat ->
  reqs_total (set_kcpu_reqs_available k v (set_reqs_available g c))
  = g + percpu_sum (cpu c) - kcpu_reqs_available k c + v.
Proof.
  intros Hk. unfold reqs_total, set_kcpu_reqs_available. simpl.
  rewrite (percpu_sum_insert _ _ _ _ (kcpu_lookup k c Hk)). lia.
Qed.

Lemma reqs_total_set_kcpu (k : nat) (v : Z) (c : kioctx) :
  (k < length (cpu c))%nat ->
  reqs_total (set_kcpu_reqs_available k v c)
  = reqs_total c - kcpu_reqs_available k c + v.
Proof.
  intros Hk. unfold reqs_total, set_kcpu_reqs_available. simpl.
  rewrite (percpu_sum_insert _ _ _ _ (kcpu_lookup k c Hk)). lia.
Qed.

Lemma kcpu_bounds (k : nat) (c : kioctx) :
  counters_ok c = true -> (k < length (cpu c))%nat ->
  0 <= kcpu_reqs_available k c <= percpu_sum (cpu c).
Proof.
  intros Hok Hk. apply counters_ok_elim in Hok as (_ & _ & Hcpu & _).
  exact (percpu_cell_bounds _ _ _ Hcpu (kcpu_lookup k c Hk)).
Qed.

(** [put_reqs_available] returns: it adds [nr] to the cell of the CPU and
    moves [j] whole batches to the global counter. *)
Lemma put_reqs_available_spec (k : nat) (nr : Z) (c : kioctx) :
  counters_ok c = true -> (k < length (cpu c))%nat ->
  0 <= nr -> reqs_total c + nr < 2 ^ 31 ->
  exists j, 0 <= j /\
    put_reqs_available k nr c
    = Some (set_kcpu_reqs_available k
              (kcpu_reqs_available k c + nr - j * req_batch c)
              (set_reqs_available (reqs_available c + j * req_batch c) c)) /\
    kcpu_reqs_available k c + nr - j * req_batch c < 2 * req_batch c /\
    (0 < j <-> 2 * req_batch c <= kcpu_reqs_available k c + nr) /\
    (0 < j -> req_batch c <= kcpu_reqs_available k c + nr - j * req_batch c).
Proof.
  intros Hok Hk Hnr Hsum.
  pose proof (kcpu_bounds k c Hok Hk) as Hloc.
  apply counters_ok_elim in Hok as (Hb & Hg & Hcpu & _).
  unfold reqs_total in Hsum.
  unfold put_reqs_available.
  rewrite (u32_small (kcpu_reqs_available k c + nr)) by lia.
  destruct (put_loop_spec (Z.to_nat (kcpu_reqs_available k c + nr))
              (req_batch c) (kcpu_reqs_available k c + nr)
              (reqs_available c)) as (j & Hj & Heq & Hrest); try lia.
  exists j. split; [exact Hj|]. split; [|exact Hrest].
  rewrite Heq. reflexivity.
Qed.

Lemma kcpu_set_same (k : nat) (v : Z) (c : kioctx) :
  (k < length (cpu c))%nat ->
  kcpu_reqs_available k (set_kcpu_reqs_available k v c) = v.
Proof.
  intros Hk. unfold kcpu_reqs_available, set_kcpu_reqs_available. simpl.
  rewrite list_lookup_insert_eq by exact Hk. reflexivity.
Qed.

Lemma set_kcpu_twice (k : nat) (v v' : Z) (c : kioctx) :
  set_kcpu_reqs_available k v (set_kcpu_reqs_available k v' c)
  = set_kcpu_reqs_available k v c.
Proof.
  unfold set_kcpu_reqs_available, set_cpu. simpl.
  rewrite list_insert_insert_eq. reflexivity.
Qed.

Lemma get_reqs_available_fast (k : nat) (c : kioctx) :
  counters_ok c = true -> (k < length (cpu c))%nat ->
  kcpu_reqs_available k c <> 0 ->
  get_reqs_available k c
  = Some (true, set_kcpu_reqs_available k (kcpu_reqs_available k c - 1) c).
Proof.
  intros Hok Hk Hne. pose proof (kcpu_bounds k c Hok Hk) as Hloc.
  apply counters_ok_elim in Hok as (Hb & Hg & Hcpu & Hc & Hsum).
  unfold reqs_total in Hsum.
  unfold get_reqs_available.
  destruct (Z.eqb_spec (kcpu_reqs_available k c) 0) as [|_]; [contradiction|].
  rewrite u32_small by lia. reflexivity.
Qed.

Lemma get_reqs_available_empty (k : nat) (c : kioctx) :
  counters_ok c = true ->
  kcpu_reqs_available k c = 0 -> reqs_available c < req_batch c ->
  get_reqs_available k c = Some (false, c).
Proof.
  intros Hok H0 Hlt.
  apply counters_ok_elim in Hok as (Hb & Hg & Hcpu & Hc & Hsum).
  assert (0 <= percpu_sum (cpu c)) by (apply percpu_sum_nonneg; exact Hcpu).
  unfold reqs_total in Hsum.
  unfold get_reqs_available. rewrite H0. simpl.
  rewrite u32_small by lia.
  destruct (Z.ltb_spec (reqs_available c) (req_batch c)); [|lia].
  reflexivity.
Qed.

Lemma get_reqs_available_batch (k : nat) (c : kioctx) :
  counters_ok c = true -> (k < length (cpu c))%nat ->
  kcpu_reqs_available k c = 0 -> req_batch c <= reqs_available c ->
  get_reqs_available k c
  = Some (true,
          set_kcpu_reqs_available k (req_batch c - 1)
            (set_reqs_available (reqs_available c - req_batch c) c)).
Proof.
  intros Hok Hk H0 Hge.
  apply counters_ok_elim in Hok as (Hb & Hg & Hcpu & Hc & Hsum).
  assert (0 <= percpu_sum (cpu c)) by (apply percpu_sum_nonneg; exact Hcpu).
  unfold reqs_total in Hsum.
  unfold get_reqs_available. rewrite H0. simpl.
  rewrite (u32_small (reqs_available c)) by lia.
  destruct (Z.ltb_spec (reqs_available c) (req_batch c)); [lia|].
  unfold atomic_cmpxchg. rewrite Z.eqb_refl. simpl.
  rewrite (s32_small (reqs_available c - req_batch c)) by lia.
  set (c1 := set_reqs_available (reqs_available c - req_batch c) c).
  assert (Hk1 : (k < length (cpu c1))%nat) by exact Hk.
  assert (H01 : kcpu_reqs_available k c1 = 0) by exact H0.
  rewrite H01. rewrite kcpu_set_same by exact Hk1.
  rewrite set_kcpu_twice.
  rewrite (u32_small (0 + req_batch c)) by lia.
  rewrite u32_small by lia.
  rewrite Z.add_0_l. reflexivity.
Qed.

(** C5.  [get_reqs_available] consumes exactly one slot.  With a non-zero
    cell on the current CPU it decrements the cell and succeeds.  With a
    zero cell it moves [req_batch] slots from the global counter to the
    cell by compare-and-swap: it fails, changing nothing, when the global
    counter holds fewer than [req_batch] slots, and otherwise succeeds.
    Every successful call lowers the sum of the global counter and the
    cells by exactly one, and the call always returns. *)
Theorem get_reqs_available_consumes_one (k : nat) (c : kioctx) :
  counters_ok c = true -> (k < length (cpu c))%nat ->
  (kcpu_reqs_available k c <> 0 ->
   get_reqs_available k c
   = Some (true,
           set_kcpu_reqs_available k (kcpu_reqs_available k c - 1) c)) /\
  (kcpu_reqs_available k c = 0 -> reqs_available c < req_batch c ->
   get_reqs_available k c = Some (false, c)) /\
  (kcpu_reqs_available k c = 0 -> req_batch c <= reqs_available c ->
   get_reqs_available k c
   = Some (true,
           set_kcpu_reqs_available k (req_batch c - 1)
             (set_reqs_available (reqs_available c - req_batch c) c))) /\
  (exists got c', get_reqs_available k c = Some (got, c') /\
     reqs_total c' = reqs_total c - (if got then 1 else 0)).
Proof.
  intros Hok Hk.
  split; [apply get_reqs_available_fast; assumption|].
  split; [apply get_reqs_available_empty; assumption|].
  split; [apply get_reqs_available_batch; assumption|].
  destruct (Z.eq_dec (kcpu_reqs_available k c) 0) as [H0|Hne].
  - destruct (Z.lt_ge_cases (reqs_available c) (req_batch c)) as [Hlt|Hge].
    + exists false, c. rewrite get_reqs_available_empty by assumption.
      split; [reflexivity|lia].
    + eexists true, _. rewrite get_reqs_available_batch by assumption.
      split; [reflexivity|]. rewrite reqs_total_set by exact Hk.
      unfold reqs_total. lia.
  - eexists true, _. rewrite get_reqs_available_fast by assumption.
    split; [reflexivity|]. rewrite reqs_total_set_kcpu by exact Hk. lia.
Qed.

Lemma get_reqs_available_consumes_one_witness :
  counters_ok (ctx_with 0 126 0) = true /\
  get_reqs_available 0 (ctx_with 0 126 0)
  = Some (true, set_kcpu_reqs_available 0 30
                  (set_reqs_available 95 (ctx_with 0 126 0))).
Proof.
  split; [reflexivity|].
  apply (get_reqs_available_consumes_one 0 (ctx_with 0 126 0));
    [reflexivity | simpl; lia | reflexivity | simpl; lia].
Defined.

(** C4, as stated, fails: with [req_batch] 31, a cell holding 61 slots and
    one slot released, the cell reaches exactly two batches, which does not
    exceed two batches, and a batch is moved to the global counter all the
    same. *)
Lemma put_reqs_available_flushes_at_equality :
  ~ flushes_only_above_two_batches 0 1 (ctx_with 61 64 0).
Proof.
  intros H.
  assert (E : put_reqs_available 0 1 (ctx_with 61 64 0)
              = Some (ctx_with 31 95 0)) by reflexivity.
  specialize (H _ E). simpl in H.
  assert (Hlt : 2 * 31 < 61 + 1) by (apply H; lia).
  lia.
Qed.

(** C4, amended.  [put_reqs_available] adds [nr] slots to the cell of the
    current CPU and then moves whole batches of [req_batch] slots to the
    global counter for as long as the cell holds at least two batches, and
    no longer: some batch is moved exactly when the cell, with the slots
    added, has reached [2 * req_batch], and the number [j] of batches moved
    is then one less than the number of whole batches the cell held, so
    that the cell is left with at least one batch and fewer than two.
    After the call the cell holds fewer than two batches, the other cells
    are as before and the counter as a whole has gained [nr] slots. *)
Theorem put_reqs_available_flushes_at_two_batches (k : nat) (nr : Z)
  (c : kioctx) :
  counters_ok c = true -> (k < length (cpu c))%nat ->
  0 <= nr -> reqs_total c + nr < 2 ^ 31 ->
  exists j c',
    put_reqs_available k nr c = Some c' /\ 0 <= j /\
    kcpu_reqs_available k c'
    = kcpu_reqs_available k c + nr - j * req_batch c /\
    reqs_available c' = reqs_available c + j * req_batch c /\
    (forall k', k' <> k -> cpu c' !! k' = cpu c !! k') /\
    (0 < j <-> 2 * req_batch c <= kcpu_reqs_available k c + nr) /\
    (0 < j -> req_batch c <= kcpu_reqs_available k c') /\
    j = (if 2 * req_batch c <=? kcpu_reqs_available k c + nr
         then (kcpu_reqs_available k c + nr) / req_batch c - 1 else 0) /\
    kcpu_reqs_available k c' < 2 * req_batch c /\
    reqs_total c' = reqs_total c + nr.
Proof.
  intros Hok Hk Hnr Hsum.
  pose proof (counters_ok_elim c Hok) as (Hb & _).
  destruct (put_reqs_available_spec k nr c Hok Hk Hnr Hsum)
    as (j & Hj & Heq & Hlt & Hiff & Hrest).
  eexists j, _. split; [exact Heq|]. split; [exact Hj|].
  rewrite kcpu_set_same by exact Hk.
  split; [reflexivity|]. split; [reflexivity|].
  split.
  { intros k' Hne. unfold set_kcpu_reqs_available. simpl.
    apply list_lookup_insert_ne. congruence. }
  split; [exact Hiff|]. split; [exact Hrest|]. split.
  { destruct (Z.leb_spec (2 * req_batch c) (kcpu_reqs_available k c + nr))
      as [Hge|Hsmall].
    - specialize (Hrest (proj2 Hiff Hge)).
      assert (Hq : (kcpu_reqs_available k c + nr) / req_batch c = j + 1).
      { symmetry.
        apply (Z.div_unique _ _ _
                 (kcpu_reqs_available k c + nr - j * req_batch c
                  - req_batch c)); [lia|nia]. }
      lia.
    - destruct (Z.eq_dec j 0) as [->|Hne]; [reflexivity|].
      assert (H0 : 0 < j) by lia. apply Hiff in H0. lia. }
  split; [exact Hlt|].
  rewrite reqs_total_set by exact Hk. unfold reqs_total. lia.
Qed.

Lemma put_reqs_available_flushes_at_two_batches_witness :
  counters_ok (ctx_with 61 64 0) = true /\
  exists j c',
    put_reqs_available 0 1 (ctx_with 61 64 0) = Some c' /\ 0 <= j /\
    kcpu_reqs_available 0 c' = 61 + 1 - j * 31 /\
    reqs_available c' = 64 + j * 31 /\
    (forall k', k' <> 0%nat ->
       cpu c' !! k' = cpu (ctx_with 61 64 0) !! k') /\
    (0 < j <-> 2 * 31 <= 61 + 1) /\
    (0 < j -> 31 <= kcpu_reqs_available 0 c') /\
    j = 1 /\
    kcpu_reqs_available 0 c' < 2 * 31 /\
    reqs_total c' = 125 + 1.
Proof.
  split; [reflexivity|].
  apply (put_reqs_available_flushes_at_two_batches 0 1 (ctx_with 61 64 0));
    [reflexivity | simpl; lia | lia | vm_compute; reflexivity].
Defined.


(** *** Frames *)

Lemma frame_refl (c : kioctx) : frame c c.
Proof. unfold frame. tauto. Qed.

Lemma frame_trans (c1 c2 c3 : kioctx) :
  frame c1 c2 -> frame c2 c3 -> frame c1 c3.
Proof. unfold frame. intuition congruence. Qed.

Lemma same_ring_refl (c : kioctx) : same_ring c c.
Proof. unfold same_ring. tauto. Qed.

Lemma same_ring_trans (c1 c2 c3 : kioctx) :
  same_ring c1 c2 -> same_ring c2 c3 -> same_ring c1 c3.
Proof. unfold same_ring. intuition congruence. Qed.

Lemma frame_set_kcpu (k : nat) (v g : Z) (c : kioctx) :
  frame c (set_kcpu_reqs_available k v (set_reqs_available g c)).
Proof.
  unfold frame, set_kcpu_reqs_available. simpl.
  rewrite length_insert. tauto.
Qed.

(** [put_reqs_available] on a well-formed context returns a well-formed
    context holding [nr] more slots. *)
Lemma put_reqs_available_ok (k : nat) (nr : Z) (c : kioctx) :
  counters_ok c = true -> (k < length (cpu c))%nat -> 0 <= nr ->
  reqs_total c + completed_events c + nr < 2 ^ 31 ->
  exists c',
    put_reqs_available k nr c = Some c' /\ frame c c' /\ same_ring c c' /\
    counters_ok c' = true /\ reqs_total c' = reqs_total c + nr /\
    completed_events c' = completed_events c /\ reqs c' = reqs c /\
    (0 < nr -> 0 < kcpu_reqs_available k c').
Proof.
  intros Hok Hk Hnr Hsum.
  pose proof (kcpu_bounds k c Hok Hk) as Hloc.
  pose proof (counters_ok_elim c Hok) as (Hb & Hg & Hcpu & Hc & Hs).
  destruct (put_reqs_available_spec k nr c Hok Hk Hnr ltac:(lia))
    as (j & Hj & Heq & Hlt & Hiff & Hrest).
  eexists. split; [exact Heq|].
  assert (Hv : 0 <= kcpu_reqs_available k c + nr - j * req_batch c).
  { destruct (Z.eq_dec j 0) as [->|Hne]; [lia|].
    assert (0 < j) by lia. specialize (Hrest H). lia. }
  assert (Htot : reqs_total
                   (set_kcpu_reqs_available k
                      (kcpu_reqs_available k c + nr - j * req_batch c)
                      (set_reqs_available
                         (reqs_available c + j * req_batch c) c))
                 = reqs_total c + nr).
  { rewrite reqs_total_set by exact Hk. unfold reqs_total. lia. }
  split; [apply frame_set_kcpu|].
  split; [unfold same_ring; simpl; tauto|].
  split.
  { apply counters_ok_intro; rewrite ?Htot; simpl; try lia.
    apply forallb_insert_nonneg; assumption. }
  split; [exact Htot|]. split; [reflexivity|]. split; [reflexivity|].
  intros Hpos. rewrite kcpu_set_same by exact Hk.
  destruct (Z.eq_dec j 0) as [->|Hne]; [lia|].
  assert (0 < j) by lia. specialize (Hrest H). lia.
Qed.

(** [get_reqs_available] on a well-formed context returns a well-formed
    context. *)
Lemma get_reqs_available_ok (k : nat) (c : kioctx) :
  counters_ok c = true -> (k < length (cpu c))%nat ->
  exists got c',
    get_reqs_available k c = Some (got, c') /\ frame c c' /\
    same_ring c c' /\ counters_ok c' = true /\
    reqs_total c' = reqs_total c - (if got then 1 else 0) /\
    completed_events c' = completed_events c /\ reqs c' = reqs c /\
    (got = false -> c' = c /\ kcpu_reqs_available k c = 0) /\
    (0 < kcpu_reqs_available k c -> got = true).
Proof.
  intros Hok Hk.
  pose proof (kcpu_bounds k c Hok Hk) as Hloc.
  pose proof (counters_ok_elim c Hok) as (Hb & Hg & Hcpu & Hc & Hs).
  destruct (Z.eq_dec (kcpu_reqs_available k c) 0) as [H0|Hne].
  - destruct (Z.lt_ge_cases (reqs_available c) (req_batch c)) as [Hlt|Hge].
    + exists false, c. rewrite get_reqs_available_empty by assumption.
      split; [reflexivity|]. split; [apply frame_refl|].
      split; [apply same_ring_refl|]. split; [exact Hok|].
      repeat split; auto; lia.
    + eexists true, _. rewrite get_reqs_available_batch by assumption.
      split; [reflexivity|].
      assert (Htot : reqs_total
                (set_kcpu_reqs_available k (req_batch c - 1)
                   (set_reqs_available (reqs_available c - req_batch c) c))
              = reqs_total c - 1).
      { rewrite reqs_total_set by exact Hk. unfold reqs_total. lia. }
      split; [apply frame_set_kcpu|].
      split; [unfold same_ring; simpl; tauto|].
      split.
      { apply counters_ok_intro; rewrite ?Htot; simpl; try lia.
        apply forallb_insert_nonneg; [assumption|lia]. }
      split; [exact Htot|]. repeat split; auto; discriminate.
  - eexists true, _. rewrite get_reqs_available_fast by assumption.
    split; [reflexivity|].
    assert (Htot : reqs_total
              (set_kcpu_reqs_available k (kcpu_reqs_available k c - 1) c)
            = reqs_total c - 1).
    { rewrite reqs_total_set_kcpu by exact Hk. lia. }
    split.
    { unfold frame, set_kcpu_reqs_available. simpl.
      rewrite length_insert. tauto. }
    split; [unfold same_ring; simpl; tauto|].
    split.
    { apply counters_ok_intro; rewrite ?Htot; simpl; try lia.
      apply forallb_insert_nonneg; [assumption|lia]. }
    split; [exact Htot|]. repeat split; auto; discriminate.
Qed.

(** *** Refilling *)

(** [refill_reqs_available] returns for every value of [head]; it gives
    [n] slots back, never more than [completed_events] holds, and takes
    them off [completed_events]. *)
Lemma refill_reqs_available_ok (k : nat) (head tail : Z) (c : kioctx) :
  counters_ok c = true -> (k < length (cpu c))%nat ->
  0 < nr_events c < 2 ^ 31 -> 0 <= tail < nr_events c ->
  exists c' n,
    refill_reqs_available k head tail c = Some (c', n) /\ frame c c' /\
    same_ring c c' /\ counters_ok c' = true /\
    0 <= n <= completed_events c /\
    completed_events c' = completed_events c - n /\
    reqs_total c' = reqs_total c + n /\ reqs c' = reqs c /\
    (0 < n -> 0 < kcpu_reqs_available k c').
Proof.
  intros Hok Hk HN Ht.
  pose proof (counters_ok_elim c Hok) as (Hb & Hg & Hcpu & Hc & Hs).
  assert (0 <= percpu_sum (cpu c)) by (apply percpu_sum_nonneg; exact Hcpu).
  unfold reqs_total in Hs.
  unfold refill_reqs_available.
  pose proof (Z.mod_pos_bound head (nr_events c) ltac:(lia)) as Hh.
  set (h := head mod nr_events c) in *.
  set (in_ring := if h <=? tail then u32 (tail - h)
                  else u32 (nr_events c - u32 (h - tail))).
  assert (Hin : 0 <= in_ring <= nr_events c).
  { unfold in_ring. destruct (Z.leb_spec h tail).
    - rewrite u32_small by lia. lia.
    - rewrite (u32_small (h - tail)) by lia. rewrite u32_small by lia. lia. }
  set (n := if in_ring <? completed_events c
            then u32 (completed_events c - in_ring) else 0).
  assert (Hn : 0 <= n <= completed_events c).
  { unfold n. destruct (Z.ltb_spec in_ring (completed_events c)).
    - rewrite u32_small by lia. lia.
    - lia. }
  destruct (Z.eqb_spec n 0) as [Hz|Hnz].
  - exists c, 0. split; [reflexivity|]. split; [apply frame_refl|].
    split; [apply same_ring_refl|]. split; [exact Hok|].
    repeat split; try lia.
  - rewrite (u32_small (completed_events c - n)) by lia.
    set (c1 := set_completed_events (completed_events c - n) c).
    assert (Hok1 : counters_ok c1 = true).
    { apply counters_ok_intro; simpl; try assumption; try lia.
      unfold reqs_total. simpl. lia. }
    destruct (put_reqs_available_ok k n c1 Hok1 Hk ltac:(lia))
      as (c' & Heq & Hfr & Hsr & Hok' & Htot & Hce & Hrq & Hpos).
    { unfold reqs_total. simpl. lia. }
    rewrite Heq. cbn [obind].
    exists c', n. split; [reflexivity|].
    split; [exact Hfr|]. split; [exact Hsr|]. split; [exact Hok'|].
    split; [lia|]. split; [rewrite Hce; reflexivity|].
    split; [rewrite Htot; reflexivity|]. split; [exact Hrq|]. exact Hpos.
Qed.

Lemma user_refill_reqs_available_ok (k : nat) (c : kioctx) :
  counters_ok c = true -> (k < length (cpu c))%nat ->
  0 < nr_events c < 2 ^ 31 -> 0 <= tail c < nr_events c ->
  exists c' n,
    user_refill_reqs_available k c = Some (c', n) /\ frame c c' /\
    same_ring c c' /\ counters_ok c' = true /\
    0 <= n <= completed_events c /\
    completed_events c' = completed_events c - n /\
    reqs_total c' = reqs_total c + n /\ reqs c' = reqs c /\
    (0 < n -> 0 < kcpu_reqs_available k c').
Proof.
  intros Hok Hk HN Ht. unfold user_refill_reqs_available.
  pose proof (counters_ok_elim c Hok) as (_ & _ & _ & Hc & _).
  destruct (Z.eqb_spec (completed_events c) 0) as [Hz|Hnz].
  - exists c, 0. split; [reflexivity|]. split; [apply frame_refl|].
    split; [apply same_ring_refl|]. split; [exact Hok|].
    repeat split; try lia.
  - apply refill_reqs_available_ok; assumption.
Qed.

(** *** Allocating a request *)

Lemma counters_ok_set_reqs (r : percpu_ref) (c : kioctx) :
  counters_ok c = true -> counters_ok (set_reqs r c) = true.
Proof. intros Hok. exact Hok. Qed.

(** [aio_get_req] returns.  [n] is the number of slots the refill moved
    from [completed_events] to the counter on the way. *)
Lemma aio_get_req_ok (k : nat) (alloc_ok : bool) (c : kioctx) :
  counters_ok c = true -> (k < length (cpu c))%nat ->
  0 < nr_events c < 2 ^ 31 -> 0 <= tail c < nr_events c ->
  exists r c' n,
    aio_get_req k alloc_ok c = Some (r, c') /\ frame c c' /\
    same_ring c c' /\ counters_ok c' = true /\
    0 <= n <= completed_events c /\
    completed_events c' = completed_events c - n /\
    (kcpu_reqs_available k c <> 0 \/ req_batch c <= reqs_available c ->
     n = 0) /\
    match r with
    | Some req =>
        req = zeroed_kiocb /\ alloc_ok = true /\
        reqs_total c' = reqs_total c + n - 1 /\
        reqs c' = percpu_ref_get (reqs c)
    | None =>
        reqs_total c' = reqs_total c + n /\ reqs c' = reqs c
    end.
Proof.
  intros Hok Hk HN Ht.
  pose proof (kcpu_bounds k c Hok Hk) as Hloc.
  pose proof (counters_ok_elim c Hok) as (Hb & Hg & Hcpu & Hc & Hs).
  unfold aio_get_req.
  destruct (get_reqs_available_ok k c Hok Hk)
    as (got & c1 & Heq1 & Hfr1 & Hsr1 & Hok1 & Htot1 & Hce1 & Hrq1 & Hno1 & Hyes1).
  rewrite Heq1. cbn [obind].
  (* the state after the reservation attempts: [c2], with [n] refilled *)
  assert (Hmid : exists got2 c2 n,
    (if got then Some (true, c1)
     else do '(c1', _) <- user_refill_reqs_available k c1;
          get_reqs_available k c1') = Some (got2, c2) /\
    frame c c2 /\ same_ring c c2 /\ counters_ok c2 = true /\
    0 <= n <= completed_events c /\
    completed_events c2 = completed_events c - n /\
    (kcpu_reqs_available k c <> 0 \/ req_batch c <= reqs_available c ->
     n = 0) /\
    reqs_total c2 = reqs_total c + n - (if got2 then 1 else 0) /\
    reqs c2 = reqs c).
  { destruct got.
    - exists true, c1, 0. split; [reflexivity|].
      splits; try assumption; try lia.
    - destruct (Hno1 eq_refl) as (-> & H0).
      destruct (user_refill_reqs_available_ok k c Hok Hk HN Ht)
        as (c1' & n & Heq2 & Hfr2 & Hsr2 & Hok2 & Hn & Hce2 & Htot2 & Hrq2 & Hpos).
      rewrite Heq2. cbn [obind].
      assert (Hk2 : (k < length (cpu c1'))%nat).
      { destruct Hfr2 as (_ & _ & _ & _ & _ & _ & _ & _ & _ & _ & _ & Hlen).
        rewrite Hlen. exact Hk. }
      destruct (get_reqs_available_ok k c1' Hok2 Hk2)
        as (got2 & c2 & Heq3 & Hfr3 & Hsr3 & Hok3 & Htot3 & Hce3 & Hrq3 & _ & _).
      exists got2, c2, n. split; [exact Heq3|].
      split; [eapply frame_trans; eassumption|].
      split; [eapply same_ring_trans; eassumption|].
      split; [exact Hok3|]. split; [exact Hn|].
      split; [lia|].
      split.
      { intros [Hne|Hge]; [contradiction|].
        (* the first attempt fails only below one batch *)
        exfalso. revert Heq1. rewrite get_reqs_available_batch by assumption.
        discriminate. }
      split; [lia|]. congruence. }
  destruct Hmid as (got2 & c2 & n & Heq2 & Hfr2 & Hsr2 & Hok2 & Hn & Hce2 & Hz & Htot2 & Hrq2).
  rewrite Heq2. cbn [obind].
  pose proof (counters_ok_elim c2 Hok2) as (_ & _ & _ & _ & Hs2).
  assert (Hk2 : (k < length (cpu c2))%nat).
  { destruct Hfr2 as (_ & _ & _ & _ & _ & _ & _ & _ & _ & _ & _ & Hlen).
    rewrite Hlen. exact Hk. }
  destruct got2.
  - destruct alloc_ok.
    + exists (Some zeroed_kiocb), (set_reqs (percpu_ref_get (reqs c2)) c2), n.
      split; [reflexivity|].
      split; [eapply frame_trans; [exact Hfr2|unfold frame; simpl; tauto]|].
      split; [eapply same_ring_trans; [exact Hsr2|unfold same_ring; simpl; tauto]|].
      split.
      { apply counters_ok_set_reqs. exact Hok2. }
      split; [exact Hn|]. split; [exact Hce2|]. split; [exact Hz|].
      simpl. rewrite Hrq2. splits; auto.
    + destruct (put_reqs_available_ok k 1 c2 Hok2 Hk2 ltac:(lia))
        as (c3 & Heq3 & Hfr3 & Hsr3 & Hok3 & Htot3 & Hce3 & Hrq3 & _).
      { lia. }
      rewrite Heq3. cbn [obind].
      exists None, c3, n. split; [reflexivity|].
      split; [eapply frame_trans; eassumption|].
      split; [eapply same_ring_trans; eassumption|].
      split; [exact Hok3|]. split; [exact Hn|]. split; [lia|].
      split; [exact Hz|]. split; [lia|congruence].
  - exists None, c2, n. split; [reflexivity|].
    splits; try assumption; try lia.
Qed.


Lemma percpu_ref_put_get (r : percpu_ref) :
  percpu_ref_put (percpu_ref_get r) = r.
Proof.
  destruct r as [n d]. unfold percpu_ref_put, percpu_ref_get. simpl.
  f_equal. lia.
Qed.

(** The [out_put_req] exit gives the reserved slot back and drops the
    reference of the request. *)
Lemma out_put_req_ok (k : nat) (ret : Z) (c : kioctx) :
  counters_ok c = true -> (k < length (cpu c))%nat ->
  reqs_total c + completed_events c + 1 < 2 ^ 31 ->
  exists c',
    out_put_req k ret c = Some (s32 ret, c') /\ frame c c' /\
    same_ring c c' /\ counters_ok c' = true /\
    reqs_total c' = reqs_total c + 1 /\
    completed_events c' = completed_events c /\
    reqs c' = percpu_ref_put (reqs c).
Proof.
  intros Hok Hk Hsum. unfold out_put_req.
  destruct (put_reqs_available_ok k 1 c Hok Hk ltac:(lia) ltac:(lia))
    as (c1 & Heq & Hfr & Hsr & Hok1 & Htot & Hce & Hrq & _).
  rewrite Heq. cbn [obind].
  eexists. split; [reflexivity|].
  split; [eapply frame_trans; [exact Hfr|unfold frame; simpl; tauto]|].
  split; [eapply same_ring_trans; [exact Hsr|unfold same_ring; simpl; tauto]|].
  split; [exact Hok1|]. simpl. rewrite Hrq. auto.
Qed.

(** ** The completion ring *)

Section Ring.

Variable K : kconfig.

Lemma config_ok_elim :
  config_ok K = true ->
  6 <= PAGE_SHIFT K <= 24 /\ 1 <= num_possible_cpus K < 2 ^ 16 /\
  (BITS_PER_LONG K = 32 \/ BITS_PER_LONG K = 64).
Proof.
  unfold config_ok. rewrite !andb_true_iff, orb_true_iff.
  rewrite !Z.leb_le, !Z.ltb_lt, !Z.eqb_eq. tauto.
Qed.

Lemma ulong_small (x : Z) :
  config_ok K = true -> 0 <= x < 2 ^ 32 -> ulong K x = x.
Proof.
  intros Hc Hx. apply config_ok_elim in Hc as (_ & _ & [Hb|Hb]).
  - unfold ulong. rewrite Hb. apply Z.mod_small. exact Hx.
  - unfold ulong. rewrite Hb. apply Z.mod_small. lia.
Qed.

Lemma to_long_small (x : Z) :
  config_ok K = true -> - 2 ^ 31 <= x < 2 ^ 31 -> to_long K x = x.
Proof.
  intros Hc Hx. apply config_ok_elim in Hc as (_ & _ & [Hb|Hb]);
    unfold to_long; rewrite Hb; simpl; rewrite Z.mod_small; lia.
Qed.

(** The page geometry: a page holds [P] records, the first page one
    fewer, so the records start one slot into the first page. *)
Lemma page_geometry :
  config_ok K = true ->
  exists P, 2 <= P <= 2 ^ 19 /\ PAGE_SIZE K = 32 * P /\
    AIO_EVENTS_PER_PAGE K = P /\ AIO_EVENTS_FIRST_PAGE K = P - 1 /\
    AIO_EVENTS_OFFSET K = 1.
Proof.
  intros Hc. apply config_ok_elim in Hc as (Hs & _ & _).
  exists (2 ^ (PAGE_SHIFT K - 5)).
  assert (Hpow : 2 ^ PAGE_SHIFT K = 32 * 2 ^ (PAGE_SHIFT K - 5)).
  { replace (PAGE_SHIFT K) with (5 + (PAGE_SHIFT K - 5)) at 1 by lia.
    rewrite Z.pow_add_r by lia. reflexivity. }
  assert (Hlo : 2 ^ 1 <= 2 ^ (PAGE_SHIFT K - 5))
    by (apply Z.pow_le_mono_r; lia).
  assert (Hhi : 2 ^ (PAGE_SHIFT K - 5) <= 2 ^ 19)
    by (apply Z.pow_le_mono_r; lia).
  assert (Hps : PAGE_SIZE K = 32 * 2 ^ (PAGE_SHIFT K - 5)).
  { unfold PAGE_SIZE. rewrite Z.shiftl_1_l. exact Hpow. }
  assert (Hpp : AIO_EVENTS_PER_PAGE K = 2 ^ (PAGE_SHIFT K - 5)).
  { unfold AIO_EVENTS_PER_PAGE, sizeof_io_event. rewrite Hps.
    rewrite Z.mul_comm. apply Z.div_mul. lia. }
  assert (Hfp : AIO_EVENTS_FIRST_PAGE K = 2 ^ (PAGE_SHIFT K - 5) - 1).
  { unfold AIO_EVENTS_FIRST_PAGE, sizeof_io_event, sizeof_aio_ring.
    rewrite Hps.
    replace (32 * 2 ^ (PAGE_SHIFT K - 5) - 32)
      with ((2 ^ (PAGE_SHIFT K - 5) - 1) * 32) by lia.
    apply Z.div_mul. lia. }
  split; [simpl in Hlo; lia|]. split; [exact Hps|]. split; [exact Hpp|].
  split; [exact Hfp|]. unfold AIO_EVENTS_OFFSET. lia.
Qed.

Lemma ring_ok_elim (c : kioctx) :
  ring_ok K c = true ->
  1 <= nr_pages c < 2 ^ 23 /\
  nr_events c = (PAGE_SIZE K * nr_pages c - sizeof_aio_ring) / sizeof_io_event /\
  nr_events c < 2 ^ 31 /\
  0 <= tail c < nr_events c.
Proof.
  unfold ring_ok. rewrite !andb_true_iff.
  rewrite !Z.leb_le, !Z.ltb_lt, !Z.eqb_eq. tauto.
Qed.

Lemma ring_size (c : kioctx) (P : Z) :
  ring_ok K c = true -> PAGE_SIZE K = 32 * P -> 2 <= P <= 2 ^ 19 ->
  nr_events c = P * nr_pages c - 1 /\ 1 <= nr_events c < 2 ^ 31.
Proof.
  intros Hr Hps HP. apply ring_ok_elim in Hr as (Hnp & Hnr & Hlt & _).
  assert (nr_events c = P * nr_pages c - 1).
  { rewrite Hnr, Hps. unfold sizeof_aio_ring, sizeof_io_event.
    replace (32 * P * nr_pages c - 32) with ((P * nr_pages c - 1) * 32)
      by lia.
    apply Z.div_mul. lia. }
  split; [assumption|]. nia.
Qed.


Lemma long_max_ge :
  config_ok K = true -> 2 ^ 31 - 1 <= LONG_MAX K.
Proof.
  intros Hc. apply config_ok_elim in Hc as (_ & _ & [Hb|Hb]);
    unfold LONG_MAX; rewrite Hb; simpl; lia.
Qed.

Lemma to_long_id (x : Z) :
  config_ok K = true -> - LONG_MAX K - 1 <= x <= LONG_MAX K ->
  to_long K x = x.
Proof.
  intros Hc. unfold LONG_MAX, to_long.
  apply config_ok_elim in Hc as (_ & _ & [Hb|Hb]); rewrite Hb; simpl;
    intros Hx; rewrite Z.mod_small; lia.
Qed.

(** The loop of [aio_read_events_ring] returns, and every access it makes
    is inside the ring. *)
Lemma read_loop_spec (c : kioctx) (fuel : nat) :
  config_ok K = true -> ring_ok K c = true ->
  forall copies nr head tail ret,
  0 <= head < nr_events c -> 0 <= tail < nr_events c -> 0 <= ret ->
  nr <= LONG_MAX K -> (Z.to_nat (nr - ret) <= fuel)%nat ->
  exists e accs,
    read_loop K fuel copies (nr_events c) nr head tail ret = Some (e, accs) /\
    Forall (access_in_ring K c) accs /\
    match e with
    | LoopDone r h =>
        0 <= h < nr_events c /\ ret <= r <= Z.max ret nr /\
        (head = tail -> r = ret /\ accs = [])
    | LoopFault => True
    end.
Proof.
  intros Hc Hr.
  destruct (page_geometry Hc) as (P & HP & Hps & Hpp & Hfp & Hoff).
  destruct (ring_size c P Hr Hps HP) as (HN & HNr).
  pose proof (ring_ok_elim c Hr) as (Hnp & _ & _ & _).
  pose proof (long_max_ge Hc) as Hlm.
  induction fuel as [|fuel IH]; intros copies nr head tail ret Hh Ht Hret Hnr Hfuel;
    cbn [read_loop].
  - destruct (Z.ltb_spec ret nr); [lia|].
    exists (LoopDone ret head), []. repeat split; auto; lia.
  - destruct (Z.ltb_spec ret nr) as [Hlt|Hge].
    2:{ exists (LoopDone ret head), []. repeat split; auto; lia. }
    destruct (Z.eqb_spec head tail) as [Heq|Hne].
    { exists (LoopDone ret head), []. repeat split; auto; lia. }
    rewrite Hpp, Hoff.
    set (lim := if head <=? tail then tail else nr_events c).
    assert (Hlim : head < lim <= nr_events c).
    { unfold lim. destruct (Z.leb_spec head tail); lia. }
    rewrite (u32_small (lim - head)) by lia.
    rewrite (to_long_id (lim - head)) by (auto; lia).
    rewrite (to_long_id (nr - ret)) by (auto; lia).
    rewrite (ulong_small (head + 1)) by (auto; lia).
    rewrite (u32_small (head + 1)) by lia.
    pose proof (Z.mod_pos_bound (head + 1) P ltac:(lia)) as Hmod.
    rewrite (ulong_small (P - (head + 1) mod P)) by (auto; lia).
    rewrite (to_long_id (P - (head + 1) mod P)) by (auto; lia).
    set (avail := Z.min (Z.min (lim - head) (nr - ret))
                    (P - (head + 1) mod P)).
    assert (Hav : 1 <= avail /\ avail <= lim - head /\ avail <= nr - ret
                  /\ avail <= P - (head + 1) mod P) by (unfold avail; lia).
    set (a := {| acc_page := (head + 1) / P; acc_slot := (head + 1) mod P;
                 acc_n := avail |}).
    assert (Ha : access_in_ring K c a).
    { unfold access_in_ring. rewrite Hpp, Hoff. simpl.
      pose proof (Z.div_mod (head + 1) P ltac:(lia)) as Hdm.
      assert (0 <= (head + 1) / P) by (apply Z.div_pos; lia).
      assert ((head + 1) / P < nr_pages c)
        by (apply Z.div_lt_upper_bound; nia).
      repeat split; try lia. }
    destruct (List.hd 0 copies =? 0); cbn [negb].
    2:{ exists LoopFault, [a]. repeat split; auto. }
    rewrite (to_long_id (ret + avail)) by (auto; lia).
    rewrite (u32_small (head + avail)) by lia.
    destruct (IH (List.tl copies) nr ((head + avail) mod nr_events c) tail
                (ret + avail)) as (e & accs & Heq & Hall & He); try lia.
    { apply Z.mod_pos_bound. lia. }
    rewrite Heq. cbn [obind].
    exists e, (a :: accs). split; [reflexivity|]. split; [constructor; auto|].
    destruct e as [r h|]; [|exact I].
    destruct He as (Hh' & Hr' & _). split; [exact Hh'|]. split; [lia|].
    intros; contradiction.
Qed.


(** C1.  Whatever value userspace writes into the [head] field of the ring
    header, [aio_read_events_ring] returns, and each of its accesses stays
    within one page of the ring and covers only records below [nr_events];
    [refill_reqs_available], called with that head and a tail inside the
    ring, returns and gives back no more slots than [completed_events]
    holds, taking them off [completed_events].  The reap returns
    [-EFAULT] or a count between 0 and [nr], and it returns 0 without any
    access when the head written equals the tail modulo [nr_events]. *)
Theorem hostile_head_is_harmless (c : kioctx) (h : Z) (k : nat)
  (copies : list Z) (nr : Z) :
  config_ok K = true -> ring_ok K c = true -> counters_ok c = true ->
  (k < length (cpu c))%nat -> nr <= LONG_MAX K ->
  (exists ret c' accs,
     aio_read_events_ring K copies nr (write_ring_head h c)
     = Some (ret, c', accs) /\
     Forall (access_in_ring K c) accs /\
     (ret = - EFAULT \/ 0 <= ret <= Z.max 0 nr) /\
     (h mod nr_events c = ring_tail (ring c) mod nr_events c ->
      ret = 0 /\ accs = [])) /\
  (forall t, 0 <= t < nr_events c ->
     exists c' n,
       refill_reqs_available k h t c = Some (c', n) /\
       0 <= n <= completed_events c /\
       completed_events c' = completed_events c - n /\
       reqs_total c' = reqs_total c + n).
Proof.
  intros Hc Hr Hok Hk Hnr.
  destruct (page_geometry Hc) as (P & HP & Hps & _).
  destruct (ring_size c P Hr Hps HP) as (_ & HN).
  split.
  - unfold aio_read_events_ring, write_ring_head. simpl.
    destruct (Z.eqb_spec h (ring_tail (ring c))) as [Heq|Hne].
    { exists 0, (write_ring_head h c), []. split; [reflexivity|].
      split; [constructor|]. split; [right; lia|]. auto. }
    destruct (read_loop_spec c (Z.to_nat nr) Hc Hr copies nr
                (h mod nr_events c) (ring_tail (ring c) mod nr_events c) 0)
      as (e & accs & Heq & Hall & He); try lia;
      try (apply Z.mod_pos_bound; lia).
    rewrite Heq. cbn [obind].
    destruct e as [r h'|].
    + destruct He as (Hh' & Hr' & Hempty).
      eexists r, _, accs. split; [reflexivity|]. split; [exact Hall|].
      split; [right; lia|]. exact Hempty.
    + eexists (- EFAULT), _, accs. split; [reflexivity|].
      split; [exact Hall|]. split; [left; reflexivity|].
      intros Hm.
      (* a fault needs an access, which an empty ring does not make *)
      exfalso. revert Heq. destruct (Z.to_nat nr) as [|fuel];
        cbn [read_loop]; destruct (0 <? nr); try discriminate.
      rewrite Hm, Z.eqb_refl. discriminate.
  - intros t Ht.
    destruct (refill_reqs_available_ok k h t c Hok Hk ltac:(lia) Ht)
      as (c' & n & Heq & _ & _ & _ & Hn & Hce & Htot & _).
    exists c', n. auto.
Qed.

(** *** The producer *)

Lemma ring_ok_intro (c : kioctx) :
  1 <= nr_pages c < 2 ^ 23 ->
  nr_events c = (PAGE_SIZE K * nr_pages c - sizeof_aio_ring) / sizeof_io_event ->
  nr_events c < 2 ^ 31 -> 0 <= tail c < nr_events c ->
  ring_ok K c = true.
Proof.
  intros. unfold ring_ok. rewrite !andb_true_iff.
  rewrite !Z.leb_le, !Z.ltb_lt, !Z.eqb_eq. tauto.
Qed.

Lemma ring_ok_frame (c c' : kioctx) :
  ring_ok K c = true -> frame c c' -> tail c' = tail c ->
  ring_ok K c' = true.
Proof.
  intros Hr Hfr Ht. apply ring_ok_elim in Hr as (Hnp & Hnr & Hlt & Htl).
  destruct Hfr as (_ & _ & _ & _ & _ & HN & _ & _ & HP & _).
  apply ring_ok_intro; rewrite ?HN, ?HP, ?Ht; assumption.
Qed.

Lemma frame_length (c c' : kioctx) (k : nat) :
  frame c c' -> (k < length (cpu c))%nat -> (k < length (cpu c'))%nat.
Proof.
  intros Hfr Hk.
  destruct Hfr as (_ & _ & _ & _ & _ & _ & _ & _ & _ & _ & _ & Hlen).
  rewrite Hlen. exact Hk.
Qed.

Lemma tail_advance (t N : Z) :
  0 <= t < N ->
  (if N <=? t + 1 then 0 else t + 1) = (t + 1) mod N.
Proof.
  intros Ht. destruct (Z.leb_spec N (t + 1)).
  - replace (t + 1) with N by lia. symmetry. apply Z_mod_same_full.
  - symmetry. apply Z.mod_small. lia.
Qed.

(** [aio_complete] returns.  [n] is the number of slots its refill gave
    back. *)
Lemma aio_complete_ok (k : nat) (iocb : aio_kiocb) (res res2 : Z)
  (c : kioctx) :
  config_ok K = true -> ring_ok K c = true -> counters_ok c = true ->
  (k < length (cpu c))%nat ->
  reqs_total c + completed_events c + 1 < 2 ^ 31 ->
  let pos := tail c + AIO_EVENTS_OFFSET K in
  let page := pos / AIO_EVENTS_PER_PAGE K in
  let slot := pos mod AIO_EVENTS_PER_PAGE K in
  let ev := {| ev_obj := u64 (ulong K (ki_user_iocb iocb));
               ev_data := ki_user_data iocb;
               ev_res := res; ev_res2 := res2 |} in
  let tail' := (tail c + 1) mod nr_events c in
  exists c' n,
    aio_complete K k iocb res res2 c
    = Some (c',
            (if ki_list_next iocb
             then [ALock ctx_lock; AListDel; AUnlock ctx_lock] else [])
            ++ [ALock completion_lock; AWriteEvent page slot ev;
                AStoreCtxTail tail'; AStoreRingTail tail';
                AIncCompletedEvents]
            ++ (if 1 <? completed_events c + 1
                then [ARefill (ring_head (ring c)) tail'] else [])
            ++ [AUnlock completion_lock]
            ++ match ki_eventfd iocb with
               | Some e => [AEventfdSignal e]
               | None => []
               end
            ++ [AKiocbFree; AWakeUpIfActive; ARefPutReqs]) /\
    frame c c' /\ ring_ok K c' = true /\ counters_ok c' = true /\
    0 <= n <= completed_events c + 1 /\
    (completed_events c = 0 -> n = 0) /\
    completed_events c' = completed_events c + 1 - n /\
    reqs_total c' = reqs_total c + n /\
    reqs c' = percpu_ref_put (reqs c) /\
    tail c' = tail' /\ ring c' = set_ring_tail tail' (ring c) /\
    ring_events c' = <[(page, slot) := ev]> (ring_events c).
Proof.
  intros Hc Hr Hok Hk Hsum.
  destruct (page_geometry Hc) as (P & HP & Hps & Hpp & Hfp & Hoff).
  destruct (ring_size c P Hr Hps HP) as (HN & HNr).
  pose proof (ring_ok_elim c Hr) as (Hnp & Hnr & _ & Htl).
  pose proof (counters_ok_elim c Hok) as (Hb & Hg & Hcpu & Hce & Hs).
  assert (Htot0 : 0 <= reqs_total c).
  { unfold reqs_total. pose proof (percpu_sum_nonneg _ Hcpu). lia. }
  cbv zeta. unfold aio_complete.
  rewrite (u32_small (tail c + 1)) by lia.
  rewrite (u32_small (completed_events _ + 1))
    by (cbn [completed_events set_ring set_tail set_ring_events]; lia).
  rewrite (ulong_small (tail c + AIO_EVENTS_OFFSET K)) by (auto; lia).
  rewrite (u32_small (tail c + AIO_EVENTS_OFFSET K)) by lia.
  rewrite (tail_advance (tail c) (nr_events c) Htl).
  set (tail1 := (tail c + 1) mod nr_events c).
  assert (Ht1 : 0 <= tail1 < nr_events c)
    by (apply Z.mod_pos_bound; lia).
  match goal with
  | |- context [set_completed_events ?v ?c3] =>
      set (c4 := set_completed_events v c3)
  end.
  assert (Hfr4 : frame c c4) by (unfold frame; simpl; tauto).
  assert (Hok4 : counters_ok c4 = true).
  { apply counters_ok_intro; simpl; try assumption; try lia.
    unfold reqs_total in *. simpl. lia. }
  assert (Hr4 : ring_ok K c4 = true).
  { apply ring_ok_intro; cbn [nr_pages nr_events tail c4
      set_completed_events set_ring set_tail set_ring_events];
      try assumption; try lia. }
  change (ring_head (ring (set_tail tail1
            (set_ring_events _ c)))) with (ring_head (ring c)).
  change (completed_events c4) with (completed_events c + 1).
  assert (Hmid : exists c5 n,
    (if 1 <? completed_events c + 1 then
       do '(c', _) <- refill_reqs_available k (ring_head (ring c)) tail1 c4;
       Some (c', [ARefill (ring_head (ring c)) tail1])
     else Some (c4, []))
    = Some (c5, if 1 <? completed_events c + 1
                then [ARefill (ring_head (ring c)) tail1] else []) /\
    frame c4 c5 /\ same_ring c4 c5 /\ counters_ok c5 = true /\
    0 <= n <= completed_events c + 1 /\
    (completed_events c = 0 -> n = 0) /\
    completed_events c5 = completed_events c + 1 - n /\
    reqs_total c5 = reqs_total c + n /\ reqs c5 = reqs c).
  { destruct (Z.ltb_spec 1 (completed_events c + 1)) as [Hgt|Hle].
    - destruct (refill_reqs_available_ok k (ring_head (ring c)) tail1 c4
                  Hok4 Hk) as (c5 & n & Heq & Hfr & Hsr & Hok5 & Hn & Hce5 & Htot & Hrq & _);
        simpl; try lia.
      rewrite Heq. cbn [obind].
      change (completed_events c4) with (completed_events c + 1) in *.
      change (reqs_total c4) with (reqs_total c) in *.
      change (reqs c4) with (reqs c) in *.
      exists c5, n.
      split; [reflexivity|]. splits; try assumption; try lia.
    - exists c4, 0. split; [reflexivity|].
      change (completed_events c4) with (completed_events c + 1) in *.
      change (reqs_total c4) with (reqs_total c) in *.
      splits; try assumption; try lia;
        first [apply frame_refl | apply same_ring_refl | reflexivity]. }
  destruct Hmid as (c5 & n & Heq & Hfr5 & Hsr5 & Hok5 & Hn & Hz & Hce5 & Htot5 & Hrq5).
  rewrite Heq. cbn [obind].
  destruct Hsr5 as (Htl5 & Hrg5 & Hev5).
  eexists _, n. split; [reflexivity|].
  split; [eapply frame_trans; [exact Hfr4|];
          eapply frame_trans; [exact Hfr5|]; unfold frame; simpl; tauto|].
  split.
  { apply (ring_ok_frame c4); [exact Hr4| |].
    - eapply frame_trans; [exact Hfr5|]. unfold frame; simpl; tauto.
    - simpl. exact Htl5. }
  split; [exact Hok5|]. splits; try assumption; try lia.
  simpl. rewrite Hrq5. reflexivity.
Qed.

(** C7.  [aio_complete] returns.  It writes the completion record into the
    page and slot found from the tail before the advance plus
    [AIO_EVENTS_OFFSET], the offset that makes up for the header at the
    start of the first page, so that the record is number [tail] of the
    ring; it advances [tail] to [(tail + 1) mod nr_events], stores the new
    tail in the header, adds one to [completed_events] and calls
    [refill_reqs_available] exactly when [completed_events] is then greater
    than 1.  All of this happens between taking and releasing
    [completion_lock]. *)
Theorem aio_complete_publishes (k : nat) (iocb : aio_kiocb) (res res2 : Z)
  (c : kioctx) :
  config_ok K = true -> ring_ok K c = true -> counters_ok c = true ->
  (k < length (cpu c))%nat ->
  reqs_total c + completed_events c + 1 < 2 ^ 31 ->
  let pos := tail c + AIO_EVENTS_OFFSET K in
  let page := pos / AIO_EVENTS_PER_PAGE K in
  let slot := pos mod AIO_EVENTS_PER_PAGE K in
  let ev := {| ev_obj := u64 (ulong K (ki_user_iocb iocb));
               ev_data := ki_user_data iocb;
               ev_res := res; ev_res2 := res2 |} in
  let tail' := (tail c + 1) mod nr_events c in
  let refill := if 1 <? completed_events c + 1
                then [ARefill (ring_head (ring c)) tail'] else [] in
  exists c' tr before after n,
    aio_complete K k iocb res res2 c = Some (c', tr) /\
    tr = before
         ++ [ALock completion_lock; AWriteEvent page slot ev;
             AStoreCtxTail tail'; AStoreRingTail tail';
             AIncCompletedEvents]
         ++ refill ++ [AUnlock completion_lock] ++ after /\
    forallb (fun a => negb (needs_completion_lock a)) (before ++ after)
    = true /\
    lock_discipline false tr = true /\
    ring_events c' !! (page, slot) = Some ev /\
    0 <= page < nr_pages c /\ 0 <= slot < AIO_EVENTS_PER_PAGE K /\
    page * AIO_EVENTS_PER_PAGE K + slot - AIO_EVENTS_OFFSET K = tail c /\
    tail c' = tail' /\ ring_tail (ring c') = tail' /\
    ring_head (ring c') = ring_head (ring c) /\
    completed_events c' = completed_events c + 1 - n /\
    reqs_total c' = reqs_total c + n /\
    (completed_events c + 1 <= 1 -> n = 0).
Proof.
  intros Hc Hr Hok Hk Hsum. cbv zeta.
  destruct (aio_complete_ok k iocb res res2 c Hc Hr Hok Hk Hsum)
    as (c' & n & Heq & _ & _ & _ & Hn & Hz & Hce & Htot & _ & Htl & Hrg & Hev).
  destruct (page_geometry Hc) as (P & HP & Hps & Hpp & Hfp & Hoff).
  destruct (ring_size c P Hr Hps HP) as (HN & HNr).
  pose proof (ring_ok_elim c Hr) as (Hnp & _ & _ & Htail).
  pose proof (counters_ok_elim c Hok) as (_ & _ & _ & Hce0 & _).
  eexists c', _,
    (if ki_list_next iocb
     then [ALock ctx_lock; AListDel; AUnlock ctx_lock] else []),
    (match ki_eventfd iocb with
     | Some e => [AEventfdSignal e]
     | None => []
     end ++ [AKiocbFree; AWakeUpIfActive; ARefPutReqs]), n.
  split; [exact Heq|]. split; [reflexivity|].
  split.
  { destruct (ki_list_next iocb), (ki_eventfd iocb); reflexivity. }
  split.
  { destruct (ki_list_next iocb), (ki_eventfd iocb),
      (1 <? completed_events c + 1); reflexivity. }
  split; [rewrite Hev; apply lookup_insert_eq|].
  rewrite Hpp, Hoff in *.
  pose proof (Z.div_mod (tail c + 1) P ltac:(lia)) as Hdm.
  pose proof (Z.mod_pos_bound (tail c + 1) P ltac:(lia)) as Hmod.
  assert (0 <= (tail c + 1) / P) by (apply Z.div_pos; lia).
  assert ((tail c + 1) / P < nr_pages c)
    by (apply Z.div_lt_upper_bound; nia).
  splits; try lia; try assumption; rewrite Hrg; reflexivity.
Qed.

End Ring.

Lemma hostile_head_is_harmless_witness :
  config_ok uniprocessor = true /\ ring_ok uniprocessor fresh_ctx = true /\
  counters_ok fresh_ctx = true /\
  (exists ret c' accs,
     aio_read_events_ring uniprocessor [] 10
       (write_ring_head 0xFFFFFFFF fresh_ctx)
     = Some (ret, c', accs) /\
     Forall (access_in_ring uniprocessor fresh_ctx) accs /\
     (ret = - EFAULT \/ 0 <= ret <= Z.max 0 10) /\
     (0xFFFFFFFF mod nr_events fresh_ctx
      = ring_tail (ring fresh_ctx) mod nr_events fresh_ctx ->
      ret = 0 /\ accs = [])) /\
  (forall t, 0 <= t < nr_events fresh_ctx ->
     exists c' n,
       refill_reqs_available 0 0xFFFFFFFF t fresh_ctx = Some (c', n) /\
       0 <= n <= completed_events fresh_ctx /\
       completed_events c' = completed_events fresh_ctx - n /\
       reqs_total c' = reqs_total fresh_ctx + n).
Proof.
  split; [reflexivity|]. split; [reflexivity|]. split; [reflexivity|].
  apply (hostile_head_is_harmless uniprocessor fresh_ctx 0xFFFFFFFF 0 [] 10);
    [reflexivity | reflexivity | reflexivity | simpl; lia
    | vm_compute; discriminate].
Defined.

Lemma aio_complete_publishes_witness :
  config_ok uniprocessor = true /\ ring_ok uniprocessor fresh_ctx = true /\
  counters_ok fresh_ctx = true /\
  exists c' tr,
    aio_complete uniprocessor 0 zeroed_kiocb 16 0 fresh_ctx = Some (c', tr) /\
    lock_discipline false tr = true /\
    tail c' = 1 /\ ring_tail (ring c') = 1 /\
    completed_events c' = 1 /\ reqs_total c' = reqs_total fresh_ctx.
Proof.
  split; [reflexivity|]. split; [reflexivity|]. split; [reflexivity|].
  destruct (aio_complete_publishes uniprocessor 0 zeroed_kiocb 16 0 fresh_ctx)
    as (c' & tr & b & a & n & H1 & _ & _ & H2 & _ & _ & _ & _ & H3 & H4 & _
        & H5 & H6 & H7);
    [reflexivity | reflexivity | reflexivity | simpl; lia
    | vm_compute; reflexivity |].
  exists c', tr. split; [exact H1|]. split; [exact H2|].
  split; [exact H3|]. split; [exact H4|].
  assert (n = 0) by (apply H7; vm_compute; discriminate). subst n.
  split; [exact H5|]. rewrite H6. lia.
Defined.

(** ** Submission *)

Section Submission.

Variable K : kconfig.

(** [io_submit_one] on a well-formed context returns and leaves a
    well-formed context.  [n] is the number of slots the refill inside
    [aio_get_req] moved from [completed_events] to the counter. *)
Lemma io_submit_one_ok (e : submit_env) (u : Z) (i : iocb) (compat : bool)
  (c : kioctx) :
  config_ok K = true -> ring_ok K c = true -> counters_ok c = true ->
  (e_cpu e < length (cpu c))%nat ->
  exists ret c' n,
    io_submit_one K e u i compat c = Some (ret, c') /\ frame c c' /\
    ring_ok K c' = true /\ counters_ok c' = true /\
    0 <= n <= completed_events c /\
    (kcpu_reqs_available (e_cpu e) c <> 0 \/ req_batch c <= reqs_available c ->
     n = 0) /\
    (iocb_valid K i = false -> ret = - EINVAL /\ c' = c) /\
    (ret <> 0 ->
     same_ring c c' /\ reqs c' = reqs c /\
     completed_events c' = completed_events c - n /\
     reqs_total c' = reqs_total c + n).
Proof.
  intros Hc Hr Hok Hk.
  pose proof (counters_ok_elim c Hok) as (Hb & Hg & Hcpu & Hce & Hs).
  assert (Hinvalid : exists ret c' n,
    Some (- EINVAL, c) = Some (ret, c') /\ frame c c' /\
    ring_ok K c' = true /\ counters_ok c' = true /\
    0 <= n <= completed_events c /\
    (kcpu_reqs_available (e_cpu e) c <> 0 \/ req_batch c <= reqs_available c ->
     n = 0) /\
    (iocb_valid K i = false -> ret = - EINVAL /\ c' = c) /\
    (ret <> 0 ->
     same_ring c c' /\ reqs c' = reqs c /\
     completed_events c' = completed_events c - n /\
     reqs_total c' = reqs_total c + n)).
  { exists (- EINVAL), c, 0. split; [reflexivity|].
    split; [apply frame_refl|]. splits; auto; try lia.
    intros _. split; [apply same_ring_refl|]. splits; auto; lia. }
  unfold io_submit_one.
  destruct (aio_reserved1 i =? 0) eqn:E1; [|exact Hinvalid].
  destruct (aio_reserved2 i =? 0) eqn:E2; [|exact Hinvalid].
  destruct (aio_buf i =? ulong K (aio_buf i)) eqn:E3; [|exact Hinvalid].
  destruct (aio_nbytes i =? ulong K (aio_nbytes i)) eqn:E4; [|exact Hinvalid].
  cbn [negb orb].
  destruct (Z.ltb_spec (to_long K (aio_nbytes i)) 0) as [E5|E5];
    [exact Hinvalid|].
  destruct (aio_submit_info K !! Z.to_nat (aio_lio_opcode i))
    as [info|] eqn:E6; [|exact Hinvalid].
  destruct (fn info) as [f|] eqn:E7; [|exact Hinvalid].
  clear Hinvalid.
  assert (Hvalid : iocb_valid K i = true).
  { unfold iocb_valid. rewrite E1, E2, E3, E4, E6, E7. cbn [andb].
    destruct (Z.leb_spec 0 (to_long K (aio_nbytes i))); [|lia].
    reflexivity. }
  destruct (page_geometry K Hc) as (P & HP & Hps & _).
  destruct (ring_size K c P Hr Hps HP) as (_ & HN).
  pose proof (ring_ok_elim K c Hr) as (_ & _ & _ & Htl).
  destruct (aio_get_req_ok (e_cpu e) (e_alloc_req e) c Hok Hk ltac:(lia) Htl)
    as (r & c1 & n & Heq & Hfr1 & Hsr1 & Hok1 & Hn & Hce1 & Hz & Hres).
  rewrite Heq. cbn [obind].
  assert (Hr1 : ring_ok K c1 = true)
    by (apply (ring_ok_frame K c); [exact Hr|exact Hfr1|apply Hsr1]).
  assert (Hk1 : (e_cpu e < length (cpu c1))%nat)
    by (apply (frame_length c); assumption).
  destruct r as [req|].
  2:{ destruct Hres as (Htot1 & Hrq1).
      exists (- EAGAIN), c1, n. split; [reflexivity|].
      splits; auto; try congruence; lia. }
  destruct Hres as (-> & _ & Htot1 & Hrq1).
  (* the two ways on from a reserved request *)
  assert (Hput : forall ret, exists c2,
    out_put_req (e_cpu e) ret c1 = Some (s32 ret, c2) /\ frame c c2 /\
    ring_ok K c2 = true /\ counters_ok c2 = true /\
    same_ring c c2 /\ reqs c2 = reqs c /\
    completed_events c2 = completed_events c - n /\
    reqs_total c2 = reqs_total c + n).
  { intros ret.
    destruct (out_put_req_ok (e_cpu e) ret c1 Hok1 Hk1 ltac:(lia))
      as (c2 & Heq2 & Hfr2 & Hsr2 & Hok2 & Htot2 & Hce2 & Hrq2).
    exists c2. split; [exact Heq2|].
    split; [eapply frame_trans; eassumption|].
    split; [apply (ring_ok_frame K c1); [exact Hr1|exact Hfr2|apply Hsr2]|].
    split; [exact Hok2|].
    split; [eapply same_ring_trans; eassumption|].
    split; [rewrite Hrq2, Hrq1; apply percpu_ref_put_get|]. lia. }
  assert (Hcompl : forall req res, exists c2 tr,
    aio_complete K (e_cpu e) req res 0 c1 = Some (c2, tr) /\ frame c c2 /\
    ring_ok K c2 = true /\ counters_ok c2 = true).
  { intros req res.
    destruct (aio_complete_ok K (e_cpu e) req res 0 c1 Hc Hr1 Hok1 Hk1
                ltac:(lia))
      as (c2 & m & Heq2 & Hfr2 & Hr2 & Hok2 & _).
    eexists c2, _. split; [exact Heq2|].
    split; [eapply frame_trans; eassumption|]. auto. }
  assert (Hfail : forall ret, exists ret' c' n',
    out_put_req (e_cpu e) ret c1 = Some (ret', c') /\ frame c c' /\
    ring_ok K c' = true /\ counters_ok c' = true /\
    0 <= n' <= completed_events c /\
    (kcpu_reqs_available (e_cpu e) c <> 0 \/ req_batch c <= reqs_available c ->
     n' = 0) /\
    (iocb_valid K i = false -> ret' = - EINVAL /\ c' = c) /\
    (ret' <> 0 ->
     same_ring c c' /\ reqs c' = reqs c /\
     completed_events c' = completed_events c - n' /\
     reqs_total c' = reqs_total c + n')).
  { intros ret. destruct (Hput ret) as (c2 & Heq2 & Hfr2 & Hr2 & Hok2 & Hrest).
    exists (s32 ret), c2, n. split; [exact Heq2|].
    splits; auto; try congruence; try lia; apply Hrest. }
  assert (Hdone : forall req res, exists ret' c' n',
    (do '(c2, _) <- aio_complete K (e_cpu e) req res 0 c1; Some (0, c2))
    = Some (ret', c') /\ frame c c' /\
    ring_ok K c' = true /\ counters_ok c' = true /\
    0 <= n' <= completed_events c /\
    (kcpu_reqs_available (e_cpu e) c <> 0 \/ req_batch c <= reqs_available c ->
     n' = 0) /\
    (iocb_valid K i = false -> ret' = - EINVAL /\ c' = c) /\
    (ret' <> 0 ->
     same_ring c c' /\ reqs c' = reqs c /\
     completed_events c' = completed_events c - n' /\
     reqs_total c' = reqs_total c + n')).
  { intros req res.
    destruct (Hcompl req res) as (c2 & tr & Heq2 & Hfr2 & Hr2 & Hok2).
    rewrite Heq2. cbn [obind].
    exists 0, c2, n. split; [reflexivity|].
    splits; auto; try congruence; try lia. }
  destruct (negb (Z.land (flags info) NEED_FD =? 0)
            && negb (bool_decide (is_Some (e_fget e)))); [apply Hfail|].
  destruct (negb (Z.land (aio_flags i) IOCB_FLAG_RESFD =? 0)
            && IS_ERR_VALUE K (e_eventfd e)); [apply Hfail|].
  destruct (negb (e_put_user e =? 0)); [apply Hfail|].
  destruct (e_fn e =? - EIOCBQUEUED).
  { exists 0, c1, n. split; [reflexivity|].
    splits; auto; try congruence; try lia. }
  destruct (is_restart (e_fn e)); [apply Hdone|].
  destruct (IS_ERR_VALUE K (e_fn e)); [apply Hfail|apply Hdone].
Qed.


(** C2, amended.  [io_submit_one] returns.  A descriptor that fails the
    checks on the reserved fields, the sizes or the opcode is refused with
    [-EINVAL] before any reservation, the context untouched.  After every
    failed submission the admission counter holds what it held before the
    call plus the [n] slots that the refill inside [aio_get_req] moved out
    of [completed_events]: the reserved slot has been given back, the
    reference of the request dropped, and the sum of the counter and
    [completed_events] is as before.  [n] is 0, and the counter exactly as
    before, when the first reservation attempt can succeed or
    [completed_events] is 0. *)
Theorem failed_submission_conserves_slots (e : submit_env) (u : Z)
  (i : iocb) (compat : bool) (c : kioctx) :
  config_ok K = true -> ring_ok K c = true -> counters_ok c = true ->
  (e_cpu e < length (cpu c))%nat ->
  exists ret c' n,
    io_submit_one K e u i compat c = Some (ret, c') /\
    0 <= n <= completed_events c /\
    (iocb_valid K i = false -> ret = - EINVAL /\ c' = c) /\
    (ret <> 0 ->
     reqs_total c' = reqs_total c + n /\
     completed_events c' = completed_events c - n /\
     reqs c' = reqs c) /\
    (kcpu_reqs_available (e_cpu e) c <> 0 \/ req_batch c <= reqs_available c
     \/ completed_events c = 0 -> n = 0).
Proof.
  intros Hc Hr Hok Hk.
  destruct (io_submit_one_ok e u i compat c Hc Hr Hok Hk)
    as (ret & c' & n & Heq & _ & _ & _ & Hn & Hz & Hinv & Hfail).
  exists ret, c', n. split; [exact Heq|]. split; [exact Hn|].
  split; [exact Hinv|]. split.
  - intros Hne. destruct (Hfail Hne) as (_ & Hrq & Hce & Htot). auto.
  - intros [H|[H|H]]; [apply Hz; auto|apply Hz; auto|lia].
Qed.

Lemma iocb_valid_elim (i : iocb) :
  iocb_valid K i = true ->
  (aio_reserved1 i =? 0) = true /\ (aio_reserved2 i =? 0) = true /\
  (aio_buf i =? ulong K (aio_buf i)) = true /\
  (aio_nbytes i =? ulong K (aio_nbytes i)) = true /\
  (to_long K (aio_nbytes i) <? 0) = false /\
  exists info f,
    aio_submit_info K !! Z.to_nat (aio_lio_opcode i) = Some info /\
    fn info = Some f.
Proof.
  unfold iocb_valid. rewrite !andb_true_iff.
  intros (((((H1 & H2) & H3) & H4) & H5) & H6).
  splits; try assumption.
  - apply Z.ltb_ge. apply Z.leb_le. exact H5.
  - destruct (aio_submit_info K !! Z.to_nat (aio_lio_opcode i)) as [info|];
      [|discriminate].
    apply bool_decide_eq_true in H6 as [f Hf]. exists info, f. auto.
Qed.

(** C10.  When [kmem_cache_alloc] fails, [aio_get_req] returns no request,
    having given the slot it reserved back with [put_reqs_available]: the
    context it leaves is the one after the successful reservation with one
    slot put back, whether the reservation succeeded at once or after a
    refill.  [io_submit_one] then answers [-EAGAIN], the code it also gives
    when no slot can be reserved, and not [-ENOMEM]. *)
Theorem alloc_failure_reports_eagain (e : submit_env) (u : Z) (i : iocb)
  (compat : bool) (c : kioctx) :
  config_ok K = true -> ring_ok K c = true -> counters_ok c = true ->
  (e_cpu e < length (cpu c))%nat ->
  iocb_valid K i = true -> e_alloc_req e = false ->
  exists c' n,
    aio_get_req (e_cpu e) false c = Some (None, c') /\
    io_submit_one K e u i compat c = Some (- EAGAIN, c') /\
    - EAGAIN <> - ENOMEM /\
    0 <= n <= completed_events c /\
    reqs_total c' = reqs_total c + n /\
    completed_events c' = completed_events c - n /\
    reqs c' = reqs c /\
    (forall c1, get_reqs_available (e_cpu e) c = Some (true, c1) ->
       put_reqs_available (e_cpu e) 1 c1 = Some c' /\ n = 0) /\
    (forall c1 m c2,
       get_reqs_available (e_cpu e) c = Some (false, c) ->
       user_refill_reqs_available (e_cpu e) c = Some (c1, m) ->
       get_reqs_available (e_cpu e) c1 = Some (true, c2) ->
       put_reqs_available (e_cpu e) 1 c2 = Some c') /\
    (forall c1 m,
       get_reqs_available (e_cpu e) c = Some (false, c) ->
       user_refill_reqs_available (e_cpu e) c = Some (c1, m) ->
       get_reqs_available (e_cpu e) c1 = Some (false, c1) ->
       c' = c1).
Proof.
  intros Hc Hr Hok Hk Hvalid Halloc.
  destruct (page_geometry K Hc) as (P & HP & Hps & _).
  destruct (ring_size K c P Hr Hps HP) as (_ & HN).
  pose proof (ring_ok_elim K c Hr) as (_ & _ & _ & Htl).
  destruct (aio_get_req_ok (e_cpu e) false c Hok Hk ltac:(lia) Htl)
    as (r & c' & n & Heq & _ & _ & _ & Hn & Hce & Hz & Hres).
  destruct r as [req|]; [destruct Hres as (_ & Hf & _); discriminate|].
  destruct Hres as (Htot & Hrq).
  exists c', n. split; [exact Heq|]. split.
  { destruct (iocb_valid_elim i Hvalid)
      as (E1 & E2 & E3 & E4 & E5 & info & f & E6 & E7).
    unfold io_submit_one. rewrite E1, E2, E3, E4, E5, E6, E7, Halloc, Heq.
    reflexivity. }
  split; [discriminate|].
  splits; try assumption; try lia.
  - intros c1 Hget. revert Heq. unfold aio_get_req. rewrite Hget.
    cbn [obind].
    destruct (put_reqs_available (e_cpu e) 1 c1) as [c3|]; cbn [obind];
      [|discriminate].
    intros [= ->]. split; [reflexivity|].
    apply Hz.
    destruct (Z.eq_dec (kcpu_reqs_available (e_cpu e) c) 0) as [H0|Hne];
      [|left; exact Hne].
    right. destruct (Z.lt_ge_cases (reqs_available c) (req_batch c)) as [Hlt|Hge];
      [|lia].
    rewrite get_reqs_available_empty in Hget by assumption. discriminate.
  - intros c1 m c2 Hget1 Hrefill Hget2. revert Heq. unfold aio_get_req.
    rewrite Hget1. cbn [obind]. rewrite Hrefill. cbn [obind].
    rewrite Hget2. cbn [obind].
    destruct (put_reqs_available (e_cpu e) 1 c2) as [c3|]; cbn [obind];
      [|discriminate].
    intros [= ->]. reflexivity.
  - intros c1 m Hget1 Hrefill Hget2. revert Heq. unfold aio_get_req.
    rewrite Hget1. cbn [obind]. rewrite Hrefill. cbn [obind].
    rewrite Hget2. cbn [obind]. intros [= ->]. reflexivity.
Qed.

End Submission.

(** C2, as stated, fails: on a context whose counter holds 2 slots, too few
    for a reservation, while three reaped completions wait in
    [completed_events], a read on a bad file descriptor fails with [-EBADF]
    and leaves 5 slots in the counter. *)
Lemma failed_submission_changes_counter :
  ~ failure_keeps_counter uniprocessor bad_fd_env 0x1000 pread_iocb false
      drained_ctx.
Proof.
  intros H.
  assert (E : exists c',
    io_submit_one uniprocessor bad_fd_env 0x1000 pread_iocb false drained_ctx
    = Some (- EBADF, c') /\ reqs_total c' = 5).
  { eexists. split; vm_compute; reflexivity. }
  destruct E as (c' & E & Ht).
  specialize (H _ _ E ltac:(discriminate)).
  rewrite Ht in H. vm_compute in H. discriminate.
Qed.

Lemma failed_submission_conserves_slots_witness :
  config_ok uniprocessor = true /\ ring_ok uniprocessor drained_ctx = true /\
  counters_ok drained_ctx = true /\
  exists ret c' n,
    io_submit_one uniprocessor bad_fd_env 0x1000 pread_iocb false drained_ctx
    = Some (ret, c') /\
    0 <= n <= completed_events drained_ctx /\
    (iocb_valid uniprocessor pread_iocb = false ->
     ret = - EINVAL /\ c' = drained_ctx) /\
    (ret <> 0 ->
     reqs_total c' = reqs_total drained_ctx + n /\
     completed_events c' = completed_events drained_ctx - n /\
     reqs c' = reqs drained_ctx) /\
    (kcpu_reqs_available (e_cpu bad_fd_env) drained_ctx <> 0
     \/ req_batch drained_ctx <= reqs_available drained_ctx
     \/ completed_events drained_ctx = 0 -> n = 0).
Proof.
  split; [reflexivity|]. split; [reflexivity|]. split; [reflexivity|].
  apply (failed_submission_conserves_slots uniprocessor bad_fd_env 0x1000
           pread_iocb false drained_ctx);
    [reflexivity | reflexivity | reflexivity | simpl; lia].
Defined.

Lemma alloc_failure_reports_eagain_witness :
  iocb_valid uniprocessor pread_iocb = true /\
  exists c',
    aio_get_req 0 false fresh_ctx = Some (None, c') /\
    io_submit_one uniprocessor no_memory_env 0x1000 pread_iocb false fresh_ctx
    = Some (- EAGAIN, c') /\
    reqs_total c' = reqs_total fresh_ctx.
Proof.
  split; [reflexivity|].
  destruct (alloc_failure_reports_eagain uniprocessor no_memory_env 0x1000
              pread_iocb false fresh_ctx)
    as (c' & n & H1 & H2 & _ & _ & H3 & _ & _ & H4 & _);
    [reflexivity | reflexivity | reflexivity | simpl; lia | reflexivity
    | reflexivity |].
  exists c'. split; [exact H1|]. split; [exact H2|].
  destruct (H4 _ eq_refl) as (_ & ->) in H3. lia.
Defined.

(** ** Batch submission *)

Section Batch.

Variable K : kconfig.

(** One pass of the loop body of [do_io_submit] is the copy of the
    descriptor followed by [io_submit_one], as the batch of the
    specification has it. *)
Lemma submit_batch_run_cons (d : option user_slot)
  (rest : list (option user_slot)) (compat : bool) (c : kioctx) :
  submit_batch_run K (d :: rest) compat c
  = do '(ret, c1) <- submit_slot K d compat c;
    if ret =? 0 then
      do '(n, f, c2) <- submit_batch_run K rest compat c1;
      Some (n + 1, f, c2)
    else Some (0, Some ret, c1).
Proof.
  cbn [submit_batch_run]. unfold copy_descriptor, submit_slot.
  destruct d as [[[p|] [tmp|] e]|]; reflexivity.
Qed.

(** The batch of the specification has copied every descriptor it counts
    as submitted, and a descriptor that cannot be copied stops it with
    [-EFAULT]. *)
Lemma submit_batch_run_reads (descs : list (option user_slot))
  (compat : bool) :
  forall (c : kioctx) (n : Z) (f : option Z) (c' : kioctx),
  submit_batch_run K descs compat c = Some (n, f, c') ->
  0 <= n /\
  (forall j d, (j < Z.to_nat n)%nat -> descs !! j = Some d ->
     is_Some (copy_descriptor d)) /\
  (forall d, descs !! Z.to_nat n = Some d -> copy_descriptor d = None ->
     f = Some (- EFAULT)).
Proof.
  induction descs as [|d rest IH]; intros c n f c' Hrun.
  - cbn in Hrun. injection Hrun as <- <- <-. split; [lia|].
    split; intros; rewrite lookup_nil in *; discriminate.
  - cbn [submit_batch_run] in Hrun.
    destruct (copy_descriptor d) as [[[u tmp] e]|] eqn:Hd.
    + destruct (io_submit_one K e u tmp compat c) as [[ret c1]|];
        cbn [obind] in Hrun; [|discriminate].
      destruct (ret =? 0).
      * destruct (submit_batch_run K rest compat c1) as [[[n1 f1] c2]|] eqn:E;
          cbn [obind] in Hrun; [|discriminate].
        injection Hrun as <- <- <-.
        destruct (IH c1 n1 f1 c2 E) as (Hn & Hread & Hfault).
        replace (Z.to_nat (n1 + 1)) with (S (Z.to_nat n1)) by lia.
        split; [lia|]. split.
        -- intros [|j] d0 Hj Hl; simpl in Hl.
           ++ injection Hl as <-. rewrite Hd. eexists. reflexivity.
           ++ apply (Hread j d0); [lia|exact Hl].
        -- intros d0 Hl. simpl in Hl. exact (Hfault d0 Hl).
      * injection Hrun as <- <- <-. split; [lia|]. split.
        -- intros j d0 Hj. simpl in Hj. lia.
        -- intros d0 Hl Hnone. simpl in Hl. injection Hl as <-.
           rewrite Hd in Hnone. discriminate.
    + injection Hrun as <- <- <-. split; [lia|]. split.
      * intros j d0 Hj. simpl in Hj. lia.
      * intros; reflexivity.
Qed.

(** The loop of [do_io_submit], started at index [i] with [m] entries to
    go, is the batch of the specification run on those entries. *)
Lemma submit_loop_spec (slots : list user_slot) (compat : bool) (nr : Z)
  (m : nat) :
  nr < 2 ^ 31 ->
  forall (fuel i : nat) (c : kioctx),
  Z.of_nat (i + m) = nr -> (m <= fuel)%nat ->
  submit_loop K fuel slots compat nr (Z.of_nat i) 0 c
  = match submit_batch_run K ((fun j => slots !! j) <$> seq i m) compat c with
    | Some (n, f, c') => Some (Z.of_nat i + n, default 0 f, c')
    | None => None
    end.
Proof.
  intros Hnr. induction m as [|m IH]; intros fuel i c Hi Hfuel.
  - cbn [seq fmap list_fmap submit_batch_run].
    destruct fuel; cbn [submit_loop];
      (destruct (Z.ltb_spec (Z.of_nat i) nr); [lia|]);
      rewrite Z.add_0_r; reflexivity.
  - destruct fuel as [|fuel]; [lia|].
    cbn [seq fmap list_fmap submit_loop]. rewrite submit_batch_run_cons.
    destruct (Z.ltb_spec (Z.of_nat i) nr); [|lia].
    rewrite Nat2Z.id.
    destruct (submit_slot K (slots !! i) compat c) as [[ret c1]|];
      cbn [obind]; [|reflexivity].
    destruct (Z.eqb_spec ret 0) as [->|Hne]; cbn [negb].
    + rewrite s32_small by lia.
      replace (Z.of_nat i + 1) with (Z.of_nat (S i)) by lia.
      rewrite (IH fuel (S i) c1) by lia.
      destruct (submit_batch_run K ((fun j => slots !! j) <$> seq (S i) m)
                  compat c1) as [[[n f] c2]|]; cbn [obind]; [|reflexivity].
      f_equal. f_equal. f_equal. lia.
    + rewrite Z.add_0_r. reflexivity.
Qed.

(** The batch of the specification returns on a well-formed context: [n]
    entries are submitted, and a failure stopped it unless all were. *)
Lemma submit_batch_run_ok (descs : list (option user_slot)) (compat : bool) :
  config_ok K = true ->
  forall c, ring_ok K c = true -> counters_ok c = true -> descs_ok descs c ->
  exists n f c',
    submit_batch_run K descs compat c = Some (n, f, c') /\
    0 <= n <= Z.of_nat (length descs) /\
    (f = None <-> n = Z.of_nat (length descs)) /\
    (forall r, f = Some r -> r <> 0).
Proof.
  intros Hc. induction descs as [|d rest IH]; intros c Hr Hok Hds.
  - exists 0, None, c. cbn. splits; auto; try lia;
      first [discriminate | split; reflexivity].
  - rewrite submit_batch_run_cons.
    assert (Hstep : exists ret c1,
      submit_slot K d compat c = Some (ret, c1) /\
      (ret = 0 -> ring_ok K c1 = true /\ counters_ok c1 = true /\
                  length (cpu c1) = length (cpu c))).
    { unfold submit_slot.
      destruct d as [d|]; [|exists (- EFAULT), c; split; [reflexivity|intros H; vm_compute in H; discriminate]].
      destruct (us_ptr d) as [p|];
        [|exists (- EFAULT), c; split; [reflexivity|intros H; vm_compute in H; discriminate]].
      destruct (us_iocb d) as [tmp|];
        [|exists (- EFAULT), c; split; [reflexivity|intros H; vm_compute in H; discriminate]].
      inversion Hds as [|? ? Hd _]; subst.
      destruct (io_submit_one_ok K (us_env d) p tmp compat c Hc Hr Hok
                  (Hd d eq_refl))
        as (ret & c1 & n & Heq & Hfr & Hr1 & Hok1 & _).
      exists ret, c1. split; [exact Heq|]. intros _.
      splits; auto. apply Hfr. }
    destruct Hstep as (ret & c1 & Heq & Hwf). rewrite Heq. cbn [obind].
    destruct (Z.eqb_spec ret 0) as [Hz|Hnz].
    + destruct (Hwf Hz) as (Hr1 & Hok1 & Hlen).
      destruct (IH c1 Hr1 Hok1) as (n & f & c2 & Heq2 & Hn & Hf & Hnz).
      { inversion Hds as [|? ? _ Hrest]; subst.
        unfold descs_ok. rewrite Hlen. exact Hrest. }
      rewrite Heq2. cbn [obind].
      exists (n + 1), f, c2. split; [reflexivity|].
      cbn [length]. splits; try lia; auto.
      split; intros H; [apply Hf in H; lia|apply Hf; lia].
    + exists 0, (Some ret), c1. split; [reflexivity|].
      cbn [length]. splits; try lia.
      * split; [discriminate|lia].
      * intros r [= <-]. exact Hnz.
Qed.


Lemma forallb_lookup {A : Type} (f : A -> bool) (l : list A) (j : nat)
  (x : A) :
  forallb f l = true -> l !! j = Some x -> f x = true.
Proof.
  revert j. induction l as [|y l IH]; intros [|j] H Hj; simpl in *;
    try discriminate; apply andb_true_iff in H as [Hy Hl].
  - inversion Hj; subst. exact Hy.
  - exact (IH j Hl Hj).
Qed.

Lemma user_array_ok (slots : list user_slot) (nr : Z) (c : kioctx) :
  cpus_ok slots c = true -> descs_ok (user_array slots nr) c.
Proof.
  intros H. unfold descs_ok, user_array. apply Forall_fmap.
  apply Forall_forall. intros j _ d Hd.
  apply Nat.ltb_lt. exact (forallb_lookup _ _ _ _ H Hd).
Qed.

(** C8.  [do_io_submit] on a context that [lookup_ioctx] finds runs the
    batch of the specification over the user's array: the descriptors are
    taken in order, each is copied from userspace and handed to
    [io_submit_one], and the first failure, a fault while copying
    included, ends the batch.  With [n] descriptors submitted before that,
    every one of them was copied, a descriptor [n] that cannot be copied
    gives the failure [-EFAULT], and the call returns [n] when [n] is
    positive, whatever the failure that followed, and the failure code of
    the first descriptor when [n] is 0; the failure code is never 0. *)
Theorem do_io_submit_returns_count (ring_id_read : option Z)
  (ctx_id nr : Z) (slots : list user_slot) (compat : bool) (mm : mm_struct)
  (slot : nat) (ctx : kioctx) :
  config_ok K = true -> 0 <= nr < 2 ^ 31 ->
  nr <= LONG_MAX K / sizeof_ptr K ->
  lookup_ioctx ring_id_read ctx_id mm = Some (slot, ctx) ->
  ring_ok K ctx = true -> counters_ok ctx = true ->
  cpus_ok slots ctx = true ->
  exists n f c',
    submit_batch_run K (user_array slots nr) compat ctx = Some (n, f, c') /\
    do_io_submit K true ring_id_read ctx_id nr slots compat mm
    = Some (submit_batch_result n f,
            store_ioctx slot
              (set_users (percpu_ref_put (users c')) c') mm) /\
    0 <= n <= nr /\ (f = None <-> n = nr) /\
    (forall r, f = Some r -> r <> 0) /\
    (forall j, 0 <= j < n ->
       is_Some (copy_descriptor (slots !! Z.to_nat j))) /\
    (n < nr -> copy_descriptor (slots !! Z.to_nat n) = None ->
     f = Some (- EFAULT)) /\
    (0 < n -> submit_batch_result n f = n) /\
    (n = 0 -> forall r, f = Some r -> submit_batch_result n f = r).
Proof.
  intros Hc Hnr Hmax Hlook Hr Hok Hcpus.
  destruct (submit_batch_run_ok (user_array slots nr) compat Hc ctx Hr Hok
              (user_array_ok slots nr ctx Hcpus))
    as (n & f & c' & Heq & Hn & Hf & Hnz).
  assert (Hlen : Z.of_nat (length (user_array slots nr)) = nr).
  { unfold user_array. rewrite length_fmap, length_seq. lia. }
  rewrite Hlen in Hn, Hf.
  destruct (submit_batch_run_reads (user_array slots nr) compat ctx n f c' Heq)
    as (_ & Hread & Hfault).
  assert (Hat : forall j, (j < Z.to_nat nr)%nat ->
                  user_array slots nr !! j = Some (slots !! j)).
  { intros j Hj. unfold user_array. rewrite list_lookup_fmap.
    rewrite lookup_seq_lt by exact Hj. reflexivity. }
  exists n, f, c'. split; [exact Heq|]. split.
  { unfold do_io_submit.
    destruct (Z.ltb_spec nr 0); [lia|].
    destruct (Z.ltb_spec (LONG_MAX K / sizeof_ptr K) nr); [lia|].
    cbn [negb]. rewrite Hlook.
    change 0 with (Z.of_nat 0) at 1.
    rewrite (submit_loop_spec slots compat nr (Z.to_nat nr)) by lia.
    fold (user_array slots nr). rewrite Heq. cbn [obind].
    f_equal. f_equal. unfold submit_batch_result.
    change (Z.of_nat 0 + n) with n.
    destruct (Z.eqb_spec n 0) as [->|Hne]; cbn [negb].
    - reflexivity.
    - destruct (Z.ltb_spec 0 n); [reflexivity|lia]. }
  split; [exact Hn|]. split; [exact Hf|]. split; [exact Hnz|].
  split.
  { intros j Hj.
    apply (Hread (Z.to_nat j) (slots !! Z.to_nat j)); [lia|].
    apply Hat. lia. }
  split.
  { intros Hlt Hnone.
    apply (Hfault (slots !! Z.to_nat n)); [|exact Hnone].
    apply Hat. lia. }
  unfold submit_batch_result. split.
  - intros Hpos. destruct (Z.ltb_spec 0 n); [reflexivity|lia].
  - intros -> r ->. reflexivity.
Qed.

End Batch.

Lemma do_io_submit_returns_count_witness :
  config_ok uniprocessor = true /\
  exists mm',
    do_io_submit uniprocessor true (Some 0) 0x7f0000000000 3 three_slots
      false one_ctx_mm = Some (1, mm').
Proof.
  split; [reflexivity|].
  destruct (do_io_submit_returns_count uniprocessor (Some 0) 0x7f0000000000 3
              three_slots false one_ctx_mm 0
              (set_users (percpu_ref_get (users fresh_ctx)) fresh_ctx))
    as (n & f & c' & H1 & H2 & _);
    [reflexivity | lia | vm_compute; discriminate | reflexivity
    | reflexivity | reflexivity | reflexivity |].
  vm_compute in H1. injection H1 as <- <- <-.
  eexists. exact H2.
Defined.

(** ** Context creation *)

Section Creation.

Variable K : kconfig.

Lemma setup_pages_spec (f : Z -> bool) (n : Z) :
  0 <= n < 2 ^ 31 ->
  forall (fuel : nat) (i : Z),
  0 <= i <= n -> (Z.to_nat (n - i) <= fuel)%nat ->
  exists j, setup_pages fuel f n i = Some j /\ i <= j <= n.
Proof.
  intros Hn. induction fuel as [|fuel IH]; intros i Hi Hfuel;
    cbn [setup_pages].
  - destruct (Z.ltb_spec i n); [lia|]. exists i. split; [reflexivity|lia].
  - destruct (Z.ltb_spec i n) as [Hlt|Hge].
    + destruct (f i).
      * rewrite s32_small by lia.
        destruct (IH (i + 1)) as (j & Hj & Hb); try lia.
        exists j. split; [exact Hj|lia].
      * exists i. split; [reflexivity|lia].
    + exists i. split; [reflexivity|lia].
Qed.

Lemma PFN_UP_div (x : Z) :
  config_ok K = true -> PFN_UP K x = (x + PAGE_SIZE K - 1) / PAGE_SIZE K.
Proof.
  intros Hc. apply config_ok_elim in Hc as (Hs & _).
  unfold PFN_UP, PAGE_SIZE. rewrite Z.shiftl_1_l.
  apply Z.shiftr_div_pow2. lia.
Qed.

(** The size of the ring for [m] requests: enough pages for [m + 2]
    records after the header, and the records that fit in them. *)
Lemma ring_capacity_bounds (m : Z) :
  config_ok K = true -> 0 < m <= 2 ^ 23 ->
  1 <= ring_pages_for K m < 2 ^ 23 /\
  PAGE_SIZE K * ring_pages_for K m < 2 ^ 30 /\
  m + 2 <= ring_capacity K m < 2 ^ 25.
Proof.
  intros Hc Hm.
  destruct (page_geometry K Hc) as (P & HP & Hps & _).
  unfold ring_capacity, ring_pages_for.
  rewrite (PFN_UP_div _ Hc). unfold sizeof_aio_ring, sizeof_io_event.
  rewrite Hps.
  set (size := 32 + 32 * (m + 2)).
  pose proof (Z.div_mod (size + 32 * P - 1) (32 * P) ltac:(lia)) as Hdm.
  pose proof (Z.mod_pos_bound (size + 32 * P - 1) (32 * P) ltac:(lia)) as Hmod.
  set (q := (size + 32 * P - 1) / (32 * P)) in *.
  assert (Hq1 : 1 <= q) by (unfold size in *; nia).
  assert (Hq2 : 32 * P * q <= size + 32 * P - 1) by lia.
  assert (Hq3 : size <= 32 * P * q) by lia.
  assert (Hq4 : q < 2 ^ 23) by (unfold size in *; nia).
  split; [lia|]. split; [unfold size in *; lia|].
  pose proof (Z.div_mod (32 * P * q - 32) 32 ltac:(lia)) as Hdm2.
  pose proof (Z.mod_pos_bound (32 * P * q - 32) 32 ltac:(lia)) as Hmod2.
  assert (Hexact : (32 * P * q - 32) / 32 = P * q - 1).
  { replace (32 * P * q - 32) with ((P * q - 1) * 32) by lia.
    apply Z.div_mul. lia. }
  rewrite Hexact. unfold size in *. lia.
Qed.

(** [aio_setup_ring] returns; when it returns 0 the ring is laid out in
    [ring_pages_for] pages and holds [ring_capacity] records. *)
Lemma aio_setup_ring_spec (a : alloc_env) (c : kioctx) :
  config_ok K = true -> 0 < max_reqs c <= 2 ^ 23 ->
  exists err c',
    aio_setup_ring K a c = Some (err, c') /\ (err = 0 \/ err < 0) /\
    (err = 0 ->
     c' = Build_kioctx (users c) (dead c) (reqs c) (a_mmap a) (cpu c)
            (req_batch c) (max_reqs c) (ring_capacity K (max_reqs c))
            (a_mmap a) (PAGE_SIZE K * ring_pages_for K (max_reqs c))
            (ring_pages_for K (max_reqs c)) (rq_wait c) (reqs_available c)
            (tail c) (completed_events c) (id c)
            {| ring_id := u32 (-1);
               ring_nr := ring_capacity K (max_reqs c);
               ring_head := 0;
               ring_tail := 0;
               ring_magic := AIO_RING_MAGIC;
               ring_compat_features :=
                 if aio_may_use_threads K then
                   Z.lor AIO_RING_COMPAT_FEATURES AIO_RING_COMPAT_THREADED
                 else AIO_RING_COMPAT_FEATURES;
               ring_incompat_features := AIO_RING_INCOMPAT_FEATURES;
               ring_header_length := sizeof_aio_ring |}
            (ring_events c)).
Proof.
  intros Hc Hm.
  destruct (ring_capacity_bounds (max_reqs c) Hc Hm) as (Hnp & Hsz & Hcap).
  unfold aio_setup_ring.
  rewrite (u32_small (max_reqs c + 2)) by lia.
  rewrite (ulong_small K (sizeof_io_event * (max_reqs c + 2)))
    by (auto; unfold sizeof_io_event; lia).
  rewrite (ulong_small K (sizeof_aio_ring + sizeof_io_event * (max_reqs c + 2)))
    by (auto; unfold sizeof_io_event, sizeof_aio_ring; lia).
  change (PFN_UP K (sizeof_aio_ring + sizeof_io_event * (max_reqs c + 2)))
    with (ring_pages_for K (max_reqs c)).
  set (np := ring_pages_for K (max_reqs c)) in *.
  rewrite (s32_small np) by lia.
  destruct (Z.ltb_spec np 0); [lia|].
  destruct (a_ring_file a); cbn [negb];
    [|exists (- ENOMEM), c; split; [reflexivity|split; [right; reflexivity|discriminate]]].
  assert (Hps : 0 < PAGE_SIZE K).
  { destruct (page_geometry K Hc) as (P & HP & Hps & _). lia. }
  rewrite (ulong_small K (PAGE_SIZE K * np)) by (auto; lia).
  assert (H32 : sizeof_aio_ring <= PAGE_SIZE K * np).
  { destruct (page_geometry K Hc) as (P & HP & Hps' & _).
    unfold sizeof_aio_ring. nia. }
  rewrite (ulong_small K (PAGE_SIZE K * np - sizeof_aio_ring))
    by (auto; unfold sizeof_aio_ring in *; lia).
  change ((PAGE_SIZE K * np - sizeof_aio_ring) / sizeof_io_event)
    with (ring_capacity K (max_reqs c)).
  rewrite (u32_small (ring_capacity K (max_reqs c))) by lia.
  destruct ((AIO_RING_PAGES <? np) && negb (a_ring_pages a));
    [exists (- ENOMEM), c; split; [reflexivity|split; [right; reflexivity|discriminate]]|].
  destruct (setup_pages_spec (a_find_page a) np ltac:(lia) (Z.to_nat np) 0)
    as (j & Hj & Hjb); try lia.
  rewrite Hj. cbn [obind].
  destruct (Z.eqb_spec j np) as [->|Hne]; cbn [negb];
    [|eexists (- ENOMEM), _; split; [reflexivity|split; [right; reflexivity|discriminate]]].
  destruct (IS_ERR_VALUE K (a_mmap a));
    [eexists (- ENOMEM), _; split; [reflexivity|split; [right; reflexivity|discriminate]]|].
  eexists 0, _. split; [reflexivity|]. split; [left; reflexivity|].
  intros _. cbn [users dead reqs cpu req_batch max_reqs rq_wait
                 reqs_available tail completed_events id ring_events
                 nr_pages].
  rewrite (ulong_small K (np * PAGE_SIZE K)) by (auto; lia).
  rewrite (Z.mul_comm np). reflexivity.
Qed.


(** *** The registry *)

Lemma find_free_app (t : list (option kioctx)) (k i : nat) :
  (0 < k)%nat ->
  exists j, find_free (t ++ replicate k None) i = Some j.
Proof.
  intros Hk. revert i. induction t as [|[x|] t IH]; intros i; simpl.
  - destruct k; [lia|]. simpl. exists i. reflexivity.
  - apply IH.
  - exists i. reflexivity.
Qed.

Lemma table_ok_elim (mm : mm_struct) (t : list (option kioctx)) :
  table_ok mm = true -> ioctx_table mm = Some t ->
  0 < Z.of_nat (length t) < 2 ^ 30.
Proof.
  unfold table_ok. intros H Ht. rewrite Ht in H.
  apply andb_true_iff in H as [H1 H2].
  apply Z.ltb_lt in H1. apply Z.ltb_lt in H2. lia.
Qed.

(** [ioctx_add_table] returns within two passes of its loop: it installs
    the context in a slot and answers 0, or answers [-ENOMEM] when the
    table must grow and [kzalloc] fails. *)
Lemma ioctx_add_table_spec (kz : list bool) (c : kioctx) (mm : mm_struct) :
  table_ok mm = true ->
  exists err c' mm',
    ioctx_add_table 2 kz c mm = Some (err, c', mm') /\
    ((err = 0 /\ exists i, c' = set_id (Z.of_nat i) c) \/
     (err = - ENOMEM /\ c' = c /\ mm' = mm)).
Proof.
  intros Hok. cbn [ioctx_add_table].
  destruct (ioctx_table mm) as [t|] eqn:Ht; cbn [mbind option_bind].
  - destruct (find_free t 0) as [i|] eqn:Hf; cbn [fmap option_fmap option_map].
    + eexists 0, _, _. split; [reflexivity|]. left. split; [reflexivity|].
      exists i. reflexivity.
    + pose proof (table_ok_elim mm t Hok Ht) as Hlen.
      rewrite (u32_small (Z.of_nat (length t) * 4)) by lia.
      destruct (List.hd true kz); cbn [negb].
      2:{ exists (- ENOMEM), c, mm. split; [reflexivity|]. right. auto. }
      destruct (Z.ltb_spec (Z.of_nat (length t)) (Z.of_nat (length t) * 4));
        [|lia].
      cbn [ioctx_table mbind option_bind].
      destruct (find_free_app t (Z.to_nat (Z.of_nat (length t) * 4) - length t) 0)
        as (j & Hj); [lia|].
      rewrite Hj. cbn [fmap option_fmap option_map].
      eexists 0, _, _. split; [reflexivity|]. left. split; [reflexivity|].
      exists j. reflexivity.
  - rewrite (u32_small (1 * 4)) by lia.
    destruct (List.hd true kz); cbn [negb].
    2:{ exists (- ENOMEM), c, mm. split; [reflexivity|]. right. auto. }
    cbn. eexists 0, _, _. split; [reflexivity|]. left. split; [reflexivity|].
    exists 0%nat. reflexivity.
Qed.

Lemma percpu_sum_replicate (n : nat) : percpu_sum (replicate n 0) = 0.
Proof.
  induction n as [|n IH]; [reflexivity|]. unfold percpu_sum in *. simpl.
  rewrite IH. reflexivity.
Qed.

Lemma forallb_replicate_zero (n : nat) :
  forallb (fun x => 0 <=? x) (replicate n 0) = true.
Proof. induction n as [|n IH]; [reflexivity|]. simpl. exact IH. Qed.


(** C6, amended.  [ioctx_alloc] returns.  In the context it creates,
    [max_reqs] is [max(requested, ncpu * 4) * 2] (computed in [unsigned],
    so exactly that for a request below 2^31), while the ring capacity
    [nr_events] is larger: the number of records that fit, after the
    header, in the pages needed for [max_reqs + 2] records, which is at
    least [max_reqs + 2].  [req_batch] is
    [max(1, (nr_events - 1) / (ncpu * 4))] for that [nr_events], and the
    global counter starts at [nr_events - 1].  The context is well
    formed. *)
Theorem ioctx_alloc_sizes (a : alloc_env) (requested aio_nr : Z)
  (mm : mm_struct) :
  config_ok K = true -> 0 <= requested < 2 ^ 32 -> table_ok mm = true ->
  (exists r, ioctx_alloc K a requested aio_nr mm = Some r) /\
  (forall c aio_nr' mm',
     ioctx_alloc K a requested aio_nr mm = Some (inr c, aio_nr', mm') ->
     max_reqs c = u32 (Z.max requested (num_possible_cpus K * 4) * 2) /\
     (requested < 2 ^ 31 ->
      max_reqs c = Z.max requested (num_possible_cpus K * 4) * 2) /\
     nr_pages c = ring_pages_for K (max_reqs c) /\
     nr_events c = ring_capacity K (max_reqs c) /\
     max_reqs c + 2 <= nr_events c /\
     req_batch c
     = Z.max 1 ((nr_events c - 1) / (num_possible_cpus K * 4)) /\
     reqs_available c = nr_events c - 1 /\
     ring_nr (ring c) = nr_events c /\
     ring_ok K c = true /\ counters_ok c = true).
Proof.
  intros Hc Hreq Hmm.
  pose proof (config_ok_elim K Hc) as (_ & Hcpu & _).
  unfold ioctx_alloc.
  rewrite (u32_small (num_possible_cpus K * 4)) by lia.
  set (m := u32 (Z.max requested (num_possible_cpus K * 4) * 2)).
  assert (Hm0 : 0 <= m < 2 ^ 32) by apply u32_range.
  assert (Hfail : forall (e : Z) (n : Z) (mm1 : mm_struct),
    (exists r, Some (inl e : Z + kioctx, n, mm1) = Some r) /\
    (forall c aio_nr' mm',
       Some (inl e : Z + kioctx, n, mm1) = Some (inr c, aio_nr', mm') ->
       max_reqs c = m /\
       (requested < 2 ^ 31 ->
        max_reqs c = Z.max requested (num_possible_cpus K * 4) * 2) /\
       nr_pages c = ring_pages_for K (max_reqs c) /\
       nr_events c = ring_capacity K (max_reqs c) /\
       max_reqs c + 2 <= nr_events c /\
       req_batch c
       = Z.max 1 ((nr_events c - 1) / (num_possible_cpus K * 4)) /\
       reqs_available c = nr_events c - 1 /\
       ring_nr (ring c) = nr_events c /\
       ring_ok K c = true /\ counters_ok c = true)).
  { intros e n mm1. split; [eexists; reflexivity|]. intros; discriminate. }
  change (0x10000000 / sizeof_io_event) with (2 ^ 23).
  destruct (Z.ltb_spec (2 ^ 23) m) as [Hbig|Hsmall]; [apply Hfail|].
  destruct (Z.eqb_spec m 0) as [Hz|Hnz]; cbn [orb]; [apply Hfail|].
  destruct (ulong K (aio_max_nr K * 2) <? ulong K m); [apply Hfail|].
  destruct (a_kioctx a); cbn [negb]; [|apply Hfail].
  destruct (a_users_init a); cbn [negb]; [|apply Hfail].
  destruct (a_reqs_init a); cbn [negb]; [|apply Hfail].
  destruct (a_percpu a); cbn [negb]; [|apply Hfail].
  match goal with
  | |- context [aio_setup_ring K a ?c] => set (c0 := c)
  end.
  destruct (aio_setup_ring_spec a c0 Hc) as (err & c1 & Heq & Herr & Hc1);
    [simpl; lia|].
  rewrite Heq. cbn [obind].
  destruct Herr as [->|Hneg].
  2:{ destruct (Z.ltb_spec err 0); [apply Hfail|lia]. }
  cbn [Z.ltb Z.compare]. specialize (Hc1 eq_refl). subst c1.
  change (max_reqs c0) with m.
  destruct (ring_capacity_bounds m Hc ltac:(lia)) as (Hnp & Hsz & Hcap).
  cbn [nr_events max_reqs reqs set_reqs_available set_users set_reqs users].
  rewrite (u32_small (ring_capacity K m - 1)) by lia.
  rewrite (s32_small (ring_capacity K m - 1)) by lia.
  destruct ((ulong K (aio_max_nr K * 2) <? ulong K (aio_nr + m))
            || (ulong K (aio_nr + m) <? aio_nr)); [apply Hfail|].
  match goal with
  | |- context [ioctx_add_table 2 (a_kzalloc a) ?c mm] => set (c5 := c)
  end.
  destruct (ioctx_add_table_spec (a_kzalloc a) c5 mm Hmm)
    as (e2 & c6 & mm' & Heq2 & [(-> & i & ->)|(-> & -> & ->)]);
    rewrite Heq2; cbn [obind]; [|apply Hfail].
  cbn [Z.eqb negb]. split; [eexists; reflexivity|].
  intros c aio_nr' mm'' [= <- _ _].
  subst c5.
  cbn [max_reqs nr_pages nr_events req_batch reqs_available ring cpu tail
       completed_events set_id ring_nr set_ring_id set_reqs set_users].

  set (batch := (ring_capacity K m - 1) / (num_possible_cpus K * 4)).
  assert (Hbatch : 0 <= batch < 2 ^ 25).
  { unfold batch. split.
    - apply Z.div_pos; lia.
    - apply Z.div_lt_upper_bound; nia. }
  assert (Hmax : (if batch <? 1 then 1 else batch) = Z.max 1 batch).
  { destruct (Z.ltb_spec batch 1); lia. }
  split; [reflexivity|]. split.
  { intros Hlt. unfold m. apply u32_small. lia. }
  split; [reflexivity|]. split; [reflexivity|]. split; [lia|].
  split; [exact Hmax|]. split; [reflexivity|]. split; [reflexivity|].
  split.
  - apply ring_ok_intro; simpl; try lia. reflexivity.
  - apply counters_ok_intro; simpl; try lia.
    + apply forallb_replicate_zero.
    + unfold reqs_total. simpl. rewrite percpu_sum_replicate. lia.
Qed.

End Creation.

(** C6, as stated, fails: [io_setup(1, ...)] on one CPU asks for
    [max(1, 4) * 2 = 8] requests, and the ring of the context it creates
    holds 127 records. *)
Lemma ioctx_alloc_capacity_is_page_rounded :
  ~ capacity_is_doubled_request uniprocessor all_granted 1 0
      {| ioctx_table := None |}.
Proof.
  intros H.
  assert (E : exists c aio_nr' mm',
    ioctx_alloc uniprocessor all_granted 1 0 {| ioctx_table := None |}
    = Some (inr c, aio_nr', mm') /\ nr_events c = 127).
  { eexists _, _, _. split; vm_compute; reflexivity. }
  destruct E as (c & n & mm' & E & Hn).
  specialize (H _ _ _ E). rewrite Hn in H. vm_compute in H. discriminate.
Qed.

Lemma ioctx_alloc_sizes_witness :
  config_ok uniprocessor = true /\
  exists c aio_nr' mm',
    ioctx_alloc uniprocessor all_granted 1 0 {| ioctx_table := None |}
    = Some (inr c, aio_nr', mm') /\
    max_reqs c = 8 /\ nr_events c = 127 /\ req_batch c = 31 /\
    ring_ok uniprocessor c = true /\ counters_ok c = true.
Proof.
  split; [reflexivity|].
  pose proof (ioctx_alloc_sizes uniprocessor all_granted 1 0
                {| ioctx_table := None |} eq_refl ltac:(lia) eq_refl)
    as (_ & H).
  assert (E : exists c aio_nr' mm',
    ioctx_alloc uniprocessor all_granted 1 0 {| ioctx_table := None |}
    = Some (inr c, aio_nr', mm')).
  { eexists _, _, _. vm_compute. reflexivity. }
  destruct E as (c & n & mm' & E).
  destruct (H c n mm' E)
    as (H1 & _ & _ & H4 & _ & H6 & _ & _ & H9 & H10).
  exists c, n, mm'. split; [exact E|].
  rewrite H6, H4, H1.
  split; [reflexivity|]. split; [reflexivity|]. split; [reflexivity|].
  split; [exact H9|exact H10].
Defined.

(** ** Cancellation *)

Section Cancellation.

Variable run_cancel : Z -> Z.
Variables early late : Z.

Lemma cancel_word_eqb_eq (a b : cancel_word) :
  cancel_word_eqb a b = true <-> a = b.
Proof.
  destruct a as [|f|], b as [|g|]; simpl; split; intros H;
    try discriminate; try reflexivity.
  - apply Z.eqb_eq in H. subst. reflexivity.
  - inversion H. apply Z.eqb_refl.
Qed.

Lemma cancel_word_eqb_refl (a : cancel_word) : cancel_word_eqb a a = true.
Proof. apply cancel_word_eqb_eq. reflexivity. Qed.

(** [kiocb_cancel], called alone, returns after one pass of its loop. *)
Lemma kiocb_cancel_spec (kiocb : aio_kiocb) :
  match ki_cancel kiocb with
  | CANCEL_FN f =>
      kiocb_cancel run_cancel kiocb
      = Some (set_ki_cancel KIOCB_CANCELLED kiocb, s32 (run_cancel f), [f])
  | w =>
      kiocb_cancel run_cancel kiocb = Some (set_ki_cancel w kiocb, - EINVAL, [])
  end.
Proof.
  unfold kiocb_cancel. destruct (ki_cancel kiocb) as [|f|];
    cbn [cancel_loop obind]; try reflexivity.
  unfold cmpxchg. rewrite !cancel_word_eqb_refl. reflexivity.
Qed.

Lemma pending_calls_insert (pcs : list cancel_pc) (t : nat)
  (old new : cancel_pc) :
  pcs !! t = Some old ->
  pending_calls (<[t := new]> pcs)
  = pending_calls pcs - calling old + calling new.
Proof.
  revert t. induction pcs as [|pc pcs IH]; intros [|t] Ht; simpl in *;
    try discriminate.
  - inversion Ht; subst. unfold pending_calls. simpl. lia.
  - specialize (IH t Ht). unfold pending_calls in *. simpl. lia.
Qed.

Lemma pending_calls_replicate (n : nat) :
  pending_calls (replicate n CLoad) = 0.
Proof.
  induction n as [|n IH]; [reflexivity|]. unfold pending_calls in *. simpl.
  rewrite IH. reflexivity.
Qed.

Lemma cancel_inv_init (n : nat) (word : cancel_word) :
  cancel_inv (cancel_init n word).
Proof.
  unfold cancel_inv, cancel_init. simpl. rewrite pending_calls_replicate.
  lia.
Qed.

Lemma calling_nonneg (pc : cancel_pc) : 0 <= calling pc <= 1.
Proof. destruct pc; simpl; lia. Qed.

Lemma pending_calls_ge (pcs : list cancel_pc) (t : nat) (pc : cancel_pc) :
  pcs !! t = Some pc -> calling pc <= pending_calls pcs.
Proof.
  revert t. induction pcs as [|p pcs IH]; intros [|t] Ht; simpl in *;
    try discriminate.
  - inversion Ht; subst. unfold pending_calls. simpl.
    assert (0 <= foldr (fun pc n => calling pc + n) 0 pcs).
    { clear. induction pcs as [|q pcs IH]; simpl; [lia|].
      pose proof (calling_nonneg q). lia. }
    lia.
  - specialize (IH t Ht). unfold pending_calls in *. simpl.
    pose proof (calling_nonneg p). lia.
Qed.

(** Every step of every caller, and of the worker, keeps the invariant. *)
Lemma cancel_step_inv (w w' : cancel_world) :
  cancel_step run_cancel early late w w' -> cancel_inv w -> cancel_inv w'.
Proof.
  intros Hstep (Hp & Hle & Hword). unfold cancel_inv in *.
  destruct Hstep as [w t Ht|w t cancel Ht Hc|w t f Ht|w t f Ht|w]; simpl.
  - rewrite (pending_calls_insert _ _ _ _ Ht). simpl.
    replace (pending_calls (cw_pcs w) - 0 + 0) with (pending_calls (cw_pcs w))
      by lia.
    auto.
  - rewrite (pending_calls_insert _ _ _ _ Ht). simpl.
    replace (pending_calls (cw_pcs w) - 0 + 0) with (pending_calls (cw_pcs w))
      by lia.
    auto.
  - rewrite (pending_calls_insert _ _ _ _ Ht). simpl.
    destruct (cancel_word_eqb (cw_word w) (CANCEL_FN f)) eqn:E; simpl.
    + apply cancel_word_eqb_eq in E.
      assert (Hn : pending_calls (cw_pcs w) + Z.of_nat (length (cw_calls w))
                   <> 1).
      { intros H1. specialize (Hword H1). congruence. }
      splits; try lia. intros _. reflexivity.
    + replace (pending_calls (cw_pcs w) - 0 + 0)
        with (pending_calls (cw_pcs w)) by lia.
      auto.
  - rewrite (pending_calls_insert _ _ _ _ Ht). simpl.
    pose proof (pending_calls_ge _ _ _ Ht) as Hge. simpl in Hge.
    rewrite length_app. simpl.
    splits; try lia. intros H1. apply Hword. lia.
  - splits; try lia. intros H1. specialize (Hword H1). rewrite Hword.
    reflexivity.
Qed.

Lemma cancel_reachable_inv (n : nat) (word : cancel_word)
  (w : cancel_world) :
  rtc (cancel_step run_cancel early late) (cancel_init n word) w ->
  cancel_inv w.
Proof.
  intros H. pattern w. revert w H. apply rtc_ind_r.
  - apply cancel_inv_init.
  - intros w w' _ Hstep IH. eapply cancel_step_inv; eassumption.
Qed.


(** A caller that has returned was refused with [-EINVAL] or invoked a
    cancel function and returns what it returned. *)
Lemma cancel_done_inv (n : nat) (word : cancel_word) (w : cancel_world) :
  rtc (cancel_step run_cancel early late) (cancel_init n word) w ->
  forall t ret, cw_pcs w !! t = Some (CDone ret) ->
    ret = - EINVAL \/
    exists f, In (t, f) (cw_calls w) /\ ret = s32 (run_cancel f).
Proof.
  intros H. pattern w. revert w H. apply rtc_ind_r.
  - intros t' ret Hdone. unfold cancel_init in Hdone. simpl in Hdone.
    apply lookup_replicate in Hdone as [Hd _]. discriminate.
  - intros w w' Hrtc Hstep IH t' ret Hdone.
    assert (Hkeep : forall t pc,
              cw_calls w' = cw_calls w \/
              (exists u f, cw_calls w' = cw_calls w ++ [(u, f)]) ->
              cw_pcs w' = <[t := pc]> (cw_pcs w) ->
              (t' = t -> pc = CDone ret ->
               ret = - EINVAL \/
               exists f, In (t, f) (cw_calls w') /\ ret = s32 (run_cancel f)) ->
              (t < length (cw_pcs w))%nat ->
              ret = - EINVAL \/
              exists f, In (t', f) (cw_calls w') /\ ret = s32 (run_cancel f)).
    { intros t pc Hcalls Hpcs Hnew Hlt. rewrite Hpcs in Hdone.
      destruct (Nat.eq_dec t' t) as [->|Hne].
      - rewrite list_lookup_insert_eq in Hdone by exact Hlt.
        inversion Hdone; subst. apply Hnew; reflexivity.
      - rewrite list_lookup_insert_ne in Hdone by congruence.
        destruct (IH t' ret Hdone) as [He|(f & Hin & Hr)]; [left; exact He|].
        right. exists f. split; [|exact Hr].
        destruct Hcalls as [->|(u & g & ->)]; [exact Hin|].
        apply in_or_app. left. exact Hin. }
    destruct Hstep as [w t Ht|w t cancel Ht Hc|w t f Ht|w t f Ht|w].
    + apply (Hkeep t (CCheck (cw_word w))); auto.
      * intros _ [=].
      * apply lookup_lt_Some in Ht. exact Ht.
    + apply (Hkeep t (CDone (- EINVAL))); auto.
      * intros _ [= <-]. left. reflexivity.
      * apply lookup_lt_Some in Ht. exact Ht.
    + simpl in *.
      eapply (Hkeep t); [left; reflexivity|reflexivity| |].
      * intros _ Hpc.
        destruct (cancel_word_eqb (cw_word w) (CANCEL_FN f)); discriminate.
      * apply lookup_lt_Some in Ht. exact Ht.
    + apply (Hkeep t (CDone (s32 (run_cancel f)))).
      * right. exists t, f. reflexivity.
      * reflexivity.
      * intros _ [= <-]. right. exists f. split; [|reflexivity].
        simpl. apply in_or_app. right. left. reflexivity.
      * apply lookup_lt_Some in Ht. exact Ht.
    + simpl in Hdone. exact (IH t' ret Hdone).
Qed.

(** C3, amended.  [kiocb_cancel] exchanges [ki_cancel] for
    [KIOCB_CANCELLED] by compare-and-swap.  Called on a request, it refuses
    with [-EINVAL], invoking nothing and leaving the word as it was,
    exactly when the word was [NULL] or already [KIOCB_CANCELLED]; on an
    installed function it leaves [KIOCB_CANCELLED], invokes that function
    once and returns the function's own result, whatever it is, and a
    further call is refused.  So [-EINVAL] is returned only on a refusal
    provided no cancel function answers [-EINVAL] itself.  When any number
    of callers run interleaved on one request, while a worker may switch
    the installed function from the early to the late stage, at most one
    invocation of a cancel function is ever made, the word is
    [KIOCB_CANCELLED] once it is made, and every caller that returned
    either was refused with [-EINVAL] or returns the result of the
    function it invoked. *)
Theorem kiocb_cancel_single_shot (kiocb : aio_kiocb) (n : nat)
  (word : cancel_word) (w : cancel_world) :
  rtc (cancel_step run_cancel early late) (cancel_init n word) w ->
  (exists kiocb' ret calls,
     kiocb_cancel run_cancel kiocb = Some (kiocb', ret, calls) /\
     ((ki_cancel kiocb = CANCEL_NULL \/ ki_cancel kiocb = KIOCB_CANCELLED)
      <-> (ret = - EINVAL /\ calls = [])) /\
     (ki_cancel kiocb = CANCEL_NULL \/ ki_cancel kiocb = KIOCB_CANCELLED ->
      ki_cancel kiocb' = ki_cancel kiocb) /\
     (forall f, ki_cancel kiocb = CANCEL_FN f ->
        ki_cancel kiocb' = KIOCB_CANCELLED /\ calls = [f] /\
        ret = s32 (run_cancel f) /\
        exists kiocb'',
          kiocb_cancel run_cancel kiocb' = Some (kiocb'', - EINVAL, [])) /\
     ((forall f, s32 (run_cancel f) <> - EINVAL) ->
      (ki_cancel kiocb = CANCEL_NULL \/ ki_cancel kiocb = KIOCB_CANCELLED)
      <-> ret = - EINVAL)) /\
  (length (cw_calls w) <= 1)%nat /\
  (cw_calls w <> [] -> cw_word w = KIOCB_CANCELLED) /\
  (forall t ret, cw_pcs w !! t = Some (CDone ret) ->
     ret = - EINVAL \/
     exists f, In (t, f) (cw_calls w) /\ ret = s32 (run_cancel f)).
Proof.
  intros Hrtc. split.
  - pose proof (kiocb_cancel_spec kiocb) as Hs.
    destruct (ki_cancel kiocb) as [|f|] eqn:Hw.
    + eexists _, _, _. split; [exact Hs|]. split; [tauto|].
      split; [reflexivity|]. split; [intros f [=]|]. tauto.
    + eexists _, _, _. split; [exact Hs|].
      split; [split; [intros [H|H]; discriminate|intros [_ H]; discriminate]|].
      split; [intros [H|H]; discriminate|].
      split.
      * intros g [= <-]. split; [reflexivity|]. split; [reflexivity|].
        split; [reflexivity|].
        eexists.
        exact (kiocb_cancel_spec (set_ki_cancel KIOCB_CANCELLED kiocb)).
      * intros Hrun. split; [intros [H|H]; discriminate|].
        intros H. exfalso. exact (Hrun f H).
    + eexists _, _, _. split; [exact Hs|]. split; [tauto|].
      split; [reflexivity|]. split; [intros f [=]|]. tauto.
  - pose proof (cancel_reachable_inv n word w Hrtc) as (Hp & Hle & Hword).
    split; [lia|]. split.
    + intros Hne. apply Hword.
      destruct (cw_calls w); [contradiction|]. simpl in *. lia.
    + exact (cancel_done_inv n word w Hrtc).
Qed.

End Cancellation.

(** C3, as stated, fails: [kiocb_cancel] returns what the cancel function
    returns, so on a request with the function 7 installed, when that
    function answers [-EINVAL], the call returns [-EINVAL] although the
    word was neither [NULL] nor [KIOCB_CANCELLED] and the function was
    invoked. *)
Lemma kiocb_cancel_forwards_einval :
  ~ einval_exactly_when_not_installed (fun _ => - EINVAL)
      (set_ki_cancel (CANCEL_FN 7) zeroed_kiocb).
Proof.
  intros H.
  assert (E : kiocb_cancel (fun _ => - EINVAL)
                (set_ki_cancel (CANCEL_FN 7) zeroed_kiocb)
              = Some (set_ki_cancel KIOCB_CANCELLED zeroed_kiocb,
                      - EINVAL, [7])) by reflexivity.
  destruct (proj1 (H _ _ _ E) eq_refl) as [Hw|Hw]; discriminate Hw.
Qed.

(** Neither cancel function of this file returns [-EINVAL]. *)
Lemma thread_cancel_never_einval (task : option Z) :
  s32 aio_thread_queue_iocb_cancel_early <> - EINVAL /\
  s32 (aio_thread_queue_iocb_cancel task) <> - EINVAL.
Proof. destruct task; split; vm_compute; discriminate. Qed.

Lemma two_callers_run :
  rtc (cancel_step (fun _ => 0) 1 2) (cancel_init 2 (CANCEL_FN 7))
    two_callers_done.
Proof.
  eapply rtc_l;
    [apply (cstep_load _ _ _ (cancel_init 2 (CANCEL_FN 7)) 0%nat);
     reflexivity|].
  eapply rtc_l; [apply (cstep_load _ _ _ _ 1%nat); reflexivity|].
  eapply rtc_l; [apply (cstep_cmpxchg _ _ _ _ 0%nat 7); reflexivity|].
  eapply rtc_l; [apply (cstep_cmpxchg _ _ _ _ 1%nat 7); reflexivity|].
  eapply rtc_l; [apply (cstep_call _ _ _ _ 0%nat 7); reflexivity|].
  eapply rtc_l;
    [apply (cstep_fail _ _ _ _ 1%nat KIOCB_CANCELLED);
     [reflexivity|right; reflexivity]|].
  apply rtc_refl.
Defined.

Lemma kiocb_cancel_single_shot_witness :
  rtc (cancel_step (fun _ => 0) 1 2) (cancel_init 2 (CANCEL_FN 7))
    two_callers_done /\
  (length (cw_calls two_callers_done) <= 1)%nat /\
  cw_word two_callers_done = KIOCB_CANCELLED.
Proof.
  split; [exact two_callers_run|].
  destruct (kiocb_cancel_single_shot (fun _ => 0) 1 2 zeroed_kiocb 2
              (CANCEL_FN 7) two_callers_done two_callers_run)
    as (_ & H1 & H2 & _).
  split; [exact H1|]. apply H2. discriminate.
Defined.

(** ** Context teardown *)

Section Teardown.

Variable K : kconfig.
Variable waits : nat -> option Z.

Lemma kill_inv_init (n : nat) (s : kill_state) : kill_inv (kill_init n s).
Proof.
  left. split; [|reflexivity]. intros t pc Ht. simpl in Ht.
  apply lookup_replicate in Ht as [-> _]. reflexivity.
Qed.

(** A caller that has not won takes a step to a state that has not won. *)
Lemma kill_inv_loser (w : kill_world) (t : nat) (pc pc' : kill_pc)
  (s : kill_state) (lock : option nat) :
  kill_inv w -> kw_pcs w !! t = Some pc -> stage pc = 0 -> stage pc' = 0 ->
  (dead (k_ctx (kw_state w)) = 1 -> dead (k_ctx s) = 1) ->
  kill_inv (kw_update w t pc' s lock []).
Proof.
  intros [(Hnone & Hlog)|(Hdead & t0 & pc0 & Ht0 & Hs0 & Hothers & Hall & Hnd)]
    Ht Hs Hs' Hd.
  - left. simpl. rewrite Hlog. split; [|reflexivity].
    intros u q Hu. destruct (Nat.eq_dec u t) as [->|Hne].
    + rewrite list_lookup_insert_eq in Hu by (eapply lookup_lt_Some; eauto).
      inversion Hu; subst. exact Hs'.
    + rewrite list_lookup_insert_ne in Hu by congruence. eauto.
  - right. simpl. split; [auto|].
    assert (Hne : t <> t0) by (intros ->; rewrite Ht in Ht0; inversion Ht0; subst; lia).
    exists t0, pc0. rewrite list_lookup_insert_ne by exact Hne.
    split; [exact Ht0|]. split; [exact Hs0|]. split.
    + intros u q Hu Hu0. destruct (Nat.eq_dec u t) as [->|Hne'].
      * rewrite list_lookup_insert_eq in Hu by (eapply lookup_lt_Some; eauto).
        inversion Hu; subst. exact Hs'.
      * rewrite list_lookup_insert_ne in Hu by congruence. eauto.
    + rewrite app_nil_r. auto.
Qed.

(** The caller whose exchange finds [dead] at 0 becomes the one winner. *)
Lemma kill_inv_new_winner (w : kill_world) (t : nat) (s : kill_state)
  (lock : option nat) :
  kill_inv w -> kw_pcs w !! t = Some KXchg ->
  dead (k_ctx (kw_state w)) = 0 -> dead (k_ctx s) = 1 ->
  kill_inv (kw_update w t KTableClear s lock []).
Proof.
  intros [(Hnone & Hlog)|(Hdead & _)] Ht Hd0 Hd1; [|congruence].
  right. simpl. split; [exact Hd1|].
  exists t, KTableClear.
  rewrite list_lookup_insert_eq by (eapply lookup_lt_Some; eauto).
  split; [reflexivity|]. split; [simpl; lia|]. split.
  - intros u q Hu Hne. rewrite list_lookup_insert_ne in Hu by congruence.
    eauto.
  - rewrite Hlog. simpl. split; [constructor|]. apply NoDup_nil. exact I.
Qed.

(** The winner moves on by one stage, logging at most one step, of the
    stage he leaves. *)
Lemma kill_inv_winner (w : kill_world) (t : nat) (pc pc' : kill_pc)
  (s : kill_state) (lock : option nat) (log : list (nat * teardown)) :
  kill_inv w -> kw_pcs w !! t = Some pc -> 0 < stage pc ->
  stage pc < stage pc' ->
  dead (k_ctx s) = dead (k_ctx (kw_state w)) ->
  (log = [] \/ exists e, log = [(t, e)] /\ kind e = stage pc) ->
  kill_inv (kw_update w t pc' s lock log).
Proof.
  intros [(Hnone & _)|(Hdead & t0 & pc0 & Ht0 & Hs0 & Hothers & Hall & Hnd)]
    Ht Hs Hs' Hd Hlog.
  { specialize (Hnone t pc Ht). lia. }
  assert (t = t0).
  { destruct (Nat.eq_dec t t0) as [|Hne]; [assumption|].
    specialize (Hothers t pc Ht Hne). lia. }
  subst t0. rewrite Ht in Ht0. inversion Ht0; subst pc0. clear Ht0.
  right. simpl. split; [congruence|].
  exists t, pc'.
  rewrite list_lookup_insert_eq by (eapply lookup_lt_Some; eauto).
  split; [reflexivity|]. split; [lia|]. split.
  { intros u q Hu Hne. rewrite list_lookup_insert_ne in Hu by congruence.
    eauto. }
  assert (Hold : Forall (fun e => fst e = t /\ kind (snd e) < stage pc')
                   (kw_log w)).
  { eapply Forall_impl; [exact Hall|]. simpl. intros e [He Hk]. split; [exact He|lia]. }
  destruct Hlog as [->|(e & -> & Hk)].
  - rewrite app_nil_r. auto.
  - split.
    + apply Forall_app. split; [exact Hold|].
      constructor; [|constructor]. simpl. split; [reflexivity|lia].
    + unfold log_kinds in *. rewrite fmap_app. apply NoDup_app.
      split; [exact Hnd|]. split; [|apply NoDup_singleton].
      intros x Hx. simpl. intros Hin. apply list_elem_of_singleton in Hin.
      subst x. apply list_elem_of_fmap in Hx as (e' & Heq & Hin').
      rewrite Forall_forall in Hall. destruct (Hall e' Hin') as [_ Hlt].
      lia.
Qed.

(** Every statement of every caller keeps the invariant. *)
Lemma kill_step_inv (w w' : kill_world) :
  kill_step K waits w w' -> kill_inv w -> kill_inv w'.
Proof.
  intros Hstep Hinv.
  destruct Hstep as [w t Ht Hl|w t Ht|w t Ht|w t Ht|w t Ht|w t Ht|w t Ht
                    |w t Ht|w t Ht|w t Ht].
  1: solve [eapply kill_inv_loser; eauto].
  1: { unfold atomic_xchg. cbn [fst snd].
       destruct (Z.eqb_spec (dead (k_ctx (kw_state w))) 0) as [Hz|Hnz];
         cbn [negb].
       - eapply kill_inv_new_winner; eauto.
       - eapply kill_inv_loser; eauto. }
  1: solve [eapply kill_inv_loser; eauto].
  all: eapply kill_inv_winner; eauto; simpl; try lia;
    try (right; eexists; split; reflexivity).
  destruct (mmap_size (k_ctx (kw_state w)) =? 0); cbn [negb];
    [left; reflexivity|right; eexists; split; reflexivity].
Qed.

Lemma kill_reachable_inv (n : nat) (s : kill_state) (w : kill_world) :
  rtc (kill_step K waits) (kill_init n s) w -> kill_inv w.
Proof.
  intros H. pattern w. revert w H. apply rtc_ind_r.
  - apply kill_inv_init.
  - intros w w' _ Hstep IH. eapply kill_step_inv; eassumption.
Qed.


Lemma dead_inv_init (n : nat) (s : kill_state) : dead_inv s (kill_init n s).
Proof.
  split.
  - intros t pc Ht Hp. simpl in Ht.
    apply lookup_replicate in Ht as [-> _]. discriminate.
  - intros Hd _. exact Hd.
Qed.

(** One update of a program counter: what was true of all callers before
    is true of the others afterwards. *)
Lemma lookup_update (w : kill_world) (t u : nat) (pc pc' q : kill_pc) :
  kw_pcs w !! t = Some pc -> <[t := pc']> (kw_pcs w) !! u = Some q ->
  (u = t /\ q = pc') \/ (u <> t /\ kw_pcs w !! u = Some q).
Proof.
  intros Ht Hu. destruct (Nat.eq_dec u t) as [->|Hne].
  - rewrite list_lookup_insert_eq in Hu by (eapply lookup_lt_Some; eauto).
    inversion Hu; subst. left. auto.
  - rewrite list_lookup_insert_ne in Hu by congruence. right. auto.
Qed.

Lemma dead_inv_update (s0 : kill_state) (w : kill_world) (t : nat)
  (pc pc' : kill_pc) (s : kill_state) (lock : option nat)
  (log : list (nat * teardown)) :
  dead_inv s0 w -> kw_pcs w !! t = Some pc ->
  (dead (k_ctx (kw_state w)) <> 0 -> dead (k_ctx s) <> 0) ->
  (past_xchg pc' = true -> dead (k_ctx s) <> 0) ->
  (stage pc' = 0 -> stage pc = 0 /\
     (dead (k_ctx (kw_state w)) = 0 -> dead (k_ctx s) = 0)) ->
  dead_inv s0 (kw_update w t pc' s lock log).
Proof.
  intros (Hpast & Hzero) Ht Hkeep Hnew Hback. split; simpl.
  - intros u q Hu Hq.
    destruct (lookup_update w t u pc pc' q Ht Hu) as [(-> & ->)|(Hne & Hu')].
    + auto.
    + apply Hkeep. eapply Hpast; eauto.
  - intros Hd0 Hall.
    assert (Hs' : stage pc' = 0).
    { apply (Hall t). apply list_lookup_insert_eq.
      eapply lookup_lt_Some; eauto. }
    destruct (Hback Hs') as (Hs & Hd). apply Hd. apply Hzero; [exact Hd0|].
    intros u q Hu. destruct (Nat.eq_dec u t) as [->|Hne].
    + rewrite Ht in Hu. inversion Hu; subst. exact Hs.
    + apply (Hall u). rewrite list_lookup_insert_ne by congruence. exact Hu.
Qed.

Lemma kill_step_dead_inv (s0 : kill_state) (w w' : kill_world) :
  kill_step K waits w w' -> dead_inv s0 w -> dead_inv s0 w'.
Proof.
  intros Hstep Hinv.
  assert (Hpast : forall t pc, kw_pcs w !! t = Some pc ->
            past_xchg pc = true -> dead (k_ctx (kw_state w)) <> 0)
    by apply Hinv.
  destruct Hstep as [w t Ht Hl|w t Ht|w t Ht|w t Ht|w t Ht|w t Ht|w t Ht
                    |w t Ht|w t Ht|w t Ht];
    try (eapply dead_inv_update; eauto; simpl;
         try (intros _; eapply Hpast; eauto; reflexivity);
         try (intros Hs; lia); try discriminate; fail).
  unfold atomic_xchg. cbn [fst snd].
  eapply dead_inv_update; eauto; simpl; try (intros; lia).
  destruct (Z.eqb_spec (dead (k_ctx (kw_state w))) 0) as [Hz|Hnz];
    cbn [negb]; simpl; intros Hs; [lia|]. split; [reflexivity|]. lia.
Qed.

Lemma dead_reachable_inv (n : nat) (s : kill_state) (w : kill_world) :
  rtc (kill_step K waits) (kill_init n s) w -> dead_inv s w.
Proof.
  intros H. pattern w. revert w H. apply rtc_ind_r.
  - apply dead_inv_init.
  - intros w w' _ Hstep IH. eapply kill_step_dead_inv; eassumption.
Qed.


(** *** One caller after the other *)

Lemma kill_ioctx_dead (wait : option Z) (s : kill_state) :
  dead (k_ctx s) <> 0 ->
  kill_ioctx K wait s = (- EINVAL, with_ctx (set_dead 1 (k_ctx s)) s, []).
Proof.
  intros Hd. unfold kill_ioctx, atomic_xchg.
  destruct (Z.eqb_spec (dead (k_ctx s)) 0); [contradiction|]. reflexivity.
Qed.

Lemma kill_ioctx_live (wait : option Z) (s : kill_state) :
  dead (k_ctx s) = 0 ->
  kill_ioctx K wait s
  = (0,
     {| k_ctx := set_users (percpu_ref_kill (users (k_ctx s)))
                   (set_rq_wait wait (set_dead 1 (k_ctx s)));
        k_mm := table_clear (Z.to_nat (id (k_ctx s))) (k_mm s);
        k_aio_nr := aio_nr_sub K (max_reqs (k_ctx s)) (k_aio_nr s) |},
     [TTableClear (id (k_ctx s)); TWakeUpAll; TAioNrSub (max_reqs (k_ctx s))]
       ++ (if negb (mmap_size (k_ctx s) =? 0)
           then [TMunmap (mmap_base (k_ctx s)) (mmap_size (k_ctx s))]
           else [])
       ++ [TSetRqWait wait; TKillUsers]).
Proof.
  intros Hd. unfold kill_ioctx, atomic_xchg. rewrite Hd. reflexivity.
Qed.

Lemma kill_calls_dead (ws : list (option Z)) (s : kill_state) :
  dead (k_ctx s) <> 0 ->
  exists s',
    kill_calls K ws s = (replicate (length ws) (- EINVAL), s', []).
Proof.
  revert s. induction ws as [|w ws IH]; intros s Hd.
  - exists s. reflexivity.
  - cbn [kill_calls]. rewrite (kill_ioctx_dead w s Hd).
    destruct (IH (with_ctx (set_dead 1 (k_ctx s)) s)) as (s' & Heq);
      [simpl; lia|].
    rewrite Heq. exists s'. reflexivity.
Qed.

(** C9.  [kill_ioctx] exchanges [dead] for 1 before any teardown step.
    On a context whose flag was already set it answers [-EINVAL] and
    tears nothing down.  On a live context it answers 0, having cleared
    the registry slot, unmapped the ring if it is mapped, recorded the
    waiter and killed the [users] reference, each once; every later call
    answers [-EINVAL] and tears nothing down.  When any number of callers
    run interleaved on one context, at most one of them returns 0, every
    teardown step in the log was made by that one caller, no teardown
    step is made twice, and [dead] is 1 once any is made; on a context
    that was alive, as soon as any caller is past the exchange there is a
    caller who has won it. *)
Theorem kill_ioctx_tears_down_once (wait : option Z)
  (others : list (option Z)) (s : kill_state) (n : nat) (w : kill_world) :
  rtc (kill_step K waits) (kill_init n s) w ->
  (dead (k_ctx s) <> 0 ->
   kill_ioctx K wait s = (- EINVAL, with_ctx (set_dead 1 (k_ctx s)) s, [])) /\
  (dead (k_ctx s) = 0 ->
   exists s' tr,
     kill_ioctx K wait s = (0, s', tr) /\
     dead (k_ctx s') = 1 /\ ref_dead (users (k_ctx s')) = true /\
     rq_wait (k_ctx s') = wait /\
     k_mm s' = table_clear (Z.to_nat (id (k_ctx s))) (k_mm s) /\
     NoDup (kind <$> tr) /\
     exists s'',
       kill_calls K (wait :: others) s
       = (0 :: replicate (length others) (- EINVAL), s'', tr)) /\
  (forall t t', kw_pcs w !! t = Some (KDone 0) ->
     kw_pcs w !! t' = Some (KDone 0) -> t = t') /\
  NoDup (log_kinds (kw_log w)) /\
  (forall e e', e ∈ kw_log w -> e' ∈ kw_log w -> fst e = fst e') /\
  (kw_log w <> [] -> dead (k_ctx (kw_state w)) = 1) /\
  (dead (k_ctx s) = 0 ->
   (exists t pc, kw_pcs w !! t = Some pc /\ past_xchg pc = true) ->
   exists t pc, kw_pcs w !! t = Some pc /\ 0 < stage pc /\
     forall t' pc', kw_pcs w !! t' = Some pc' -> 0 < stage pc' -> t' = t).
Proof.
  intros Hrtc.
  split; [apply kill_ioctx_dead|]. split.
  { intros Hd. eexists _, _. split; [apply (kill_ioctx_live wait s Hd)|].
    cbn [k_ctx k_mm dead users rq_wait set_users set_rq_wait set_dead
         percpu_ref_kill ref_dead].
    splits; try reflexivity.
    - destruct (mmap_size (k_ctx s) =? 0); cbn;
        repeat (apply NoDup_cons_2;
                [intros Hin;
                 repeat (apply elem_of_cons in Hin as [Hin|Hin];
                         [discriminate|]);
                 inversion Hin|]);
        apply NoDup_nil_2.
    - cbn [kill_calls]. rewrite (kill_ioctx_live wait s Hd).
      match goal with
      | |- context [kill_calls K others ?s1] =>
          destruct (kill_calls_dead others s1) as (s'' & Heq);
            [simpl; lia|]; rewrite Heq
      end.
      rewrite app_nil_r. eexists. reflexivity. }
  pose proof (kill_reachable_inv n s w Hrtc) as Hinv.
  pose proof (dead_reachable_inv n s w Hrtc) as (Hpast & Hzero).
  destruct Hinv as [(Hnone & Hlog)|(Hdead & t0 & pc0 & Ht0 & Hs0 & Hothers & Hall & Hnd)].
  - splits.
    + intros t t' Ht _. specialize (Hnone t _ Ht). simpl in Hnone. lia.
    + rewrite Hlog. apply NoDup_nil. exact I.
    + rewrite Hlog. intros e e' He. apply elem_of_nil in He. contradiction.
    + rewrite Hlog. contradiction.
    + intros Hd (t & pc & Ht & Hp). exfalso.
      apply (Hpast t pc Ht Hp). apply Hzero; assumption.
  - assert (Huniq : forall t pc, kw_pcs w !! t = Some pc -> 0 < stage pc ->
                      t = t0).
    { intros t pc Ht Hs. destruct (Nat.eq_dec t t0) as [|Hne]; [assumption|].
      specialize (Hothers t pc Ht Hne). lia. }
    splits.
    + intros t t' Ht Ht'.
      rewrite (Huniq t _ Ht) by (simpl; lia).
      rewrite (Huniq t' _ Ht') by (simpl; lia). reflexivity.
    + exact Hnd.
    + rewrite Forall_forall in Hall. intros e e' He He'.
      destruct (Hall e He) as [-> _]. destruct (Hall e' He') as [-> _].
      reflexivity.
    + intros _. exact Hdead.
    + intros _ _. exists t0, pc0. splits; auto.
Qed.

End Teardown.

Lemma two_killers_run :
  rtc (kill_step uniprocessor (fun _ => None)) (kill_init 2 live_state)
    two_killers_done.
Proof.
  eapply rtc_l;
    [apply (kstep_lock _ _ (kill_init 2 live_state) 0%nat); reflexivity
    |vm_compute].
  eapply rtc_l; [apply (kstep_xchg _ _ _ 0%nat); reflexivity|vm_compute].
  eapply rtc_l; [apply (kstep_table_clear _ _ _ 0%nat); reflexivity|vm_compute].
  eapply rtc_l; [apply (kstep_unlock _ _ _ 0%nat); reflexivity|vm_compute].
  eapply rtc_l; [apply (kstep_lock _ _ _ 1%nat); reflexivity|vm_compute].
  eapply rtc_l; [apply (kstep_xchg _ _ _ 1%nat); reflexivity|vm_compute].
  eapply rtc_l; [apply (kstep_fail _ _ _ 1%nat); reflexivity|vm_compute].
  eapply rtc_l; [apply (kstep_wake_up _ _ _ 0%nat); reflexivity|vm_compute].
  eapply rtc_l; [apply (kstep_aio_nr_sub _ _ _ 0%nat); reflexivity|vm_compute].
  eapply rtc_l; [apply (kstep_munmap _ _ _ 0%nat); reflexivity|vm_compute].
  eapply rtc_l; [apply (kstep_set_rq_wait _ _ _ 0%nat); reflexivity|vm_compute].
  eapply rtc_l; [apply (kstep_kill_users _ _ _ 0%nat); reflexivity|vm_compute].
  apply rtc_refl.
Defined.

Lemma kill_ioctx_tears_down_once_witness :
  rtc (kill_step uniprocessor (fun _ => None)) (kill_init 2 live_state)
    two_killers_done /\
  NoDup (log_kinds (kw_log two_killers_done)) /\
  dead (k_ctx (kw_state two_killers_done)) = 1.
Proof.
  split; [exact two_killers_run|].
  destruct (kill_ioctx_tears_down_once uniprocessor (fun _ => None) None []
              live_state 2 two_killers_done two_killers_run)
    as (_ & _ & _ & H1 & _ & H2 & _).
  split; [exact H1|]. apply H2. discriminate.
Defined.

(** ** Accounting of slots *)

(** A closed statement of arithmetic on a concrete state, settled by
    evaluation. *)
Ltac evaluated :=
  vm_compute; repeat split;
  first [reflexivity | lia | (intros ?; discriminate)].

Section Accounting.

Variable K : kconfig.

(** The count of [refill_reqs_available] is the distance from [head] to
    [tail] around the ring. *)
Lemma events_in_ring_count (N h t : Z) :
  0 < N < 2 ^ 31 -> 0 <= t < N ->
  (if h mod N <=? t then u32 (t - h mod N)
   else u32 (N - u32 (h mod N - t))) = (t - h) mod N.
Proof.
  intros HN Ht.
  pose proof (Z.mod_pos_bound h N ltac:(lia)) as Hh.
  rewrite <- (Zminus_mod_idemp_r t h N).
  destruct (Z.leb_spec (h mod N) t).
  - rewrite u32_small by lia.
    rewrite (Z.mod_small (t - h mod N)) by lia. reflexivity.
  - rewrite (u32_small (h mod N - t)) by lia. rewrite u32_small by lia.
    apply (Z.mod_unique _ _ (-1)); lia.
Qed.

(** [refill_reqs_available], exactly: of the slots in [completed_events],
    those beyond the records still in the ring go back to the counter. *)
Lemma refill_reqs_available_exact (k : nat) (head tail : Z) (c : kioctx) :
  counters_ok c = true -> (k < length (cpu c))%nat ->
  0 < nr_events c < 2 ^ 31 -> 0 <= tail < nr_events c ->
  exists c',
    refill_reqs_available k head tail c
    = Some (c', Z.max 0 (completed_events c - events_in_ring c head tail)) /\
    frame c c' /\ same_ring c c' /\ counters_ok c' = true /\
    completed_events c'
    = Z.min (completed_events c) (events_in_ring c head tail) /\
    reqs_total c' + completed_events c'
    = reqs_total c + completed_events c /\
    reqs c' = reqs c /\
    (completed_events c <= events_in_ring c head tail -> c' = c).
Proof.
  intros Hok Hk HN Ht.
  pose proof (counters_ok_elim c Hok) as (Hb & Hg & Hcpu & Hc & Hs).
  assert (0 <= percpu_sum (cpu c)) by (apply percpu_sum_nonneg; exact Hcpu).
  unfold reqs_total in Hs.
  unfold refill_reqs_available. cbv zeta.
  rewrite (events_in_ring_count (nr_events c) head tail HN Ht).
  fold (events_in_ring c head tail).
  pose proof (Z.mod_pos_bound (tail - head) (nr_events c) ltac:(lia)) as Hin.
  fold (events_in_ring c head tail) in Hin.
  set (in_ring := events_in_ring c head tail) in *.
  destruct (Z.ltb_spec in_ring (completed_events c)) as [Hlt|Hge].
  - rewrite (u32_small (completed_events c - in_ring)) by lia.
    destruct (Z.eqb_spec (completed_events c - in_ring) 0) as [|_]; [lia|].
    rewrite (u32_small (completed_events c - (completed_events c - in_ring)))
      by lia.
    set (n := completed_events c - in_ring).
    set (c1 := set_completed_events (completed_events c - n) c).
    assert (Hok1 : counters_ok c1 = true).
    { apply counters_ok_intro; simpl; try assumption; try lia.
      unfold reqs_total. simpl. lia. }
    destruct (put_reqs_available_ok k n c1 Hok1 Hk ltac:(lia))
      as (c' & Heq & Hfr & Hsr & Hok' & Htot & Hce & Hrq & Hpos).
    { unfold reqs_total. simpl. lia. }
    rewrite Heq. cbn [obind].
    exists c'. rewrite Z.max_r by lia. split; [reflexivity|].
    split; [exact Hfr|]. split; [exact Hsr|]. split; [exact Hok'|].
    rewrite Hce, Htot. change (completed_events c1) with (completed_events c - n).
    change (reqs_total c1) with (reqs_total c).
    split; [lia|]. split; [lia|]. split; [exact Hrq|]. lia.
  - cbn [Z.eqb]. exists c. rewrite Z.max_l by lia.
    split; [reflexivity|]. split; [apply frame_refl|].
    split; [apply same_ring_refl|]. split; [exact Hok|].
    split; [lia|]. split; [lia|]. split; reflexivity.
Qed.


(** [aio_complete], with the exact count of the slots its refill gives
    back. *)
Lemma aio_complete_exact (k : nat) (iocb : aio_kiocb) (res res2 : Z)
  (c : kioctx) :
  config_ok K = true -> ring_ok K c = true -> counters_ok c = true ->
  (k < length (cpu c))%nat ->
  reqs_total c + completed_events c + 1 < 2 ^ 31 ->
  let pos := tail c + AIO_EVENTS_OFFSET K in
  let page := pos / AIO_EVENTS_PER_PAGE K in
  let slot := pos mod AIO_EVENTS_PER_PAGE K in
  let ev := {| ev_obj := u64 (ulong K (ki_user_iocb iocb));
               ev_data := ki_user_data iocb;
               ev_res := res; ev_res2 := res2 |} in
  let tail' := (tail c + 1) mod nr_events c in
  exists c' tr,
    aio_complete K k iocb res res2 c = Some (c', tr) /\
    frame c c' /\ ring_ok K c' = true /\ counters_ok c' = true /\
    completed_events c'
    = (if 1 <? completed_events c + 1
       then Z.min (completed_events c + 1)
              (events_in_ring c (ring_head (ring c)) tail')
       else completed_events c + 1) /\
    reqs_total c' + completed_events c'
    = reqs_total c + completed_events c + 1 /\
    reqs c' = percpu_ref_put (reqs c) /\
    tail c' = tail' /\ ring c' = set_ring_tail tail' (ring c) /\
    ring_events c' = <[(page, slot) := ev]> (ring_events c).
Proof.
  intros Hc Hr Hok Hk Hsum.
  destruct (page_geometry K Hc) as (P & HP & Hps & Hpp & Hfp & Hoff).
  destruct (ring_size K c P Hr Hps HP) as (HN & HNr).
  pose proof (ring_ok_elim K c Hr) as (Hnp & Hnr & _ & Htl).
  pose proof (counters_ok_elim c Hok) as (Hb & Hg & Hcpu & Hce & Hs).
  assert (Htot0 : 0 <= reqs_total c).
  { unfold reqs_total. pose proof (percpu_sum_nonneg _ Hcpu). lia. }
  cbv zeta. unfold aio_complete.
  rewrite (u32_small (tail c + 1)) by lia.
  rewrite (u32_small (completed_events _ + 1))
    by (cbn [completed_events set_ring set_tail set_ring_events]; lia).
  rewrite (ulong_small K (tail c + AIO_EVENTS_OFFSET K)) by (auto; lia).
  rewrite (u32_small (tail c + AIO_EVENTS_OFFSET K)) by lia.
  rewrite (tail_advance (tail c) (nr_events c) Htl).
  set (tail1 := (tail c + 1) mod nr_events c).
  assert (Ht1 : 0 <= tail1 < nr_events c)
    by (apply Z.mod_pos_bound; lia).
  match goal with
  | |- context [set_completed_events ?v ?c3] =>
      set (c4 := set_completed_events v c3)
  end.
  assert (Hfr4 : frame c c4) by (unfold frame; simpl; tauto).
  assert (Hok4 : counters_ok c4 = true).
  { apply counters_ok_intro; simpl; try assumption; try lia.
    unfold reqs_total in *. simpl. lia. }
  assert (Hr4 : ring_ok K c4 = true).
  { apply ring_ok_intro; cbn [nr_pages nr_events tail c4
      set_completed_events set_ring set_tail set_ring_events];
      try assumption; try lia. }
  change (ring_head (ring (set_tail tail1
            (set_ring_events _ c)))) with (ring_head (ring c)).
  change (completed_events c4) with (completed_events c + 1).
  assert (Hmid : exists c5 t1,
    (if 1 <? completed_events c + 1 then
       do '(c', _) <- refill_reqs_available k (ring_head (ring c)) tail1 c4;
       Some (c', [ARefill (ring_head (ring c)) tail1])
     else Some (c4, []))
    = Some (c5, t1) /\
    frame c4 c5 /\ same_ring c4 c5 /\ counters_ok c5 = true /\
    completed_events c5
    = (if 1 <? completed_events c + 1
       then Z.min (completed_events c + 1)
              (events_in_ring c (ring_head (ring c)) tail1)
       else completed_events c + 1) /\
    reqs_total c5 + completed_events c5
    = reqs_total c + completed_events c + 1 /\ reqs c5 = reqs c).
  { destruct (Z.ltb_spec 1 (completed_events c + 1)) as [Hgt|Hle].
    - destruct (refill_reqs_available_exact k (ring_head (ring c)) tail1 c4
                  Hok4 Hk) as (c5 & Heq & Hfr & Hsr & Hok5 & Hce5 & Htot & Hrq & _);
        simpl; try lia.
      rewrite Heq. cbn [obind].
      change (completed_events c4) with (completed_events c + 1) in *.
      change (reqs_total c4) with (reqs_total c) in *.
      change (reqs c4) with (reqs c) in *.
      change (events_in_ring c4) with (events_in_ring c) in *.
      eexists c5, _.
      split; [reflexivity|]. splits; try assumption; try lia.
    - eexists c4, _. split; [reflexivity|].
      change (completed_events c4) with (completed_events c + 1) in *.
      change (reqs_total c4) with (reqs_total c) in *.
      splits; try assumption; try lia;
        first [apply frame_refl | apply same_ring_refl | reflexivity]. }
  destruct Hmid as (c5 & t1 & Heq & Hfr5 & Hsr5 & Hok5 & Hce5 & Htot5 & Hrq5).
  rewrite Heq. cbn [obind].
  destruct Hsr5 as (Htl5 & Hrg5 & Hev5).
  eexists _, _. split; [reflexivity|].
  split; [eapply frame_trans; [exact Hfr4|];
          eapply frame_trans; [exact Hfr5|]; unfold frame; simpl; tauto|].
  split.
  { apply (ring_ok_frame K c4); [exact Hr4| |].
    - eapply frame_trans; [exact Hfr5|]. unfold frame; simpl; tauto.
    - simpl. exact Htl5. }
  split; [exact Hok5|]. splits; try assumption; try lia.
  simpl. rewrite Hrq5. reflexivity.
Qed.

(** The ways through [io_submit_one]: refused before any reservation,
    refused for want of a slot or of memory, failed with the reservation
    given back, queued, or completed on the spot. *)
Lemma io_submit_one_paths (e : submit_env) (u : Z) (i : iocb)
  (compat : bool) (c : kioctx) (r : option aio_kiocb) (c1 : kioctx) :
  aio_get_req (e_cpu e) (e_alloc_req e) c = Some (r, c1) ->
  io_submit_one K e u i compat c = Some (- EINVAL, c) \/
  (r = None /\ io_submit_one K e u i compat c = Some (- EAGAIN, c1)) \/
  (exists req ret,
     r = Some req /\
     io_submit_one K e u i compat c = out_put_req (e_cpu e) ret c1) \/
  (exists req,
     r = Some req /\ e_fn e = - EIOCBQUEUED /\
     io_submit_one K e u i compat c = Some (0, c1)) \/
  (exists req req',
     r = Some req /\ e_fn e <> - EIOCBQUEUED /\
     ki_user_iocb req' = u /\ ki_user_data req' = aio_data i /\
     ki_list_next req' = ki_list_next req /\
     io_submit_one K e u i compat c
     = (do '(c2, _) <- aio_complete K (e_cpu e) req'
                        (if is_restart (e_fn e) then - EINTR else e_fn e)
                        0 c1;
        Some (0, c2))).
Proof.
  intros Hget. unfold io_submit_one.
  destruct (negb (aio_reserved1 i =? 0) || negb (aio_reserved2 i =? 0));
    [left; reflexivity|].
  destruct (negb (aio_buf i =? ulong K (aio_buf i))
            || negb (aio_nbytes i =? ulong K (aio_nbytes i))
            || (to_long K (aio_nbytes i) <? 0)); [left; reflexivity|].
  destruct (aio_submit_info K !! Z.to_nat (aio_lio_opcode i)) as [info|];
    [|left; reflexivity].
  destruct (fn info) as [f|]; [|left; reflexivity].
  rewrite Hget. cbn [obind].
  destruct r as [req|]; [|right; left; auto].
  right. right.
  destruct (negb (Z.land (flags info) NEED_FD =? 0)
            && negb (bool_decide (is_Some (e_fget e))));
    [left; eauto|].
  destruct (negb (Z.land (aio_flags i) IOCB_FLAG_RESFD =? 0)
            && IS_ERR_VALUE K (e_eventfd e)); [left; eauto|].
  destruct (negb (e_put_user e =? 0)); [left; eauto|].
  destruct (Z.eqb_spec (e_fn e) (- EIOCBQUEUED)) as [Hq|Hq];
    [right; left; eauto|].
  destruct (is_restart (e_fn e)) eqn:Hrs.
  { right. right. eexists req, _. split; [reflexivity|].
    split; [exact Hq|]. split; [|split; [|split; [|reflexivity]]];
      reflexivity. }
  destruct (IS_ERR_VALUE K (e_fn e)); [left; eauto|].
  right. right. eexists req, _. split; [reflexivity|].
  split; [exact Hq|]. split; [|split; [|split; [|reflexivity]]];
    reflexivity.
Qed.

(** [io_submit_one] and the slots of the context: none is lost and none is
    made, whichever way the call goes, and the references on [reqs] rise,
    by one, only for a request that stays queued. *)
Lemma io_submit_one_slots (e : submit_env) (u : Z) (i : iocb)
  (compat : bool) (c : kioctx) :
  config_ok K = true -> ring_ok K c = true -> counters_ok c = true ->
  (e_cpu e < length (cpu c))%nat ->
  exists ret c',
    io_submit_one K e u i compat c = Some (ret, c') /\ frame c c' /\
    ring_ok K c' = true /\ counters_ok c' = true /\
    slots_held c' = slots_held c /\
    (reqs c' = reqs c \/
     (ret = 0 /\ e_fn e = - EIOCBQUEUED /\
      reqs c' = percpu_ref_get (reqs c) /\ same_ring c c')).
Proof.
  intros Hc Hr Hok Hk.
  pose proof (counters_ok_elim c Hok) as (Hb & Hg & Hcpu & Hce & Hs).
  destruct (page_geometry K Hc) as (P & HP & Hps & _).
  destruct (ring_size K c P Hr Hps HP) as (_ & HN).
  pose proof (ring_ok_elim K c Hr) as (_ & _ & _ & Htl).
  destruct (aio_get_req_ok (e_cpu e) (e_alloc_req e) c Hok Hk ltac:(lia) Htl)
    as (r & c1 & n & Heq & Hfr1 & Hsr1 & Hok1 & Hn & Hce1 & Hz & Hres).
  assert (Hr1 : ring_ok K c1 = true)
    by (apply (ring_ok_frame K c); [exact Hr|exact Hfr1|apply Hsr1]).
  assert (Hk1 : (e_cpu e < length (cpu c1))%nat)
    by (apply (frame_length c); assumption).
  destruct (io_submit_one_paths e u i compat c r c1 Heq)
    as [Hp|[(-> & Hp)|[(req & ret & -> & Hp)|[(req & -> & Hq & Hp)
       |(req & req' & -> & Hq & _ & _ & _ & Hp)]]]]; rewrite Hp; clear Hp.
  - exists (- EINVAL), c. split; [reflexivity|].
    split; [apply frame_refl|]. splits; auto.
  - destruct Hres as (Htot1 & Hrq1).
    exists (- EAGAIN), c1. split; [reflexivity|]. splits; auto.
    unfold slots_held. rewrite Hrq1. lia.
  - destruct Hres as (_ & _ & Htot1 & Hrq1).
    destruct (out_put_req_ok (e_cpu e) ret c1 Hok1 Hk1 ltac:(lia))
      as (c2 & Heq2 & Hfr2 & Hsr2 & Hok2 & Htot2 & Hce2 & Hrq2).
    assert (Hrq : reqs c2 = reqs c)
      by (rewrite Hrq2, Hrq1; apply percpu_ref_put_get).
    exists (s32 ret), c2. split; [exact Heq2|].
    split; [eapply frame_trans; eassumption|].
    split; [apply (ring_ok_frame K c1); [exact Hr1|exact Hfr2|apply Hsr2]|].
    split; [exact Hok2|]. split; [|left; exact Hrq].
    unfold slots_held. rewrite Hrq. lia.
  - destruct Hres as (_ & _ & Htot1 & Hrq1).
    exists 0, c1. split; [reflexivity|]. splits; auto.
    unfold slots_held. rewrite Hrq1. simpl. lia.
  - destruct Hres as (_ & _ & Htot1 & Hrq1).
    destruct (aio_complete_ok K (e_cpu e) req'
                (if is_restart (e_fn e) then - EINTR else e_fn e) 0 c1
                Hc Hr1 Hok1 Hk1 ltac:(lia))
      as (c2 & m & Heq2 & Hfr2 & Hr2 & Hok2 & Hm & _ & Hce2 & Htot2 & Hrq2 & _).
    rewrite Heq2. cbn [obind].
    assert (Hrq : reqs c2 = reqs c)
      by (rewrite Hrq2, Hrq1; apply percpu_ref_put_get).
    exists 0, c2. split; [reflexivity|].
    split; [eapply frame_trans; eassumption|].
    split; [exact Hr2|]. split; [exact Hok2|]. split; [|left; exact Hrq].
    unfold slots_held. rewrite Hrq. lia.
Qed.

(** The refill inside [aio_get_req] never takes [completed_events] below
    the number of records still in the ring. *)
Lemma aio_get_req_events (k : nat) (alloc_ok : bool) (c : kioctx)
  (r : option aio_kiocb) (c' : kioctx) :
  counters_ok c = true -> (k < length (cpu c))%nat ->
  0 < nr_events c < 2 ^ 31 -> 0 <= tail c < nr_events c ->
  aio_get_req k alloc_ok c = Some (r, c') ->
  completed_events c' = completed_events c \/
  completed_events c'
  = Z.min (completed_events c)
      (events_in_ring c (ring_head (ring c)) (tail c)).
Proof.
  intros Hok Hk HN Ht. unfold aio_get_req.
  destruct (get_reqs_available_ok k c Hok Hk)
    as (got & c1 & Heq1 & Hfr1 & Hsr1 & Hok1 & Htot1 & Hce1 & Hrq1 & Hno1 & _).
  rewrite Heq1. cbn [obind].
  assert (Hmid : exists got2 c2,
    (if got then Some (true, c1)
     else do '(c1', _) <- user_refill_reqs_available k c1;
          get_reqs_available k c1') = Some (got2, c2) /\
    counters_ok c2 = true /\ (k < length (cpu c2))%nat /\
    reqs_total c2 + completed_events c2 + (if got2 then 1 else 0)
    = reqs_total c + completed_events c /\
    (completed_events c2 = completed_events c \/
     completed_events c2
     = Z.min (completed_events c)
         (events_in_ring c (ring_head (ring c)) (tail c)))).
  { destruct got.
    - exists true, c1. split; [reflexivity|]. split; [exact Hok1|].
      split; [apply (frame_length c); assumption|]. split; [lia|].
      left. exact Hce1.
    - destruct (Hno1 eq_refl) as (-> & _).
      assert (Hrf : exists c1',
        user_refill_reqs_available k c = Some (c1',
          Z.max 0 (completed_events c
                   - events_in_ring c (ring_head (ring c)) (tail c))) /\
        frame c c1' /\ counters_ok c1' = true /\
        (completed_events c1' = completed_events c \/
         completed_events c1'
         = Z.min (completed_events c)
             (events_in_ring c (ring_head (ring c)) (tail c))) /\
        reqs_total c1' + completed_events c1'
        = reqs_total c + completed_events c).
      { unfold user_refill_reqs_available.
        pose proof (Z.mod_pos_bound (tail c - ring_head (ring c))
                      (nr_events c) ltac:(lia)) as He.
        fold (events_in_ring c (ring_head (ring c)) (tail c)) in He.
        destruct (Z.eqb_spec (completed_events c) 0) as [Hz|Hnz].
        - exists c. rewrite Hz. rewrite Z.max_l by lia.
          split; [reflexivity|]. split; [apply frame_refl|].
          split; [exact Hok|]. split; [left; reflexivity|lia].
        - destruct (refill_reqs_available_exact k (ring_head (ring c))
                      (tail c) c Hok Hk HN Ht)
            as (c1' & Heq & Hfr & _ & Hok' & Hce & Htot & _ & _).
          exists c1'. split; [exact Heq|]. split; [exact Hfr|].
          split; [exact Hok'|]. split; [right; exact Hce|exact Htot]. }
      destruct Hrf as (c1' & Heq2 & Hfr2 & Hok2 & Hce2 & Htot2).
      rewrite Heq2. cbn [obind].
      assert (Hk2 : (k < length (cpu c1'))%nat)
        by (apply (frame_length c); assumption).
      destruct (get_reqs_available_ok k c1' Hok2 Hk2)
        as (got2 & c2 & Heq3 & Hfr3 & _ & Hok3 & Htot3 & Hce3 & _).
      exists got2, c2. split; [exact Heq3|]. split; [exact Hok3|].
      split; [apply (frame_length c1'); assumption|].
      split; [destruct got2; lia|]. rewrite Hce3. exact Hce2. }
  destruct Hmid as (got2 & c2 & Heq2 & Hok2 & Hk2 & Htot2 & Hce2).
  rewrite Heq2. cbn [obind].
  pose proof (counters_ok_elim c Hok) as (_ & _ & _ & _ & Hs).
  destruct got2.
  - destruct alloc_ok.
    + intros [= <- <-]. exact Hce2.
    + destruct (put_reqs_available_ok k 1 c2 Hok2 Hk2 ltac:(lia))
        as (c3 & Heq3 & _ & _ & _ & _ & Hce3 & _).
      { lia. }
      rewrite Heq3. cbn [obind]. intros [= <- <-]. rewrite Hce3. exact Hce2.
  - intros [= <- <-]. exact Hce2.
Qed.

(** X1.  [refill_reqs_available] returns, for every value of [head].  Of
    the slots waiting in [completed_events] it gives back to the counter
    exactly those beyond the records that lie between [head] and [tail]
    in the ring, so that [completed_events] becomes the smaller of its old
    value and that number of records; the context is untouched when
    [completed_events] does not exceed it. *)
Theorem refill_gives_back_consumed (k : nat) (head tail : Z) (c : kioctx) :
  counters_ok c = true -> (k < length (cpu c))%nat ->
  0 < nr_events c < 2 ^ 31 -> 0 <= tail < nr_events c ->
  exists c' n,
    refill_reqs_available k head tail c = Some (c', n) /\
    n = Z.max 0 (completed_events c - events_in_ring c head tail) /\
    completed_events c'
    = Z.min (completed_events c) (events_in_ring c head tail) /\
    reqs_total c' = reqs_total c + n /\
    (completed_events c <= events_in_ring c head tail -> c' = c).
Proof.
  intros Hok Hk HN Ht.
  destruct (refill_reqs_available_exact k head tail c Hok Hk HN Ht)
    as (c' & Heq & _ & _ & _ & Hce & Htot & _ & Hsame).
  exists c', (Z.max 0 (completed_events c - events_in_ring c head tail)).
  split; [exact Heq|]. split; [reflexivity|]. split; [exact Hce|].
  split; [lia|exact Hsame].
Qed.

(** X2.  [io_submit_one] returns on every well-formed context, and
    whichever way it goes no slot is lost and none is made: the slots in
    the counter, those in [completed_events] and the references on [reqs]
    add up to what they were.  The references on [reqs] rise, by one, only
    when the call returns 0 for a request that stays queued; in every
    other case they are as before. *)
Theorem io_submit_one_conserves_slots (e : submit_env) (u : Z) (i : iocb)
  (compat : bool) (c : kioctx) :
  config_ok K = true -> ring_ok K c = true -> counters_ok c = true ->
  (e_cpu e < length (cpu c))%nat ->
  exists ret c',
    io_submit_one K e u i compat c = Some (ret, c') /\
    ring_ok K c' = true /\ counters_ok c' = true /\
    slots_held c' = slots_held c /\
    (reqs c' = reqs c \/
     (ret = 0 /\ e_fn e = - EIOCBQUEUED /\
      reqs c' = percpu_ref_get (reqs c) /\ same_ring c c')).
Proof.
  intros Hc Hr Hok Hk.
  destruct (io_submit_one_slots e u i compat c Hc Hr Hok Hk)
    as (ret & c' & Heq & _ & Hr' & Hok' & Hs & Hrq).
  exists ret, c'. auto.
Qed.

(** [aio_complete] on a ring whose header userspace has left alone. *)
Lemma aio_complete_ring_inv (k : nat) (iocb : aio_kiocb)
  (res res2 : Z) (c : kioctx) (m : Z) :
  config_ok K = true -> ring_ok K c = true -> counters_ok c = true ->
  (k < length (cpu c))%nat -> ring_inv m c -> 1 <= m ->
  exists c' tr,
    aio_complete K k iocb res res2 c = Some (c', tr) /\
    frame c c' /\ reqs c' = percpu_ref_put (reqs c) /\
    ring_ok K c' = true /\ counters_ok c' = true /\
    ring_inv (m - 1) c' /\
    events_in_ring c' (ring_head (ring c')) (tail c')
    = events_in_ring c (ring_head (ring c)) (tail c) + 1 /\
    tail c' <> ring_head (ring c') /\
    slots_held c' = slots_held c.
Proof.
  intros Hc Hr Hok Hk (Hh & Hrt & Hev & Hm0 & Hsum) Hm.
  destruct (page_geometry K Hc) as (P & HP & Hps & _).
  destruct (ring_size K c P Hr Hps HP) as (_ & HN).
  pose proof (ring_ok_elim K c Hr) as (_ & _ & _ & Htl).
  pose proof (counters_ok_elim c Hok) as (_ & Hg & Hcpu & Hce & _).
  assert (Htot0 : 0 <= reqs_total c).
  { unfold reqs_total. pose proof (percpu_sum_nonneg _ Hcpu). lia. }
  destruct (aio_complete_exact k iocb res res2 c Hc Hr Hok Hk ltac:(lia))
    as (c' & tr & Heq & Hfr & Hr' & Hok' & Hce' & Htot' & Hrq' & Htl' & Hrg'
        & _).
  assert (HN' : nr_events c' = nr_events c) by apply Hfr.
  pose proof (Z.mod_pos_bound (tail c - ring_head (ring c)) (nr_events c)
                ltac:(lia)) as He.
  fold (events_in_ring c (ring_head (ring c)) (tail c)) in He.
  assert (Hhd : ring_head (ring c') = ring_head (ring c))
    by (rewrite Hrg'; reflexivity).
  assert (Hgrow : events_in_ring c (ring_head (ring c))
                    ((tail c + 1) mod nr_events c)
                  = events_in_ring c (ring_head (ring c)) (tail c) + 1).
  { unfold events_in_ring in *. rewrite Zminus_mod_idemp_l.
    replace (tail c + 1 - ring_head (ring c))
      with (tail c - ring_head (ring c) + 1) by lia.
    rewrite <- Zplus_mod_idemp_l. apply Z.mod_small. lia. }
  assert (Hev' : events_in_ring c' (ring_head (ring c')) (tail c')
                 = events_in_ring c (ring_head (ring c)) (tail c) + 1).
  { unfold events_in_ring at 1. rewrite HN', Hhd, Htl'. exact Hgrow. }
  exists c', tr. split; [exact Heq|]. split; [exact Hfr|].
  split; [exact Hrq'|]. split; [exact Hr'|].
  split; [exact Hok'|]. split.
  { unfold ring_inv. rewrite Hev', HN', Hhd.
    split; [exact Hh|]. split; [rewrite Hrg', Htl'; reflexivity|].
    rewrite Hgrow in Hce'.
    split; [destruct (1 <? completed_events c + 1); lia|].
    split; lia. }
  split; [exact Hev'|]. split.
  { intros Heq'. unfold events_in_ring in Hev' at 1.
    rewrite Heq', Z.sub_diag, Z.mod_0_l in Hev' by lia. lia. }
  unfold slots_held. rewrite Hrq'. simpl. lia.
Qed.

(** [aio_get_req] on a ring whose header userspace has left alone: a
    request it delivers is one more in flight. *)
Lemma aio_get_req_ring_inv (k : nat) (alloc_ok : bool) (c : kioctx) (m : Z) :
  counters_ok c = true -> (k < length (cpu c))%nat ->
  0 < nr_events c < 2 ^ 31 -> 0 <= tail c < nr_events c ->
  ring_inv m c ->
  exists r c',
    aio_get_req k alloc_ok c = Some (r, c') /\ frame c c' /\
    same_ring c c' /\ counters_ok c' = true /\
    reqs c' = match r with
              | Some _ => percpu_ref_get (reqs c)
              | None => reqs c
              end /\
    ring_inv (m + match r with Some _ => 1 | None => 0 end) c'.
Proof.
  intros Hok Hk HN Ht (Hh & Hrt & Hev & Hm0 & Hsum).
  destruct (aio_get_req_ok k alloc_ok c Hok Hk HN Ht)
    as (r & c' & n & Heq & Hfr & Hsr & Hok' & Hn & Hce & _ & Hres).
  pose proof (aio_get_req_events k alloc_ok c r c' Hok Hk HN Ht Heq) as Hce2.
  exists r, c'. split; [exact Heq|]. split; [exact Hfr|].
  split; [exact Hsr|]. split; [exact Hok'|].
  assert (HN' : nr_events c' = nr_events c) by apply Hfr.
  destruct Hsr as (Htl' & Hrg' & _).
  assert (Hinv : forall m', reqs_total c' + completed_events c' + m'
                            = nr_events c - 1 -> 0 <= m' -> ring_inv m' c').
  { intros m' Hs' Hm'. unfold ring_inv, events_in_ring.
    rewrite HN', Hrg', Htl'. unfold events_in_ring in *.
    split; [exact Hh|]. split; [exact Hrt|]. split; [lia|].
    split; [exact Hm'|exact Hs']. }
  destruct r as [req|].
  - destruct Hres as (_ & _ & Htot & Hrq). split; [exact Hrq|].
    apply Hinv; lia.
  - destruct Hres as (Htot & Hrq). split; [exact Hrq|].
    apply Hinv; lia.
Qed.

(** [io_submit_one] on a ring whose header userspace has left alone: the
    requests in flight change as the references on [reqs] do. *)
Lemma io_submit_one_ring_inv (e : submit_env) (u : Z) (i : iocb)
  (compat : bool) (c : kioctx) (m : Z) :
  config_ok K = true -> ring_ok K c = true -> counters_ok c = true ->
  (e_cpu e < length (cpu c))%nat -> ring_inv m c ->
  exists ret c',
    io_submit_one K e u i compat c = Some (ret, c') /\ frame c c' /\
    ring_ok K c' = true /\ counters_ok c' = true /\
    ring_inv (m + (ref_count (reqs c') - ref_count (reqs c))) c'.
Proof.
  intros Hc Hr Hok Hk Hinv.
  destruct (page_geometry K Hc) as (P & HP & Hps & _).
  destruct (ring_size K c P Hr Hps HP) as (_ & HN).
  pose proof (ring_ok_elim K c Hr) as (_ & _ & _ & Htl).
  destruct (aio_get_req_ring_inv (e_cpu e) (e_alloc_req e) c m Hok Hk
              ltac:(lia) Htl Hinv)
    as (r & c1 & Heq & Hfr1 & Hsr1 & Hok1 & Hrq1 & Hinv1).
  assert (Hr1 : ring_ok K c1 = true)
    by (apply (ring_ok_frame K c); [exact Hr|exact Hfr1|apply Hsr1]).
  assert (Hk1 : (e_cpu e < length (cpu c1))%nat)
    by (apply (frame_length c); assumption).
  assert (HN1 : nr_events c1 = nr_events c) by apply Hfr1.
  assert (Hm0 : 0 <= m) by (destruct Hinv as (_ & _ & _ & ? & _); assumption).
  destruct (io_submit_one_paths e u i compat c r c1 Heq)
    as [Hp|[(-> & Hp)|[(req & ret & -> & Hp)|[(req & -> & Hq & Hp)
       |(req & req' & -> & Hq & _ & _ & _ & Hp)]]]]; rewrite Hp; clear Hp.
  - exists (- EINVAL), c. split; [reflexivity|].
    split; [apply frame_refl|]. split; [exact Hr|]. split; [exact Hok|].
    replace (m + _) with m by lia. exact Hinv.
  - exists (- EAGAIN), c1. split; [reflexivity|]. split; [exact Hfr1|].
    split; [exact Hr1|]. split; [exact Hok1|]. rewrite Hrq1.
    replace (m + _) with (m + 0) by lia. exact Hinv1.
  - change (ring_inv (m + 1) c1) in Hinv1.
    destruct Hinv1 as (Hh1 & Hrt1 & Hev1 & Hm1 & Hsum1).
    destruct (out_put_req_ok (e_cpu e) ret c1 Hok1 Hk1 ltac:(lia))
      as (c2 & Heq2 & Hfr2 & Hsr2 & Hok2 & Htot2 & Hce2 & Hrq2).
    exists (s32 ret), c2. split; [exact Heq2|].
    split; [eapply frame_trans; eassumption|].
    split; [apply (ring_ok_frame K c1); [exact Hr1|exact Hfr2|apply Hsr2]|].
    split; [exact Hok2|].
    rewrite Hrq2, Hrq1, percpu_ref_put_get.
    replace (m + _) with m by lia.
    assert (HN2 : nr_events c2 = nr_events c1) by apply Hfr2.
    destruct Hsr2 as (Htl2 & Hrg2 & _).
    unfold ring_inv, events_in_ring in *. rewrite HN2, Hrg2, Htl2.
    split; [exact Hh1|]. split; [exact Hrt1|]. split; [lia|].
    split; lia.
  - exists 0, c1. split; [reflexivity|]. split; [exact Hfr1|].
    split; [exact Hr1|]. split; [exact Hok1|]. rewrite Hrq1.
    replace (m + _) with (m + 1) by (simpl; lia). exact Hinv1.
  - assert (Hm1 : 1 <= m + 1) by lia.
    destruct (aio_complete_ring_inv (e_cpu e) req'
                (if is_restart (e_fn e) then - EINTR else e_fn e) 0 c1
                (m + 1) Hc Hr1 Hok1 Hk1 Hinv1 Hm1)
      as (c2 & tr & Heq2 & Hfr2 & Hrq2 & Hr2 & Hok2 & Hinv2 & _).
    rewrite Heq2. cbn [obind].
    exists 0, c2. split; [reflexivity|].
    split; [eapply frame_trans; eassumption|].
    split; [exact Hr2|]. split; [exact Hok2|].
    rewrite Hrq2, Hrq1, percpu_ref_put_get.
    replace (m + _) with (m + 1 - 1) by lia. exact Hinv2.
Qed.

(** X3.  A completion never overwrites a record that has not been reaped.
    On a ring whose header userspace has left alone, with [m] requests in
    flight of which the completing one is one, [aio_complete] returns and
    leaves such a ring with [m - 1] in flight: the number of records
    between [head] and [tail] has grown by exactly one, so the new [tail]
    has not caught up with [head], and no slot is lost. *)
Theorem aio_complete_never_overwrites (k : nat) (iocb : aio_kiocb)
  (res res2 : Z) (c : kioctx) (m : Z) :
  config_ok K = true -> ring_ok K c = true -> counters_ok c = true ->
  (k < length (cpu c))%nat -> ring_inv m c -> 1 <= m ->
  exists c' tr,
    aio_complete K k iocb res res2 c = Some (c', tr) /\
    ring_ok K c' = true /\ counters_ok c' = true /\
    ring_inv (m - 1) c' /\
    events_in_ring c' (ring_head (ring c')) (tail c')
    = events_in_ring c (ring_head (ring c)) (tail c) + 1 /\
    tail c' <> ring_head (ring c') /\
    slots_held c' = slots_held c.
Proof.
  intros Hc Hr Hok Hk Hinv Hm.
  destruct (aio_complete_ring_inv k iocb res res2 c m Hc Hr Hok Hk Hinv Hm)
    as (c' & tr & Heq & _ & _ & Hrest).
  exists c', tr. split; [exact Heq|exact Hrest].
Qed.

End Accounting.

Lemma refill_gives_back_consumed_witness :
  counters_ok (ctx_with 0 2 3) = true /\
  exists c',
    refill_reqs_available 0 0 2 (ctx_with 0 2 3) = Some (c', 1) /\
    completed_events c' = 2.
Proof.
  split; [reflexivity|].
  destruct (refill_gives_back_consumed 0 0 2 (ctx_with 0 2 3))
    as (c' & n & H1 & H2 & H3 & _);
    [reflexivity | evaluated | evaluated | evaluated |].
  exists c'. rewrite H1, H2, H3. split; reflexivity.
Defined.

Lemma io_submit_one_conserves_slots_witness :
  config_ok uniprocessor = true /\ ring_ok uniprocessor fresh_ctx = true /\
  counters_ok fresh_ctx = true /\
  exists ret c',
    io_submit_one uniprocessor (granted_env (- EIOCBQUEUED)) 0x1000 pread_iocb
      false fresh_ctx = Some (ret, c') /\
    slots_held c' = slots_held fresh_ctx.
Proof.
  split; [reflexivity|]. split; [reflexivity|]. split; [reflexivity|].
  destruct (io_submit_one_conserves_slots uniprocessor
              (granted_env (- EIOCBQUEUED)) 0x1000 pread_iocb false fresh_ctx)
    as (ret & c' & H1 & _ & _ & H2 & _);
    [reflexivity | reflexivity | reflexivity | evaluated |].
  exists ret, c'. split; [exact H1|exact H2].
Defined.

Lemma aio_complete_never_overwrites_witness :
  ring_inv 1 (ctx_with 0 125 0) /\
  exists c' tr,
    aio_complete uniprocessor 0 zeroed_kiocb 16 0 (ctx_with 0 125 0)
    = Some (c', tr) /\
    ring_inv 0 c' /\ tail c' <> ring_head (ring c').
Proof.
  split; [evaluated|].
  destruct (aio_complete_never_overwrites uniprocessor 0 zeroed_kiocb 16 0
              (ctx_with 0 125 0) 1)
    as (c' & tr & H1 & _ & _ & H2 & _ & H3 & _);
    [reflexivity | reflexivity | reflexivity | evaluated | evaluated | lia |].
  exists c', tr. split; [exact H1|]. split; [exact H2|exact H3].
Defined.
(** ** Reaping *)

Section Reaping.

Variable K : kconfig.

(** The loop of [aio_read_events_ring] when every copy succeeds: it takes
    the records from [head] on, in ring order, until [nr] are taken or
    the ring is empty. *)
Lemma read_loop_exact (c : kioctx) (fuel : nat) :
  config_ok K = true -> ring_ok K c = true ->
  forall copies nr head tail ret,
  Forall (fun x => x = 0) copies ->
  0 <= head < nr_events c -> 0 <= tail < nr_events c -> 0 <= ret ->
  nr <= LONG_MAX K -> (Z.to_nat (nr - ret) <= fuel)%nat ->
  let got := Z.max 0 (Z.min (nr - ret) (events_in_ring c head tail)) in
  exists accs,
    read_loop K fuel copies (nr_events c) nr head tail ret
    = Some (LoopDone (ret + got) ((head + got) mod nr_events c), accs) /\
    Forall (access_in_ring K c) accs /\
    reads_from K (nr_events c) head accs = true /\
    acc_total accs = got.
Proof.
  intros Hc Hr.
  destruct (page_geometry K Hc) as (P & HP & Hps & Hpp & Hfp & Hoff).
  destruct (ring_size K c P Hr Hps HP) as (HN & HNr).
  pose proof (ring_ok_elim K c Hr) as (Hnp & _ & _ & _).
  pose proof (long_max_ge K Hc) as Hlm.
  induction fuel as [|fuel IH];
    intros copies nr head tail ret Hcp Hh Ht Hret Hnr Hfuel got;
    cbn [read_loop].
  - destruct (Z.ltb_spec ret nr); [lia|].
    assert (got = 0) as -> by (unfold got; lia).
    exists []. rewrite !Z.add_0_r, Z.mod_small by lia.
    splits; auto.
  - pose proof (Z.mod_pos_bound (tail - head) (nr_events c) ltac:(lia)) as He.
    fold (events_in_ring c head tail) in He.
    destruct (Z.ltb_spec ret nr) as [Hlt|Hge].
    2:{ assert (got = 0) as -> by (unfold got; lia).
        exists []. rewrite !Z.add_0_r, Z.mod_small by lia.
        splits; auto. }
    destruct (Z.eqb_spec head tail) as [Heq|Hne].
    { assert (events_in_ring c head tail = 0) as He0.
      { unfold events_in_ring. rewrite Heq, Z.sub_diag. apply Z.mod_0_l. lia. }
      assert (got = 0) as -> by (unfold got; lia).
      exists []. rewrite !Z.add_0_r, Z.mod_small by lia.
      splits; auto. }
    rewrite Hpp, Hoff.
    set (lim := if head <=? tail then tail else nr_events c).
    assert (Hlim : head < lim <= nr_events c).
    { unfold lim. destruct (Z.leb_spec head tail); lia. }
    assert (Hle : lim - head <= events_in_ring c head tail).
    { unfold lim, events_in_ring. destruct (Z.leb_spec head tail).
      - rewrite Z.mod_small by lia. lia.
      - rewrite <- (Z.mod_add (tail - head) 1 (nr_events c)) by lia.
        rewrite Z.mod_small by lia. lia. }
    rewrite (u32_small (lim - head)) by lia.
    rewrite (to_long_id K (lim - head)) by (auto; lia).
    rewrite (to_long_id K (nr - ret)) by (auto; lia).
    rewrite (ulong_small K (head + 1)) by (auto; lia).
    rewrite (u32_small (head + 1)) by lia.
    pose proof (Z.mod_pos_bound (head + 1) P ltac:(lia)) as Hmod.
    rewrite (ulong_small K (P - (head + 1) mod P)) by (auto; lia).
    rewrite (to_long_id K (P - (head + 1) mod P)) by (auto; lia).
    set (avail := Z.min (Z.min (lim - head) (nr - ret))
                    (P - (head + 1) mod P)).
    assert (Hav : 1 <= avail /\ avail <= lim - head /\ avail <= nr - ret
                  /\ avail <= P - (head + 1) mod P) by (unfold avail; lia).
    set (a := {| acc_page := (head + 1) / P; acc_slot := (head + 1) mod P;
                 acc_n := avail |}).
    pose proof (Z.div_mod (head + 1) P ltac:(lia)) as Hdm.
    assert (Ha : access_in_ring K c a).
    { unfold access_in_ring. rewrite Hpp, Hoff. simpl.
      assert (0 <= (head + 1) / P) by (apply Z.div_pos; lia).
      assert ((head + 1) / P < nr_pages c)
        by (apply Z.div_lt_upper_bound; nia).
      repeat split; try lia. }
    assert (Hfirst : acc_first K a = head).
    { unfold acc_first. rewrite Hpp, Hoff. simpl. lia. }
    assert (Hhd : List.hd 0 copies = 0).
    { destruct Hcp as [|x l Hx _]; [reflexivity|exact Hx]. }
    rewrite Hhd. cbn [Z.eqb negb].
    rewrite (to_long_id K (ret + avail)) by (auto; lia).
    rewrite (u32_small (head + avail)) by lia.
    assert (He' : events_in_ring c ((head + avail) mod nr_events c) tail
                  = events_in_ring c head tail - avail).
    { unfold events_in_ring. rewrite Zminus_mod_idemp_r.
      replace (tail - (head + avail)) with (tail - head - avail) by lia.
      rewrite <- Zminus_mod_idemp_l.
      apply Z.mod_small. unfold events_in_ring in *. lia. }
    destruct (IH (List.tl copies) nr ((head + avail) mod nr_events c) tail
                (ret + avail)) as (accs & Heq & Hall & Hrd & Htot); try lia.
    { destruct Hcp as [|x l _ Hl]; [constructor|exact Hl]. }
    { apply Z.mod_pos_bound. lia. }
    rewrite Heq. cbn [obind]. rewrite He' in *.
    assert (Hgot : got = avail + Z.max 0 (Z.min (nr - (ret + avail))
                      (events_in_ring c head tail - avail)))
      by (unfold got; lia).
    exists (a :: accs). rewrite Hgot. split.
    { f_equal. f_equal. f_equal; [lia|].
      rewrite Zplus_mod_idemp_l. f_equal. lia. }
    split; [constructor; auto|]. split.
    { cbn [reads_from]. rewrite Hfirst, Z.eqb_refl. exact Hrd. }
    cbn [acc_total foldr]. fold (acc_total accs). rewrite Htot. reflexivity.
Qed.

Lemma write_ring_head_same (c : kioctx) :
  write_ring_head (ring_head (ring c)) c = c.
Proof. destruct c as [? ? ? ? ? ? ? ? ? ? ? ? ? ? ? ? [] ?]. reflexivity. Qed.

(** [aio_read_events_ring] on a ring whose header is in range, when every
    copy succeeds. *)
Lemma aio_read_events_ring_exact (copies : list Z) (nr : Z) (c : kioctx) :
  config_ok K = true -> ring_ok K c = true ->
  Forall (fun x => x = 0) copies ->
  0 <= ring_head (ring c) < nr_events c ->
  0 <= ring_tail (ring c) < nr_events c ->
  nr <= LONG_MAX K ->
  let got :=
    Z.max 0 (Z.min nr (events_in_ring c (ring_head (ring c))
                         (ring_tail (ring c)))) in
  exists accs,
    aio_read_events_ring K copies nr c
    = Some (got,
            write_ring_head ((ring_head (ring c) + got) mod nr_events c) c,
            accs) /\
    Forall (access_in_ring K c) accs /\
    reads_from K (nr_events c) (ring_head (ring c)) accs = true /\
    acc_total accs = got.
Proof.
  intros Hc Hr Hcp Hh Ht Hnr got.
  unfold aio_read_events_ring.
  destruct (Z.eqb_spec (ring_head (ring c)) (ring_tail (ring c))) as [Heq|Hne].
  - assert (got = 0) as ->.
    { unfold got, events_in_ring. rewrite Heq, Z.sub_diag, Z.mod_0_l by lia.
      lia. }
    exists []. rewrite Z.add_0_r, Z.mod_small by lia.
    rewrite write_ring_head_same. splits; auto.
  - rewrite (Z.mod_small (ring_head (ring c))) by lia.
    rewrite (Z.mod_small (ring_tail (ring c))) by lia.
    destruct (read_loop_exact c (Z.to_nat nr) Hc Hr copies nr
                (ring_head (ring c)) (ring_tail (ring c)) 0 Hcp Hh Ht
                ltac:(lia) Hnr ltac:(lia))
      as (accs & Heq & Hall & Hrd & Htot).
    rewrite Z.sub_0_r, Z.add_0_l in *.
    rewrite Heq. cbn [obind]. exists accs. splits; auto.
Qed.

(** A reap on a ring whose header userspace has left alone. *)
Lemma aio_read_events_ring_ring_inv (copies : list Z) (nr : Z) (c : kioctx)
  (m : Z) :
  config_ok K = true -> ring_ok K c = true ->
  Forall (fun x => x = 0) copies -> nr <= LONG_MAX K -> ring_inv m c ->
  let e := events_in_ring c (ring_head (ring c)) (tail c) in
  let got := Z.max 0 (Z.min nr e) in
  exists c' accs,
    aio_read_events_ring K copies nr c = Some (got, c', accs) /\
    c' = write_ring_head ((ring_head (ring c) + got) mod nr_events c) c /\
    ring_inv m c' /\
    events_in_ring c' (ring_head (ring c')) (tail c') = e - got /\
    Forall (access_in_ring K c) accs /\
    reads_from K (nr_events c) (ring_head (ring c)) accs = true /\
    acc_total accs = got.
Proof.
  intros Hc Hr Hcp Hnr (Hh & Hrt & Hev & Hm0 & Hsum) e got.
  destruct (page_geometry K Hc) as (P & HP & Hps & _).
  destruct (ring_size K c P Hr Hps HP) as (_ & HN).
  pose proof (ring_ok_elim K c Hr) as (_ & _ & _ & Htl).
  destruct (aio_read_events_ring_exact copies nr c Hc Hr Hcp Hh
              ltac:(rewrite Hrt; exact Htl) Hnr)
    as (accs & Heq & Hall & Hrd & Htot).
  rewrite Hrt in Heq, Htot. fold e in Heq, Htot. fold got in Heq, Htot.
  pose proof (Z.mod_pos_bound (tail c - ring_head (ring c)) (nr_events c)
                ltac:(lia)) as He.
  fold (events_in_ring c (ring_head (ring c)) (tail c)) in He. fold e in He.
  assert (Hgot : 0 <= got <= e) by (unfold got; lia).
  assert (He' : events_in_ring c ((ring_head (ring c) + got) mod nr_events c)
                  (tail c) = e - got).
  { unfold events_in_ring. rewrite Zminus_mod_idemp_r.
    replace (tail c - (ring_head (ring c) + got))
      with (tail c - ring_head (ring c) - got) by lia.
    rewrite <- Zminus_mod_idemp_l. apply Z.mod_small.
    unfold e, events_in_ring in *. lia. }
  eexists _, accs. split; [exact Heq|]. split; [reflexivity|].
  split.
  { unfold ring_inv, write_ring_head. simpl.
    change (events_in_ring (set_ring _ c)) with (events_in_ring c).
    rewrite He'.
    split; [apply Z.mod_pos_bound; lia|]. split; [exact Hrt|].
    split; [fold e in Hev; lia|]. split; [exact Hm0|exact Hsum]. }
  split; [exact He'|]. splits; auto.
Qed.

(** X4.  A reap whose copies succeed, on a ring whose [head] and [tail]
    are in range, returns the smaller of [nr] and the number of records
    between [head] and [tail] (0 for a negative [nr]).  It passes exactly
    that many records to userspace, the oldest first and in ring order,
    each access within the ring, and advances [head] by as many around
    the ring; nothing else in the context changes. *)
Theorem aio_read_events_ring_takes_oldest (copies : list Z) (nr : Z)
  (c : kioctx) :
  config_ok K = true -> ring_ok K c = true ->
  Forall (fun x => x = 0) copies ->
  0 <= ring_head (ring c) < nr_events c ->
  0 <= ring_tail (ring c) < nr_events c ->
  nr <= LONG_MAX K ->
  exists ret c' accs,
    aio_read_events_ring K copies nr c = Some (ret, c', accs) /\
    ret = Z.max 0 (Z.min nr (events_in_ring c (ring_head (ring c))
                               (ring_tail (ring c)))) /\
    c' = write_ring_head ((ring_head (ring c) + ret) mod nr_events c) c /\
    Forall (access_in_ring K c) accs /\
    reads_from K (nr_events c) (ring_head (ring c)) accs = true /\
    acc_total accs = ret.
Proof.
  intros Hc Hr Hcp Hh Ht Hnr.
  destruct (aio_read_events_ring_exact copies nr c Hc Hr Hcp Hh Ht Hnr)
    as (accs & Heq & Hall & Hrd & Htot).
  eexists _, _, accs. split; [exact Heq|]. splits; auto.
Qed.

(** Every operation keeps a well-formed context with an untouched header
    such, and moves the requests in flight as it moves the references on
    [reqs]. *)
Lemma aio_op_inv (s s' : kioctx * Z) :
  config_ok K = true -> aio_op K s s' ->
  ring_ok K s.1 = true -> counters_ok s.1 = true -> ring_inv s.2 s.1 ->
  ring_ok K s'.1 = true /\ counters_ok s'.1 = true /\ ring_inv s'.2 s'.1 /\
  nr_events s'.1 = nr_events s.1 /\
  s'.2 - s.2 = ref_count (reqs s'.1) - ref_count (reqs s.1).
Proof.
  intros Hc Hop.
  destruct Hop as [e u i compat c ret c' m Hk Heq
                  |k iocb res res2 c c' tr m Hk Hm Heq
                  |copies nr c ret c' accs m Hcp Hnr Heq];
    cbn [fst snd]; intros Hr Hok Hinv.
  - destruct (io_submit_one_ring_inv K e u i compat c m Hc Hr Hok Hk Hinv)
      as (ret' & c'' & Heq' & Hfr & Hr' & Hok' & Hinv').
    rewrite Heq in Heq'. injection Heq' as <- <-.
    splits; auto; [apply Hfr|lia].
  - destruct (aio_complete_ring_inv K k iocb res res2 c m Hc Hr Hok Hk Hinv Hm)
      as (c'' & tr' & Heq' & Hfr & Hrq & Hr' & Hok' & Hinv' & _).
    rewrite Heq in Heq'. injection Heq' as <- <-.
    splits; auto; [apply Hfr|rewrite Hrq; simpl; lia].
  - destruct (aio_read_events_ring_ring_inv copies nr c m Hc Hr Hcp Hnr Hinv)
      as (c'' & accs' & Heq' & Hc'' & Hinv' & _).
    rewrite Heq in Heq'. injection Heq' as _ Hc' _.
    rewrite Hc', Hc''. rewrite <- Hc''. splits; auto.
    + rewrite Hc''. apply (ring_ok_frame K c); auto.
      unfold frame, write_ring_head; simpl; tauto.
    + rewrite Hc''. exact Hok.
    + rewrite Hc''. reflexivity.
    + rewrite Hc''. simpl. lia.
Qed.

(** X5.  The ring never overflows.  Start from a well-formed context whose
    ring header userspace leaves alone, with [m0] requests in flight, and
    let submissions, completions of requests in flight and reaps follow
    one another in any order and number.  Then the context stays
    well-formed, the records waiting in the ring and the requests in
    flight together never exceed [nr_events - 1], the requests in flight
    have changed exactly as the references on [reqs] have, and no slot
    has been lost or made. *)
Theorem ring_never_overflows (c0 c : kioctx) (m0 m : Z) :
  config_ok K = true -> ring_ok K c0 = true -> counters_ok c0 = true ->
  ring_inv m0 c0 -> rtc (aio_op K) (c0, m0) (c, m) ->
  ring_ok K c = true /\ counters_ok c = true /\ ring_inv m c /\
  events_in_ring c (ring_head (ring c)) (tail c) + m <= nr_events c - 1 /\
  nr_events c = nr_events c0 /\
  m - m0 = ref_count (reqs c) - ref_count (reqs c0) /\
  slots_held c = slots_held c0.
Proof.
  intros Hc Hr0 Hok0 Hinv0 Hrun.
  assert (H : ring_ok K (c, m).1 = true /\ counters_ok (c, m).1 = true /\
              ring_inv (c, m).2 (c, m).1 /\
              nr_events (c, m).1 = nr_events c0 /\
              (c, m).2 - m0
              = ref_count (reqs (c, m).1) - ref_count (reqs c0)).
  { revert Hrun. generalize (c, m). apply rtc_ind_r.
    - cbn [fst snd]. splits; auto. lia.
    - intros s s' _ Hop (Hr & Hok & Hinv & HN & Hm).
      destruct (aio_op_inv s s' Hc Hop Hr Hok Hinv)
        as (Hr' & Hok' & Hinv' & HN' & Hm').
      splits; auto; [congruence|lia]. }
  cbn [fst snd] in H. destruct H as (Hr & Hok & Hinv & HN & Hm).
  splits; auto.
  - destruct Hinv as (_ & _ & Hev & _ & Hsum).
    pose proof (counters_ok_elim c Hok) as (_ & Hg & Hcpu & _).
    pose proof (percpu_sum_nonneg _ Hcpu). unfold reqs_total in Hsum. lia.
  - destruct Hinv as (_ & _ & _ & _ & Hsum).
    destruct Hinv0 as (_ & _ & _ & _ & Hsum0).
    unfold slots_held. lia.
Qed.

(** X6.  What is completed is what is reaped.  On an empty ring whose
    header userspace has left alone, a completion followed by a reap of
    at least one record, whose copy succeeds, returns 1: the one access
    takes one record, from the page and slot the completion wrote, and
    that record carries the request's user address and data and the two
    results.  The ring is empty again afterwards. *)
Theorem completion_is_reaped (k : nat) (iocb : aio_kiocb) (res res2 : Z)
  (c : kioctx) (m nr : Z) :
  config_ok K = true -> ring_ok K c = true -> counters_ok c = true ->
  (k < length (cpu c))%nat -> ring_inv m c -> 1 <= m ->
  ring_head (ring c) = tail c -> 1 <= nr <= LONG_MAX K ->
  exists c1 tr c2 a,
    aio_complete K k iocb res res2 c = Some (c1, tr) /\
    aio_read_events_ring K [] nr c1 = Some (1, c2, [a]) /\
    acc_n a = 1 /\
    ring_events c1 !! (acc_page a, acc_slot a)
    = Some {| ev_obj := u64 (ulong K (ki_user_iocb iocb));
              ev_data := ki_user_data iocb;
              ev_res := res; ev_res2 := res2 |} /\
    ring_head (ring c2) = tail c2 /\ ring_inv (m - 1) c2.
Proof.
  intros Hc Hr Hok Hk Hinv Hm Hempty Hnr.
  destruct (page_geometry K Hc) as (P & HP & Hps & Hpp & Hfp & Hoff).
  destruct (ring_size K c P Hr Hps HP) as (_ & HN).
  pose proof (ring_ok_elim K c Hr) as (_ & _ & _ & Htl).
  pose proof (counters_ok_elim c Hok) as (_ & Hg & Hcpu & Hce & _).
  pose proof (percpu_sum_nonneg _ Hcpu) as Hps0.
  assert (Hsum : reqs_total c + completed_events c + 1 < 2 ^ 31).
  { destruct Hinv as (_ & _ & _ & _ & Hsum). lia. }
  destruct (aio_complete_exact K k iocb res res2 c Hc Hr Hok Hk Hsum)
    as (c1 & tr & Heq1 & Hfr1 & _ & _ & _ & _ & _ & Htl1 & Hrg1 & Hev1).
  destruct (aio_complete_ring_inv K k iocb res res2 c m Hc Hr Hok Hk Hinv Hm)
    as (c1' & tr' & Heq1' & _ & _ & Hr1 & Hok1 & Hinv1 & Hgrow & _).
  rewrite Heq1 in Heq1'. injection Heq1' as <- <-.
  assert (He0 : events_in_ring c (ring_head (ring c)) (tail c) = 0).
  { unfold events_in_ring. rewrite Hempty, Z.sub_diag. apply Z.mod_0_l. lia. }
  rewrite He0 in Hgrow.
  destruct (aio_read_events_ring_ring_inv [] nr c1 (m - 1) Hc Hr1
              ltac:(constructor) ltac:(lia) Hinv1)
    as (c2 & accs & Heq2 & Hc2 & Hinv2 & He2 & Hall & Hrd & Htot).
  rewrite Hgrow in Heq2, Hc2, He2, Htot.
  replace (Z.max 0 (Z.min nr (0 + 1))) with 1 in * by lia.
  assert (HN1 : nr_events c1 = nr_events c) by apply Hfr1.
  assert (Hhd1 : ring_head (ring c1) = tail c)
    by (rewrite Hrg1; simpl; exact Hempty).
  (* one record in all: one access of one record *)
  assert (Hone : exists a, accs = [a] /\ acc_n a = 1).
  { destruct accs as [|a rest]; [discriminate|].
    destruct (Forall_cons_1 _ _ _ Hall) as [Ha Hrest].
    assert (Hpos : forall l, Forall (access_in_ring K c1) l ->
                             0 <= acc_total l /\
                             (acc_total l = 0 -> l = [])).
    { induction l as [|b l IH]; intros Hl; [split; [reflexivity|auto]|].
      destruct (Forall_cons_1 _ _ _ Hl) as [Hb Hl'].
      destruct (IH Hl') as (H0 & _). destruct Hb as (_ & _ & Hb & _).
      cbn [acc_total foldr]. fold (acc_total l). split; [lia|]. lia. }
    destruct (Hpos rest Hrest) as (H0 & Hnil).
    destruct Ha as (_ & _ & Hn & _).
    cbn [acc_total foldr] in Htot. fold (acc_total rest) in Htot.
    exists a. split; [f_equal; apply Hnil; lia|lia]. }
  destruct Hone as (a & -> & Hn1).
  exists c1, tr, c2, a. split; [exact Heq1|]. split; [exact Heq2|].
  split; [exact Hn1|]. split.
  { cbn [reads_from] in Hrd. apply andb_true_iff in Hrd as (Hfirst & _).
    apply Z.eqb_eq in Hfirst. unfold acc_first in Hfirst.
    rewrite Hpp, Hoff, Hhd1 in Hfirst.
    destruct (Forall_cons_1 _ _ _ Hall) as [Ha _].
    destruct Ha as (_ & Hs0 & _ & Hs1 & _). rewrite Hpp in Hs1.
    assert (Hdm : acc_page a = (tail c + 1) / P /\
                  acc_slot a = (tail c + 1) mod P).
    { apply (Z.div_mod_unique P).
      - left. lia.
      - left. apply Z.mod_pos_bound. lia.
      - rewrite <- Z.div_mod by lia. lia. }
    destruct Hdm as (-> & ->). rewrite Hev1, Hpp, Hoff.
    apply lookup_insert_eq. }
  split; [|exact Hinv2].
  rewrite Hc2. unfold write_ring_head. simpl.
  rewrite Hhd1, Htl1, HN1. reflexivity.
Qed.

End Reaping.

Lemma aio_read_events_ring_takes_oldest_witness :
  config_ok uniprocessor = true /\
  exists c' accs,
    aio_read_events_ring uniprocessor [] 10 (write_ring_head 1 drained_ctx)
    = Some (2, c', accs) /\
    ring_head (ring c') = 3 /\ acc_total accs = 2.
Proof.
  split; [reflexivity|].
  destruct (aio_read_events_ring_takes_oldest uniprocessor [] 10
              (write_ring_head 1 drained_ctx))
    as (ret & c' & accs & H1 & H2 & H3 & _ & _ & H4);
    [reflexivity | reflexivity | constructor | evaluated | evaluated
    | evaluated |].
  vm_compute in H2. subst ret. exists c', accs.
  split; [exact H1|]. split; [rewrite H3; reflexivity|exact H4].
Defined.

Lemma one_request_run :
  rtc (aio_op uniprocessor) (fresh_ctx, 0) (one_request_done, 0).
Proof.
  eapply rtc_l.
  { eapply (op_submit uniprocessor (granted_env (- EIOCBQUEUED)) 0x1000
              pread_iocb false fresh_ctx);
      [evaluated|vm_compute; reflexivity]. }
  vm_compute. eapply rtc_l.
  { eapply (op_complete uniprocessor 0%nat zeroed_kiocb 16 0);
      [evaluated|lia|vm_compute; reflexivity]. }
  vm_compute. eapply rtc_l.
  { eapply (op_reap uniprocessor [] 1);
      [constructor|evaluated|vm_compute; reflexivity]. }
  vm_compute. apply rtc_refl.
Defined.

Lemma ring_never_overflows_witness :
  ring_inv 0 fresh_ctx /\
  rtc (aio_op uniprocessor) (fresh_ctx, 0) (one_request_done, 0) /\
  ring_inv 0 one_request_done /\
  slots_held one_request_done = slots_held fresh_ctx.
Proof.
  split; [evaluated|]. split; [exact one_request_run|].
  destruct (ring_never_overflows uniprocessor fresh_ctx one_request_done 0 0)
    as (_ & _ & H1 & _ & _ & _ & H2);
    [reflexivity | reflexivity | reflexivity | evaluated
    | exact one_request_run |].
  split; [exact H1|exact H2].
Defined.

Lemma completion_is_reaped_witness :
  ring_inv 1 (ctx_with 0 125 0) /\
  exists c1 tr c2 a,
    aio_complete uniprocessor 0 zeroed_kiocb 16 0 (ctx_with 0 125 0)
    = Some (c1, tr) /\
    aio_read_events_ring uniprocessor [] 1 c1 = Some (1, c2, [a]) /\
    acc_n a = 1.
Proof.
  split; [evaluated|].
  destruct (completion_is_reaped uniprocessor 0 zeroed_kiocb 16 0
              (ctx_with 0 125 0) 1 1)
    as (c1 & tr & c2 & a & H1 & H2 & H3 & _);
    [reflexivity | reflexivity | reflexivity | evaluated | evaluated | lia
    | reflexivity | evaluated |].
  exists c1, tr, c2, a. split; [exact H1|]. split; [exact H2|exact H3].
Defined.
(** ** The registry *)

Section Registry.

Variable K : kconfig.

Lemma find_free_some (t : list (option kioctx)) (i0 j : nat) :
  find_free t i0 = Some j ->
  exists k, j = (i0 + k)%nat /\ t !! k = Some None.
Proof.
  revert i0. induction t as [|[x|] t IH]; intros i0 H; simpl in H.
  - discriminate.
  - destruct (IH (S i0) H) as (k & -> & Hk).
    exists (S k). split; [lia|exact Hk].
  - injection H as <-. exists 0%nat. split; [lia|reflexivity].
Qed.

Lemma find_free_none (t : list (option kioctx)) (i0 k : nat) :
  find_free t i0 = None -> t !! k <> Some None.
Proof.
  revert i0 k. induction t as [|[x|] t IH]; intros i0 k H; simpl in H.
  - rewrite lookup_nil. discriminate.
  - destruct k; simpl; [discriminate|]. exact (IH (S i0) k H).
  - discriminate.
Qed.

(** What [lookup_ioctx] finds is a context of the registry, in the slot
    the ring header names, with the user address asked for. *)
Lemma lookup_ioctx_inv (r : option Z) (ctx_id : Z) (mm : mm_struct)
  (slot : nat) (ctx : kioctx) :
  lookup_ioctx r ctx_id mm = Some (slot, ctx) ->
  exists id t c0,
    r = Some id /\ ioctx_table mm = Some t /\ slot = Z.to_nat id /\
    id < Z.of_nat (length t) /\ t !! slot = Some (Some c0) /\
    user_id c0 = ctx_id /\
    ctx = set_users (percpu_ref_get (users c0)) c0.
Proof.
  unfold lookup_ioctx. intros H.
  destruct r as [id|]; [|discriminate].
  destruct (ioctx_table mm) as [t|]; [|discriminate].
  destruct (Z.leb_spec (Z.of_nat (length t)) id) as [|Hlt]; [discriminate|].
  destruct (t !! Z.to_nat id) as [[c0|]|] eqn:Hs; try discriminate.
  destruct (Z.eqb_spec (user_id c0) ctx_id) as [Hu|]; [|discriminate].
  injection H as <- <-. exists id, t, c0. splits; auto.
Qed.

Lemma lookup_ioctx_some (mm : mm_struct) (t : list (option kioctx))
  (i : nat) (c : kioctx) :
  ioctx_table mm = Some t -> t !! i = Some (Some c) ->
  lookup_ioctx (Some (Z.of_nat i)) (user_id c) mm
  = Some (i, set_users (percpu_ref_get (users c)) c).
Proof.
  intros Ht Hi. unfold lookup_ioctx. rewrite Ht.
  pose proof (lookup_lt_Some _ _ _ Hi) as Hlt.
  destruct (Z.leb_spec (Z.of_nat (length t)) (Z.of_nat i)); [lia|].
  rewrite Nat2Z.id, Hi, Z.eqb_refl. reflexivity.
Qed.

(** [ioctx_add_table], when it answers 0: the slot it took was empty, or
    lies in the part the table has grown by, and no other slot of the old
    table has changed. *)
Lemma ioctx_add_table_exact (kz : list bool) (c : kioctx) (mm : mm_struct)
  (c' : kioctx) (mm' : mm_struct) :
  table_ok mm = true ->
  ioctx_add_table 2 kz c mm = Some (0, c', mm') ->
  exists i t',
    c' = set_id (Z.of_nat i) c /\ ioctx_table mm' = Some t' /\
    t' !! i = Some (Some c') /\
    (forall j x, j <> i -> t' !! j = Some (Some x) ->
       exists t, ioctx_table mm = Some t /\ t !! j = Some (Some x)) /\
    forall t, ioctx_table mm = Some t ->
      (length t <= length t')%nat /\
      (t !! i = Some None \/ (length t <= i)%nat) /\
      forall j, j <> i -> (j < length t)%nat -> t' !! j = t !! j.
Proof.
  intros Hok. cbn [ioctx_add_table].
  assert (Hins : forall (t : list (option kioctx)) (i : nat) x,
            t !! i = Some None -> <[i := x]> t !! i = Some x).
  { intros t i x Hi. apply list_lookup_insert_eq.
    eapply lookup_lt_Some; eauto. }
  destruct (ioctx_table mm) as [t|] eqn:Ht; cbn [mbind option_bind].
  - destruct (find_free t 0) as [i|] eqn:Hf; cbn [fmap option_fmap option_map].
    + intros [= <- <-].
      destruct (find_free_some t 0 i Hf) as (k & -> & Hk). simpl in *.
      eexists k, _. split; [reflexivity|]. split; [reflexivity|].
      split; [apply Hins; exact Hk|]. split.
      { intros j x Hj Hx. exists t. split; [reflexivity|].
        rewrite list_lookup_insert_ne in Hx by congruence. exact Hx. }
      intros t0 [= <-]. rewrite length_insert. split; [lia|].
      split; [left; exact Hk|]. intros j Hj _.
      apply list_lookup_insert_ne. congruence.
    + pose proof (table_ok_elim mm t Hok Ht) as Hlen.
      rewrite (u32_small (Z.of_nat (length t) * 4)) by lia.
      destruct (List.hd true kz); cbn [negb].
      2:{ intros H. exfalso. injection H as H _ _. vm_compute in H.
          discriminate. }
      destruct (Z.ltb_spec (Z.of_nat (length t)) (Z.of_nat (length t) * 4));
        [|lia].
      cbn [ioctx_table mbind option_bind].
      set (k := (Z.to_nat (Z.of_nat (length t) * 4) - length t)%nat).
      destruct (find_free (t ++ replicate k None) 0) as [j|] eqn:Hj;
        cbn [fmap option_fmap option_map].
      2:{ destruct (find_free_app t k 0) as (j & Hj'); [unfold k; lia|].
          congruence. }
      intros [= <- <-].
      destruct (find_free_some _ 0 j Hj) as (j' & -> & Hj'). simpl in *.
      assert (Hge : (length t <= j')%nat).
      { destruct (Nat.le_gt_cases (length t) j') as [|Hlt]; [assumption|].
        rewrite lookup_app_l in Hj' by exact Hlt.
        exfalso. exact (find_free_none t 0 j' Hf Hj'). }
      eexists j', _. split; [reflexivity|]. split; [reflexivity|].
      split; [apply Hins; exact Hj'|]. split.
      { intros j x Hne Hx. exists t. split; [reflexivity|].
        rewrite list_lookup_insert_ne in Hx by congruence.
        destruct (Nat.le_gt_cases (length t) j) as [Hle|Hlt'].
        - rewrite lookup_app_r in Hx by exact Hle.
          apply lookup_replicate in Hx as [Hx _]. discriminate.
        - rewrite lookup_app_l in Hx by exact Hlt'. exact Hx. }
      intros t0 [= <-]. rewrite length_insert, length_app. split; [lia|].
      split; [right; exact Hge|]. intros j Hne Hlt.
      rewrite list_lookup_insert_ne by congruence.
      apply lookup_app_l. exact Hlt.
  - rewrite (u32_small (1 * 4)) by lia.
    destruct (List.hd true kz); cbn [negb].
    2:{ intros H. exfalso. injection H as H _ _. vm_compute in H.
        discriminate. }
    cbn. intros [= <- <-].
    eexists 0%nat, _. split; [reflexivity|]. split; [reflexivity|].
    split; [reflexivity|]. split; [|intros t0 Ht0; discriminate].
    intros [|[|[|[|j]]]] x Hj Hx; simpl in Hx; try discriminate;
      congruence.
Qed.

(** Lookups before and after a registration. *)
Lemma ioctx_add_table_lookup (kz : list bool) (c : kioctx)
  (mm : mm_struct) (c' : kioctx) (mm' : mm_struct) :
  table_ok mm = true ->
  ioctx_add_table 2 kz c mm = Some (0, c', mm') ->
  exists i,
    c' = set_id (Z.of_nat i) c /\
    lookup_ioctx (Some (Z.of_nat i)) (user_id c) mm'
    = Some (i, set_users (percpu_ref_get (users c')) c') /\
    (forall r ctx_id slot ctx,
       lookup_ioctx r ctx_id mm = Some (slot, ctx) ->
       slot <> i /\ lookup_ioctx r ctx_id mm' = Some (slot, ctx)) /\
    (forall r ctx_id slot ctx,
       lookup_ioctx r ctx_id mm' = Some (slot, ctx) -> slot <> i ->
       lookup_ioctx r ctx_id mm = Some (slot, ctx)).
Proof.
  intros Hok Hadd.
  destruct (ioctx_add_table_exact kz c mm c' mm' Hok Hadd)
    as (i & t' & Hc' & Ht' & Hi & Hnew & Hold).
  assert (Hu : user_id c' = user_id c) by (rewrite Hc'; reflexivity).
  exists i. split; [exact Hc'|]. split.
  { rewrite <- Hu. apply (lookup_ioctx_some mm' t' i c' Ht' Hi). }
  split.
  - intros r ctx_id slot ctx Hl.
    destruct (lookup_ioctx_inv r ctx_id mm slot ctx Hl)
      as (id0 & t & c0 & -> & Ht & -> & Hlt & Hs & Hu0 & ->).
    destruct (Hold t Ht) as (Hlen & Hfree & Hsame).
    pose proof (lookup_lt_Some _ _ _ Hs) as Hlt'.
    assert (Hne : Z.to_nat id0 <> i).
    { intros Heq. rewrite Heq in *.
      destruct Hfree as [Hf|Hf]; [congruence|lia]. }
    split; [exact Hne|].
    unfold lookup_ioctx. rewrite Ht'.
    destruct (Z.leb_spec (Z.of_nat (length t')) id0); [lia|].
    rewrite (Hsame _ Hne Hlt'), Hs, Hu0, Z.eqb_refl. reflexivity.
  - intros r ctx_id slot ctx Hl Hne.
    destruct (lookup_ioctx_inv r ctx_id mm' slot ctx Hl)
      as (id0 & t1 & c0 & -> & Ht1 & -> & Hlt & Hs & Hu0 & ->).
    rewrite Ht' in Ht1. injection Ht1 as <-.
    destruct (Hnew _ c0 Hne Hs) as (t & Ht & Hs').
    pose proof (lookup_lt_Some _ _ _ Hs') as Hlt'.
    unfold lookup_ioctx. rewrite Ht.
    destruct (Z.leb_spec (Z.of_nat (length t)) id0) as [Hge|_].
    + exfalso. assert (Z.to_nat id0 < length t)%nat by exact Hlt'. lia.
    + rewrite Hs', Hu0, Z.eqb_refl. reflexivity.
Qed.

(** X7.  A context that [ioctx_add_table] has registered is found by
    [lookup_ioctx] under the slot number written to its ring header and
    its user address, with a reference on [users] taken; and every lookup
    that succeeded before the registration still succeeds afterwards with
    the same result, so that no registered context is overwritten. *)
Theorem registered_context_is_found (kz : list bool) (c : kioctx)
  (mm : mm_struct) (c' : kioctx) (mm' : mm_struct) :
  table_ok mm = true ->
  ioctx_add_table 2 kz c mm = Some (0, c', mm') ->
  0 <= id c' /\ ring_id (ring c') = id c' /\
  lookup_ioctx (Some (ring_id (ring c'))) (user_id c) mm'
  = Some (Z.to_nat (id c'), set_users (percpu_ref_get (users c')) c') /\
  forall r ctx_id found,
    lookup_ioctx r ctx_id mm = Some found ->
    lookup_ioctx r ctx_id mm' = Some found.
Proof.
  intros Hok Hadd.
  destruct (ioctx_add_table_lookup kz c mm c' mm' Hok Hadd)
    as (i & Hc' & Hl & Hold & _).
  assert (Hid : id c' = Z.of_nat i) by (rewrite Hc'; reflexivity).
  assert (Hrid : ring_id (ring c') = Z.of_nat i) by (rewrite Hc'; reflexivity).
  split; [lia|]. split; [congruence|]. split.
  - rewrite Hrid, Hid, Nat2Z.id. exact Hl.
  - intros r ctx_id [slot ctx] Hf. apply (Hold r ctx_id slot ctx Hf).
Qed.

Lemma slots_ok_lookup (t : list (option kioctx)) (i0 i : nat) (c : kioctx) :
  slots_ok t i0 = true -> t !! i = Some (Some c) ->
  id c = Z.of_nat (i0 + i) /\ dead c = 0.
Proof.
  revert i0 i. induction t as [|s t IH]; intros i0 i H Hi;
    [rewrite lookup_nil in Hi; discriminate|].
  cbn [slots_ok] in H. apply andb_true_iff in H as (Hs & Ht).
  destruct i as [|i]; simpl in Hi.
  - injection Hi as ->. simpl in Hs. apply andb_true_iff in Hs as (H1 & H2).
    apply Z.eqb_eq in H1. apply Z.eqb_eq in H2. split; [lia|exact H2].
  - destruct (IH (S i0) i Ht Hi) as (H1 & H2). split; [lia|exact H2].
Qed.

Lemma registry_ok_elim (mm : mm_struct) (t : list (option kioctx)) (i : nat)
  (c : kioctx) :
  registry_ok mm = true -> ioctx_table mm = Some t ->
  t !! i = Some (Some c) -> id c = Z.of_nat i /\ dead c = 0.
Proof.
  unfold registry_ok. intros H Ht Hi. rewrite Ht in H.
  exact (slots_ok_lookup t 0 i c H Hi).
Qed.


Lemma slots_ok_app_none (t : list (option kioctx)) (i0 k : nat) :
  slots_ok t i0 = true -> slots_ok (t ++ replicate k None) i0 = true.
Proof.
  revert i0. induction t as [|x t IH]; intros i0 H; simpl.
  - clear H. revert i0. induction k as [|k IHk]; intros i0; [reflexivity|].
    simpl. apply IHk.
  - cbn [slots_ok] in H. apply andb_true_iff in H as (Hx & Ht).
    rewrite Hx. simpl. apply IH. exact Ht.
Qed.

(** Looking up in a registry of which one slot has been cleared. *)
Lemma lookup_ioctx_table_clear (r : option Z) (ctx_id : Z) (mm : mm_struct)
  (slot : nat) :
  lookup_ioctx r ctx_id (table_clear slot mm)
  = match lookup_ioctx r ctx_id mm with
    | Some (slot', ctx) =>
        if Nat.eqb slot' slot then None else Some (slot', ctx)
    | None => None
    end.
Proof.
  unfold lookup_ioctx, table_clear. destruct r as [id0|]; [|reflexivity].
  destruct (ioctx_table mm) as [t|]; [|reflexivity].
  cbn [ioctx_table fmap option_fmap option_map]. rewrite length_insert.
  destruct (Z.leb_spec (Z.of_nat (length t)) id0) as [|Hlt]; [reflexivity|].
  destruct (Nat.eqb_spec (Z.to_nat id0) slot) as [<-|Hne].
  - destruct (t !! Z.to_nat id0) as [x|] eqn:Hx.
    + rewrite list_lookup_insert_eq by (eapply lookup_lt_Some; eauto).
      destruct x as [c0|]; [|reflexivity].
      destruct (user_id c0 =? ctx_id); [|reflexivity].
      rewrite Nat.eqb_refl. reflexivity.
    + apply lookup_ge_None in Hx.
      rewrite (proj2 (lookup_ge_None _ _)) by (rewrite length_insert; lia).
      reflexivity.
  - rewrite list_lookup_insert_ne by congruence.
    destruct (t !! Z.to_nat id0) as [[c0|]|]; try reflexivity.
    destruct (user_id c0 =? ctx_id); [|reflexivity].
    destruct (Nat.eqb_spec (Z.to_nat id0) slot); [contradiction|reflexivity].
Qed.

(** [kill_ioctx] on a context that [lookup_ioctx] has found in a
    consistent registry. *)
Lemma kill_ioctx_found (wait : option Z) (r : option Z)
  (ctx_id : Z) (mm : mm_struct) (slot : nat) (ctx : kioctx) (aio_nr : Z) :
  registry_ok mm = true ->
  lookup_ioctx r ctx_id mm = Some (slot, ctx) ->
  exists s tr,
    kill_ioctx K wait {| k_ctx := ctx; k_mm := mm; k_aio_nr := aio_nr |}
    = (0, s, tr) /\
    dead (k_ctx s) = 1 /\ rq_wait (k_ctx s) = wait /\
    ref_dead (users (k_ctx s)) = true /\
    k_aio_nr s = aio_nr_sub K (max_reqs ctx) aio_nr /\
    k_mm s = table_clear slot mm /\
    (forall ctx_id', lookup_ioctx r ctx_id' (k_mm s) = None) /\
    (forall r' ctx_id' slot' ctx',
       lookup_ioctx r' ctx_id' mm = Some (slot', ctx') -> slot' <> slot ->
       lookup_ioctx r' ctx_id' (k_mm s) = Some (slot', ctx')).
Proof.
  intros Hreg Hl.
  destruct (lookup_ioctx_inv r ctx_id mm slot ctx Hl)
    as (id0 & t & c0 & -> & Ht & -> & Hlt & Hs & Hu0 & ->).
  destruct (registry_ok_elim mm t _ c0 Hreg Ht Hs) as (Hid & Hdead).
  unfold kill_ioctx, atomic_xchg.
  cbn [k_ctx k_mm k_aio_nr dead set_users set_dead id max_reqs].
  rewrite Hdead. cbn [Z.eqb negb]. rewrite Hid, Nat2Z.id.
  eexists _, _. split; [reflexivity|]. cbn [k_ctx k_mm k_aio_nr dead
    set_users set_rq_wait set_dead rq_wait users percpu_ref_kill ref_dead].
  split; [reflexivity|]. split; [reflexivity|]. split; [reflexivity|].
  split; [reflexivity|]. split; [reflexivity|]. split.
  - intros ctx_id'. rewrite lookup_ioctx_table_clear.
    destruct (lookup_ioctx (Some id0) ctx_id' mm) as [[slot' ctx']|] eqn:Hl';
      [|reflexivity].
    destruct (lookup_ioctx_inv _ _ _ _ _ Hl')
      as (id1 & _ & _ & [= <-] & _ & -> & _).
    rewrite Nat.eqb_refl. reflexivity.
  - intros r' ctx_id' slot' ctx' Hl' Hne.
    rewrite lookup_ioctx_table_clear, Hl'.
    destruct (Nat.eqb_spec slot' (Z.to_nat id0)); [contradiction|reflexivity].
Qed.

(** X8.  A context that [kill_ioctx] has taken out of the registry is
    found no more.  For a context that [lookup_ioctx] finds in a
    consistent registry, [kill_ioctx] returns 0; afterwards no lookup
    under its ring id succeeds, whatever user address is asked for, while
    every lookup that found another context finds it still. *)
Theorem killed_context_is_not_found (wait : option Z) (r : option Z)
  (ctx_id : Z) (mm : mm_struct) (slot : nat) (ctx : kioctx) (aio_nr : Z) :
  registry_ok mm = true ->
  lookup_ioctx r ctx_id mm = Some (slot, ctx) ->
  exists s tr,
    kill_ioctx K wait {| k_ctx := ctx; k_mm := mm; k_aio_nr := aio_nr |}
    = (0, s, tr) /\
    dead (k_ctx s) = 1 /\
    (forall ctx_id', lookup_ioctx r ctx_id' (k_mm s) = None) /\
    (forall r' ctx_id' slot' ctx',
       lookup_ioctx r' ctx_id' mm = Some (slot', ctx') -> slot' <> slot ->
       lookup_ioctx r' ctx_id' (k_mm s) = Some (slot', ctx')).
Proof.
  intros Hreg Hl.
  destruct (kill_ioctx_found wait r ctx_id mm slot ctx aio_nr Hreg Hl)
    as (s & tr & Hk & Hd & _ & _ & _ & _ & Hnone & Hother).
  exists s, tr. auto.
Qed.

End Registry.

Lemma registered_context_is_found_witness :
  table_ok one_ctx_mm = true /\
  exists c' mm',
    ioctx_add_table 2 [] fresh_ctx one_ctx_mm = Some (0, c', mm') /\
    id c' = 1 /\
    lookup_ioctx (Some 0) 0x7f0000000000 mm'
    = lookup_ioctx (Some 0) 0x7f0000000000 one_ctx_mm.
Proof.
  split; [reflexivity|].
  assert (E : exists c' mm',
    ioctx_add_table 2 [] fresh_ctx one_ctx_mm = Some (0, c', mm') /\
    id c' = 1).
  { eexists _, _. split; vm_compute; reflexivity. }
  destruct E as (c' & mm' & E & Hid).
  destruct (registered_context_is_found [] fresh_ctx one_ctx_mm c' mm'
              eq_refl E) as (_ & _ & _ & H).
  exists c', mm'. split; [exact E|]. split; [exact Hid|].
  apply H. reflexivity.
Defined.

Lemma killed_context_is_not_found_witness :
  registry_ok one_ctx_mm = true /\
  exists s tr,
    kill_ioctx uniprocessor None
      {| k_ctx := set_users (percpu_ref_get (users fresh_ctx)) fresh_ctx;
         k_mm := one_ctx_mm; k_aio_nr := 8 |} = (0, s, tr) /\
    lookup_ioctx (Some 0) 0x7f0000000000 (k_mm s) = None.
Proof.
  split; [reflexivity|].
  destruct (killed_context_is_not_found uniprocessor None (Some 0)
              0x7f0000000000 one_ctx_mm 0
              (set_users (percpu_ref_get (users fresh_ctx)) fresh_ctx) 8)
    as (s & tr & H1 & _ & H2 & _); [reflexivity | reflexivity |].
  exists s, tr. split; [exact H1|apply H2].
Defined.
(** ** Creation and destruction *)

Section Lifecycle.

Variable K : kconfig.

(** The errors of [aio_setup_ring]. *)
Lemma aio_setup_ring_errors (a : alloc_env) (c : kioctx) (err : Z)
  (c' : kioctx) :
  aio_setup_ring K a c = Some (err, c') ->
  err = 0 \/ err = - EINVAL \/ err = - ENOMEM.
Proof.
  unfold aio_setup_ring.
  destruct (_ <? 0); [intros [= <- _]; auto|].
  destruct (negb (a_ring_file a)); [intros [= <- _]; auto|].
  destruct ((AIO_RING_PAGES <? _) && negb (a_ring_pages a));
    [intros [= <- _]; auto|].
  destruct (setup_pages _ _ _ _) as [i|]; cbn [obind]; [|discriminate].
  destruct (negb (i =? _)); [intros [= <- _]; auto|].
  destruct (IS_ERR_VALUE K (a_mmap a)); intros [= <- _]; auto.
Qed.

(** Sums of [unsigned long] that pass the overflow check of [ioctx_alloc]
    have not wrapped. *)
Lemma ulong_add_no_wrap (x y : Z) :
  config_ok K = true -> 0 <= x < 2 ^ BITS_PER_LONG K ->
  0 <= y < 2 ^ 32 -> (ulong K (x + y) <? x) = false ->
  ulong K (x + y) = x + y /\ x + y < 2 ^ BITS_PER_LONG K.
Proof.
  intros Hc Hx Hy Hchk. apply Z.ltb_ge in Hchk.
  pose proof (config_ok_elim K Hc) as (_ & _ & HB).
  assert (H32 : 2 ^ 32 <= 2 ^ BITS_PER_LONG K).
  { destruct HB as [-> | ->]; lia. }
  unfold ulong in *.
  destruct (Z_lt_le_dec (x + y) (2 ^ BITS_PER_LONG K)) as [Hlt|Hge].
  - rewrite Z.mod_small by lia. lia.
  - exfalso.
    rewrite <- (Z.mod_add (x + y) (-1) (2 ^ BITS_PER_LONG K)) in Hchk by lia.
    rewrite Z.mod_small in Hchk by lia. lia.
Qed.

Lemma aio_nr_sub_add (x y : Z) :
  0 <= x < 2 ^ BITS_PER_LONG K -> 0 <= y -> x + y < 2 ^ BITS_PER_LONG K ->
  aio_nr_sub K y (x + y) = x.
Proof.
  intros Hx Hy Hs. unfold aio_nr_sub, ulong.
  replace (x + y - y) with x by lia. rewrite Z.mod_small by lia.
  destruct (Z.ltb_spec (x + y) x); [lia|reflexivity].
Qed.

(** The two ways out of [ioctx_alloc]: an error that leaves [aio_nr] and
    the registry as they were, or a live context, counted in [aio_nr]
    within the limit and entered in the registry by [ioctx_add_table]. *)
Lemma ioctx_alloc_cases (a : alloc_env) (requested aio_nr : Z)
  (mm : mm_struct) :
  config_ok K = true -> 0 <= requested < 2 ^ 32 -> table_ok mm = true ->
  0 <= aio_nr < 2 ^ BITS_PER_LONG K ->
  (exists err,
     ioctx_alloc K a requested aio_nr mm = Some (inl err, aio_nr, mm) /\
     (err = - EINVAL \/ err = - EAGAIN \/ err = - ENOMEM)) \/
  (exists c5 c mm',
     ioctx_alloc K a requested aio_nr mm
     = Some (inr c, aio_nr + max_reqs c5, mm') /\
     ioctx_add_table 2 (a_kzalloc a) c5 mm = Some (0, c, mm') /\
     dead c5 = 0 /\ 0 < max_reqs c5 <= 2 ^ 23 /\
     users c5 = {| ref_count := 2; ref_dead := false |} /\
     reqs c5 = {| ref_count := 2; ref_dead := false |} /\
     user_id c5 = a_mmap a /\
     aio_nr + max_reqs c5 <= ulong K (aio_max_nr K * 2) /\
     aio_nr + max_reqs c5 < 2 ^ BITS_PER_LONG K).
Proof.
  intros Hc Hreq Hmm Hnr.
  pose proof (config_ok_elim K Hc) as (_ & Hcpu & HB).
  unfold ioctx_alloc.
  rewrite (u32_small (num_possible_cpus K * 4)) by lia.
  set (m := u32 (Z.max requested (num_possible_cpus K * 4) * 2)).
  assert (Hm0 : 0 <= m < 2 ^ 32) by apply u32_range.
  change (0x10000000 / sizeof_io_event) with (2 ^ 23).
  destruct (Z.ltb_spec (2 ^ 23) m) as [Hbig|Hsmall]; [left; eauto|].
  destruct (Z.eqb_spec m 0) as [Hz|Hnz]; cbn [orb]; [left; eauto 6|].
  destruct (ulong K (aio_max_nr K * 2) <? ulong K m); [left; eauto 6|].
  destruct (a_kioctx a); cbn [negb]; [|left; eauto 6].
  destruct (a_users_init a); cbn [negb]; [|left; eauto 6].
  destruct (a_reqs_init a); cbn [negb]; [|left; eauto 6].
  destruct (a_percpu a); cbn [negb]; [|left; eauto 6].
  match goal with
  | |- context [aio_setup_ring K a ?c] => set (c0 := c)
  end.
  destruct (aio_setup_ring_spec K a c0 Hc) as (err & c1 & Heq & Herr & Hc1);
    [simpl; lia|].
  rewrite Heq. cbn [obind].
  destruct Herr as [->|Hneg].
  2:{ destruct (Z.ltb_spec err 0); [|lia]. left. exists err.
      split; [reflexivity|].
      destruct (aio_setup_ring_errors a c0 err c1 Heq) as [->|He]; [lia|].
      destruct He; auto. }
  cbn [Z.ltb Z.compare]. specialize (Hc1 eq_refl). subst c1.
  change (max_reqs c0) with m.
  destruct (ring_capacity_bounds K m Hc ltac:(lia)) as (Hnp & Hsz & Hcap).
  cbn [nr_events max_reqs reqs set_reqs_available set_users set_reqs users].
  destruct (Z.ltb_spec (ulong K (aio_max_nr K * 2)) (ulong K (aio_nr + m)))
    as [|Hlim]; cbn [orb]; [left; eauto 6|].
  destruct (ulong K (aio_nr + m) <? aio_nr) eqn:Hwrap; [left; eauto 6|].
  destruct (ulong_add_no_wrap aio_nr m Hc Hnr Hm0 Hwrap) as (Hsum & Hlt).
  rewrite Hsum in *.
  match goal with
  | |- context [ioctx_add_table 2 (a_kzalloc a) ?c mm] => set (c5 := c)
  end.
  destruct (ioctx_add_table_spec (a_kzalloc a) c5 mm Hmm)
    as (e2 & c6 & mm' & Heq2 & [(-> & i & ->)|(-> & -> & ->)]);
    rewrite Heq2; cbn [obind].
  - cbn [Z.eqb negb]. right. exists c5, (set_id (Z.of_nat i) c5), mm'.
    split; [reflexivity|]. split; [exact Heq2|].
    split; [reflexivity|]. split; [simpl; lia|].
    split; [reflexivity|]. split; [reflexivity|]. split; [reflexivity|].
    simpl. lia.
  - left. exists (- ENOMEM). split; [|auto].
    replace (negb (- ENOMEM =? 0)) with true by reflexivity.
    change (max_reqs c5) with m. rewrite aio_nr_sub_add by lia.
    reflexivity.
Qed.

(** X9.  [ioctx_alloc] that fails leaves no trace: the error is
    [-EINVAL], [-EAGAIN] or [-ENOMEM], the system-wide count [aio_nr] is
    what it was, also when the failure comes after the context was
    counted, and the registry is unchanged. *)
Theorem ioctx_alloc_failure_leaves_no_trace (a : alloc_env)
  (requested aio_nr : Z) (mm : mm_struct) (err aio_nr' : Z)
  (mm' : mm_struct) :
  config_ok K = true -> 0 <= requested < 2 ^ 32 -> table_ok mm = true ->
  0 <= aio_nr < 2 ^ BITS_PER_LONG K ->
  ioctx_alloc K a requested aio_nr mm = Some (inl err, aio_nr', mm') ->
  aio_nr' = aio_nr /\ mm' = mm /\
  (err = - EINVAL \/ err = - EAGAIN \/ err = - ENOMEM).
Proof.
  intros Hc Hreq Hmm Hnr Heq.
  destruct (ioctx_alloc_cases a requested aio_nr mm Hc Hreq Hmm Hnr)
    as [(e & He & Herr)|(c5 & c & mm1 & He & _)];
    rewrite He in Heq; [|discriminate].
  injection Heq as <- <- <-. auto.
Qed.

(** [kill_ioctx] on a context fresh from [ioctx_add_table]. *)
Lemma kill_registered (wait : option Z) (kz : list bool) (c5 c : kioctx)
  (mm mm' : mm_struct) (n : Z) :
  table_ok mm = true -> dead c5 = 0 ->
  ioctx_add_table 2 kz c5 mm = Some (0, c, mm') ->
  exists s tr,
    kill_ioctx K wait {| k_ctx := c; k_mm := mm'; k_aio_nr := n |}
    = (0, s, tr) /\
    k_aio_nr s = aio_nr_sub K (max_reqs c5) n /\
    dead (k_ctx s) = 1 /\ rq_wait (k_ctx s) = wait /\
    forall r ctx_id, lookup_ioctx r ctx_id (k_mm s) = lookup_ioctx r ctx_id mm.
Proof.
  intros Hmm Hdead Hadd.
  destruct (ioctx_add_table_lookup kz c5 mm c mm' Hmm Hadd)
    as (i & Hc & Hl & Hold & Hnew).
  unfold kill_ioctx, atomic_xchg.
  cbn [k_ctx k_mm k_aio_nr]. rewrite Hc.
  cbn [dead set_id set_dead id max_reqs]. rewrite Hdead, Nat2Z.id.
  cbn [Z.eqb negb]. eexists _, _. split; [reflexivity|].
  cbn [k_aio_nr k_ctx k_mm dead rq_wait set_users set_rq_wait].
  split; [reflexivity|]. split; [reflexivity|]. split; [reflexivity|].
  intros r ctx_id. rewrite lookup_ioctx_table_clear.
  destruct (lookup_ioctx r ctx_id mm') as [[slot ctx]|] eqn:Hl'.
  - destruct (Nat.eqb_spec slot i) as [->|Hne].
    + destruct (lookup_ioctx r ctx_id mm) as [[slot0 ctx0]|] eqn:Hl0;
        [|reflexivity].
      destruct (Hold _ _ _ _ Hl0) as (Hne & Hl1). rewrite Hl' in Hl1.
      injection Hl1 as <- _. contradiction.
    + symmetry. apply Hnew; assumption.
  - destruct (lookup_ioctx r ctx_id mm) as [[slot0 ctx0]|] eqn:Hl0;
      [|reflexivity].
    destruct (Hold _ _ _ _ Hl0) as (_ & Hl1). congruence.
Qed.

(** X10.  Creation and destruction balance.  A context that [ioctx_alloc]
    delivers is alive, is found by [lookup_ioctx] under its ring id and
    user address, and has raised [aio_nr] by its [max_reqs], to a value
    within twice [aio_max_nr].  [kill_ioctx] on it returns 0 and brings
    [aio_nr] back to what it was before the allocation, and every lookup
    in the registry answers again what it answered before. *)
Theorem ioctx_alloc_then_kill (a : alloc_env) (requested aio_nr : Z)
  (mm : mm_struct) (c : kioctx) (aio_nr' : Z) (mm' : mm_struct)
  (wait : option Z) :
  config_ok K = true -> 0 <= requested < 2 ^ 32 -> table_ok mm = true ->
  0 <= aio_nr < 2 ^ BITS_PER_LONG K ->
  ioctx_alloc K a requested aio_nr mm = Some (inr c, aio_nr', mm') ->
  dead c = 0 /\ aio_nr' = aio_nr + max_reqs c /\
  aio_nr' <= ulong K (aio_max_nr K * 2) /\
  lookup_ioctx (Some (ring_id (ring c))) (user_id c) mm'
  = Some (Z.to_nat (id c), set_users (percpu_ref_get (users c)) c) /\
  exists s tr,
    kill_ioctx K wait {| k_ctx := c; k_mm := mm'; k_aio_nr := aio_nr' |}
    = (0, s, tr) /\
    k_aio_nr s = aio_nr /\
    forall r ctx_id, lookup_ioctx r ctx_id (k_mm s) = lookup_ioctx r ctx_id mm.
Proof.
  intros Hc Hreq Hmm Hnr Heq.
  destruct (ioctx_alloc_cases a requested aio_nr mm Hc Hreq Hmm Hnr)
    as [(e & He & _)|(c5 & c1 & mm1 & He & Hadd & Hdead & Hm & _ & _ & _
                     & Hlim & Hlt)];
    rewrite He in Heq; [discriminate|].
  injection Heq as <- <- <-.
  destruct (ioctx_add_table_lookup (a_kzalloc a) c5 mm c1 mm1 Hmm Hadd)
    as (i & Hc1 & Hl & _).
  assert (Hmax : max_reqs c1 = max_reqs c5) by (rewrite Hc1; reflexivity).
  split; [rewrite Hc1; exact Hdead|]. split; [rewrite Hmax; reflexivity|].
  split; [exact Hlim|]. split.
  { assert (Hu : user_id c1 = user_id c5) by (rewrite Hc1; reflexivity).
    assert (Hrid : ring_id (ring c1) = Z.of_nat i)
      by (rewrite Hc1; reflexivity).
    assert (Hid : id c1 = Z.of_nat i) by (rewrite Hc1; reflexivity).
    rewrite Hu, Hrid, Hid, Nat2Z.id. exact Hl. }
  destruct (kill_registered wait (a_kzalloc a) c5 c1 mm mm1
              (aio_nr + max_reqs c5) Hmm Hdead Hadd)
    as (s & tr & Hk & Hn & _ & _ & Hlook).
  exists s, tr. split; [exact Hk|]. split; [|exact Hlook].
  rewrite Hn. apply aio_nr_sub_add; lia.
Qed.

(** X11.  [io_setup] is all or nothing.  It returns.  When it returns
    anything but 0, be it for a fault on [ctxp], a nonzero [*ctxp], a zero
    [nr_events], a failed allocation, or a [put_user] that fails after the
    context was created and registered, [aio_nr] is what it was and every
    lookup in the registry answers what it answered before.  When it
    returns 0, [*ctxp] was 0 and [nr_events] was not, and a live context
    is registered, found by [lookup_ioctx] under its ring id and user
    address, counted in [aio_nr] with its [max_reqs], and its [users]
    holds the one reference of the registry. *)
Theorem io_setup_all_or_nothing (a : alloc_env) (ctxp_read : option Z)
  (nr_ev put_user_ret aio_nr : Z) (mm : mm_struct) :
  config_ok K = true -> 0 <= nr_ev < 2 ^ 32 -> table_ok mm = true ->
  0 <= aio_nr < 2 ^ BITS_PER_LONG K ->
  exists ret aio_nr' mm' tr,
    io_setup K a ctxp_read nr_ev put_user_ret aio_nr mm
    = Some (ret, aio_nr', mm', tr) /\
    (ret <> 0 ->
     aio_nr' = aio_nr /\
     forall r ctx_id, lookup_ioctx r ctx_id mm' = lookup_ioctx r ctx_id mm) /\
    (ret = 0 ->
     ctxp_read = Some 0 /\ nr_ev <> 0 /\ put_user_ret = 0 /\ tr = [] /\
     exists c,
       lookup_ioctx (Some (ring_id (ring c))) (user_id c) mm'
       = Some (Z.to_nat (id c), set_users (percpu_ref_get (users c)) c) /\
       dead c = 0 /\ users c = {| ref_count := 1; ref_dead := false |} /\
       aio_nr' = aio_nr + max_reqs c).
Proof.
  intros Hc Hreq Hmm Hnr. unfold io_setup.
  assert (Hfail : forall e, e <> 0 ->
    exists ret aio_nr' mm' tr,
      Some (e, aio_nr, mm, @nil teardown) = Some (ret, aio_nr', mm', tr) /\
      (ret <> 0 ->
       aio_nr' = aio_nr /\
       forall r ctx_id, lookup_ioctx r ctx_id mm' = lookup_ioctx r ctx_id mm) /\
      (ret = 0 ->
       ctxp_read = Some 0 /\ nr_ev <> 0 /\ put_user_ret = 0 /\ tr = [] /\
       exists c,
         lookup_ioctx (Some (ring_id (ring c))) (user_id c) mm'
         = Some (Z.to_nat (id c), set_users (percpu_ref_get (users c)) c) /\
         dead c = 0 /\ users c = {| ref_count := 1; ref_dead := false |} /\
         aio_nr' = aio_nr + max_reqs c)).
  { intros e He. exists e, aio_nr, mm, []. split; [reflexivity|].
    split; [auto|]. intros; contradiction. }
  assert (HEFAULT : - EFAULT <> 0) by (vm_compute; discriminate).
  assert (HEINVAL : - EINVAL <> 0) by (vm_compute; discriminate).
  assert (HEAGAIN : - EAGAIN <> 0) by (vm_compute; discriminate).
  assert (HENOMEM : - ENOMEM <> 0) by (vm_compute; discriminate).
  destruct ctxp_read as [ctx|]; [|apply Hfail; exact HEFAULT].
  destruct (Z.eqb_spec ctx 0) as [->|]; cbn [negb orb];
    [|apply Hfail; exact HEINVAL].
  destruct (Z.eqb_spec nr_ev 0) as [|Hnz]; [apply Hfail; exact HEINVAL|].
  destruct (ioctx_alloc_cases a nr_ev aio_nr mm Hc Hreq Hmm Hnr)
    as [(e & He & Herr)|(c5 & c & mm1 & He & Hadd & Hdead & Hm & Hus & _ & _
                        & Hlim & Hlt)];
    rewrite He; cbn [obind].
  { apply Hfail. destruct Herr as [->|[->| ->]]; assumption. }
  destruct (Z.eqb_spec put_user_ret 0) as [Hz|Hnz']; cbn [negb].
  - (* registered *)
    destruct (ioctx_add_table_exact (a_kzalloc a) c5 mm c mm1 Hmm Hadd)
      as (i & t' & Hc' & Ht' & Hi & _).
    set (c' := set_users (percpu_ref_put (users c)) c).
    exists put_user_ret, (aio_nr + max_reqs c5),
      (store_ioctx (Z.to_nat (id c)) c' mm1), [].
    split; [reflexivity|]. split; [intros; contradiction|]. intros _.
    split; [reflexivity|]. split; [exact Hnz|]. split; [exact Hz|].
    split; [reflexivity|]. exists c'.
    assert (Hid : id c = Z.of_nat i) by (rewrite Hc'; reflexivity).
    assert (Hrid : ring_id (ring c') = Z.of_nat i)
      by (unfold c'; rewrite Hc'; reflexivity).
    assert (Hid' : id c' = Z.of_nat i) by exact Hid.
    split.
    + rewrite Hrid, Hid', Nat2Z.id.
      apply (lookup_ioctx_some _ (<[i := Some c']> t')).
      * unfold store_ioctx. rewrite Ht', Hid, Nat2Z.id. reflexivity.
      * apply list_lookup_insert_eq. eapply lookup_lt_Some; eauto.
    + split; [unfold c'; rewrite Hc'; exact Hdead|]. split.
      * unfold c'. cbn [users set_users]. rewrite Hc'.
        cbn [users set_id]. rewrite Hus. reflexivity.
      * unfold c'. rewrite Hc'. reflexivity.
  - (* [put_user] failed: the context is killed *)
    destruct (kill_registered None (a_kzalloc a) c5 c mm mm1
                (aio_nr + max_reqs c5) Hmm Hdead Hadd)
      as (s & tr & Hk & Hn & _ & _ & Hlook).
    rewrite Hk. exists put_user_ret, (k_aio_nr s), (k_mm s), tr.
    split; [reflexivity|]. split; [|intros; contradiction]. intros _.
    split; [|exact Hlook]. rewrite Hn. apply aio_nr_sub_add; lia.
Qed.

(** X12.  [io_destroy] destroys a context once.  On a consistent registry
    it returns 0 or [-EINVAL].  When it returns 0 the context found is
    dead, records the caller's waiter and has its [users] reference
    killed, the call waits for the requests of the context, and a second
    [io_destroy] of the same context returns [-EINVAL] and changes
    nothing.  When it returns [-EINVAL] nothing has changed and nothing
    is waited for. *)
Theorem io_destroy_only_once (wait wait2 : Z) (r : option Z) (ctx_id : Z)
  (aio_nr : Z) (mm : mm_struct) (ret : Z) (oc : option kioctx)
  (aio_nr' : Z) (mm' : mm_struct) (tr : list teardown) (waits : bool) :
  registry_ok mm = true ->
  io_destroy K wait r ctx_id aio_nr mm = (ret, oc, aio_nr', mm', tr, waits) ->
  (ret = 0 \/ ret = - EINVAL) /\
  (ret = 0 ->
   waits = true /\
   (exists c, oc = Some c /\ dead c = 1 /\ rq_wait c = Some wait /\
              ref_dead (users c) = true) /\
   io_destroy K wait2 r ctx_id aio_nr' mm'
   = (- EINVAL, None, aio_nr', mm', [], false)) /\
  (ret = - EINVAL ->
   oc = None /\ aio_nr' = aio_nr /\ mm' = mm /\ tr = [] /\ waits = false).
Proof.
  intros Hreg. unfold io_destroy at 1.
  destruct (lookup_ioctx r ctx_id mm) as [[slot ioctx]|] eqn:Hl.
  - destruct (kill_ioctx_found K (Some wait) r ctx_id mm slot ioctx aio_nr
                Hreg Hl)
      as (s & tr0 & Hk & Hd & Hw & Hu & _ & _ & Hnone & _).
    rewrite Hk. intros [= <- <- <- <- <- <-].
    split; [left; reflexivity|]. split.
    + intros _. split; [reflexivity|]. split.
      * eexists. split; [reflexivity|]. auto.
      * unfold io_destroy. rewrite Hnone. reflexivity.
    + intros H. vm_compute in H. discriminate.
  - intros [= <- <- <- <- <- <-].
    split; [right; reflexivity|]. split.
    + intros H. vm_compute in H. discriminate.
    + intros _. auto.
Qed.

End Lifecycle.

Lemma ioctx_alloc_failure_leaves_no_trace_witness :
  config_ok uniprocessor = true /\
  ioctx_alloc uniprocessor no_table_env 1 8 {| ioctx_table := None |}
  = Some (inl (- ENOMEM), 8, {| ioctx_table := None |}).
Proof.
  split; [reflexivity|].
  assert (E : exists n mm',
    ioctx_alloc uniprocessor no_table_env 1 8 {| ioctx_table := None |}
    = Some (inl (- ENOMEM), n, mm')).
  { eexists _, _. vm_compute. reflexivity. }
  destruct E as (n & mm' & E).
  destruct (ioctx_alloc_failure_leaves_no_trace uniprocessor no_table_env 1 8
              {| ioctx_table := None |} (- ENOMEM) n mm'
              eq_refl ltac:(lia) eq_refl ltac:(evaluated) E)
    as (Hn & Hmm & _).
  rewrite E, Hn, Hmm. reflexivity.
Defined.

Lemma ioctx_alloc_then_kill_witness :
  config_ok uniprocessor = true /\
  exists c mm' s tr,
    ioctx_alloc uniprocessor all_granted 1 0 {| ioctx_table := None |}
    = Some (inr c, 0 + max_reqs c, mm') /\
    kill_ioctx uniprocessor None
      {| k_ctx := c; k_mm := mm'; k_aio_nr := 0 + max_reqs c |}
    = (0, s, tr) /\
    k_aio_nr s = 0.
Proof.
  split; [reflexivity|].
  assert (E : exists c n mm',
    ioctx_alloc uniprocessor all_granted 1 0 {| ioctx_table := None |}
    = Some (inr c, n, mm')).
  { eexists _, _, _. vm_compute. reflexivity. }
  destruct E as (c & n & mm' & E).
  destruct (ioctx_alloc_then_kill uniprocessor all_granted 1 0
              {| ioctx_table := None |} c n mm' None
              eq_refl ltac:(lia) eq_refl ltac:(evaluated) E)
    as (_ & Hn & _ & _ & s & tr & Hk & Hs & _).
  subst n. exists c, mm', s, tr. split; [exact E|]. split; [exact Hk|exact Hs].
Defined.

Lemma io_setup_all_or_nothing_witness :
  config_ok uniprocessor = true /\
  exists mm' tr,
    io_setup uniprocessor all_granted (Some 0) 1 (- EFAULT) 0
      {| ioctx_table := None |}
    = Some (- EFAULT, 0, mm', tr) /\
    lookup_ioctx (Some 0) 0x7f0000000000 mm' = None.
Proof.
  split; [reflexivity|].
  destruct (io_setup_all_or_nothing uniprocessor all_granted (Some 0) 1
              (- EFAULT) 0 {| ioctx_table := None |}
              eq_refl ltac:(lia) eq_refl ltac:(evaluated))
    as (ret & n & mm' & tr & E & Hfail & _).
  assert (E' : exists n0 mm0 tr0,
    io_setup uniprocessor all_granted (Some 0) 1 (- EFAULT) 0
      {| ioctx_table := None |} = Some (- EFAULT, n0, mm0, tr0)).
  { eexists _, _, _. vm_compute. reflexivity. }
  destruct E' as (n0 & mm0 & tr0 & E'). rewrite E' in E.
  injection E as <- <- <- <-.
  destruct (Hfail ltac:(vm_compute; discriminate)) as (Hn & Hl).
  exists mm0, tr0. split; [rewrite E', Hn; reflexivity|]. rewrite Hl.
  reflexivity.
Defined.

Lemma io_destroy_only_once_witness :
  registry_ok one_ctx_mm = true /\
  exists oc n mm' tr,
    io_destroy uniprocessor 1 (Some 0) 0x7f0000000000 8 one_ctx_mm
    = (0, oc, n, mm', tr, true) /\
    io_destroy uniprocessor 2 (Some 0) 0x7f0000000000 n mm'
    = (- EINVAL, None, n, mm', [], false).
Proof.
  split; [reflexivity|].
  assert (E : exists oc n mm' tr w,
    io_destroy uniprocessor 1 (Some 0) 0x7f0000000000 8 one_ctx_mm
    = (0, oc, n, mm', tr, w)).
  { eexists _, _, _, _, _. vm_compute. reflexivity. }
  destruct E as (oc & n & mm' & tr & w & E).
  destruct (io_destroy_only_once uniprocessor 1 2 (Some 0) 0x7f0000000000 8
              one_ctx_mm 0 oc n mm' tr w eq_refl E) as (_ & H & _).
  destruct (H eq_refl) as (Hw & _ & H2). subst w.
  exists oc, n, mm', tr. split; [exact E|exact H2].
Defined.
(** ** Batches and restarts *)

Section Batches.

Variable K : kconfig.

(** One pass of the loop of [do_io_submit] conserves the slots. *)
Lemma submit_slot_slots (d : option user_slot) (compat : bool) (c : kioctx) :
  config_ok K = true -> ring_ok K c = true -> counters_ok c = true ->
  (forall d', d = Some d' -> (e_cpu (us_env d') < length (cpu c))%nat) ->
  exists ret c1,
    submit_slot K d compat c = Some (ret, c1) /\ frame c c1 /\
    ring_ok K c1 = true /\ counters_ok c1 = true /\
    slots_held c1 = slots_held c /\
    (reqs c1 = reqs c \/ (ret = 0 /\ reqs c1 = percpu_ref_get (reqs c))).
Proof.
  intros Hc Hr Hok Hd. unfold submit_slot.
  assert (Hfault : exists ret c1,
    Some (- EFAULT, c) = Some (ret, c1) /\ frame c c1 /\
    ring_ok K c1 = true /\ counters_ok c1 = true /\
    slots_held c1 = slots_held c /\
    (reqs c1 = reqs c \/ (ret = 0 /\ reqs c1 = percpu_ref_get (reqs c)))).
  { exists (- EFAULT), c. split; [reflexivity|].
    split; [apply frame_refl|]. auto. }
  destruct d as [d|]; [|exact Hfault].
  destruct (us_ptr d) as [p|]; [|exact Hfault].
  destruct (us_iocb d) as [tmp|]; [|exact Hfault].
  destruct (io_submit_one_slots K (us_env d) p tmp compat c Hc Hr Hok
              (Hd d eq_refl))
    as (ret & c1 & Heq & Hfr & Hr1 & Hok1 & Hs & Hrq).
  exists ret, c1. split; [exact Heq|]. splits; auto.
  destruct Hrq as [Hrq|(H0 & _ & Hrq & _)]; auto.
Qed.

(** The batch conserves the slots, and takes at most one reference on
    [reqs] for each descriptor it submits. *)
Lemma submit_batch_run_slots (descs : list (option user_slot))
  (compat : bool) :
  config_ok K = true ->
  forall c, ring_ok K c = true -> counters_ok c = true -> descs_ok descs c ->
  exists n f c',
    submit_batch_run K descs compat c = Some (n, f, c') /\ frame c c' /\
    ring_ok K c' = true /\ counters_ok c' = true /\
    slots_held c' = slots_held c /\
    0 <= n /\
    ref_count (reqs c) <= ref_count (reqs c') <= ref_count (reqs c) + n /\
    ref_dead (reqs c') = ref_dead (reqs c).
Proof.
  intros Hc. induction descs as [|d rest IH]; intros c Hr Hok Hds.
  - exists 0, None, c. cbn. split; [reflexivity|].
    split; [apply frame_refl|]. splits; auto; lia.
  - rewrite submit_batch_run_cons.
    destruct (Forall_cons_1 _ _ _ Hds) as [Hd Hrest].
    destruct (submit_slot_slots d compat c Hc Hr Hok Hd)
      as (ret & c1 & Heq & Hfr & Hr1 & Hok1 & Hs & Hrq).
    rewrite Heq. cbn [obind].
    destruct (Z.eqb_spec ret 0) as [Hz|Hnz].
    + destruct (IH c1 Hr1 Hok1) as (n & f & c2 & Heq2 & Hfr2 & Hr2 & Hok2
                                    & Hs2 & Hn & Hrf & Hrd).
      { unfold descs_ok.
        replace (length (cpu c1)) with (length (cpu c)) by (symmetry; apply Hfr).
        exact Hrest. }
      rewrite Heq2. cbn [obind].
      exists (n + 1), f, c2. split; [reflexivity|].
      split; [eapply frame_trans; eassumption|].
      split; [exact Hr2|]. split; [exact Hok2|]. split; [congruence|].
      split; [lia|].
      destruct Hrq as [Hrq|(_ & Hrq)]; rewrite Hrq in *; simpl in *;
        split; try lia; exact Hrd.
    + exists 0, (Some ret), c1. split; [reflexivity|].
      split; [exact Hfr|]. split; [exact Hr1|]. split; [exact Hok1|].
      split; [exact Hs|]. split; [lia|].
      destruct Hrq as [Hrq|(H0 & _)]; [|contradiction].
      rewrite Hrq. split; [lia|reflexivity].
Qed.

(** X13.  [do_io_submit] on a registered context leaves the registry with
    that context in its slot and the reference it took on [users] given
    back: [users], like everything a submission leaves alone, is what it
    was.  The batch has conserved the slots of the context, and has taken
    at most as many references on [reqs] as the number of descriptors the
    call reports as submitted. *)
Theorem do_io_submit_balanced (ctx_id nr : Z) (slots : list user_slot)
  (compat : bool) (mm : mm_struct) (t : list (option kioctx)) (slot : nat)
  (c0 : kioctx) :
  config_ok K = true -> 0 <= nr < 2 ^ 31 ->
  nr <= LONG_MAX K / sizeof_ptr K ->
  ioctx_table mm = Some t -> t !! slot = Some (Some c0) ->
  user_id c0 = ctx_id ->
  ring_ok K c0 = true -> counters_ok c0 = true ->
  cpus_ok slots c0 = true ->
  exists ret c',
    do_io_submit K true (Some (Z.of_nat slot)) ctx_id nr slots compat mm
    = Some (ret, {| ioctx_table := Some (<[slot := Some c']> t) |}) /\
    frame c0 c' /\ users c' = users c0 /\
    ring_ok K c' = true /\ counters_ok c' = true /\
    slots_held c' = slots_held c0 /\
    ref_count (reqs c0) <= ref_count (reqs c')
    <= ref_count (reqs c0) + Z.max 0 ret.
Proof.
  intros Hc Hnr Hmax Ht Hs Hu Hr Hok Hcpus.
  set (ctx := set_users (percpu_ref_get (users c0)) c0).
  assert (Hlook : lookup_ioctx (Some (Z.of_nat slot)) ctx_id mm
                  = Some (slot, ctx)).
  { rewrite <- Hu. apply (lookup_ioctx_some mm t slot c0 Ht Hs). }
  destruct (submit_batch_run_slots (user_array slots nr) compat Hc ctx Hr Hok
              (user_array_ok slots nr ctx Hcpus))
    as (n & f & cb & Heq & Hfr & Hrb & Hokb & Hsb & Hn & Hrf & _).
  destruct (submit_batch_run_ok K (user_array slots nr) compat Hc ctx Hr Hok
              (user_array_ok slots nr ctx Hcpus))
    as (n' & f' & cb' & Heq' & _ & _ & Hfnz).
  rewrite Heq in Heq'. injection Heq' as <- <- <-.
  set (c' := set_users (percpu_ref_put (users cb)) cb).
  assert (Hub : users cb = percpu_ref_get (users c0)) by apply Hfr.
  exists (if negb (n =? 0) then n else default 0 f), c'. split.
  { unfold do_io_submit.
    destruct (Z.ltb_spec nr 0); [lia|].
    destruct (Z.ltb_spec (LONG_MAX K / sizeof_ptr K) nr); [lia|].
    cbn [negb]. rewrite Hlook.
    change 0 with (Z.of_nat 0) at 1.
    rewrite (submit_loop_spec K slots compat nr (Z.to_nat nr)) by lia.
    fold (user_array slots nr). rewrite Heq. cbn [obind].
    change (Z.of_nat 0 + n) with n.
    unfold store_ioctx. rewrite Ht. reflexivity. }
  split.
  { destruct Hfr as (H1 & H2 & H3 & H4 & H5 & H6 & H7 & H8 & H9
                    & H10 & H11 & H12).
    unfold frame, c'. simpl in *. rewrite H1, percpu_ref_put_get. tauto. }
  split.
  { unfold c'. cbn [users set_users]. rewrite Hub.
    apply percpu_ref_put_get. }
  split; [exact Hrb|]. split; [exact Hokb|]. split; [exact Hsb|].
  change (reqs c') with (reqs cb). change (reqs ctx) with (reqs c0) in Hrf.
  destruct (Z.eqb_spec n 0) as [->|Hne]; cbn [negb]; lia.
Qed.

(** [aio_get_req] delivers a request when the cell of the CPU or the
    global counter can serve a reservation and memory is there. *)
(** X14.  A restart code never reaches userspace.  Whenever
    [io_submit_one] reaches the submit function of a valid descriptor (a
    request was obtained from [aio_get_req], at once or after a refill;
    the file was found if the opcode needs one; the eventfd was found if
    the descriptor asks for one; the key was written back) and the
    function answers [-ERESTARTSYS], [-ERESTARTNOINTR], [-ERESTARTNOHAND]
    or [-ERESTART_RESTARTBLOCK], [io_submit_one] returns 0 and the request
    is completed on the spot: the record at the old [tail] of the ring
    carries the user address of the descriptor, its [aio_data], the result
    [-EINTR] and 0, [tail] has advanced by one, the reference on [reqs] is
    given back, and the slot of the request has moved from the counter to
    [completed_events] or back to the counter. *)
Theorem restart_is_completed_with_eintr (e : submit_env) (u : Z) (i : iocb)
  (compat : bool) (c : kioctx) (req : aio_kiocb) (c1 : kioctx) :
  config_ok K = true -> ring_ok K c = true -> counters_ok c = true ->
  (e_cpu e < length (cpu c))%nat ->
  iocb_valid K i = true ->
  aio_get_req (e_cpu e) (e_alloc_req e) c = Some (Some req, c1) ->
  (forall info,
     aio_submit_info K !! Z.to_nat (aio_lio_opcode i) = Some info ->
     Z.land (flags info) NEED_FD <> 0 -> is_Some (e_fget e)) ->
  (Z.land (aio_flags i) IOCB_FLAG_RESFD <> 0 ->
   IS_ERR_VALUE K (e_eventfd e) = false) ->
  e_put_user e = 0 -> is_restart (e_fn e) = true ->
  let pos := tail c + AIO_EVENTS_OFFSET K in
  exists c',
    io_submit_one K e u i compat c = Some (0, c') /\
    ring_events c' !! (pos / AIO_EVENTS_PER_PAGE K,
                       pos mod AIO_EVENTS_PER_PAGE K)
    = Some {| ev_obj := u64 (ulong K u); ev_data := aio_data i;
              ev_res := - EINTR; ev_res2 := 0 |} /\
    tail c' = (tail c + 1) mod nr_events c /\
    reqs c' = reqs c /\
    reqs_total c' + completed_events c'
    = reqs_total c + completed_events c.
Proof.
  intros Hc Hr Hok Hk Hv Hget Hfd Hres Hpu Hrs pos.
  destruct (iocb_valid_elim K i Hv)
    as (E1 & E2 & E3 & E4 & E5 & info & f & E6 & E7).
  pose proof (counters_ok_elim c Hok) as (_ & _ & _ & _ & Hs).
  destruct (page_geometry K Hc) as (P & HP & Hps & _).
  destruct (ring_size K c P Hr Hps HP) as (_ & HN).
  pose proof (ring_ok_elim K c Hr) as (_ & _ & _ & Htl).
  destruct (aio_get_req_ok (e_cpu e) (e_alloc_req e) c Hok Hk ltac:(lia) Htl)
    as (r & c1' & n & Heq & Hfr1 & Hsr1 & Hok1 & Hn & Hce1 & _ & Hgot).
  rewrite Hget in Heq. injection Heq as <- <-.
  destruct Hgot as (_ & _ & Htot1 & Hrq1).
  assert (Hr1 : ring_ok K c1 = true)
    by (apply (ring_ok_frame K c); [exact Hr|exact Hfr1|apply Hsr1]).
  assert (Hk1 : (e_cpu e < length (cpu c1))%nat)
    by (apply (frame_length c); assumption).
  unfold io_submit_one.
  rewrite E1, E2, E3, E4, E5, E6, E7, Hget. cbn [negb orb obind].
  assert (Hnofd :
    negb (Z.land (flags info) NEED_FD =? 0)
    && negb (bool_decide (is_Some (e_fget e))) = false).
  { destruct (Z.eqb_spec (Z.land (flags info) NEED_FD) 0) as [|Hnf];
      [reflexivity|].
    rewrite (bool_decide_eq_true_2 _ (Hfd info E6 Hnf)). reflexivity. }
  rewrite Hnofd.
  assert (Hnoerr :
    negb (Z.land (aio_flags i) IOCB_FLAG_RESFD =? 0)
    && IS_ERR_VALUE K (e_eventfd e) = false).
  { destruct (Z.eqb_spec (Z.land (aio_flags i) IOCB_FLAG_RESFD) 0) as [|Hrf];
      [reflexivity|].
    rewrite (Hres Hrf). reflexivity. }
  rewrite Hnoerr, Hpu. cbn [Z.eqb negb].
  destruct (Z.eqb_spec (e_fn e) (- EIOCBQUEUED)) as [Hq|_].
  { rewrite Hq in Hrs. vm_compute in Hrs. discriminate. }
  rewrite Hrs.
  match goal with
  | |- context [aio_complete K (e_cpu e) ?r (- EINTR) 0 c1] => set (req' := r)
  end.
  destruct (aio_complete_ok K (e_cpu e) req' (- EINTR) 0 c1 Hc Hr1 Hok1 Hk1
              ltac:(lia))
    as (c2 & m & Heq2 & Hfr2 & _ & _ & _ & _ & Hce2 & Htot2 & Hrq2 & Htl2
        & _ & Hev2).
  rewrite Heq2. cbn [obind]. exists c2. split; [reflexivity|].
  destruct Hsr1 as (Htl1 & _ & _).
  assert (HN1 : nr_events c1 = nr_events c) by apply Hfr1.
  split.
  { rewrite Hev2, Htl1. apply lookup_insert_eq. }
  split; [rewrite Htl2, Htl1, HN1; reflexivity|].
  split; [rewrite Hrq2, Hrq1; apply percpu_ref_put_get|]. lia.
Qed.

End Batches.

Lemma do_io_submit_balanced_witness :
  config_ok uniprocessor = true /\
  exists c',
    do_io_submit uniprocessor true (Some 0) 0x7f0000000000 3 three_slots
      false one_ctx_mm
    = Some (1, {| ioctx_table :=
                    Some (<[0%nat := Some c']> [Some fresh_ctx; None; None;
                                                None]) |}) /\
    users c' = users fresh_ctx /\ slots_held c' = slots_held fresh_ctx.
Proof.
  split; [reflexivity|].
  destruct (do_io_submit_balanced uniprocessor 0x7f0000000000 3 three_slots
              false one_ctx_mm [Some fresh_ctx; None; None; None] 0 fresh_ctx)
    as (ret & c' & H1 & _ & H2 & _ & _ & H3 & _);
    [reflexivity | lia | evaluated | reflexivity | reflexivity | reflexivity
    | reflexivity | reflexivity | reflexivity |].
  assert (E : exists mm',
    do_io_submit uniprocessor true (Some 0) 0x7f0000000000 3 three_slots
      false one_ctx_mm = Some (1, mm')).
  { eexists. vm_compute. reflexivity. }
  destruct E as (mm' & E). change (Z.of_nat 0) with 0 in H1.
  rewrite E in H1. injection H1 as <- Hmm.
  exists c'. rewrite E, Hmm. auto.
Defined.

Lemma restart_is_completed_with_eintr_witness :
  config_ok uniprocessor = true /\
  is_restart (e_fn (eventfd_env (- ERESTARTSYS))) = true /\
  exists c',
    io_submit_one uniprocessor (eventfd_env (- ERESTARTSYS)) 0x1000
      pread_resfd_iocb false drained_ctx = Some (0, c') /\
    ring_events c' !! (0, 4)
    = Some {| ev_obj := 0x1000; ev_data := 0xAA; ev_res := - EINTR;
              ev_res2 := 0 |}.
Proof.
  split; [reflexivity|]. split; [reflexivity|].
  assert (E : exists c1,
    aio_get_req 0 true drained_ctx = Some (Some zeroed_kiocb, c1)).
  { eexists. vm_compute. reflexivity. }
  destruct E as (c1 & E).
  destruct (restart_is_completed_with_eintr uniprocessor
              (eventfd_env (- ERESTARTSYS)) 0x1000 pread_resfd_iocb false
              drained_ctx zeroed_kiocb c1)
    as (c' & H1 & H2 & _);
    [reflexivity | reflexivity | reflexivity | evaluated | reflexivity
    | exact E | intros; eexists; reflexivity | intros; reflexivity
    | reflexivity | reflexivity |].
  exists c'. split; [exact H1|exact H2].
Defined.
(** ** The active list and cancellation *)

Section Requests.

Variable K : kconfig.

Lemma reqs_ok_spec (s : ctx_reqs) :
  reqs_ok s = true <->
  NoDup (active_reqs s) /\
  forall a, a ∈ active_reqs s <->
            exists r, requests s !! a = Some r /\ ki_list_next r = true.
Proof.
  unfold reqs_ok. rewrite !andb_true_iff, bool_decide_eq_true.
  rewrite !forallb_forall. split.
  - intros ((Hnd & Hact) & Hreq). split; [exact Hnd|]. intros a. split.
    + intros Ha. apply list_elem_of_In in Ha. specialize (Hact a Ha).
      destruct (requests s !! a) as [r|]; [|discriminate]. eauto.
    + intros (r & Hr & Hn).
      assert (Hin : In (a, r) (map_to_list (requests s))).
      { apply list_elem_of_In, elem_of_map_to_list. exact Hr. }
      specialize (Hreq _ Hin). simpl in Hreq. rewrite Hn in Hreq.
      simpl in Hreq. apply bool_decide_eq_true in Hreq. exact Hreq.
  - intros (Hnd & Hiff). split; [split; [exact Hnd|]|].
    + intros a Ha. apply list_elem_of_In in Ha.
      apply Hiff in Ha as (r & -> & Hn). exact Hn.
    + intros [a r] Hin. apply list_elem_of_In, elem_of_map_to_list in Hin.
      simpl. destruct (ki_list_next r) eqn:Hn; [|reflexivity]. simpl.
      apply bool_decide_eq_true. apply Hiff. eauto.
Qed.

(** X15.  [kiocb_set_cancel_fn] never links a request twice.  On a
    request list in which every linked request is on [active_reqs] once,
    it installs the cancel function in the request and puts the request
    on the list only if it is not linked yet, at the head; the list is
    again such a list, no other request is touched, and a [kiocb_cancel]
    of the request invokes just that function and leaves
    [KIOCB_CANCELLED] behind. *)
Theorem kiocb_set_cancel_fn_links_once (run_cancel : Z -> Z) (a f : Z)
  (r : aio_kiocb) (s : ctx_reqs) :
  reqs_ok s = true -> requests s !! a = Some r ->
  exists s' r',
    kiocb_set_cancel_fn a (CANCEL_FN f) s = Some s' /\
    reqs_ok s' = true /\
    active_reqs s'
    = (if ki_list_next r then active_reqs s else a :: active_reqs s) /\
    a ∈ active_reqs s' /\
    requests s' !! a = Some r' /\ ki_cancel r' = CANCEL_FN f /\
    (forall b, b <> a -> requests s' !! b = requests s !! b) /\
    kiocb_cancel run_cancel r'
    = Some (set_ki_cancel KIOCB_CANCELLED r', s32 (run_cancel f), [f]).
Proof.
  intros Hok Hr. apply reqs_ok_spec in Hok as (Hnd & Hiff).
  unfold kiocb_set_cancel_fn. rewrite Hr. cbn [obind].
  set (r' := set_ki_cancel (CANCEL_FN f) (set_ki_list_next true r)).
  eexists _, r'. split; [reflexivity|].
  cbn [active_reqs requests].
  assert (Hact : (if negb (ki_list_next r) then a :: active_reqs s
                  else active_reqs s)
                 = (if ki_list_next r then active_reqs s
                    else a :: active_reqs s))
    by (destruct (ki_list_next r); reflexivity).
  rewrite Hact.
  assert (Hin : a ∈ (if ki_list_next r then active_reqs s
                     else a :: active_reqs s)).
  { destruct (ki_list_next r) eqn:Hn; [|apply list_elem_of_here].
    apply Hiff. eauto. }
  split.
  { apply reqs_ok_spec. cbn [active_reqs requests]. rewrite ?Hact. split.
    - destruct (ki_list_next r) eqn:Hn; [exact Hnd|].
      apply NoDup_cons. split; [|exact Hnd].
      intros Ha. apply Hiff in Ha as (r0 & Hr0 & Hn0). congruence.
    - intros b. destruct (Z.eq_dec b a) as [->|Hne].
      + rewrite lookup_insert_eq. split; [|intros _; exact Hin].
        intros _. exists r'. split; reflexivity.
      + rewrite lookup_insert_ne by congruence. rewrite <- Hiff.
        destruct (ki_list_next r); [reflexivity|].
        rewrite elem_of_cons. tauto. }
  split; [reflexivity|]. split; [exact Hin|].
  split; [apply lookup_insert_eq|]. split; [reflexivity|]. split.
  { intros b Hne. apply lookup_insert_ne. congruence. }
  pose proof (kiocb_cancel_spec run_cancel r') as Hc.
  exact Hc.
Qed.

Lemma set_ki_cancel_same (r : aio_kiocb) : set_ki_cancel (ki_cancel r) r = r.
Proof. destruct r. reflexivity. Qed.

(** [kiocb_cancel] in terms of [cancelled]. *)
Lemma kiocb_cancel_cancelled (run_cancel : Z -> Z) (r : aio_kiocb) :
  exists ret,
    kiocb_cancel run_cancel r
    = Some (cancelled r, ret,
            match ki_cancel r with
            | CANCEL_FN f => [f]
            | _ => []
            end) /\
    match ki_cancel r with
    | CANCEL_FN f => ret = s32 (run_cancel f)
    | _ => ret = - EINVAL
    end.
Proof.
  pose proof (kiocb_cancel_spec run_cancel r) as H. unfold cancelled.
  destruct (ki_cancel r) as [|f|] eqn:Hc; rewrite H; eexists;
    (split; [|reflexivity]); try reflexivity.
  - rewrite <- Hc, set_ki_cancel_same. reflexivity.
  - rewrite <- Hc, set_ki_cancel_same. reflexivity.
Qed.

Lemma cancel_call_fst (s : ctx_reqs) (l : list Z) (x : Z) :
  x ∈ (omap (cancel_call s) l).*1 -> x ∈ l.
Proof.
  induction l as [|a l IH]; simpl; [auto|].
  unfold cancel_call at 1.
  destruct (requests s !! a) as [r|]; [destruct (ki_cancel r)|]; simpl;
    rewrite ?elem_of_cons; intros H; try (right; apply IH; exact H).
  destruct H as [->|H]; [left; reflexivity|right; apply IH; exact H].
Qed.

Lemma cancel_call_NoDup (s : ctx_reqs) (l : list Z) :
  NoDup l -> NoDup (omap (cancel_call s) l).*1.
Proof.
  induction l as [|a l IH]; intros Hnd; simpl; [constructor|].
  apply NoDup_cons in Hnd as (Ha & Hnd). specialize (IH Hnd).
  unfold cancel_call at 1.
  destruct (requests s !! a) as [r|]; [destruct (ki_cancel r)|]; simpl;
    try exact IH.
  apply NoDup_cons. split; [|exact IH].
  intros Hin. apply Ha. eapply cancel_call_fst. exact Hin.
Qed.

Lemma cancel_call_ext (s1 s2 : ctx_reqs) (l : list Z) :
  (forall b, b ∈ l -> requests s1 !! b = requests s2 !! b) ->
  omap (cancel_call s1) l = omap (cancel_call s2) l.
Proof.
  induction l as [|b l IH]; intros H; [reflexivity|].
  cbn [omap list_omap].
  assert (Hb : cancel_call s1 b = cancel_call s2 b).
  { unfold cancel_call. rewrite (H b (list_elem_of_here _ _)). reflexivity. }
  rewrite Hb, IH; [reflexivity|].
  intros x Hx. apply H. apply list_elem_of_further. exact Hx.
Qed.

(** The loop of [free_ioctx_users]. *)
Lemma cancel_active_spec (run_cancel : Z -> Z -> Z) (l : list Z) :
  forall (fuel : nat) (reqs0 : gmap Z aio_kiocb),
  (length l <= fuel)%nat -> NoDup l ->
  (forall a, a ∈ l -> is_Some (reqs0 !! a)) ->
  exists reqs',
    cancel_active fuel run_cancel {| requests := reqs0; active_reqs := l |}
    = Some ({| requests := reqs'; active_reqs := [] |},
            omap (cancel_call {| requests := reqs0; active_reqs := l |}) l) /\
    (forall a r, a ∈ l -> reqs0 !! a = Some r ->
                 reqs' !! a = Some (cancelled r)) /\
    (forall a, a ∉ l -> reqs' !! a = reqs0 !! a).
Proof.
  induction l as [|a l IH]; intros fuel reqs0 Hfuel Hnd Hall.
  - exists reqs0. destruct fuel; cbn; splits; auto;
      intros a r Ha; apply elem_of_nil in Ha; contradiction.
  - destruct fuel as [|fuel]; [simpl in Hfuel; lia|].
    apply NoDup_cons in Hnd as (Ha & Hnd).
    destruct (Hall a (list_elem_of_here _ _)) as (r & Hr).
    cbn [cancel_active active_reqs requests]. rewrite Hr. cbn [obind].
    destruct (kiocb_cancel_cancelled (run_cancel a) r) as (ret & Hk & _).
    rewrite Hk. cbn [obind].
    destruct (IH fuel (<[a := cancelled r]> reqs0)) as (reqs' & Heq & Hin & Hout).
    { simpl in Hfuel. lia. }
    { exact Hnd. }
    { intros b Hb. rewrite lookup_insert_ne by (intros ->; contradiction).
      apply Hall. apply list_elem_of_further. exact Hb. }
    rewrite Heq. cbn [obind]. exists reqs'. split.
    { f_equal. f_equal. cbn [omap list_omap]. unfold cancel_call at 2.
      cbn [requests]. rewrite Hr.
      assert (Hext : omap (cancel_call
                {| requests := <[a := cancelled r]> reqs0;
                   active_reqs := l |}) l
              = omap (cancel_call
                {| requests := reqs0; active_reqs := a :: l |}) l).
      { apply cancel_call_ext. intros b Hb. cbn [requests].
        apply lookup_insert_ne. intros ->. contradiction. }
      rewrite Hext. destruct (ki_cancel r); reflexivity. }
    split.
    + intros b rb Hb Hrb. apply elem_of_cons in Hb as [->|Hb].
      * rewrite Hout by exact Ha. rewrite lookup_insert_eq. congruence.
      * apply Hin; [exact Hb|].
        rewrite lookup_insert_ne by (intros ->; contradiction). exact Hrb.
    + intros b Hb. apply not_elem_of_cons in Hb as (Hne & Hb).
      rewrite Hout by exact Hb. apply lookup_insert_ne. congruence.
Qed.

(** X16.  [free_ioctx_users] cancels every active request once.  On a
    request list in which every linked request is on [active_reqs] once,
    it returns with the list empty, having invoked on each request, in
    list order, the cancel function that request had installed, if it
    had one, and no function on any request twice.  Every request that
    was on the list is as [kiocb_cancel] leaves it, so none has a cancel
    function left to invoke; the other requests are untouched; and
    [reqs] is killed, with two references fewer. *)
Theorem free_ioctx_users_cancels_each_once (run_cancel : Z -> Z -> Z)
  (s : ctx_reqs) (c : kioctx) :
  reqs_ok s = true ->
  exists s' c' calls,
    free_ioctx_users run_cancel s c = Some (s', c', calls) /\
    active_reqs s' = [] /\
    calls = omap (cancel_call s) (active_reqs s) /\
    NoDup calls.*1 /\
    (forall a r, a ∈ active_reqs s -> requests s !! a = Some r ->
                 requests s' !! a = Some (cancelled r)) /\
    (forall a, a ∈ active_reqs s -> cancel_call s' a = None) /\
    (forall a, a ∉ active_reqs s -> requests s' !! a = requests s !! a) /\
    ref_dead (reqs c') = true /\
    ref_count (reqs c') = ref_count (reqs c) - 2.
Proof.
  intros Hok. apply reqs_ok_spec in Hok as (Hnd & Hiff).
  destruct s as [reqs0 l]. cbn [active_reqs requests] in *.
  destruct (cancel_active_spec run_cancel l (length l) reqs0 (le_n _) Hnd)
    as (reqs' & Heq & Hin & Hout).
  { intros a Ha. apply Hiff in Ha as (r & Hr & _). eauto. }
  unfold free_ioctx_users. cbn [active_reqs]. rewrite Heq. cbn [obind].
  eexists _, _, _. split; [reflexivity|]. cbn [active_reqs requests].
  split; [reflexivity|]. split; [reflexivity|].
  split; [apply cancel_call_NoDup; exact Hnd|]. split; [exact Hin|].
  split.
  { intros a Ha. destruct (proj1 (Hiff a) Ha) as (r & Hr & _).
    unfold cancel_call. cbn [requests]. rewrite (Hin a r Ha Hr).
    unfold cancelled. destruct (ki_cancel r) eqn:Hc; simpl; rewrite ?Hc;
      reflexivity. }
  split; [exact Hout|]. split; [reflexivity|]. simpl. lia.
Qed.

(** Giving back the reference that [lookup_ioctx] took leaves the
    registry as it was. *)
Lemma store_ioctx_put_get (r : option Z) (ctx_id : Z) (mm : mm_struct)
  (slot : nat) (ctx : kioctx) :
  lookup_ioctx r ctx_id mm = Some (slot, ctx) ->
  store_ioctx slot (set_users (percpu_ref_put (users ctx)) ctx) mm = mm.
Proof.
  intros Hl.
  destruct (lookup_ioctx_inv r ctx_id mm slot ctx Hl)
    as (id0 & t & c0 & -> & Ht & -> & Hlt & Hs & Hu0 & ->).
  assert (Hc0 : set_users (percpu_ref_put (users (set_users
                  (percpu_ref_get (users c0)) c0)))
                  (set_users (percpu_ref_get (users c0)) c0) = c0).
  { destruct c0 as [[] ? ? ? ? ? ? ? ? ? ? ? ? ? ? ? ? ?].
    unfold set_users, percpu_ref_put, percpu_ref_get. simpl.
    repeat f_equal. lia. }
  rewrite Hc0. unfold store_ioctx. destruct mm as [tb]. simpl in *.
  rewrite Ht. simpl. rewrite list_insert_id by exact Hs. reflexivity.
Qed.

(** X17.  [io_cancel] never returns 0.  On a request list in which every
    linked request is on [active_reqs] once, it returns, with
    [-EFAULT] and nothing touched when the key cannot be read, and in
    every case with the registry as before, the reference on [users]
    given back.  It invokes at most one cancel function: that of the
    first active request submitted from [iocb], which is left without a
    cancel function to invoke; its answer is returned, except that the
    answer 0 is returned as [-EINPROGRESS].  When no function is invoked
    the call returns a negative error. *)
Theorem io_cancel_never_returns_zero (run_cancel : Z -> Z -> Z)
  (key_read r : option Z) (ctx_id iocb : Z) (s : ctx_reqs) (mm : mm_struct) :
  reqs_ok s = true ->
  exists ret s' calls,
    io_cancel run_cancel key_read r ctx_id iocb s mm
    = Some (ret, s', mm, calls) /\
    ret <> 0 /\
    (key_read = None -> ret = - EFAULT /\ s' = s /\ calls = []) /\
    (calls = [] -> ret = - EFAULT \/ ret = - EINVAL) /\
    (calls = [] \/
     exists a f key,
       calls = [(a, f)] /\ key_read = Some key /\
       lookup_kiocb s iocb key = Some a /\
       cancel_call s a = Some (a, f) /\ cancel_call s' a = None /\
       ret = (if s32 (run_cancel a f) =? 0 then - EINPROGRESS
              else s32 (run_cancel a f))).
Proof.
  intros Hok. apply reqs_ok_spec in Hok as (Hnd & Hiff).
  assert (HEFAULT : - EFAULT <> 0) by (vm_compute; discriminate).
  assert (HEINVAL : - EINVAL <> 0) by (vm_compute; discriminate).
  assert (HEINPR : - EINPROGRESS <> 0) by (vm_compute; discriminate).
  unfold io_cancel.
  destruct key_read as [key|].
  2:{ exists (- EFAULT), s, []. splits; auto. }
  destruct (lookup_ioctx r ctx_id mm) as [[slot ctx]|] eqn:Hl.
  2:{ exists (- EINVAL), s, []. splits; auto. discriminate. }
  rewrite (store_ioctx_put_get r ctx_id mm slot ctx Hl).
  destruct (lookup_kiocb s iocb key) as [a|] eqn:Hk.
  2:{ cbn [obind]. replace (- EINVAL =? 0) with false by reflexivity.
      exists (- EINVAL), s, []. splits; auto. discriminate. }
  assert (Ha : a ∈ active_reqs s).
  { unfold lookup_kiocb in Hk. destruct (negb (key =? KIOCB_KEY));
      [discriminate|].
    apply find_some in Hk as (Hin & _). apply list_elem_of_In. exact Hin. }
  destruct (proj1 (Hiff a) Ha) as (ra & Hra & _).
  rewrite Hra. cbn [obind].
  destruct (kiocb_cancel_cancelled (run_cancel a) ra) as (ret & Hc & Hret).
  rewrite Hc. cbn [obind].
  assert (Hnone : cancel_call (store_req a (cancelled ra) s) a = None).
  { unfold cancel_call, store_req. cbn [requests].
    rewrite lookup_insert_eq. unfold cancelled.
    destruct (ki_cancel ra) eqn:Hkc; simpl; rewrite ?Hkc; reflexivity. }
  destruct (ki_cancel ra) as [|f|] eqn:Hkc.
  - subst ret. replace (- EINVAL =? 0) with false by reflexivity.
    eexists _, _, _. split; [reflexivity|]. splits; auto. discriminate.
  - subst ret. eexists _, _, _. split; [reflexivity|]. split.
    { destruct (Z.eqb_spec (s32 (run_cancel a f)) 0); assumption. }
    split; [discriminate|]. split; [discriminate|].
    right. exists a, f, key. splits; auto.
    unfold cancel_call. rewrite Hra, Hkc. reflexivity.
  - subst ret. replace (- EINVAL =? 0) with false by reflexivity.
    eexists _, _, _. split; [reflexivity|]. splits; auto. discriminate.
Qed.

(** X18.  [aio_thread_fn] hands no restart code to [aio_complete].  It
    returns on a well-formed context, having published one completion
    whose result is [-EINTR] when the request was cancelled before the
    worker took it, in which case the work function is not run; and
    otherwise the answer of the work function, with each of the four
    restart codes replaced by [-EINTR].  A request whose cancel function
    was the early one has the late one installed when the work function
    runs; a cancelled request stays cancelled. *)
Theorem aio_thread_fn_completes (early late : Z) (k : nat) (work_ret : Z)
  (iocb : aio_kiocb) (c : kioctx) :
  config_ok K = true -> ring_ok K c = true -> counters_ok c = true ->
  (k < length (cpu c))%nat ->
  reqs_total c + completed_events c + 1 < 2 ^ 31 ->
  let pos := tail c + AIO_EVENTS_OFFSET K in
  exists run ret iocb1 c' tr,
    aio_thread_fn K early late k work_ret iocb c
    = Some (run, ret, iocb1, c', tr) /\
    is_restart ret = false /\
    (run = false <-> ki_cancel iocb = KIOCB_CANCELLED) /\
    (run = false -> ret = - EINTR /\ ki_cancel iocb1 = KIOCB_CANCELLED) /\
    (run = true ->
     ret = (if is_restart (to_long K work_ret) then - EINTR
            else to_long K work_ret) /\
     (ki_cancel iocb = CANCEL_FN early -> ki_cancel iocb1 = CANCEL_FN late) /\
     (ki_cancel iocb <> CANCEL_FN early -> ki_cancel iocb1 = ki_cancel iocb)) /\
    ring_events c' !! (pos / AIO_EVENTS_PER_PAGE K,
                       pos mod AIO_EVENTS_PER_PAGE K)
    = Some {| ev_obj := u64 (ulong K (ki_user_iocb iocb));
              ev_data := ki_user_data iocb; ev_res := ret; ev_res2 := 0 |} /\
    tail c' = (tail c + 1) mod nr_events c.
Proof.
  intros Hc Hr Hok Hk Hsum pos. unfold aio_thread_fn, cmpxchg.
  set (word := if cancel_word_eqb (ki_cancel iocb) (CANCEL_FN early)
               then CANCEL_FN late else ki_cancel iocb).
  set (run := negb (cancel_word_eqb (ki_cancel iocb) KIOCB_CANCELLED)).
  set (ret0 := if run then to_long K work_ret else - EINTR).
  set (ret := if is_restart ret0 then - EINTR else ret0).
  destruct (aio_complete_ok K k (set_ki_cancel word iocb) ret 0 c Hc Hr Hok
              Hk Hsum)
    as (c' & m & Heq & _ & _ & _ & _ & _ & _ & _ & _ & Htl & _ & Hev).
  rewrite Heq. cbn [obind]. eexists _, _, _, _, _. split; [reflexivity|].
  assert (Hrun : run = false <-> ki_cancel iocb = KIOCB_CANCELLED).
  { unfold run. rewrite negb_false_iff. apply cancel_word_eqb_eq. }
  split.
  { unfold ret. destruct (is_restart ret0) eqn:E; [reflexivity|exact E]. }
  split; [exact Hrun|]. split.
  { intros Hf. unfold ret, ret0. rewrite Hf.
    split; [reflexivity|]. apply Hrun in Hf. unfold word.
    cbn [ki_cancel set_ki_cancel]. rewrite Hf. reflexivity. }
  split.
  { intros Ht. unfold ret, ret0. rewrite Ht. split; [reflexivity|].
    cbn [ki_cancel set_ki_cancel]. unfold word. split.
    - intros ->. rewrite cancel_word_eqb_refl. reflexivity.
    - intros Hne.
      destruct (cancel_word_eqb (ki_cancel iocb) (CANCEL_FN early)) eqn:E;
        [|reflexivity].
      apply cancel_word_eqb_eq in E. contradiction. }
  split; [|exact Htl].
  rewrite Hev. apply lookup_insert_eq.
Qed.

(** X19.  A request cancelled before a worker takes it is never worked
    on.  With threads in use, [aio_thread_queue_iocb] answers
    [-EIOCBQUEUED] and installs the early cancel function; a
    [kiocb_cancel] of the request then answers 0, having invoked that
    function alone; and [aio_thread_fn], run afterwards, does not run the
    work function and completes the request with [-EINTR].  A further
    [kiocb_cancel] answers [-EINVAL].  Without threads
    [aio_thread_queue_iocb] answers [-EINVAL] and leaves the request
    alone. *)
Theorem cancelled_before_worker_runs (early late : Z) (task : option Z)
  (a : Z) (r : aio_kiocb) (s : ctx_reqs) (k : nat) (work_ret : Z)
  (c : kioctx) :
  config_ok K = true -> ring_ok K c = true -> counters_ok c = true ->
  (k < length (cpu c))%nat ->
  reqs_total c + completed_events c + 1 < 2 ^ 31 ->
  reqs_ok s = true -> requests s !! a = Some r ->
  (aio_may_use_threads K = false ->
   aio_thread_queue_iocb K early a s = Some (- EINVAL, s)) /\
  (aio_may_use_threads K = true ->
   exists s1 r1 r2 c' tr,
     aio_thread_queue_iocb K early a s = Some (- EIOCBQUEUED, s1) /\
     requests s1 !! a = Some r1 /\ a ∈ active_reqs s1 /\
     kiocb_cancel (thread_cancel early task) r1 = Some (r2, 0, [early]) /\
     aio_thread_fn K early late k work_ret r2 c
     = Some (false, - EINTR, r2, c', tr) /\
     kiocb_cancel (thread_cancel early task) r2 = Some (r2, - EINVAL, [])).
Proof.
  intros Hc Hr Hok Hk Hsum Hs Hreq.
  apply reqs_ok_spec in Hs as (_ & Hiff).
  unfold aio_thread_queue_iocb. split.
  { intros ->. reflexivity. }
  intros ->. cbn [negb]. unfold kiocb_set_cancel_fn. rewrite Hreq.
  cbn [obind].
  set (r1 := set_ki_cancel (CANCEL_FN early) (set_ki_list_next true r)).
  set (r2 := set_ki_cancel KIOCB_CANCELLED r1).
  destruct (aio_complete_ok K k r2 (- EINTR) 0 c Hc Hr Hok Hk Hsum)
    as (c' & m & Heq & _).
  eexists _, r1, r2, c', _. split; [reflexivity|].
  cbn [requests active_reqs].
  split; [apply lookup_insert_eq|]. split.
  { destruct (ki_list_next r) eqn:Hn; cbn [negb].
    - apply Hiff. eauto.
    - apply list_elem_of_here. }
  split.
  { pose proof (kiocb_cancel_spec (thread_cancel early task) r1) as H.
    cbn [ki_cancel r1 set_ki_cancel] in H. rewrite H.
    unfold thread_cancel. rewrite Z.eqb_refl. reflexivity. }
  split.
  { unfold aio_thread_fn, cmpxchg. cbn [ki_cancel r2 set_ki_cancel
      cancel_word_eqb negb]. replace (is_restart (- EINTR)) with false
      by reflexivity. change (set_ki_cancel KIOCB_CANCELLED r2) with r2.
    rewrite Heq. reflexivity. }
  exact (kiocb_cancel_spec (thread_cancel early task) r2).
Qed.

End Requests.

Lemma kiocb_set_cancel_fn_links_once_witness :
  reqs_ok two_reqs = true /\
  exists s',
    kiocb_set_cancel_fn 32 (CANCEL_FN 9) two_reqs = Some s' /\
    reqs_ok s' = true /\ active_reqs s' = [32; 16].
Proof.
  split; [reflexivity|].
  destruct (kiocb_set_cancel_fn_links_once (fun _ => 0) 32 9 zeroed_kiocb
              two_reqs)
    as (s' & r' & H1 & H2 & H3 & _); [reflexivity | reflexivity |].
  exists s'. split; [exact H1|]. split; [exact H2|exact H3].
Defined.

Lemma free_ioctx_users_cancels_each_once_witness :
  reqs_ok two_reqs = true /\
  exists s' c',
    free_ioctx_users (fun _ _ => 0) two_reqs fresh_ctx
    = Some (s', c', [(16, 7)]) /\
    active_reqs s' = [] /\ ref_dead (reqs c') = true.
Proof.
  split; [reflexivity|].
  destruct (free_ioctx_users_cancels_each_once (fun _ _ => 0) two_reqs
              fresh_ctx)
    as (s' & c' & calls & H1 & H2 & H3 & _ & _ & _ & _ & H4 & _);
    [reflexivity|].
  vm_compute in H3. subst calls.
  exists s', c'. split; [exact H1|]. split; [exact H2|exact H4].
Defined.

Lemma io_cancel_never_returns_zero_witness :
  reqs_ok two_reqs = true /\
  exists s',
    io_cancel (fun _ _ => 0) (Some 0) (Some 0) 0x7f0000000000 0x1000 two_reqs
      one_ctx_mm
    = Some (- EINPROGRESS, s', one_ctx_mm, [(16, 7)]).
Proof.
  split; [reflexivity|].
  destruct (io_cancel_never_returns_zero (fun _ _ => 0) (Some 0) (Some 0)
              0x7f0000000000 0x1000 two_reqs one_ctx_mm)
    as (ret & s' & calls & H1 & _); [reflexivity|].
  assert (E : exists s0,
    io_cancel (fun _ _ => 0) (Some 0) (Some 0) 0x7f0000000000 0x1000 two_reqs
      one_ctx_mm = Some (- EINPROGRESS, s0, one_ctx_mm, [(16, 7)])).
  { eexists. vm_compute. reflexivity. }
  destruct E as (s0 & E). rewrite E in H1. injection H1 as <- <- <-.
  exists s0. exact E.
Defined.

Lemma aio_thread_fn_completes_witness :
  config_ok uniprocessor = true /\ ring_ok uniprocessor fresh_ctx = true /\
  counters_ok fresh_ctx = true /\
  exists iocb1 c' tr,
    aio_thread_fn uniprocessor 1 2 0 (- ERESTARTSYS)
      (set_ki_cancel (CANCEL_FN 1) zeroed_kiocb) fresh_ctx
    = Some (true, - EINTR, iocb1, c', tr) /\
    ki_cancel iocb1 = CANCEL_FN 2.
Proof.
  split; [reflexivity|]. split; [reflexivity|]. split; [reflexivity|].
  destruct (aio_thread_fn_completes uniprocessor 1 2 0 (- ERESTARTSYS)
              (set_ki_cancel (CANCEL_FN 1) zeroed_kiocb) fresh_ctx)
    as (run & ret & iocb1 & c' & tr & H1 & _ & H2 & _ & H3 & _);
    [reflexivity | reflexivity | reflexivity | evaluated | evaluated |].
  assert (Hrun : run = true).
  { destruct run; [reflexivity|].
    discriminate (proj1 H2 eq_refl). }
  destruct (H3 Hrun) as (Hret & Hc & _). subst run.
  vm_compute in Hret. subst ret.
  exists iocb1, c', tr. split; [exact H1|]. apply Hc. reflexivity.
Defined.

Lemma cancelled_before_worker_runs_witness :
  config_ok threaded = true /\ reqs_ok two_reqs = true /\
  exists s1 r1 r2 c' tr,
    aio_thread_queue_iocb threaded 1 32 two_reqs = Some (- EIOCBQUEUED, s1) /\
    requests s1 !! 32 = Some r1 /\
    kiocb_cancel (thread_cancel 1 None) r1 = Some (r2, 0, [1]) /\
    aio_thread_fn threaded 1 2 0 5 r2 fresh_ctx
    = Some (false, - EINTR, r2, c', tr).
Proof.
  split; [reflexivity|]. split; [reflexivity|].
  destruct (cancelled_before_worker_runs threaded 1 2 None 32 zeroed_kiocb
              two_reqs 0 5 fresh_ctx)
    as (_ & H); [reflexivity | reflexivity | reflexivity | evaluated
                | evaluated | reflexivity | reflexivity |].
  destruct (H eq_refl) as (s1 & r1 & r2 & c' & tr & H1 & H2 & _ & H3 & H4 & _).
  exists s1, r1, r2, c', tr. auto.
Defined.
(** ** Waiting for completions *)

Section Waiting.

Variable K : kconfig.

(** One evaluation of the wait condition of [read_events], on a ring
    whose header userspace has left alone, with [i] records taken so
    far. *)
Lemma aio_read_events_spec (copies : list Z) (min_nr nr i : Z) (c : kioctx)
  (m : Z) :
  config_ok K = true -> ring_ok K c = true ->
  Forall (fun x => x = 0) copies -> ring_inv m c ->
  0 <= i <= nr -> nr <= LONG_MAX K ->
  let e := events_in_ring c (ring_head (ring c)) (tail c) in
  let got := Z.min (nr - i) e in
  exists accs,
    aio_read_events K copies min_nr nr i c
    = Some (negb (dead c =? 0) || (min_nr <=? i + got),
            (if negb (dead c =? 0) && (i + got =? 0) then - EINVAL
             else i + got),
            write_ring_head ((ring_head (ring c) + got) mod nr_events c) c,
            accs) /\
    0 <= got /\
    ring_inv m
      (write_ring_head ((ring_head (ring c) + got) mod nr_events c) c) /\
    events_in_ring c ((ring_head (ring c) + got) mod nr_events c) (tail c)
    = e - got /\
    Forall (access_in_ring K c) accs /\
    reads_from K (nr_events c) (ring_head (ring c)) accs = true /\
    acc_total accs = got.
Proof.
  intros Hc Hr Hcp Hinv Hi Hnr e got.
  pose proof (long_max_ge K Hc) as Hlm.
  destruct (page_geometry K Hc) as (P & HP & Hps & _).
  destruct (ring_size K c P Hr Hps HP) as (_ & HN).
  pose proof (Z.mod_pos_bound (tail c - ring_head (ring c)) (nr_events c)
                ltac:(lia)) as He.
  fold (events_in_ring c (ring_head (ring c)) (tail c)) in He. fold e in He.
  assert (Hgot : 0 <= got <= e) by (unfold got; lia).
  unfold aio_read_events.
  rewrite (to_long_id K (nr - i)) by (auto; lia).
  destruct (aio_read_events_ring_ring_inv K copies (nr - i) c m Hc Hr Hcp
              ltac:(lia) Hinv)
    as (c' & accs & Heq & Hc' & Hinv' & He' & Hall & Hrd & Htot).
  fold e in Heq, Hc', He', Htot.
  replace (Z.max 0 (Z.min (nr - i) e)) with got in * by (unfold got; lia).
  rewrite Heq. cbn [obind]. subst c'.
  change (dead (write_ring_head _ c)) with (dead c).
  exists accs. split.
  { destruct (Z.ltb_spec 0 got) as [Hpos|Hzero].
    - rewrite (to_long_id K (i + got)) by (auto; lia).
      destruct (Z.eqb_spec (i + got) 0) as [|_]; [lia|].
      rewrite andb_false_r.
      destruct (negb (dead c =? 0)); cbn [orb];
        [|destruct (Z.ltb_spec got 0); [lia|reflexivity]].
      change (- EINVAL <? 0) with true. reflexivity.
    - assert (got = 0) as Hg by lia. rewrite Hg, !Z.add_0_r.
      destruct (Z.eqb_spec i 0) as [->|Hne].
      + destruct (negb (dead c =? 0)); cbn [orb andb]; [|reflexivity].
        change (- EINVAL <? 0) with true. reflexivity.
      + rewrite andb_false_r.
        destruct (negb (dead c =? 0)); cbn [orb];
        [|destruct (Z.ltb_spec got 0); [lia|reflexivity]].
        change (- EINVAL <? 0) with true. reflexivity. }
  split; [lia|]. split; [exact Hinv'|]. split; [exact He'|]. auto.
Qed.

(** Completions of requests in flight, one after the other, on a ring
    whose header userspace has left alone: each adds one record to the
    ring. *)
Lemma complete_all_spec (ws : list completion) :
  config_ok K = true ->
  forall (c : kioctx) (m : Z),
  ring_ok K c = true -> counters_ok c = true -> ring_inv m c ->
  Forall (fun w => (cp_cpu w < length (cpu c))%nat) ws ->
  Z.of_nat (length ws) <= m ->
  exists c',
    complete_all K ws c = Some c' /\ frame c c' /\
    ring_ok K c' = true /\ counters_ok c' = true /\
    ring_inv (m - Z.of_nat (length ws)) c' /\
    events_in_ring c' (ring_head (ring c')) (tail c')
    = events_in_ring c (ring_head (ring c)) (tail c) + Z.of_nat (length ws).
Proof.
  intros Hc. induction ws as [|w ws IH]; intros c m Hr Hok Hinv Hcpu Hm.
  - exists c. cbn [complete_all length]. split; [reflexivity|].
    split; [apply frame_refl|]. rewrite Z.sub_0_r, Z.add_0_r. auto.
  - destruct (Forall_cons_1 _ _ _ Hcpu) as [Hw Hcpu'].
    cbn [length] in Hm.
    destruct (aio_complete_ring_inv K (cp_cpu w) (cp_iocb w) (cp_res w)
                (cp_res2 w) c m Hc Hr Hok Hw Hinv ltac:(lia))
      as (c1 & tr & Heq1 & Hfr1 & _ & Hr1 & Hok1 & Hinv1 & He1 & _).
    assert (Hlen1 : length (cpu c1) = length (cpu c)) by apply Hfr1.
    destruct (IH c1 (m - 1) Hr1 Hok1 Hinv1) as
      (c' & Heq & Hfr & Hr' & Hok' & Hinv' & He');
      [rewrite Hlen1; exact Hcpu'|lia|].
    exists c'. cbn [complete_all]. rewrite Heq1. cbn [obind].
    split; [exact Heq|]. split; [eapply frame_trans; eassumption|].
    split; [exact Hr'|]. split; [exact Hok'|]. cbn [length]. split.
    + replace (m - Z.of_nat (S (length ws)))
        with (m - 1 - Z.of_nat (length ws)) by lia.
      exact Hinv'.
    + rewrite He', He1. lia.
Qed.

(** The wait of [read_events] for a reaper that has [i] records, fewer
    than [min_nr], on a live context, whatever the schedule by which the
    requests in flight complete while it waits.  It ends at the first
    evaluation at which the records taken and those in the ring reach
    [min_nr], with all of them up to [nr]; when the schedule runs out
    before that, it ends with what there was if the wait can end, and not
    at all if it cannot. *)
Lemma wait_event_spec (expires : bool) (min_nr nr : Z) :
  config_ok K = true -> 1 <= min_nr <= nr -> nr <= LONG_MAX K ->
  forall (wakes : list (list completion)) (copies : list Z) (i : Z)
         (c : kioctx) (m : Z),
  ring_ok K c = true -> counters_ok c = true -> ring_inv m c ->
  dead c = 0 -> Forall (fun x => x = 0) copies ->
  Forall (Forall (fun w => (cp_cpu w < length (cpu c))%nat)) wakes ->
  Z.of_nat (length (concat wakes)) <= m -> 0 <= i < min_nr ->
  let e := events_in_ring c (ring_head (ring c)) (tail c) in
  let total := i + e + Z.of_nat (length (concat wakes)) in
  (min_nr <= total ->
   exists (k : nat) c',
     (k <= length wakes)%nat /\
     min_nr <= i + e + Z.of_nat (length (concat (take k wakes))) /\
     (forall k' : nat, (k' < k)%nat ->
        i + e + Z.of_nat (length (concat (take k' wakes))) < min_nr) /\
     wait_event K wakes expires copies min_nr nr i c
     = Some (Z.min nr (i + e + Z.of_nat (length (concat (take k wakes)))),
             c')) /\
  (total < min_nr -> expires = true ->
   exists c',
     wait_event K wakes expires copies min_nr nr i c = Some (total, c')) /\
  (total < min_nr -> expires = false ->
   wait_event K wakes expires copies min_nr nr i c = None).
Proof.
  intros Hc Hmin Hnr.
  induction wakes as [|ws wakes IH];
    intros copies i c m Hr Hok Hinv Hdead Hcp Hcpu Hm Hi e total;
    destruct (aio_read_events_spec copies min_nr nr i c m Hc Hr Hcp Hinv
                ltac:(lia) Hnr)
      as (accs & Heq & Hgot & Hinv' & He' & _);
    fold e in Heq, Hgot, Hinv', He';
    cbn [wait_event]; rewrite Heq; cbn [obind]; rewrite Hdead;
    cbn [Z.eqb negb orb andb];
    (assert (He : 0 <= e)
       by (unfold e, events_in_ring; destruct Hinv as (Hh & _);
           apply Z.mod_pos_bound; lia)).
  - unfold total. cbn [concat length]. rewrite Z.add_0_r.
    destruct (Z.leb_spec min_nr (i + Z.min (nr - i) e)) as [Hdone|Hnot].
    + split; [|split; intros; lia].
      intros _. exists 0%nat. eexists. split; [lia|].
      cbn [take concat length]. rewrite Z.add_0_r.
      split; [lia|]. split; [intros k' Hk'; lia|].
      f_equal. f_equal. lia.
    + assert (Z.min (nr - i) e = e) as Hg by lia. rewrite Hg in *.
      split; [intros; lia|]. split.
      * intros _ ->. eexists. reflexivity.
      * intros _ ->. reflexivity.
  - destruct (Z.leb_spec min_nr (i + Z.min (nr - i) e)) as [Hdone|Hnot].
    + assert (Hge : min_nr <= i + e) by lia.
      split; [|split; unfold total; intros; lia].
      intros _. exists 0%nat. eexists. split; [lia|].
      cbn [take concat length]. rewrite Z.add_0_r.
      split; [lia|]. split; [intros k' Hk'; lia|].
      f_equal. f_equal. lia.
    + assert (Z.min (nr - i) e = e) as Hg by lia. rewrite Hg in *.
      set (c1 := write_ring_head ((ring_head (ring c) + e) mod nr_events c) c)
        in *.
      assert (Hr1 : ring_ok K c1 = true).
      { apply (ring_ok_frame K c); [exact Hr| |reflexivity].
        unfold frame, c1, write_ring_head; simpl; tauto. }
      assert (Hok1 : counters_ok c1 = true) by exact Hok.
      destruct (Forall_cons_1 _ _ _ Hcpu) as [Hw Hcpu'].
      cbn [concat] in Hm. rewrite length_app in Hm.
      destruct (complete_all_spec ws Hc c1 m Hr1 Hok1 Hinv' Hw ltac:(lia))
        as (c2 & Heq2 & Hfr2 & Hr2 & Hok2 & Hinv2 & He2).
      rewrite Heq2. cbn [obind].
      assert (He1 : events_in_ring c1 (ring_head (ring c1)) (tail c1) = 0).
      { unfold c1, write_ring_head. simpl.
        change (events_in_ring (set_ring _ c)) with (events_in_ring c).
        rewrite He'. lia. }
      rewrite He1 in He2.
      assert (Hd2 : dead c2 = 0).
      { destruct Hfr2 as (_ & Hd & _). rewrite Hd. exact Hdead. }
      assert (Hlen2 : length (cpu c2) = length (cpu c)) by apply Hfr2.
      destruct (IH (drop (length accs) copies) (i + e) c2
                  (m - Z.of_nat (length ws)) Hr2 Hok2 Hinv2 Hd2)
        as (Hsome & Hexp & Hnone).
      { apply Forall_drop. exact Hcp. }
      { rewrite Hlen2. exact Hcpu'. }
      { lia. }
      { lia. }
      rewrite He2 in Hsome, Hexp, Hnone.
      assert (Htot : total = i + e + (0 + Z.of_nat (length ws))
                             + Z.of_nat (length (concat wakes))).
      { unfold total. cbn [concat]. rewrite length_app. lia. }
      rewrite <- Htot in Hsome, Hexp, Hnone.
      split; [|split; assumption].
      intros Hge. destruct (Hsome Hge) as (k & c' & Hk & Hreach & Hbefore & Hw').
      exists (S k), c'. split; [cbn [length]; lia|].
      cbn [take concat]. rewrite length_app.
      split; [lia|]. split.
      * intros [|k'] Hk'.
        -- cbn [take concat length]. lia.
        -- cbn [take concat]. rewrite length_app.
           specialize (Hbefore k' ltac:(lia)). lia.
      * rewrite Hw'. f_equal. f_equal. f_equal. lia.
Qed.

(** X20.  A reaper never waits on a dead context.  Once [dead] is set,
    [read_events] with a readable, valid (or null) timeout returns at
    once whatever [min_nr] asks for, whether or not completions or a
    signal arrive: the number of records it could still take from the
    ring, or [-EINVAL] when it could take none. *)
Theorem dead_context_ends_the_wait (wakes : list (list completion)) (signal : bool)
  (copies : list Z) (min_nr nr : Z) (timeout : timeout_arg) (c : kioctx)
  (m : Z) :
  config_ok K = true -> ring_ok K c = true ->
  Forall (fun x => x = 0) copies -> ring_inv m c ->
  0 <= nr <= LONG_MAX K ->
  dead c <> 0 ->
  timeout <> TimeoutFault -> timeout <> TimeoutInvalid ->
  let got := Z.min nr (events_in_ring c (ring_head (ring c)) (tail c)) in
  exists c',
    read_events K wakes signal copies min_nr nr timeout c
    = Some (if got =? 0 then - EINVAL else got, c') /\
    events_in_ring c' (ring_head (ring c')) (tail c')
    = events_in_ring c (ring_head (ring c)) (tail c) - got.
Proof.
  intros Hc Hr Hcp Hinv Hnr Hdead Hf Hi got.
  destruct (aio_read_events_spec copies min_nr nr 0 c m Hc Hr Hcp Hinv
              ltac:(lia) ltac:(lia))
    as (accs & Heq & Hgot & _ & He' & _).
  rewrite Z.sub_0_r, !Z.add_0_l in Heq. rewrite Z.sub_0_r in Hgot, He'.
  fold got in Heq, Hgot, He'.
  destruct (Z.eqb_spec (dead c) 0) as [|_]; [contradiction|].
  cbn [negb orb andb] in Heq.
  exists (write_ring_head ((ring_head (ring c) + got) mod nr_events c) c).
  split; [|exact He'].
  assert (Hsig : forall r : Z,
             r = (if got =? 0 then - EINVAL else got) ->
             ((r =? 0) && signal) = false).
  { intros r ->. destruct (Z.eqb_spec got 0) as [|Hne]; [reflexivity|].
    destruct (Z.eqb_spec got 0); [contradiction|reflexivity]. }
  destruct timeout as [| | |t]; try contradiction.
  - unfold read_events. change (KTIME_MAX =? 0) with false. cbv iota.
    destruct wakes; cbn [wait_event]; rewrite Heq; cbn [obind];
      rewrite (Hsig _ eq_refl); reflexivity.
  - unfold read_events. destruct (t =? 0).
    + rewrite Heq. cbn [obind]. rewrite (Hsig _ eq_refl). reflexivity.
    + destruct wakes; cbn [wait_event]; rewrite Heq; cbn [obind];
        rewrite (Hsig _ eq_refl); reflexivity.
Qed.

(** X21.  Polling.  On a live context, [read_events] with [min_nr] 0 or
    with a timeout of zero does not wait: whatever completions would
    arrive later, it returns the number of records in the ring, at most
    [nr], and leaves the others in the ring; when that number is 0 and a
    signal is pending it returns [-EINTR]. *)
Theorem read_events_polls (wakes : list (list completion)) (signal : bool)
  (copies : list Z) (min_nr nr : Z) (timeout : timeout_arg) (c : kioctx)
  (m : Z) :
  config_ok K = true -> ring_ok K c = true ->
  Forall (fun x => x = 0) copies -> ring_inv m c ->
  0 <= min_nr <= nr -> nr <= LONG_MAX K ->
  dead c = 0 ->
  timeout <> TimeoutFault -> timeout <> TimeoutInvalid ->
  min_nr = 0 \/ timeout = TimeoutUntil 0 ->
  let got := Z.min nr (events_in_ring c (ring_head (ring c)) (tail c)) in
  exists c',
    read_events K wakes signal copies min_nr nr timeout c
    = Some (if (got =? 0) && signal then - EINTR else got, c') /\
    events_in_ring c' (ring_head (ring c')) (tail c')
    = events_in_ring c (ring_head (ring c)) (tail c) - got /\
    ring_inv m c'.
Proof.
  intros Hc Hr Hcp Hinv Hmin Hnr Hdead Hf Hi Hpoll got.
  destruct (aio_read_events_spec copies min_nr nr 0 c m Hc Hr Hcp Hinv
              ltac:(lia) ltac:(lia))
    as (accs & Heq & Hgot & Hinv' & He' & _).
  rewrite Z.sub_0_r, !Z.add_0_l in Heq.
  rewrite Z.sub_0_r in Hgot, He', Hinv'.
  fold got in Heq, Hgot, He', Hinv'.
  rewrite Hdead in Heq. cbn [Z.eqb negb orb andb] in Heq.
  exists (write_ring_head ((ring_head (ring c) + got) mod nr_events c) c).
  split; [|split; [exact He'|exact Hinv']].
  destruct timeout as [| | |t]; try contradiction.
  - destruct Hpoll as [->|Hp]; [|discriminate].
    unfold read_events. change (KTIME_MAX =? 0) with false. cbv iota.
    destruct (Z.leb_spec 0 got) as [_|]; [|lia].
    destruct wakes; cbn [wait_event]; rewrite Heq; cbn [obind];
      reflexivity.
  - unfold read_events. destruct (Z.eqb_spec t 0) as [->|Hne].
    + rewrite Heq. cbn [obind]. reflexivity.
    + destruct Hpoll as [->|Hp]; [|congruence].
      destruct (Z.leb_spec 0 got) as [_|]; [|lia].
      destruct wakes; cbn [wait_event]; rewrite Heq; cbn [obind];
        reflexivity.
Qed.

(** X22.  Waiting for [min_nr] records.  A reaper that asks for at least
    one record with a null timeout, or one that is not zero, on a live
    context with [e] records in the ring, whatever the schedule by which
    requests in flight complete while it waits, [arrived k] records being
    there at the [k]-th evaluation of the wait condition after the first:
    - when the records that arrive reach [min_nr], it returns at the
      first evaluation at which they do, with all the records there are
      at that time up to [nr]: at least [min_nr] and at most [nr]
      records, and [min (nr, e)] at once when [min_nr <= e];
    - else it returns only if a signal or the timer ends the wait, with
      the records there were, or [-EINTR] when there were none and a
      signal is pending;
    - with neither a signal nor a timer it does not return at all. *)
Theorem read_events_waits_for_min_nr (wakes : list (list completion))
  (signal : bool) (copies : list Z) (min_nr nr : Z) (timeout : timeout_arg)
  (c : kioctx) (m : Z) :
  config_ok K = true -> ring_ok K c = true -> counters_ok c = true ->
  Forall (fun x => x = 0) copies -> ring_inv m c ->
  1 <= min_nr <= nr -> nr <= LONG_MAX K ->
  dead c = 0 ->
  Forall (Forall (fun w => (cp_cpu w < length (cpu c))%nat)) wakes ->
  Z.of_nat (length (concat wakes)) <= m ->
  timeout = TimeoutNull \/
  (exists t, timeout = TimeoutUntil t /\ t <> 0) ->
  let e := events_in_ring c (ring_head (ring c)) (tail c) in
  let arrived := fun k : nat => e + Z.of_nat (length (concat (take k wakes))) in
  let total := arrived (length wakes) in
  let timed := match timeout with TimeoutNull => false
                             | TimeoutUntil t => negb (t =? KTIME_MAX)
                             | _ => false end in
  (min_nr <= total ->
   exists (k : nat) c',
     (k <= length wakes)%nat /\ min_nr <= arrived k /\
     (forall k' : nat, (k' < k)%nat -> arrived k' < min_nr) /\
     (min_nr <= e -> k = 0%nat) /\
     read_events K wakes signal copies min_nr nr timeout c
     = Some (Z.min nr (arrived k), c') /\
     min_nr <= Z.min nr (arrived k) <= nr) /\
  (total < min_nr -> signal || timed = true ->
   exists c',
     read_events K wakes signal copies min_nr nr timeout c
     = Some (if (total =? 0) && signal then - EINTR else total, c')) /\
  (total < min_nr -> signal || timed = false ->
   read_events K wakes signal copies min_nr nr timeout c = None).
Proof.
  intros Hc Hr Hok Hcp Hinv Hmin Hnr Hdead Hcpu Hm Ht e arrived total timed.
  destruct (wait_event_spec (signal || timed) min_nr nr Hc Hmin Hnr wakes
              copies 0 c m Hr Hok Hinv Hdead Hcp Hcpu Hm ltac:(lia))
    as (Hsome & Hexp & Hnone).
  fold e in Hsome, Hexp, Hnone. rewrite !Z.add_0_l in Hexp, Hnone.
  assert (Htot : total = e + Z.of_nat (length (concat wakes))).
  { unfold total, arrived. rewrite firstn_all. reflexivity. }
  rewrite <- Htot in Hexp, Hnone.
  assert (Hre : read_events K wakes signal copies min_nr nr timeout c
                = do '(ret, c') <- wait_event K wakes (signal || timed)
                                     copies min_nr nr 0 c;
                  Some (if (ret =? 0) && signal then - EINTR else ret, c')).
  { destruct Ht as [->|(t & -> & Hne)].
    - unfold read_events. change (KTIME_MAX =? 0) with false. cbv iota.
      change (negb (KTIME_MAX =? KTIME_MAX)) with false. reflexivity.
    - unfold read_events. destruct (Z.eqb_spec t 0); [contradiction|].
      reflexivity. }
  rewrite Hre. split; [|split].
  - intros Hge.
    destruct Hsome as (k & c' & Hk & Hreach & Hbefore & Heq); [lia|].
    exists k, c'. unfold arrived. split; [exact Hk|].
    split; [lia|]. split.
    { intros k' Hk'. specialize (Hbefore k' Hk'). lia. }
    split.
    { intros He0. destruct k as [|k]; [reflexivity|]. exfalso.
      specialize (Hbefore 0%nat ltac:(lia)).
      cbn [take concat length] in Hbefore. lia. }
    rewrite Heq. cbn [obind]. rewrite !Z.add_0_l.
    destruct (Z.eqb_spec
                (Z.min nr (e + Z.of_nat (length (concat (take k wakes)))))
                0); [lia|].
    split; [reflexivity|lia].
  - intros Hlt Hex. destruct (Hexp Hlt Hex) as (c' & Heq).
    exists c'. rewrite Heq. reflexivity.
  - intros Hlt Hex. rewrite (Hnone Hlt Hex). reflexivity.
Qed.

(** X23.  [io_getevents] gives back the reference it took on the context
    on every path that does not read the ring, and leaves the registry as
    it found it: it returns [-EINVAL] when no context answers to
    [ctx_id], when [min_nr] is negative or larger than [nr], and when the
    timeout is not a valid time, and [-EFAULT] when the timeout cannot be
    read. *)
Theorem io_getevents_rejects (wakes : list (list completion)) (signal : bool)
  (copies : list Z) (ring_id_read : option Z) (ctx_id min_nr nr : Z)
  (timeout : timeout_arg) (mm : mm_struct) :
  lookup_ioctx ring_id_read ctx_id mm = None \/
  min_nr < 0 \/ nr < min_nr \/
  timeout = TimeoutFault \/ timeout = TimeoutInvalid ->
  io_getevents K wakes signal copies ring_id_read ctx_id min_nr nr timeout mm
  = Some (match lookup_ioctx ring_id_read ctx_id mm with
          | None => - EINVAL
          | Some _ =>
              if (min_nr <? 0) || (nr <? min_nr) then - EINVAL
              else match timeout with
                   | TimeoutFault => - EFAULT
                   | _ => - EINVAL
                   end
          end, mm).
Proof.
  intros Hcase. unfold io_getevents.
  destruct (lookup_ioctx ring_id_read ctx_id mm) as [[slot ctx]|] eqn:Hl;
    [|reflexivity].
  pose proof (store_ioctx_put_get ring_id_read ctx_id mm slot ctx Hl) as Hput.
  destruct (Z.leb_spec min_nr nr) as [Hle|Hgt];
    destruct (Z.leb_spec 0 min_nr) as [Hge|Hneg];
    destruct (Z.ltb_spec min_nr 0); destruct (Z.ltb_spec nr min_nr);
    try lia; cbn [andb orb obind]; rewrite ?Hput; try reflexivity.
  destruct Hcase as [|[|[|[->| ->]]]]; try discriminate; try lia;
    cbn [read_events obind]; rewrite Hput; reflexivity.
Qed.

End Waiting.

Lemma dead_context_ends_the_wait_witness :
  ring_inv 0 (set_dead 1 one_request_completed) /\
  exists c',
    read_events uniprocessor [] false [] 3 4 TimeoutNull
      (set_dead 1 one_request_completed) = Some (1, c').
Proof.
  split; [evaluated|].
  destruct (dead_context_ends_the_wait uniprocessor [] false [] 3 4
              TimeoutNull (set_dead 1 one_request_completed) 0)
    as (c' & H1 & _);
    [reflexivity | reflexivity | constructor | evaluated | evaluated
    | evaluated | discriminate | discriminate |].
  exists c'. exact H1.
Defined.

Lemma read_events_polls_witness :
  ring_inv 0 one_request_completed /\
  exists c',
    read_events uniprocessor [[completes_16]] false [] 0 4 TimeoutNull
      one_request_completed = Some (1, c') /\
    events_in_ring c' (ring_head (ring c')) (tail c') = 0.
Proof.
  split; [evaluated|].
  destruct (read_events_polls uniprocessor [[completes_16]] false [] 0 4
              TimeoutNull one_request_completed 0)
    as (c' & H1 & H2 & _);
    [reflexivity | reflexivity | constructor | evaluated | lia | evaluated
    | reflexivity | discriminate | discriminate | left; reflexivity |].
  exists c'. split; [exact H1|exact H2].
Defined.

Lemma read_events_waits_for_min_nr_witness :
  ring_inv 2 (ctx_with 0 124 0) /\
  exists c',
    read_events uniprocessor [[completes_16; completes_16]] false [] 1 4
      TimeoutNull (ctx_with 0 124 0) = Some (2, c').
Proof.
  split; [evaluated|].
  destruct (read_events_waits_for_min_nr uniprocessor
              [[completes_16; completes_16]] false
              [] 1 4 TimeoutNull (ctx_with 0 124 0) 2)
    as (H1 & _);
    [reflexivity | reflexivity | reflexivity | constructor | evaluated
    | lia | evaluated | reflexivity
    | repeat constructor | simpl; lia | left; reflexivity |].
  destruct H1 as (k & c' & Hk & Hreach & Hbefore & _ & H1 & _); [evaluated|].
  destruct k as [|[|k]].
  - vm_compute in Hreach. exfalso. apply Hreach. reflexivity.
  - exists c'. exact H1.
  - simpl in Hk. lia.
Defined.

Lemma io_getevents_rejects_witness :
  io_getevents uniprocessor [] false [] (Some 0) 0x7f0000000000 2 1
    TimeoutNull one_ctx_mm = Some (- EINVAL, one_ctx_mm).
Proof.
  apply (io_getevents_rejects uniprocessor [] false [] (Some 0)
           0x7f0000000000 2 1 TimeoutNull one_ctx_mm).
  right. right. left. lia.
Defined.

(** * The end of the process *)

Section Exit.

Variable K : kconfig.

(** A table holds no more contexts than it has slots, and none when every
    slot is empty. *)
Lemma length_registered (t : list (option kioctx)) :
  (length (registered t) <= length t)%nat.
Proof.
  induction t as [|[c|] t IH]; simpl; lia.
Qed.

(** The loop of [exit_aio] after [n] passes over a registry of live
    contexts that know their slots: the first [n] slots are cleared, and
    each context met was killed with its mapping left in place. *)
Lemma exit_aio_loop (wait aio_nr : Z) (t : list (option kioctx)) :
  slots_ok t 0 = true -> Z.of_nat (length t) < 2 ^ 31 ->
  forall n : nat, (n <= length t)%nat ->
  foldl (exit_aio_slot K wait)
    {| x_mm := {| ioctx_table := Some t |}; x_aio_nr := aio_nr;
       x_skipped := 0; x_log := []; x_killed := [] |} (seq 0 n)
  = {| x_mm := {| ioctx_table := Some (replicate n None ++ drop n t) |};
       x_aio_nr := foldl (fun a c => aio_nr_sub K (max_reqs c) a) aio_nr
                     (registered (take n t));
       x_skipped := Z.of_nat n - Z.of_nat (length (registered (take n t)));
       x_log := registered (take n t) ≫=
                  (fun c => [TTableClear (id c); TWakeUpAll;
                             TAioNrSub (max_reqs c); TSetRqWait (Some wait);
                             TKillUsers]);
       x_killed := (fun c => set_users (percpu_ref_kill (users c))
                               (set_rq_wait (Some wait)
                                  (set_dead 1 (set_mmap_size 0 c))))
                   <$> registered (take n t) |}.
Proof.
  intros Hok Hlen. induction n as [|n IH]; intros Hn.
  - cbn [seq foldl take omap length replicate app drop]. reflexivity.
  - rewrite seq_S, foldl_snoc, IH by lia. clear IH.
    destruct (lookup_lt_is_Some_2 t n ltac:(lia)) as (s & Hs).
    unfold registered.
    rewrite (take_S_r t n s Hs), omap_app, foldl_app, length_app, bind_app,
      fmap_app.
    rewrite (drop_S t s n Hs).
    unfold exit_aio_slot. cbn [x_mm ioctx_table mbind option_bind].
    replace ((replicate n None ++ s :: drop (S n) t) !! (0 + n)%nat)
      with (Some s).
    2:{ rewrite lookup_app_r by (rewrite length_replicate; lia).
        rewrite length_replicate.
        replace (0 + n - n)%nat with 0%nat by lia. reflexivity. }
    assert (Hins : <[n := None]> (replicate n None ++ s :: drop (S n) t)
                   = replicate (S n) (@None kioctx) ++ drop (S n) t).
    { rewrite insert_app_r_alt by (rewrite length_replicate; lia).
      rewrite length_replicate, Nat.sub_diag, replicate_S_end, <- app_assoc.
      reflexivity. }
    destruct s as [c|].
    + destruct (slots_ok_lookup t 0 n c Hok Hs) as (Hid & Hdead).
      cbn [Nat.add] in Hid.
      unfold kill_ioctx, atomic_xchg. cbn [k_ctx k_mm k_aio_nr].
      change (dead (set_mmap_size 0 c)) with (dead c). rewrite Hdead.
      cbn [Z.eqb negb]. cbv iota.
      change (mmap_size (set_dead 1 (set_mmap_size 0 c))) with 0.
      cbn [Z.eqb negb]. cbv iota.
      change (id (set_dead 1 (set_mmap_size 0 c))) with (id c).
      change (max_reqs (set_dead 1 (set_mmap_size 0 c))) with (max_reqs c).
      change (users (set_rq_wait (Some wait) (set_dead 1 (set_mmap_size 0 c))))
        with (users c).
      replace (Z.to_nat (id c)) with n by lia.
      unfold table_clear. cbn [ioctx_table fmap option_fmap option_map].
      rewrite Hins.
      cbn [k_ctx k_mm k_aio_nr x_mm x_aio_nr x_skipped x_log x_killed].
      simpl (omap _ [Some c]).
      cbn [foldl length mbind list_bind fmap list_fmap app].
      f_equal. lia.
    + cbn [x_mm x_aio_nr x_skipped x_log x_killed ioctx_table].
      simpl (omap _ [None]).
      cbn [foldl length mbind list_bind fmap list_fmap app].
      rewrite !app_nil_r, Nat.add_0_r.
      assert (Hb : Z.of_nat (length (registered (take n t))) <= Z.of_nat n).
      { pose proof (length_registered (take n t)) as H1.
        pose proof (length_take_le t n ltac:(lia)) as H2. lia. }
      unfold registered in Hb.
      f_equal.
      * rewrite <- Hins. rewrite list_insert_id; [reflexivity|].
        rewrite lookup_app_r by (rewrite length_replicate; lia).
        rewrite length_replicate, Nat.sub_diag. reflexivity.
      * unfold s32. rewrite Z.mod_small by lia. lia.
Qed.

(** X24.  [exit_aio] on a registry of live contexts that know their
    slots, of fewer than 2^31 slots.  It kills every context of the
    registry, in slot order, each with [wait] as its [rq_wait] and
    [mmap_size] set to 0; it never unmaps a ring; it takes the [max_reqs]
    of each off [aio_nr]; it leaves the process without a registry; and
    the count it is left to wait on, while no context has been freed, is
    the number of contexts killed, so that it waits exactly when the
    registry held a context. *)
Theorem exit_aio_kills_every_context (wait aio_nr : Z) (mm : mm_struct) :
  registry_ok mm = true ->
  (forall t, ioctx_table mm = Some t -> Z.of_nat (length t) < 2 ^ 31) ->
  let x := fst (exit_aio K wait aio_nr mm) in
  let ctxs := match ioctx_table mm with
              | Some t => registered t
              | None => []
              end in
  ioctx_table (x_mm x) = None /\
  x_killed x = (fun c => set_users (percpu_ref_kill (users c))
                           (set_rq_wait (Some wait)
                              (set_dead 1 (set_mmap_size 0 c)))) <$> ctxs /\
  (forall base size, TMunmap base size ∉ x_log x) /\
  x_aio_nr x = foldl (fun a c => aio_nr_sub K (max_reqs c) a) aio_nr ctxs /\
  snd (exit_aio K wait aio_nr mm)
  = match ctxs with [] => false | _ :: _ => true end.
Proof.
  intros Hok Hlen. destruct mm as [[t|]].
  2:{ cbn. splits; auto. intros b sz H. inversion H. }
  specialize (Hlen t eq_refl). unfold registry_ok in Hok.
  cbn [ioctx_table] in Hok |- *.
  pose proof (exit_aio_loop wait aio_nr t Hok Hlen (length t) (le_n _))
    as Hloop.
  rewrite firstn_all in Hloop.
  unfold exit_aio. cbn [ioctx_table]. rewrite Hloop.
  cbn [fst snd x_mm x_aio_nr x_skipped x_log x_killed ioctx_table].
  splits; auto.
  - intros b sz Hin. apply list_elem_of_bind in Hin as (c & Hin & _).
    repeat (apply elem_of_cons in Hin as [Hin|Hin]; [discriminate|]).
    inversion Hin.
  - pose proof (length_registered t) as Hle.
    assert (Hpos : 0 <= Z.of_nat (length t)) by lia.
    assert (E1 : s32 (Z.of_nat (length t)) = Z.of_nat (length t)).
    { unfold s32. rewrite Z.mod_small by lia. lia. }
    rewrite E1.
    assert (E2 : s32 (Z.of_nat (length t)
                      - (Z.of_nat (length t)
                         - Z.of_nat (length (registered t))))
                 = Z.of_nat (length (registered t))).
    { unfold s32. rewrite Z.mod_small by lia. lia. }
    rewrite E2. destruct (registered t); reflexivity.
Qed.

End Exit.

Lemma exit_aio_kills_every_context_witness :
  registry_ok one_ctx_mm = true /\
  ioctx_table (x_mm (fst (exit_aio uniprocessor 0x40 8 one_ctx_mm))) = None /\
  x_aio_nr (fst (exit_aio uniprocessor 0x40 8 one_ctx_mm)) = 0 /\
  snd (exit_aio uniprocessor 0x40 8 one_ctx_mm) = true.
Proof.
  split; [reflexivity|].
  destruct (exit_aio_kills_every_context uniprocessor 0x40 8 one_ctx_mm)
    as (H1 & _ & _ & H2 & H3);
    [reflexivity | intros t Ht; injection Ht as <-; evaluated |].
  split; [exact H1|]. split; [exact H2|exact H3].
Defined.

Section RegistryInvariant.

Variable K : kconfig.



End RegistryInvariant.

